(** * Metrics normalisation and impact analysis: a model of
      [dataset-tools/shared_metrics_utils.py]

    The development follows the module top-down in the order in which the
    functions depend on each other: numbers, exceptions, the percent-change
    helpers, the tolerant value coercion of [extract_metrics], the p95
    estimator of [process_latency_buckets], a small model of the pandas
    frames that [calculate_derived_metrics] and [analyze_impact] work on,
    and finally those two functions themselves.

    Numbers.  The source computes with IEEE doubles.  The model keeps the
    three special values (NaN, +inf, -inf) and their propagation rules and
    represents every finite value by an exact rational in lowest terms, so
    [0.95] is [19/20] and no operation rounds or overflows.  Signed zeros are
    not distinguished. *)

From Stdlib Require Import ZArith QArith Qreduction Qcanon Qabs Lqa Lia.
From Stdlib Require Import Bool List String Ascii Permutation Sorted.
Import ListNotations.

Local Open Scope Z_scope.
Local Open Scope Q_scope.

(** ** Exceptions *)

Inductive exn : Type :=
| TypeError
| ValueError
| IndexError
| KeyError
| ZeroDivisionError
| OverflowError
| UnboundLocalError.

Inductive result (A : Type) : Type :=
| OK (a : A)
| Raise (e : exn).

Arguments OK {A} a.
Arguments Raise {A} e.

Definition bind {A B : Type} (c : result A) (k : A -> result B) : result B :=
  match c with
  | OK a => k a
  | Raise e => Raise e
  end.

Notation "'let*' x ':=' c 'in' k" := (bind c (fun x => k))
  (at level 10, x name, c at level 100, k at level 200).

Definition raises {A : Type} (c : result A) : bool :=
  match c with OK _ => false | Raise _ => true end.

(** ** Floating-point values *)

Inductive fl : Type :=
| NaN
| PInf
| NInf
| Fin (q : Q).

(** A finite value is a rational number and the arithmetic on finite
    values is exact: the rounding of a result to a double is not part of
    the model.  The theorems therefore give a computed value as the
    expression the source evaluates, bound it only where rounding keeps
    the bound, or take readings that doubles represent and add up
    exactly.

    A finite result is always stored in lowest terms, which makes the
    equality of computed values the plain equality of [fl]. *)
Definition fin (q : Q) : fl := Fin (Qred q).

Definition of_Z (z : Z) : fl := Fin (inject_Z z).
Definition of_nat (n : nat) : fl := of_Z (Z.of_nat n).

Definition isnan (x : fl) : bool :=
  match x with NaN => true | _ => false end.

Definition notna (x : fl) : bool := negb (isnan x).

Definition Qlt_bool (a b : Q) : bool := negb (Qle_bool b a).

(** [x == y], [x <= y], [x < y] of Python floats: every comparison with
    NaN is false. *)
Definition feqb (x y : fl) : bool :=
  match x, y with
  | PInf, PInf | NInf, NInf => true
  | Fin a, Fin b => Qeq_bool a b
  | _, _ => false
  end.

Definition fleb (x y : fl) : bool :=
  match x, y with
  | NaN, _ | _, NaN => false
  | NInf, _ => true
  | _, PInf => true
  | Fin a, Fin b => Qle_bool a b
  | _, _ => false
  end.

Definition fltb (x y : fl) : bool :=
  match x, y with
  | NaN, _ | _, NaN => false
  | PInf, _ => false
  | _, NInf => false
  | Fin a, Fin b => Qlt_bool a b
  | _, _ => true
  end.

Definition fopp (x : fl) : fl :=
  match x with
  | NaN => NaN
  | PInf => NInf
  | NInf => PInf
  | Fin a => fin (- a)
  end.

Definition fabs (x : fl) : fl :=
  match x with
  | NaN => NaN
  | PInf | NInf => PInf
  | Fin a => fin (Qabs a)
  end.

Definition fadd (x y : fl) : fl :=
  match x, y with
  | NaN, _ | _, NaN => NaN
  | PInf, NInf | NInf, PInf => NaN
  | PInf, _ | _, PInf => PInf
  | NInf, _ | _, NInf => NInf
  | Fin a, Fin b => fin (a + b)
  end.

Definition fsub (x y : fl) : fl := fadd x (fopp y).

(** The infinity with the sign of [a], or NaN when [a] is zero. *)
Definition inf_like (plus : bool) (a : Q) : fl :=
  if Qeq_bool a 0 then NaN
  else if Bool.eqb plus (Qlt_bool 0 a) then PInf else NInf.

Definition fmul (x y : fl) : fl :=
  match x, y with
  | NaN, _ | _, NaN => NaN
  | PInf, PInf | NInf, NInf => PInf
  | PInf, NInf | NInf, PInf => NInf
  | PInf, Fin a | Fin a, PInf => inf_like true a
  | NInf, Fin a | Fin a, NInf => inf_like false a
  | Fin a, Fin b => fin (a * b)
  end.

(** Division the way numpy divides arrays: a zero divisor gives an infinity
    or NaN and nothing is raised. *)
Definition fdiv (x y : fl) : fl :=
  match x, y with
  | NaN, _ | _, NaN => NaN
  | (PInf | NInf), (PInf | NInf) => NaN
  | PInf, Fin b => if Qlt_bool b 0 then NInf else PInf
  | NInf, Fin b => if Qlt_bool b 0 then PInf else NInf
  | Fin _, (PInf | NInf) => Fin 0
  | Fin a, Fin b =>
      if Qeq_bool b 0 then inf_like true a else fin (a / b)
  end.

(** The [/] of Python scalars, which raises on a zero divisor. *)
Definition py_div (x y : fl) : result fl :=
  if feqb y (Fin 0) then Raise ZeroDivisionError else OK (fdiv x y).

(** The builtin [max(a, b)]: the first argument unless the second is
    greater. *)
Definition py_max (a b : fl) : fl := if fltb a b then b else a.

Definition fl_eq_dec (x y : fl) : {x = y} + {x <> y}.
Proof.
  decide equality.
  destruct q as [n d], q0 as [n0 d0].
  destruct (Z.eq_dec n n0), (Pos.eq_dec d d0); subst;
    (left; reflexivity) || (right; congruence).
Defined.

(** ** Percent change and guarded ratio

    [calculate_percent_increase] and [safe_divide], the two scalar helpers
    at the end of the module. *)

Definition calculate_percent_increase (baseline_value new_value : fl)
  : result fl :=
  if isnan baseline_value || isnan new_value || feqb baseline_value (Fin 0)
  then OK NaN
  else
    let* r := py_div new_value baseline_value in
    OK (fmul (fsub r (Fin 1)) (Fin 100)).

Definition safe_divide (numerator denominator : fl) : result fl :=
  if isnan numerator || isnan denominator || feqb denominator (Fin 0)
  then OK NaN
  else py_div numerator denominator.

(** ** Cells of a table

    A cell of an object column is a float (NaN where the value is missing),
    a string, a boolean, or the nested dict that [extract_metrics] stores
    under ["bucket"]: sensor id, then endpoint, then the [le] label, to the
    cumulative count. *)

Definition bucket_dict : Type :=
  list (string * list (string * list (string * fl))).

Inductive obj : Type :=
| ONum (x : fl)
| OStr (s : string)
| OBool (b : bool)
| ODict (d : bucket_dict).

(** ** Builtins that the source calls but does not define

    [float(s)] on a string, [str(v)] and the square root inside the sample
    standard deviation are library code.  They are an interface here: the
    parser may accept whatever it likes, and of the square root only
    [sqrt 0 = 0] is used. *)

Class Builtins : Type := {
  float_of_str : string -> option fl;
  py_str : obj -> string;
  sqrt_q : Q -> Q;
  sqrt_q_zero : forall v : Q, v == 0 -> sqrt_q v == 0
}.

(** ** Values of the JSON snapshots *)

#[warnings="-register-all"]
Inductive json : Type :=
| JNull
| JBool (b : bool)
| JInt (z : Z)
| JFloat (x : fl)
| JStr (s : string)
| JList (items : list json)
| JObj (fields : list (string * json)).

(** The least magnitude of an integer that [float] refuses: halfway between
    the largest double and [2^1024]. *)
Definition float_overflow_threshold : Z := (2 ^ 1024 - 2 ^ 970)%Z.

Definition catch {A : Type} (handled : exn -> bool) (c : result A)
    (fallback : A) : result A :=
  match c with
  | OK a => OK a
  | Raise e => if handled e then OK fallback else Raise e
  end.

Definition IndexError_or_ValueError (e : exn) : bool :=
  match e with IndexError | ValueError => true | _ => false end.

Definition TypeError_or_ValueError (e : exn) : bool :=
  match e with TypeError | ValueError => true | _ => false end.

Section Coercion.
Context {B : Builtins}.

(** The builtin [float(v)] on a value decoded by [json.loads]. *)
Definition py_float (v : json) : result fl :=
  match v with
  | JNull => Raise TypeError
  | JBool b => OK (if b then Fin 1 else Fin 0)
  | JInt z =>
      if (float_overflow_threshold <=? Z.abs z)%Z then Raise OverflowError
      else OK (of_Z z)
  | JFloat x => OK x
  | JStr s =>
      match float_of_str s with
      | Some x => OK x
      | None => Raise ValueError
      end
  | JList _ => Raise TypeError
  | JObj _ => Raise TypeError
  end.

(** The three-way coercion of an entry's ["value"] in [extract_metrics]:
    a list of two or more items is read at position 1, a list of one item
    at position 0, anything else is converted as it is.  Each branch has
    its own [except] clause. *)
Definition coerce_value (raw_value : json) : result fl :=
  match raw_value with
  | JList (_ :: second :: _) =>
      catch IndexError_or_ValueError (py_float second) (Fin 0)
  | JList [only] =>
      catch IndexError_or_ValueError (py_float only) (Fin 0)
  | _ =>
      catch TypeError_or_ValueError (py_float raw_value) (Fin 0)
  end.
End Coercion.

(** ** The p95 estimator of [process_latency_buckets] *)

Record LatencyEstimate : Type := mkEstimate {
  latency_ms : fl;
  is_estimated : bool;
  method : string
}.

(** A bucket is a pair (upper bound, cumulative count); [bucket_bounds] in
    the source is a dict from bounds to counts, here the list of its items
    in insertion order. *)
Definition bucket : Type := (fl * fl)%type.

(** [a < b] on two-element tuples: decided at the first component that
    differs. *)
Definition tuple_ltb (a b : bucket) : bool :=
  if feqb (fst a) (fst b) then fltb (snd a) (snd b)
  else fltb (fst a) (fst b).

Fixpoint insert_sorted (x : bucket) (l : list bucket) : list bucket :=
  match l with
  | [] => [x]
  | y :: rest => if tuple_ltb x y then x :: l else y :: insert_sorted x rest
  end.

(** [sorted(bucket_bounds.items())], as a stable insertion sort.  On bounds
    without NaN every comparison sort returns this list. *)
Definition sorted_items (items : list bucket) : list bucket :=
  fold_left (fun acc x => insert_sorted x acc) items [].

Definition quantile : fl := Fin (19 # 20).

Definition is_inf_bound (b : bucket) : bool := feqb (fst b) PInf.

Definition non_inf (sorted_bounds : list bucket) : list bucket :=
  filter (fun b => negb (is_inf_bound b)) sorted_bounds.

(** [non_inf_buckets[-1][1]] *)
Definition last_count (non_inf_buckets : list bucket) : fl :=
  snd (last non_inf_buckets (NaN, NaN)).

(** [next((count for bound, count in sorted_bounds if bound == inf),
          non_inf_buckets[-1][1])] *)
Definition total_count (sorted_bounds : list bucket) : fl :=
  match find is_inf_bound sorted_bounds with
  | Some (_, count) => count
  | None => last_count (non_inf sorted_bounds)
  end.

(** The interpolated bound, in seconds, inside one pair of buckets. *)
Definition interpolate (target_count : fl) (current next : bucket)
  : result fl :=
  let '(current_bound, current_count) := current in
  let '(next_bound, next_count) := next in
  let* fraction :=
    py_div (fsub target_count current_count)
           (py_max (Fin 1) (fsub next_count current_count)) in
  OK (fadd current_bound (fmul fraction (fsub next_bound current_bound))).

Definition brackets (target_count : fl) (current next : bucket) : bool :=
  fleb (snd current) target_count && fleb target_count (snd next).

(** The [for i in range(len(non_inf_buckets))] loop: the first adjacent pair
    whose counts bracket the target decides; [None] when the loop ends with
    [estimation_done] still false. *)
Fixpoint scan_pairs (target_count : fl) (non_inf_buckets : list bucket)
  : result (option fl) :=
  match non_inf_buckets with
  | current :: ((next :: _) as rest) =>
      if brackets target_count current next then
        let* estimated_latency := interpolate target_count current next in
        OK (Some estimated_latency)
      else scan_pairs target_count rest
  | _ => OK None
  end.

Definition ms (seconds : fl) : fl := fmul seconds (Fin 1000).

Definition estimate_sorted (sorted_bounds : list bucket)
  : result LatencyEstimate :=
  match sorted_bounds with
  | [] => OK (mkEstimate NaN true "no_data")
  | [(bound, _)] =>
      if feqb bound PInf then OK (mkEstimate NaN true "only_inf_bucket")
      else OK (mkEstimate (ms bound) true "single_bucket")
  | _ =>
      let non_inf_buckets := non_inf sorted_bounds in
      if (2 <=? List.length non_inf_buckets)%nat then
        let inf_count := total_count sorted_bounds in
        if fltb (Fin 0) inf_count then
          let target_count := fmul inf_count quantile in
          let* found := scan_pairs target_count non_inf_buckets in
          match found with
          | Some estimated_latency =>
              OK (mkEstimate (ms estimated_latency) false "interpolation")
          | None =>
              let highest_bound := fst (last non_inf_buckets (NaN, NaN)) in
              OK (mkEstimate (ms highest_bound) true "highest_bucket")
          end
        else OK (mkEstimate NaN true "zero_counts")
      else OK (mkEstimate NaN true "insufficient_buckets")
  end.

(** The estimate for one sensor and endpoint, from the dict of its buckets. *)
Definition estimate_latency (bucket_bounds : list bucket)
  : result LatencyEstimate :=
  estimate_sorted (sorted_items bucket_bounds).

(** ** Strings: the tests and splits the source applies to column names *)

Local Open Scope string_scope.

(** [s.startswith(p)] *)
Definition startswith (p s : string) : bool := String.prefix p s.

Fixpoint string_rev_onto (s acc : string) : string :=
  match s with
  | EmptyString => acc
  | String c rest => string_rev_onto rest (String c acc)
  end.

Definition string_rev (s : string) : string := string_rev_onto s EmptyString.

(** [s.endswith(p)] *)
Definition endswith (p s : string) : bool :=
  String.prefix (string_rev p) (string_rev s).

(** [p in s] *)
Fixpoint contains (p s : string) : bool :=
  String.prefix p s ||
  match s with
  | EmptyString => false
  | String _ rest => contains p rest
  end.

(** [s.split("_", maxsplit)] *)
Fixpoint split_max (maxsplit : nat) (s : string) {struct s} : list string :=
  match maxsplit with
  | O => [s]
  | S fewer =>
      match s with
      | EmptyString => [EmptyString]
      | String c rest =>
          if Ascii.eqb c "_" then EmptyString :: split_max fewer rest
          else
            match split_max maxsplit rest with
            | head :: tail => String c head :: tail
            | [] => [String c EmptyString]
            end
      end
  end.

(** [parts[i]] *)
Definition item {A : Type} (i : nat) (parts : list A) : result A :=
  match nth_error parts i with
  | Some a => OK a
  | None => Raise IndexError
  end.

(** ** Series: the column-wise operations of pandas and numpy that the
    source uses, on the values of one float column *)

Local Close Scope string_scope.

Fixpoint zip_with {A B C : Type} (f : A -> B -> C) (xs : list A)
    (ys : list B) : list C :=
  match xs, ys with
  | x :: xs', y :: ys' => f x y :: zip_with f xs' ys'
  | _, _ => []
  end.

Definition fsum (xs : list fl) : fl := fold_left fadd xs (Fin 0).

(** [Series.diff()] *)
Definition diff (xs : list fl) : list fl :=
  match xs with
  | [] => []
  | _ :: later => NaN :: zip_with fsub later xs
  end.

Definition dropna (xs : list fl) : list fl := filter notna xs.

(** [np.mean(values)] on a non-empty list: NaN propagates. *)
Definition np_mean (xs : list fl) : fl := fdiv (fsum xs) (of_nat (List.length xs)).

(** [Series.mean()] and [np.nanmean]: the mean of the values that are not
    NaN, NaN when there is none. *)
Definition nanmean (xs : list fl) : fl :=
  match dropna xs with
  | [] => NaN
  | valid => np_mean valid
  end.

(** [np.max(values)]: NaN propagates. *)
Definition np_max (xs : list fl) : fl :=
  match xs with
  | [] => NaN
  | x :: rest =>
      fold_left (fun m y => if isnan m || isnan y then NaN
                            else if fltb m y then y else m) rest x
  end.

(** [Series.max()] and [np.nanmax] *)
Definition nanmax (xs : list fl) : fl := np_max (dropna xs).

(** [Series.cumsum()]: a NaN stays NaN and does not enter the running sum. *)
Fixpoint cumsum_from (acc : fl) (xs : list fl) : list fl :=
  match xs with
  | [] => []
  | x :: rest =>
      if isnan x then NaN :: cumsum_from acc rest
      else let acc' := fadd acc x in acc' :: cumsum_from acc' rest
  end.

Definition cumsum (xs : list fl) : list fl := cumsum_from (Fin 0) xs.

(** [Series.replace(0, np.nan)] *)
Definition replace_zero_nan (xs : list fl) : list fl :=
  map (fun x => if feqb x (Fin 0) then NaN else x) xs.

(** *** Rolling windows

    [rolling w xs] lists, for every position, the window that ends there:
    the last [w] values up to and including that position.  The rolling
    aggregations of pandas see infinities as missing. *)

Definition lastn {A : Type} (n : nat) (l : list A) : list A :=
  skipn (List.length l - n) l.

Fixpoint rolling_from (w : nat) (seen : list fl) (xs : list fl)
  : list (list fl) :=
  match xs with
  | [] => []
  | x :: rest =>
      let seen' := seen ++ [x] in
      lastn w seen' :: rolling_from w seen' rest
  end.

Definition rolling (w : nat) (xs : list fl) : list (list fl) :=
  rolling_from w [] xs.

Definition is_finite (x : fl) : bool :=
  match x with Fin _ => true | _ => false end.

Definition observations (window : list fl) : list fl :=
  filter is_finite window.

Definition window_mean (min_periods : nat) (window : list fl) : fl :=
  let obs := observations window in
  if (min_periods <=? List.length obs)%nat && (1 <=? List.length obs)%nat
  then np_mean obs else NaN.

Section Std.
Context {B : Builtins}.

Definition fsqrt (x : fl) : fl :=
  match x with
  | Fin v => fin (sqrt_q v)
  | PInf => PInf
  | _ => NaN
  end.

(** Sample standard deviation (one degree of freedom removed) of the
    observations of a window. *)
Definition window_std (min_periods : nat) (window : list fl) : fl :=
  let obs := observations window in
  let n := List.length obs in
  if (min_periods <=? n)%nat && (2 <=? n)%nat then
    let m := np_mean obs in
    let ssq := fsum (map (fun x => fmul (fsub x m) (fsub x m)) obs) in
    fsqrt (fdiv ssq (of_nat (n - 1)))
  else NaN.

Definition rolling_mean (w min_periods : nat) (xs : list fl) : list fl :=
  map (window_mean min_periods) (rolling w xs).

Definition rolling_std (w min_periods : nat) (xs : list fl) : list fl :=
  map (window_std min_periods) (rolling w xs).
End Std.

(** ** Frames

    A [DataFrame] is its index (the row labels) and its columns in order,
    every column holding one cell per row.  Where the source computes with a
    column, the column has to hold floats only: any other cell there is a
    [TypeError] in the model. *)

Definition column : Type := list obj.

Record DataFrame : Type := mkFrame {
  df_index : list Z;
  df_columns : list (string * column)
}.

Definition names (df : DataFrame) : list string := map fst (df_columns df).

Definition nrows (df : DataFrame) : nat := List.length (df_index df).

(** [df.empty] *)
Definition df_empty (df : DataFrame) : bool :=
  (nrows df =? 0)%nat || (List.length (df_columns df) =? 0)%nat.

Fixpoint lookup (name : string) (cols : list (string * column))
  : option column :=
  match cols with
  | [] => None
  | (n, c) :: rest => if String.eqb n name then Some c else lookup name rest
  end.

Definition get_col (name : string) (df : DataFrame) : option column :=
  lookup name (df_columns df).

(** [name in df.columns] *)
Definition has_col (name : string) (df : DataFrame) : bool :=
  match get_col name df with Some _ => true | None => false end.

Fixpoint upsert (name : string) (c : column) (cols : list (string * column))
  : list (string * column) :=
  match cols with
  | [] => [(name, c)]
  | (n, c0) :: rest =>
      if String.eqb n name then (n, c) :: rest
      else (n, c0) :: upsert name c rest
  end.

(** [df[name] = c]: replaces the column in place or appends it. *)
Definition set_col (name : string) (c : column) (df : DataFrame) : DataFrame :=
  mkFrame (df_index df) (upsert name c (df_columns df)).

(** [df.drop(columns=[name])] *)
Definition drop_col (name : string) (df : DataFrame) : DataFrame :=
  mkFrame (df_index df)
          (filter (fun nc => negb (String.eqb (fst nc) name)) (df_columns df)).

Definition as_float (o : obj) : result fl :=
  match o with
  | ONum x => OK x
  | _ => Raise TypeError
  end.

Fixpoint as_floats (c : column) : result (list fl) :=
  match c with
  | [] => OK []
  | o :: rest =>
      let* x := as_float o in
      let* xs := as_floats rest in
      OK (x :: xs)
  end.

Definition of_floats (xs : list fl) : column := map ONum xs.

(** [df[name]] where the source goes on to compute with the values. *)
Definition floats (name : string) (df : DataFrame) : result (list fl) :=
  match get_col name df with
  | Some c => as_floats c
  | None => Raise KeyError
  end.

(** [df[name]] where the source only compares or lists the values. *)
Definition objs (name : string) (df : DataFrame) : result column :=
  match get_col name df with
  | Some c => OK c
  | None => Raise KeyError
  end.

(** The cells a partial assignment starts from: the column as it is, or a
    column of NaN when the assignment creates it. *)
Definition cells (name : string) (df : DataFrame) : column :=
  match get_col name df with
  | Some c => c
  | None => repeat (ONum NaN) (nrows df)
  end.

Definition is_nan_obj (o : obj) : bool :=
  match o with ONum x => isnan x | _ => false end.

(** [a == b] on cells. *)
Definition obj_eqb (a b : obj) : bool :=
  match a, b with
  | ONum x, ONum y => feqb x y
  | OStr s, OStr t => String.eqb s t
  | OBool p, OBool q => Bool.eqb p q
  | OBool p, ONum y | ONum y, OBool p => feqb (if p then Fin 1 else Fin 0) y
  | _, _ => false
  end.

(** [Series.unique()]: the distinct values in order of first appearance,
    all missing cells counting as one value; a dict cannot be hashed. *)
Definition same_value (a b : obj) : bool :=
  obj_eqb a b || (is_nan_obj a && is_nan_obj b).

Fixpoint unique_onto (seen : list obj) (c : column) : result (list obj) :=
  match c with
  | [] => OK seen
  | ODict _ :: _ => Raise TypeError
  | o :: rest =>
      if existsb (same_value o) seen then unique_onto seen rest
      else unique_onto (seen ++ [o]) rest
  end.

Definition unique (c : column) : result (list obj) := unique_onto [] c.

(** [series == value] *)
Definition eq_mask (c : column) (value : obj) : list bool :=
  map (fun o => obj_eqb o value) c.

(** [xs[mask]] *)
Fixpoint select {A : Type} (mask : list bool) (xs : list A) : list A :=
  match mask, xs with
  | true :: m, x :: rest => x :: select m rest
  | false :: m, _ :: rest => select m rest
  | _, _ => []
  end.

(** [df.loc[mask, name] = values]: the selected rows take the values in
    order, the others keep their cell. *)
Fixpoint assign_mask (mask : list bool) (values : list fl) (old : column)
  : column :=
  match mask, old with
  | true :: m, o :: rest =>
      match values with
      | v :: vs => ONum v :: assign_mask m vs rest
      | [] => o :: assign_mask m [] rest
      end
  | false :: m, o :: rest => o :: assign_mask m values rest
  | _, _ => old
  end.

Fixpoint value_at_label (l : Z) (labels : list Z) (values : list fl)
  : option fl :=
  match labels, values with
  | l' :: ls, v :: vs => if Z.eqb l' l then Some v else value_at_label l ls vs
  | _, _ => None
  end.

Fixpoint has_dup (labels : list Z) : bool :=
  match labels with
  | [] => false
  | l :: rest => existsb (Z.eqb l) rest || has_dup rest
  end.

(** [df.loc[labels, name] = series] where [series] carries [labels] as its
    index: every row whose label is listed takes the value the series has
    at that label.  A series with a repeated label cannot be aligned. *)
Definition assign_labels (labels : list Z) (values : list fl)
    (index : list Z) (old : column) : result column :=
  if has_dup labels then Raise ValueError
  else OK (zip_with (fun l o => match value_at_label l labels values with
                                | Some v => ONum v
                                | None => o
                                end) index old).

(** [df.at[label, name] = v] *)
Definition set_at (label : Z) (name : string) (v : obj) (df : DataFrame)
  : DataFrame :=
  set_col name
          (zip_with (fun l o => if Z.eqb l label then v else o)
                    (df_index df) (cells name df))
          df.

(** [sort_values('timestamp')] on the rows of one phase, each row given as
    its label and its timestamp: ascending, missing timestamps last, rows
    with the same timestamp in their original order. *)
Definition ts_before (a b : fl) : bool :=
  match a, b with
  | NaN, _ => false
  | _, NaN => true
  | _, _ => fltb a b
  end.

Fixpoint insert_row (r : Z * fl) (sorted : list (Z * fl)) : list (Z * fl) :=
  match sorted with
  | [] => [r]
  | r' :: rest =>
      if ts_before (snd r) (snd r') then r :: sorted
      else r' :: insert_row r rest
  end.

Definition sort_by_timestamp (rows : list (Z * fl)) : list (Z * fl) :=
  fold_left (fun acc r => insert_row r acc) rows [].

Fixpoint fold_res {A S : Type} (f : A -> S -> result S) (l : list A) (s : S)
  : result S :=
  match l with
  | [] => OK s
  | a :: rest => let* s' := f a s in fold_res f rest s'
  end.

(** ** [process_latency_buckets] *)

Section Derived.
Context {B : Builtins}.

Local Open Scope string_scope.

(** [float('inf') if k == 'inf' else float(k)] *)
Definition le_bound (k : string) : result fl :=
  if String.eqb k "inf" then OK PInf
  else match float_of_str k with
       | Some x => OK x
       | None => Raise ValueError
       end.

(** [d[k] = v] on a dict keyed by floats: an equal key keeps its place and
    takes the new value. *)
Fixpoint dict_put (k v : fl) (d : list bucket) : list bucket :=
  match d with
  | [] => [(k, v)]
  | (k', v') :: rest =>
      if feqb k' k then (k', v) :: rest else (k', v') :: dict_put k v rest
  end.

(** The dict comprehension that builds [bucket_bounds]. *)
Fixpoint bucket_bounds_onto (acc : list bucket)
    (buckets : list (string * fl)) : result (list bucket) :=
  match buckets with
  | [] => OK acc
  | (k, v) :: rest =>
      let* bound := le_bound k in
      bucket_bounds_onto (dict_put bound v acc) rest
  end.

Definition estimate_endpoint (idx : Z) (sensor_id : string)
    (entry : string * list (string * fl)) (df : DataFrame)
  : result DataFrame :=
  let '(endpoint, buckets) := entry in
  let* bucket_bounds := bucket_bounds_onto [] buckets in
  let latency_col := "latency_ms_" ++ endpoint ++ "_" ++ sensor_id in
  let estimation_flag_col := latency_col ++ "_estimated" in
  let estimation_method_col := latency_col ++ "_method" in
  let* e := estimate_latency bucket_bounds in
  let df := set_at idx latency_col (ONum (latency_ms e)) df in
  let df := set_at idx estimation_flag_col (OBool (is_estimated e)) df in
  OK (set_at idx estimation_method_col (OStr (method e)) df).

Definition estimate_sensor (idx : Z)
    (entry : string * list (string * list (string * fl))) (df : DataFrame)
  : result DataFrame :=
  fold_res (estimate_endpoint idx (fst entry)) (snd entry) df.

(** One turn of [for idx, row in df.iterrows()]. *)
Definition estimate_row (row : Z * obj) (df : DataFrame)
  : result DataFrame :=
  match snd row with
  | ODict endpoints_by_sensor =>
      fold_res (estimate_sensor (fst row)) endpoints_by_sensor df
  | _ => OK df
  end.

(** [Series.astype(str)] on one cell. *)
Definition astype_str (o : obj) : obj :=
  match o with
  | OStr s => OStr s
  | _ => OStr (py_str o)
  end.

Definition method_columns_as_str (df : DataFrame) : DataFrame :=
  mkFrame (df_index df)
          (map (fun nc => if endswith "_method" (fst nc)
                          then (fst nc, map astype_str (snd nc))
                          else nc)
               (df_columns df)).

Definition process_latency_buckets (df : DataFrame) : result DataFrame :=
  let bucket_cells :=
    match get_col "bucket" df with Some c => c | None => [] end in
  let* df := fold_res estimate_row (combine (df_index df) bucket_cells) df in
  OK (method_columns_as_str df).

(** ** [calculate_derived_metrics], block by block *)

(** Temperature deviations, for one sensor column. *)
Definition abs_difference (a b : string) (df : DataFrame)
  : result column :=
  let* x := floats a df in
  let* y := floats b df in
  OK (of_floats (map fabs (zip_with fsub x y))).

Definition deviations_for (sensor_col : string) (df : DataFrame)
  : result DataFrame :=
  let* sensor_id := item 1 (split_max 1 sensor_col) in
  let gateway_col := "gateway_temp_" ++ sensor_id in
  let true_col := "true_temp_" ++ sensor_id in
  let* df :=
    if has_col gateway_col df then
      let* c := abs_difference sensor_col gateway_col df in
      OK (set_col ("sensor_gateway_dev_" ++ sensor_id) c df)
    else OK df in
  if has_col true_col df then
    let* c := abs_difference sensor_col true_col df in
    let df := set_col ("sensor_true_dev_" ++ sensor_id) c df in
    if has_col gateway_col df then
      let* c := abs_difference gateway_col true_col df in
      OK (set_col ("gateway_true_dev_" ++ sensor_id) c df)
    else OK df
  else OK df.

(** Reporting intervals of one sensor inside one phase. *)
Definition intervals_for_phase (interval_col : string) (phase : obj)
    (df : DataFrame) : result DataFrame :=
  let* phases := objs "phase" df in
  let mask := eq_mask phases phase in
  let labels := select mask (df_index df) in
  if (1 <? List.length labels)%nat then
    let* timestamps := floats "timestamp" df in
    let phase_df := sort_by_timestamp (combine labels (select mask timestamps)) in
    let idx := map fst phase_df in
    let* c := assign_labels idx (diff (map snd phase_df))
                            (df_index df) (cells interval_col df) in
    OK (set_col interval_col c df)
  else OK df.

Definition phases_of (df : DataFrame) : result (list obj) :=
  let* phases := objs "phase" df in
  unique phases.

Definition intervals_for (col : string) (df : DataFrame)
  : result DataFrame :=
  let* sensor_id := item 1 (split_max 1 col) in
  let* phases := phases_of df in
  fold_res (intervals_for_phase ("reporting_interval_" ++ sensor_id))
           phases df.

(** Network rates, for one cumulative byte counter. *)
Definition rate_for (rate_prefix col : string) (df : DataFrame)
  : result DataFrame :=
  let* sensor_id := item 2 (split_max 2 col) in
  let* bytes := floats col df in
  let* timestamps := floats "timestamp" df in
  OK (set_col (rate_prefix ++ sensor_id)
              (of_floats (zip_with fdiv (diff bytes) (diff timestamps)))
              df).

(** Latency in milliseconds and the aggregated response time. *)
Definition is_raw_latency (col : string) : bool :=
  startswith "latency_" col && negb (startswith "latency_ms_" col).

Definition latency_for (col : string) (df : DataFrame)
  : result DataFrame :=
  let parts := split_max 2 col in
  if (3 <=? List.length parts)%nat then
    let* endpoint := item 1 parts in
    let* sensor_id := item 2 parts in
    let ms_col := "latency_ms_" ++ endpoint ++ "_" ++ sensor_id in
    let* df :=
      if has_col ms_col df then OK df
      else
        let* seconds := floats col df in
        OK (set_col ms_col (of_floats (map ms seconds)) df) in
    let* seconds := floats col df in
    let* response := floats "response_time_ms" df in
    OK (set_col "response_time_ms"
                (of_floats
                   (zip_with (fun r x => if notna x then fadd r (ms x) else r)
                             response seconds))
                df)
  else OK df.

Definition latency_block (df : DataFrame) : result DataFrame :=
  let latency_cols := filter is_raw_latency (names df) in
  match latency_cols with
  | [] => OK df
  | _ =>
      let df :=
        if has_col "response_time_ms" df then df
        else set_col "response_time_ms"
                     (of_floats (repeat (Fin 0) (nrows df))) df in
      fold_res latency_for latency_cols df
  end.

(** Rolling statistics of one sensor column.  The three assignments sit
    in one [try]: what was assigned before an exception stays. *)
Fixpoint try_steps (steps : list (DataFrame -> result DataFrame))
    (df : DataFrame) : DataFrame :=
  match steps with
  | [] => df
  | step :: rest =>
      match step df with
      | OK df' => try_steps rest df'
      | Raise _ => df
      end
  end.

Definition roll_mean_step (col : string) (df : DataFrame)
  : result DataFrame :=
  let* x := floats col df in
  OK (set_col (col ++ "_roll_mean") (of_floats (rolling_mean 5 1 x)) df).

Definition roll_std_step (col : string) (df : DataFrame)
  : result DataFrame :=
  let* x := floats col df in
  OK (set_col (col ++ "_roll_std") (of_floats (rolling_std 5 1 x)) df).

Definition zscore (x roll_mean roll_std : list fl) : list fl :=
  map fabs (zip_with fdiv (zip_with fsub x roll_mean)
                          (replace_zero_nan roll_std)).

Definition zscore_step (col : string) (df : DataFrame)
  : result DataFrame :=
  let* x := floats col df in
  let* roll_mean := floats (col ++ "_roll_mean") df in
  let* roll_std := floats (col ++ "_roll_std") df in
  OK (set_col (col ++ "_zscore") (of_floats (zscore x roll_mean roll_std)) df).

Definition rolling_for (col : string) (df : DataFrame) : DataFrame :=
  if (5 <=? nrows df)%nat then
    try_steps [roll_mean_step col; roll_std_step col; zscore_step col] df
  else df.

(** Interval stability of one sensor. *)
Definition count_true (mask : list bool) : nat :=
  List.length (filter (fun b => b) mask).

Definition stability_for_phase (interval_col stability_col : string)
    (phase : obj) (df : DataFrame) : result DataFrame :=
  let* phases := objs "phase" df in
  let phase_mask := eq_mask phases phase in
  if (5 <? count_true phase_mask)%nat then
    let* intervals := floats interval_col df in
    OK (set_col stability_col
                (assign_mask phase_mask
                             (rolling_std 5 2 (select phase_mask intervals))
                             (cells stability_col df))
                df)
  else OK df.

Definition stability_for (sensor_id : string) (df : DataFrame)
  : result DataFrame :=
  let interval_col := "reporting_interval_" ++ sensor_id in
  if has_col interval_col df then
    let* phases := phases_of df in
    fold_res (stability_for_phase interval_col
                                  ("interval_stability_" ++ sensor_id))
             phases df
  else OK df.

(** [set(col.split("_", 1)[1] for col in sensor_temp_cols)], listed in
    order of first appearance. *)
Fixpoint sensor_ids_onto (seen : list string) (cols : list string)
  : result (list string) :=
  match cols with
  | [] => OK seen
  | col :: rest =>
      let* sensor_id := item 1 (split_max 1 col) in
      if existsb (String.eqb sensor_id) seen then sensor_ids_onto seen rest
      else sensor_ids_onto (seen ++ [sensor_id]) rest
  end.

(** Cumulative failures, for one failed-request counter. *)
Definition cumulative_for (col : string) (df : DataFrame)
  : result DataFrame :=
  let parts := split_max 2 col in
  if (3 <=? List.length parts)%nat then
    let* endpoint := item 1 parts in
    let* sensor_id := item 2 parts in
    let* failed := floats col df in
    OK (set_col ("cumulative_failures_" ++ endpoint ++ "_" ++ sensor_id)
                (of_floats (cumsum failed)) df)
  else OK df.

(** Everything after the bucket column is gone: the assignments
    [df[...] = ...] that all act on the same frame. *)
Definition derive_columns (df : DataFrame) : result DataFrame :=
  let sensor_temp_cols := filter (startswith "temperature_") (names df) in
  let* df := fold_res deviations_for sensor_temp_cols df in
  let* df := fold_res intervals_for sensor_temp_cols df in
  let network_sent_cols := filter (startswith "network_sent_") (names df) in
  let network_received_cols :=
    filter (startswith "network_received_") (names df) in
  let* df := fold_res (rate_for "network_sent_rate_") network_sent_cols df in
  let* df := fold_res (rate_for "network_received_rate_")
                      network_received_cols df in
  let* df := latency_block df in
  let df := fold_left (fun d col => rolling_for col d) sensor_temp_cols df in
  let* sensor_ids := sensor_ids_onto [] sensor_temp_cols in
  let* df := fold_res stability_for sensor_ids df in
  let failed_req_cols := filter (startswith "failed_") (names df) in
  fold_res cumulative_for failed_req_cols df.

Definition estimate_and_drop (df : DataFrame) : result DataFrame :=
  if has_col "bucket" df then
    let* df := process_latency_buckets df in
    OK (drop_col "bucket" df)
  else OK df.

(** The table [calculate_derived_metrics] returns, as a function of the
    table it is given. *)
Definition calculate_derived_metrics (df : DataFrame) : result DataFrame :=
  if df_empty df then OK df
  else
    let* df := estimate_and_drop df in
    derive_columns df.
End Derived.

(** ** [analyze_impact] *)

Record PhaseSummary : Type := mkSummary {
  s_vulnerability_type : string;
  s_fault_type : obj;
  s_phase : obj;
  avg_cpu : fl;
  max_cpu : fl;
  avg_memory : fl;
  max_memory : fl;
  avg_temp_deviation : fl;
  max_temp_deviation : fl;
  avg_latency_ms : fl;
  max_latency_ms : fl;
  avg_reporting_interval : fl;
  interval_stability : fl;
  network_egress_rate : fl;
  measurements : nat
}.

Record RecoveryRatios : Type := mkRecovery {
  recovery_cpu_ratio : fl;
  recovery_memory_ratio : fl;
  recovery_latency_ratio : fl;
  recovery_interval_ratio : fl
}.

Record ImpactRecord : Type := mkImpact {
  i_vulnerability_type : string;
  i_fault_type : obj;
  detection_probability : fl;
  cpu_increase_percent : fl;
  memory_increase_percent : fl;
  temp_deviation_increase_percent : fl;
  latency_increase_percent : fl;
  reporting_interval_change_percent : fl;
  interval_stability_change_percent : fl;
  network_rate_increase_percent : fl;
  recovery : option RecoveryRatios
}.

Section Impact.
Context {B : Builtins}.

Local Open Scope string_scope.

(** [pd.to_numeric(..., errors='coerce')] on one cell. *)
Definition to_numeric (o : obj) : fl :=
  match o with
  | ONum x => x
  | OBool b => if b then Fin 1 else Fin 0
  | OStr s => match float_of_str s with Some x => x | None => NaN end
  | ODict _ => NaN
  end.

Definition is_latency_ms_value (col : string) : bool :=
  startswith "latency_ms_" col
  && negb (endswith "_estimated" col) && negb (endswith "_method" col).

(** The first loop of [analyze_impact], which assigns to columns of the
    frame it was given. *)
Definition coerce_columns (df : DataFrame) : DataFrame :=
  mkFrame (df_index df)
          (map (fun nc =>
                  let '(col, c) := nc in
                  if endswith "_method" col then (col, map astype_str c)
                  else if is_latency_ms_value col
                       then (col, of_floats (map to_numeric c))
                       else nc)
               (df_columns df)).

Definition and_mask (a b : list bool) : list bool := zip_with andb a b.

(** [[f(phase_df[col]) for col in cols]] on float columns. *)
Fixpoint per_column (f : list fl -> fl) (mask : list bool)
    (cols : list string) (df : DataFrame) : result (list fl) :=
  match cols with
  | [] => OK []
  | col :: rest =>
      let* x := floats col df in
      let* others := per_column f mask rest df in
      OK (f (select mask x) :: others)
  end.

(** The same where every cell first goes through [pd.to_numeric]. *)
Fixpoint per_numeric_column (f : list fl -> fl) (mask : list bool)
    (cols : list string) (df : DataFrame) : result (list fl) :=
  match cols with
  | [] => OK []
  | col :: rest =>
      let* c := objs col df in
      let* others := per_numeric_column f mask rest df in
      OK (f (map to_numeric (select mask c)) :: others)
  end.

Definition drop_missing (c : column) : column :=
  filter (fun o => negb (is_nan_obj o)) c.

(** Means of the cleaned values of each column, leaving out the columns
    with nothing left after [clean]. *)
Fixpoint cleaned_means (clean : list fl -> list fl) (mask : list bool)
    (cols : list string) (df : DataFrame) : result (list fl) :=
  match cols with
  | [] => OK []
  | col :: rest =>
      let* c := objs col df in
      let* others := cleaned_means clean mask rest df in
      let valid := clean (map to_numeric (drop_missing (select mask c))) in
      match valid with
      | [] => OK others
      | _ => OK (nanmean valid :: others)
      end
  end.

Definition positive_only (xs : list fl) : list fl :=
  filter (fltb (Fin 0)) xs.

Definition genuine_intervals (xs : list fl) : list fl :=
  filter (fun x => fltb x (Fin 30)) (positive_only xs).

Definition or_nan (f : list fl -> fl) (xs : list fl) : fl :=
  match xs with
  | [] => NaN
  | _ => f xs
  end.

(** The summary row of one fault type and phase; [None] when no row of
    the table belongs to the pair. *)
Definition summarize_phase (vulnerability_type : string)
    (df : DataFrame) (fault phase : obj) : result (option PhaseSummary) :=
  let* faults := objs "vulnerability_type" df in
  let* phases := objs "phase" df in
  let mask := and_mask (eq_mask faults fault) (eq_mask phases phase) in
  if (count_true mask =? 0)%nat then OK None
  else
    let cols := names df in
    let cpu_cols := filter (startswith "cpu_") cols in
    let mem_cols := filter (startswith "memory_") cols in
    let temp_dev_cols := filter (contains "true_dev_") cols in
    let latency_ms_cols := filter is_latency_ms_value cols in
    let reporting_interval_cols :=
      filter (startswith "reporting_interval_") cols in
    let interval_stability_cols :=
      filter (startswith "interval_stability_") cols in
    let network_rate_cols :=
      filter (fun col => contains "network_sent_rate_" col
                         || contains "network_received_rate_" col) cols in
    let* cpu_avg := per_column nanmean mask cpu_cols df in
    let* cpu_max := per_column nanmax mask cpu_cols df in
    let* mem_avg := per_column nanmean mask mem_cols df in
    let* mem_max := per_column nanmax mask mem_cols df in
    let* dev_avg := per_column nanmean mask temp_dev_cols df in
    let* dev_max := per_column nanmax mask temp_dev_cols df in
    let* latency_avg := per_numeric_column nanmean mask latency_ms_cols df in
    let* latency_max := per_numeric_column nanmax mask latency_ms_cols df in
    let* latency_avg := 
      match latency_avg with
      | [] => if has_col "response_time_ms" df
              then per_numeric_column nanmean mask ["response_time_ms"] df
              else OK []
      | _ => OK latency_avg
      end in
    let* latency_max :=
      match latency_max with
      | [] => if has_col "response_time_ms" df
              then per_numeric_column nanmax mask ["response_time_ms"] df
              else OK []
      | _ => OK latency_max
      end in
    let* avg_interval :=
      cleaned_means genuine_intervals mask reporting_interval_cols df in
    let* stability_metric :=
      cleaned_means (fun xs => xs) mask interval_stability_cols df in
    let* network_rates :=
      cleaned_means positive_only mask
                    (filter (contains "sent_rate") network_rate_cols) df in
    OK (Some {|
      s_vulnerability_type := vulnerability_type;
      s_fault_type := fault;
      s_phase := phase;
      avg_cpu := or_nan np_mean cpu_avg;
      max_cpu := or_nan np_max cpu_max;
      avg_memory := or_nan np_mean mem_avg;
      max_memory := or_nan np_max mem_max;
      avg_temp_deviation := or_nan np_mean dev_avg;
      max_temp_deviation := or_nan np_max dev_max;
      avg_latency_ms := or_nan nanmean latency_avg;
      max_latency_ms := or_nan nanmax latency_max;
      avg_reporting_interval := or_nan np_mean avg_interval;
      interval_stability := or_nan np_mean stability_metric;
      network_egress_rate := or_nan np_mean network_rates;
      measurements := count_true mask
    |}).

(** The two nested loops that fill [summary]. *)
Fixpoint summarize_phases (vulnerability_type : string) (df : DataFrame)
    (fault : obj) (phases : list obj) : result (list PhaseSummary) :=
  match phases with
  | [] => OK []
  | phase :: rest =>
      let* row := summarize_phase vulnerability_type df fault phase in
      let* rows := summarize_phases vulnerability_type df fault rest in
      OK (match row with Some r => r :: rows | None => rows end)
  end.

Fixpoint summarize (vulnerability_type : string) (df : DataFrame)
    (fault_types phases : list obj) : result (list PhaseSummary) :=
  match fault_types with
  | [] => OK []
  | fault :: rest =>
      let* rows := summarize_phases vulnerability_type df fault phases in
      let* more := summarize vulnerability_type df rest phases in
      OK (rows ++ more)%list
  end.

(** [summary_df[(summary_df["fault_type"] == fault)
                & (summary_df["phase"] == phase)]] *)
Definition summary_rows (summary_df : list PhaseSummary) (fault : obj)
    (phase : string) : list PhaseSummary :=
  filter (fun r => obj_eqb (s_fault_type r) fault
                   && obj_eqb (s_phase r) (OStr phase)) summary_df.

(** The body of the [try] in the impact loop; [None] is the [continue]. *)
Definition impact_of (vulnerability_type : string)
    (summary_df : list PhaseSummary) (fault : obj)
  : result (option ImpactRecord) :=
  match summary_rows summary_df fault "baseline",
        summary_rows summary_df fault "event" with
  | baseline :: _, event :: _ =>
      let change (field : PhaseSummary -> fl) :=
        calculate_percent_increase (field baseline) (field event) in
      let* cpu := change avg_cpu in
      let* memory := change avg_memory in
      let* temp_deviation := change avg_temp_deviation in
      let* latency := change avg_latency_ms in
      let* reporting_interval := change avg_reporting_interval in
      let* stability := change interval_stability in
      let* network_rate := change network_egress_rate in
      let* recovered :=
        match summary_rows summary_df fault "recovery" with
        | recovery :: _ =>
            let ratio (field : PhaseSummary -> fl) :=
              safe_divide (field recovery) (field baseline) in
            let* cpu_ratio := ratio avg_cpu in
            let* memory_ratio := ratio avg_memory in
            let* latency_ratio := ratio avg_latency_ms in
            let* interval_ratio := ratio avg_reporting_interval in
            OK (Some (mkRecovery cpu_ratio memory_ratio latency_ratio
                                 interval_ratio))
        | [] => OK None
        end in
      OK (Some {|
        i_vulnerability_type := vulnerability_type;
        i_fault_type := fault;
        detection_probability := NaN;
        cpu_increase_percent := cpu;
        memory_increase_percent := memory;
        temp_deviation_increase_percent := temp_deviation;
        latency_increase_percent := latency;
        reporting_interval_change_percent := reporting_interval;
        interval_stability_change_percent := stability;
        network_rate_increase_percent := network_rate;
        recovery := recovered
      |})
  | _, _ => OK None
  end.

(** The impact loop: an exception inside the [try] is printed and the
    fault type is left out. *)
Fixpoint impacts (vulnerability_type : string)
    (summary_df : list PhaseSummary) (fault_types : list obj)
  : list ImpactRecord :=
  match fault_types with
  | [] => []
  | fault :: rest =>
      match impact_of vulnerability_type summary_df fault with
      | OK (Some impact) =>
          impact :: impacts vulnerability_type summary_df rest
      | _ => impacts vulnerability_type summary_df rest
      end
  end.

(** What [analyze_impact] computes from the frame once its columns are
    coerced: the summary table and the impact table. *)
Definition impact_tables (vulnerability_type : string) (df : DataFrame)
  : result (list PhaseSummary * list ImpactRecord) :=
  let* faults := objs "vulnerability_type" df in
  let* fault_types := unique faults in
  let* phases := phases_of df in
  let* summary_df := summarize vulnerability_type df fault_types phases in
  OK (summary_df, impacts vulnerability_type summary_df fault_types).
End Impact.

(** ** Frames as shared objects

    A Python name holds a reference.  The store maps addresses to frames;
    [df.copy()] and [df.drop(...)] allocate, [df[col] = ...] writes to the
    frame the reference points to. *)

Definition ref : Type := nat.
Definition heap : Type := list DataFrame.

Definition alloc (df : DataFrame) (h : heap) : ref * heap :=
  (List.length h, h ++ [df]).

Definition deref (r : ref) (h : heap) : result DataFrame :=
  match nth_error h r with
  | Some df => OK df
  | None => Raise KeyError
  end.

Fixpoint store (r : ref) (df : DataFrame) (h : heap) : heap :=
  match h, r with
  | [], _ => []
  | _ :: rest, O => df :: rest
  | d :: rest, S r' => d :: store r' df rest
  end.

Section Calls.
Context {B : Builtins}.

(** [calculate_derived_metrics(df)] as a call: the reference it returns
    and the store it leaves. *)
Definition calculate_derived_metrics_call (r : ref) (h : heap)
  : result (ref * heap) :=
  let* df := deref r h in
  if df_empty df then OK (r, h)
  else
    let '(copy, h) := alloc df h in
    let* working :=
      if has_col "bucket" df then
        let* estimated := process_latency_buckets df in
        let h := store copy estimated h in
        OK (alloc (drop_col "bucket" estimated) h)
      else OK (copy, h) in
    let '(r', h) := working in
    let* df := deref r' h in
    let* df := derive_columns df in
    OK (r', store r' df h).

(** [analyze_impact(df, output_dir, vulnerability_type)] as a call: the
    two tables it returns and the store it leaves.  Writing the CSV files
    is not modelled.

    The early return for an empty table reads the name [pd].  The
    statement [import pandas as pd] two lines further down makes that name
    local to the function, and it is not bound yet: the early return
    raises [UnboundLocalError]. *)
Definition analyze_impact_call (r : ref) (vulnerability_type : string)
    (h : heap) : result (list PhaseSummary * list ImpactRecord * heap) :=
  let* df := deref r h in
  if df_empty df then Raise UnboundLocalError
  else
    let h := store r (coerce_columns df) h in
    let* df := deref r h in
    let* tables := impact_tables vulnerability_type df in
    OK (fst tables, snd tables, h).

(** The same two tables as a function of the table given. *)
Definition analyze_impact (vulnerability_type : string) (df : DataFrame)
  : result (list PhaseSummary * list ImpactRecord) :=
  if df_empty df then Raise UnboundLocalError
  else impact_tables vulnerability_type (coerce_columns df).
End Calls.

(** * Concrete inputs

    ** An instance of the builtins

    The examples below run the model and so need the builtins to be
    functions: a reader of plain decimals, a printer that only has to give
    some string, and a square root computed to six decimals on integers. *)

Definition digit_value (c : ascii) : option Z :=
  let n := nat_of_ascii c in
  if ((48 <=? n) && (n <=? 57))%nat then Some (Z.of_nat (n - 48)) else None.

(** Reads the digits of [s] onto [acc], counting them. *)
Fixpoint read_digits (s : string) (acc : Z) (count : nat)
  : Z * nat * string :=
  match s with
  | String c rest =>
      match digit_value c with
      | Some d => read_digits rest (10 * acc + d)%Z (S count)
      | None => (acc, count, s)
      end
  | EmptyString => (acc, count, s)
  end.

Definition read_unsigned (s : string) : option Q :=
  let '(whole, n, rest) := read_digits s 0%Z O in
  match n, rest with
  | O, _ => None
  | _, EmptyString => Some (inject_Z whole)
  | _, String "." frac =>
      let '(num, k, rest') := read_digits frac 0%Z O in
      match k, rest' with
      | S _, EmptyString =>
          Some (inject_Z whole + Qmake num (Pos.pow 10 (Pos.of_nat k)))
      | _, _ => None
      end
  | _, _ => None
  end.

Definition read_decimal (s : string) : option fl :=
  match s with
  | "nan"%string => Some NaN
  | "inf"%string => Some PInf
  | "-inf"%string => Some NInf
  | String "-" rest =>
      match read_unsigned rest with
      | Some q => Some (fin (- q))
      | None => None
      end
  | _ =>
      match read_unsigned s with
      | Some q => Some (fin q)
      | None => None
      end
  end.

Definition print_cell (o : obj) : string :=
  match o with
  | ONum NaN => "nan"
  | ONum PInf => "inf"
  | ONum NInf => "-inf"
  | ONum (Fin _) => "<float>"
  | OStr s => s
  | OBool true => "True"
  | OBool false => "False"
  | ODict _ => "<dict>"
  end.

Definition sqrt_6 (v : Q) : Q :=
  Z.sqrt (Qnum v * Zpos (Qden v) * 10 ^ 12) # (Qden v * 10 ^ 6).

Lemma sqrt_6_zero (v : Q) : v == 0 -> sqrt_6 v == 0.
Proof.
  destruct v as [n d]. unfold Qeq, sqrt_6. simpl. intros H.
  assert (n = 0%Z) by lia. subst n. reflexivity.
Qed.

#[export] Instance example_builtins : Builtins := {|
  float_of_str := read_decimal;
  py_str := print_cell;
  sqrt_q := sqrt_6;
  sqrt_q_zero := sqrt_6_zero
|}.

(** * Percent change *)

Lemma feqb_zero_num (d : positive) : feqb (Fin (0 # d)) (Fin 0) = true.
Proof. reflexivity. Qed.

Lemma py_div_nonzero (x y : fl) :
  feqb y (Fin 0) = false -> py_div x y = OK (fdiv x y).
Proof. unfold py_div. intros ->. reflexivity. Qed.

Lemma percent_increase_total (b x : fl) :
  exists v, calculate_percent_increase b x = OK v.
Proof.
  unfold calculate_percent_increase.
  destruct (isnan b || isnan x || feqb b (Fin 0)) eqn:G.
  - exists NaN. reflexivity.
  - apply orb_false_iff in G. destruct G as [_ G].
    rewrite (py_div_nonzero _ _ G). simpl. eexists. reflexivity.
Qed.

Lemma safe_divide_total (n d : fl) : exists v, safe_divide n d = OK v.
Proof.
  unfold safe_divide.
  destruct (isnan n || isnan d || feqb d (Fin 0)) eqn:G.
  - exists NaN. reflexivity.
  - apply orb_false_iff in G. destruct G as [_ G].
    rewrite (py_div_nonzero _ _ G). eexists. reflexivity.
Qed.

(** C2.  [calculate_percent_increase] answers NaN for a baseline of zero
    (whichever way the zero is written) and for a NaN baseline, whatever
    the event value; from 100 to 150 it answers exactly 50; and it always
    returns a value, so the division inside never sees a zero divisor. *)
Theorem percent_change_guarded :
  (forall (d : positive) (x : fl),
      calculate_percent_increase (Fin (0 # d)) x = OK NaN)
  /\ (forall x : fl, calculate_percent_increase NaN x = OK NaN)
  /\ calculate_percent_increase (Fin 100) (Fin 150) = OK (Fin 50)
  /\ (forall b x : fl, exists v, calculate_percent_increase b x = OK v)
  /\ (forall b x : fl,
         calculate_percent_increase b x <> Raise ZeroDivisionError).
Proof.
  split; [|split; [|split; [|split]]].
  - intros d x. unfold calculate_percent_increase.
    change (feqb (Fin (0 # d)) (Fin 0)) with true.
    rewrite orb_true_r. reflexivity.
  - intros x. reflexivity.
  - reflexivity.
  - apply percent_increase_total.
  - intros b x. destruct (percent_increase_total b x) as [v ->]. discriminate.
Qed.

(** * Value coercion *)

Section CoercionFacts.
Context {B : Builtins}.

(** A value that is not a list is never the cause of a [TypeError] or a
    [ValueError]: only an integer too large for a float gets through. *)
Lemma coerce_bare_value (v : json) :
  (forall items, v <> JList items) ->
  (exists x, coerce_value v = OK x)
  \/ (coerce_value v = Raise OverflowError
      /\ exists z, v = JInt z /\ (float_overflow_threshold <= Z.abs z)%Z).
Proof.
  intros Hnl. destruct v; simpl.
  - left. eexists. reflexivity.
  - left. eexists. reflexivity.
  - destruct (float_overflow_threshold <=? Z.abs z)%Z eqn:E.
    + right. split; [reflexivity|]. exists z. split; [reflexivity|].
      apply Z.leb_le. exact E.
    + left. eexists. reflexivity.
  - left. eexists. reflexivity.
  - left. destruct (float_of_str s); eexists; reflexivity.
  - exfalso. eapply Hnl. reflexivity.
  - left. eexists. reflexivity.
Qed.

(** C6.  The value [[t, null]] -- a list whose second item is JSON null --
    makes [float(raw_value[1])] raise [TypeError], which the list branches
    do not catch: the coercion raises instead of giving 0.0, while the very
    same null outside a list is turned into 0.0. *)
Theorem coercion_of_null_in_pair_raises (t : fl) :
  coerce_value (JList [JFloat t; JNull]) = Raise TypeError
  /\ coerce_value (JList [JNull]) = Raise TypeError
  /\ coerce_value JNull = OK (Fin 0).
Proof. repeat split. Qed.
End CoercionFacts.

(** * Order on float values *)

Lemma Qlt_bool_iff (a b : Q) : Qlt_bool a b = true <-> a < b.
Proof.
  unfold Qlt_bool. rewrite negb_true_iff.
  split; intros H.
  - apply Qnot_le_lt. intros L. apply Qle_bool_iff in L. congruence.
  - destruct (Qle_bool b a) eqn:E; [|reflexivity].
    apply Qle_bool_iff in E. exfalso. apply (Qlt_not_le _ _ H E).
Qed.

Lemma Qlt_bool_false (a b : Q) : Qlt_bool a b = false <-> b <= a.
Proof.
  unfold Qlt_bool. rewrite negb_false_iff. apply Qle_bool_iff.
Qed.




Lemma fleb_trans (x y z : fl) :
  fleb x y = true -> fleb y z = true -> fleb x z = true.
Proof.
  destruct x, y, z; simpl; try congruence.
  rewrite !Qle_bool_iff. apply Qle_trans.
Qed.

Lemma feqb_fleb (x y : fl) : feqb x y = true -> fleb x y = true.
Proof.
  destruct x, y; simpl; try congruence.
  rewrite Qeq_bool_iff, Qle_bool_iff. intros ->. apply Qle_refl.
Qed.

Lemma feqb_sym (x y : fl) : feqb x y = feqb y x.
Proof.
  destruct x, y; simpl; try reflexivity.
  apply eq_true_iff_eq. rewrite !Qeq_bool_iff.
  split; intros H; symmetry; exact H.
Qed.

Lemma fltb_fleb (x y : fl) : fltb x y = true -> fleb x y = true.
Proof.
  destruct x, y; simpl; try congruence.
  rewrite Qlt_bool_iff, Qle_bool_iff. apply Qlt_le_weak.
Qed.

Lemma fltb_false_fleb (x y : fl) :
  isnan x = false -> isnan y = false -> fltb x y = false -> fleb y x = true.
Proof.
  destruct x, y; simpl; try congruence. intros _ _.
  rewrite Qlt_bool_false, Qle_bool_iff. trivial.
Qed.

(** The divisor of the interpolation is never zero. *)
Lemma py_max_one_nonzero (d : fl) : feqb (py_max (Fin 1) d) (Fin 0) = false.
Proof.
  unfold py_max. destruct (fltb (Fin 1) d) eqn:E; [|reflexivity].
  destruct d; simpl in *; try congruence.
  apply Qlt_bool_iff in E.
  destruct (Qeq_bool q 0) eqn:Z; [|reflexivity].
  apply Qeq_bool_iff in Z. rewrite Z in E. discriminate.
Qed.

Lemma interpolate_value (t : fl) (b c b' c' : fl) :
  interpolate t (b, c) (b', c')
  = OK (fadd b (fmul (fdiv (fsub t c) (py_max (Fin 1) (fsub c' c)))
                     (fsub b' b))).
Proof.
  unfold interpolate.
  rewrite (py_div_nonzero _ _ (py_max_one_nonzero _)). reflexivity.
Qed.

(** * Sorting the buckets *)

Lemma insert_sorted_perm (x : bucket) (l : list bucket) :
  Permutation (x :: l) (insert_sorted x l).
Proof.
  induction l as [|y l IH]; simpl.
  - apply Permutation_refl.
  - destruct (tuple_ltb x y).
    + apply Permutation_refl.
    + eapply perm_trans; [apply perm_swap|]. apply perm_skip. exact IH.
Qed.

Lemma fold_insert_perm (items acc : list bucket) :
  Permutation (items ++ acc)
              (fold_left (fun a x => insert_sorted x a) items acc).
Proof.
  revert acc. induction items as [|x items IH]; intros acc; simpl.
  - apply Permutation_refl.
  - eapply perm_trans; [|apply IH].
    eapply perm_trans; [apply Permutation_middle|].
    apply Permutation_app_head. apply insert_sorted_perm.
Qed.

Lemma sorted_items_perm (items : list bucket) :
  Permutation items (sorted_items items).
Proof.
  unfold sorted_items.
  rewrite <- (app_nil_r items) at 1. apply fold_insert_perm.
Qed.

Lemma filter_length_perm {A : Type} (f : A -> bool) (l l' : list A) :
  Permutation l l' ->
  List.length (filter f l) = List.length (filter f l').
Proof.
  induction 1; simpl; try congruence.
  - destruct (f x); simpl; congruence.
  - destruct (f x), (f y); reflexivity.
Qed.

Lemma sorted_items_length (items : list bucket) :
  List.length (sorted_items items) = List.length items.
Proof. symmetry. apply Permutation_length. apply sorted_items_perm. Qed.

Lemma non_inf_sorted_length (items : list bucket) :
  List.length (non_inf (sorted_items items)) = List.length (non_inf items).
Proof.
  symmetry. apply filter_length_perm. apply sorted_items_perm.
Qed.

Lemma sorted_items_single (b : bucket) : sorted_items [b] = [b].
Proof. reflexivity. Qed.

(** * Fewer than two finite buckets *)

Lemma estimate_sorted_insufficient (sb : list bucket) :
  (2 <= List.length sb)%nat ->
  (List.length (non_inf sb) < 2)%nat ->
  estimate_sorted sb = OK (mkEstimate NaN true "insufficient_buckets").
Proof.
  intros Hlen Hfew.
  destruct sb as [|[b1 c1] [|b2 sb]]; simpl in Hlen; try lia.
  unfold estimate_sorted.
  match goal with
  | |- context [(2 <=? ?n)%nat] => destruct (Nat.leb_spec 2 n) as [E|E]
  end.
  - unfold bucket in *. lia.
  - reflexivity.
Qed.

(** C3, as the code has it.  With fewer than two buckets whose bound is not
    +inf: a bucket set of exactly one bucket gives that bucket's bound in
    milliseconds with method [single_bucket] when the bound is not +inf and
    NaN with method [only_inf_bucket] when it is; a bucket set of two or
    more buckets (one finite bucket next to the +inf bucket) gives NaN with
    method [insufficient_buckets].  The estimate is flagged as estimated in
    every one of these cases. *)
Theorem few_finite_buckets (bucket_bounds : list bucket) :
  (List.length (non_inf bucket_bounds) < 2)%nat ->
  (forall bound count,
      bucket_bounds = [(bound, count)] -> feqb bound PInf = false ->
      estimate_latency bucket_bounds
      = OK (mkEstimate (ms bound) true "single_bucket"))
  /\ (forall count,
         bucket_bounds = [(PInf, count)] ->
         estimate_latency bucket_bounds
         = OK (mkEstimate NaN true "only_inf_bucket"))
  /\ ((2 <= List.length bucket_bounds)%nat ->
      estimate_latency bucket_bounds
      = OK (mkEstimate NaN true "insufficient_buckets")).
Proof.
  intros Hfew. split; [|split].
  - intros bound count -> Hb. unfold estimate_latency.
    rewrite sorted_items_single. simpl. rewrite Hb. reflexivity.
  - intros count ->. reflexivity.
  - intros Hlen. unfold estimate_latency.
    apply estimate_sorted_insufficient.
    + rewrite sorted_items_length. exact Hlen.
    + rewrite non_inf_sorted_length. exact Hfew.
Qed.

(** The bucket set of the counterexample to C3: one finite bucket and the
    +inf bucket. *)
Definition finite_beside_inf : list bucket :=
  [(Fin (1 # 2), Fin 3); (PInf, Fin 3)].

Lemma few_finite_buckets_witness :
  (List.length (non_inf finite_beside_inf) < 2)%nat
  /\ estimate_latency finite_beside_inf
     = OK (mkEstimate NaN true "insufficient_buckets").
Proof.
  assert (H : (List.length (non_inf finite_beside_inf) < 2)%nat)
    by (vm_compute; lia).
  split; [exact H|].
  apply (proj2 (proj2 (few_finite_buckets finite_beside_inf H))).
  vm_compute. lia.
Defined.

(** C3 as stated fails: [finite_beside_inf] has exactly one finite-bound
    bucket, 0.5, yet the estimate is not 500 ms by [single_bucket]. *)
Lemma one_finite_bucket_not_single :
  List.length (filter (fun b => is_finite (fst b)) finite_beside_inf) = 1%nat
  /\ estimate_latency finite_beside_inf
     <> OK (mkEstimate (ms (Fin (1 # 2))) true "single_bucket")
  /\ estimate_latency finite_beside_inf
     = OK (mkEstimate NaN true "insufficient_buckets").
Proof.
  split; [reflexivity|]. split; [|reflexivity].
  vm_compute. discriminate.
Qed.

(** * Interpolation between two buckets *)

(** What the code computes inside the pair it picks. *)
Definition interpolated (t : fl) (cur nxt : bucket) : fl :=
  fadd (fst cur)
       (fmul (fdiv (fsub t (snd cur))
                   (py_max (Fin 1) (fsub (snd nxt) (snd cur))))
             (fsub (fst nxt) (fst cur))).


Lemma scan_pairs_step (t : fl) (cur nxt : bucket) (rest : list bucket) :
  scan_pairs t (cur :: nxt :: rest)
  = if brackets t cur nxt then OK (Some (interpolated t cur nxt))
    else scan_pairs t (nxt :: rest).
Proof.
  simpl. destruct (brackets t cur nxt); [|reflexivity].
  destruct cur as [b c], nxt as [b' c'].
  rewrite interpolate_value. reflexivity.
Qed.







(** * The estimate and the finite bounds *)






(** ** Sorted buckets *)

Definition bound_le (a b : bucket) : Prop := fleb (fst a) (fst b) = true.

Definition has_bound (b : bucket) : Prop := isnan (fst b) = false.

Lemma tuple_ltb_le (x y : bucket) : tuple_ltb x y = true -> bound_le x y.
Proof.
  unfold tuple_ltb, bound_le.
  destruct (feqb (fst x) (fst y)) eqn:E; intros H.
  - apply feqb_fleb. exact E.
  - apply fltb_fleb. exact H.
Qed.

Lemma tuple_ltb_ge (x y : bucket) :
  has_bound x -> has_bound y -> tuple_ltb x y = false -> bound_le y x.
Proof.
  unfold tuple_ltb, bound_le, has_bound. intros Hx Hy.
  destruct (feqb (fst x) (fst y)) eqn:E; intros H.
  - apply feqb_fleb. rewrite feqb_sym. exact E.
  - apply fltb_false_fleb; assumption.
Qed.

Lemma bound_le_trans (a b c : bucket) :
  bound_le a b -> bound_le b c -> bound_le a c.
Proof. apply fleb_trans. Qed.

Lemma insert_sorted_sorted (x : bucket) (l : list bucket) :
  has_bound x -> Forall has_bound l ->
  StronglySorted bound_le l -> StronglySorted bound_le (insert_sorted x l).
Proof.
  intros Hx Hl Hs. induction Hs as [|y l Hs IH Hy]; simpl.
  - constructor; constructor.
  - inversion Hl as [|? ? Hgy Hgl]; subst.
    destruct (tuple_ltb x y) eqn:E.
    + constructor; [constructor; assumption|].
      constructor; [apply tuple_ltb_le; exact E|].
      eapply Forall_impl; [|exact Hy].
      intros z Hz. eapply bound_le_trans; [|exact Hz].
      apply tuple_ltb_le. exact E.
    + constructor; [apply IH; exact Hgl|].
      apply (Permutation_Forall (insert_sorted_perm x l)).
      constructor; [|exact Hy].
      apply tuple_ltb_ge; assumption.
Qed.

Lemma fold_insert_sorted (items acc : list bucket) :
  Forall has_bound items -> Forall has_bound acc ->
  StronglySorted bound_le acc ->
  StronglySorted bound_le (fold_left (fun a x => insert_sorted x a) items acc).
Proof.
  revert acc. induction items as [|x items IH]; intros acc Hi Ha Hs; simpl.
  - exact Hs.
  - inversion Hi; subst. apply IH; trivial.
    + apply (Permutation_Forall (insert_sorted_perm x acc)).
      constructor; assumption.
    + apply insert_sorted_sorted; assumption.
Qed.

Lemma sorted_items_sorted (items : list bucket) :
  Forall has_bound items -> StronglySorted bound_le (sorted_items items).
Proof.
  intros H. apply fold_insert_sorted; [exact H|constructor|constructor].
Qed.





(** ** Histograms *)








(** ** The scan over adjacent pairs *)











(** * Frames: columns by name *)

Lemma lookup_upsert_same (n : string) (c : column) cols :
  lookup n (upsert n c cols) = Some c.
Proof.
  induction cols as [|[m c0] cols IH]; simpl.
  - rewrite String.eqb_refl. reflexivity.
  - destruct (String.eqb m n) eqn:E; simpl; rewrite E; [reflexivity|exact IH].
Qed.

Lemma lookup_upsert_other (n m : string) (c : column) cols :
  n <> m -> lookup n (upsert m c cols) = lookup n cols.
Proof.
  intros Hne. induction cols as [|[k c0] cols IH]; simpl.
  - destruct (String.eqb m n) eqn:E; [|reflexivity].
    apply String.eqb_eq in E. congruence.
  - destruct (String.eqb k m) eqn:E; simpl.
    + apply String.eqb_eq in E. subst k.
      destruct (String.eqb m n) eqn:E'; [|reflexivity].
      apply String.eqb_eq in E'. congruence.
    + destruct (String.eqb k n); [reflexivity|exact IH].
Qed.

Lemma get_set_same (n : string) (c : column) (df : DataFrame) :
  get_col n (set_col n c df) = Some c.
Proof. apply lookup_upsert_same. Qed.

Lemma get_set_other (n m : string) (c : column) (df : DataFrame) :
  n <> m -> get_col n (set_col m c df) = get_col n df.
Proof. apply lookup_upsert_other. Qed.

Lemma lookup_in (n : string) (c : column) cols :
  lookup n cols = Some c -> In (n, c) cols.
Proof.
  induction cols as [|[m c0] cols IH]; simpl; [discriminate|].
  destruct (String.eqb m n) eqn:E.
  - apply String.eqb_eq in E. intros [= ->]. left. congruence.
  - intros H. right. apply IH. exact H.
Qed.

Lemma lookup_none (n : string) cols :
  lookup n cols = None <-> ~ In n (map fst cols).
Proof.
  induction cols as [|[m c0] cols IH]; simpl.
  - tauto.
  - destruct (String.eqb m n) eqn:E.
    + apply String.eqb_eq in E. split; [discriminate|]. intros H. tauto.
    + apply String.eqb_neq in E. rewrite IH. tauto.
Qed.

Lemma has_col_in (n : string) (df : DataFrame) :
  has_col n df = true <-> In n (names df).
Proof.
  unfold has_col, get_col, names.
  destruct (lookup n (df_columns df)) eqn:E.
  - split; [|reflexivity]. intros _.
    apply lookup_in in E. apply (in_map fst) in E. exact E.
  - split; [discriminate|]. intros H. apply lookup_none in E. contradiction.
Qed.

Lemma has_col_get (n : string) (df : DataFrame) :
  has_col n df = true <-> exists c, get_col n df = Some c.
Proof.
  unfold has_col. destruct (get_col n df).
  - split; [eauto|reflexivity].
  - split; [discriminate|]. intros [c H]. discriminate.
Qed.

Lemma has_set_col (n m : string) (c : column) (df : DataFrame) :
  has_col n (set_col m c df) = (String.eqb n m || has_col n df)%bool.
Proof.
  unfold has_col. destruct (String.eqb n m) eqn:E.
  - apply String.eqb_eq in E. subst. rewrite get_set_same. reflexivity.
  - apply String.eqb_neq in E. rewrite get_set_other by exact E. reflexivity.
Qed.

Lemma index_set_col (m : string) (c : column) (df : DataFrame) :
  df_index (set_col m c df) = df_index df.
Proof. reflexivity. Qed.

Lemma nrows_set_col (m : string) (c : column) (df : DataFrame) :
  nrows (set_col m c df) = nrows df.
Proof. reflexivity. Qed.

(** * Series: lengths *)

Lemma as_floats_of_floats (xs : list fl) : as_floats (of_floats xs) = OK xs.
Proof.
  induction xs as [|x xs IH]; simpl; [reflexivity|].
  rewrite IH. reflexivity.
Qed.

Lemma of_floats_length (xs : list fl) :
  List.length (of_floats xs) = List.length xs.
Proof. apply length_map. Qed.

Lemma zip_with_length {A B C : Type} (f : A -> B -> C) xs ys :
  List.length xs = List.length ys ->
  List.length (zip_with f xs ys) = List.length xs.
Proof.
  revert ys. induction xs as [|x xs IH]; intros [|y ys]; simpl;
    try discriminate; try reflexivity.
  intros [= H]. rewrite IH by exact H. reflexivity.
Qed.

Lemma diff_length (xs : list fl) : List.length (diff xs) = List.length xs.
Proof.
  destruct xs as [|x xs]; simpl; [reflexivity|].
  f_equal. revert x. induction xs as [|y ys IH]; intros x; simpl;
    [reflexivity|]. f_equal. apply IH.
Qed.

(** * Regular tables *)

(** The columns that calculate_derived_metrics never computes with. *)
Definition exempt (name : string) : bool :=
  (String.eqb name "human_time" || String.eqb name "phase"
   || String.eqb name "vulnerability_type" || String.eqb name "bucket"
   || startswith "latency_ms_" name)%bool.

Section Regular.
Context {B : Builtins}.

Definition parses (k : string) : bool :=
  (String.eqb k "inf"
   || match float_of_str k with Some _ => true | None => false end)%bool.

Definition bucket_cell_ok (o : obj) : bool :=
  match o with
  | ODict d =>
      forallb (fun per_sensor =>
                 forallb (fun per_endpoint =>
                            forallb (fun kv => parses (fst kv))
                                    (snd per_endpoint))
                         (snd per_sensor)) d
  | _ => true
  end.

(** A table as the flattener builds it, as far as the calculator depends
    on it: distinct row labels; a timestamp in every row; a phase name in
    every row; floats (NaN where missing) in every column of metrics;
    bucket labels that are numbers or "inf"; and no metric column whose
    name ends like the method columns the estimator adds. *)
Record regular (df : DataFrame) : Prop := {
  reg_labels : NoDup (df_index df);
  reg_time : has_col "timestamp" df = true;
  reg_phase : exists ps, get_col "phase" df = Some (map OStr ps)
                         /\ List.length ps = nrows df;
  reg_numeric : forall n c,
      get_col n df = Some c -> exempt n = false ->
      exists xs, c = of_floats xs /\ List.length xs = nrows df;
  reg_buckets : forall c,
      get_col "bucket" df = Some c ->
      forallb bucket_cell_ok c = true
      /\ forall n, has_col n df = true -> endswith "_method" n = true ->
                   exempt n = true
}.

Lemma regular_floats (df : DataFrame) (n : string) :
  regular df -> has_col n df = true -> exempt n = false ->
  exists xs, floats n df = OK xs /\ get_col n df = Some (of_floats xs)
             /\ List.length xs = nrows df.
Proof.
  intros R H E. apply has_col_get in H. destruct H as [c Hc].
  destruct (reg_numeric df R n c Hc E) as (xs & -> & L).
  exists xs. unfold floats. rewrite Hc, as_floats_of_floats. auto.
Qed.

Lemma regular_timestamp (df : DataFrame) :
  regular df ->
  exists ts, floats "timestamp" df = OK ts
             /\ get_col "timestamp" df = Some (of_floats ts)
             /\ List.length ts = nrows df.
Proof.
  intros R. apply regular_floats; [exact R|apply R|reflexivity].
Qed.

(** [extends W df df']: [df'] is [df] with columns added or replaced, all
    of them under names that [W] accepts. *)
Definition extends (W : string -> bool) (df df' : DataFrame) : Prop :=
  df_index df' = df_index df
  /\ (forall n, W n = false -> get_col n df' = get_col n df)
  /\ (forall n, has_col n df = true -> has_col n df' = true).

Lemma extends_refl W df : extends W df df.
Proof. repeat split; auto. Qed.

Lemma extends_trans W df1 df2 df3 :
  extends W df1 df2 -> extends W df2 df3 -> extends W df1 df3.
Proof.
  intros (I1 & G1 & H1) (I2 & G2 & H2). repeat split.
  - congruence.
  - intros n Hn. rewrite G2, G1; auto.
  - auto.
Qed.

Lemma extends_weaken (W W' : string -> bool) df df' :
  (forall n, W n = true -> W' n = true) ->
  extends W df df' -> extends W' df df'.
Proof.
  intros Hw (I & G & H). repeat split; auto.
  intros n Hn. apply G. destruct (W n) eqn:E; [|reflexivity].
  apply Hw in E. congruence.
Qed.

Lemma extends_set_col W df n c :
  W n = true -> extends W df (set_col n c df).
Proof.
  intros Hw. repeat split.
  - intros m Hm. apply get_set_other. intros ->. congruence.
  - intros m Hm. rewrite has_set_col, Hm. apply orb_true_r.
Qed.

Lemma extends_nrows W df df' : extends W df df' -> nrows df' = nrows df.
Proof. intros (I & _). unfold nrows. rewrite I. reflexivity. Qed.

(** Writing a column of floats under a name other than "phase" and
    "bucket" keeps a table without bucket column regular. *)
Definition plain (df : DataFrame) : Prop :=
  regular df /\ get_col "bucket" df = None.

Lemma plain_set_col df n xs :
  plain df -> List.length xs = nrows df ->
  n <> "phase"%string -> n <> "bucket"%string ->
  plain (set_col n (of_floats xs) df).
Proof.
  intros [R Hb] Hlen Hp Hbk. split.
  - constructor.
    + apply R.
    + rewrite has_set_col. rewrite (reg_time df R). apply orb_true_r.
    + destruct (reg_phase df R) as (ps & Hps & Lps).
      exists ps. rewrite get_set_other by congruence. auto.
    + intros m c Hm Em. destruct (string_dec m n) as [->|Hne].
      * rewrite get_set_same in Hm. injection Hm as <-.
        exists xs. auto.
      * rewrite get_set_other in Hm by exact Hne.
        apply (reg_numeric df R m c Hm Em).
    + intros c Hc. rewrite get_set_other in Hc by congruence. congruence.
  - rewrite get_set_other by congruence. exact Hb.
Qed.
End Regular.

(** * Column names *)

Lemma prefix_app (p s : string) :
  String.prefix p s = true -> exists rest, s = (p ++ rest)%string.
Proof.
  revert s. induction p as [|a p IH]; intros s H.
  - exists s. reflexivity.
  - destruct s as [|b s]; simpl in H; [discriminate|].
    destruct (Ascii.ascii_dec a b) as [->|Hne]; [|discriminate].
    destruct (IH s H) as [rest ->]. exists rest. reflexivity.
Qed.

Lemma prefix_of_app (p s : string) : String.prefix p (p ++ s) = true.
Proof.
  induction p as [|a p IH]; simpl.
  - destruct s; reflexivity.
  - destruct (Ascii.ascii_dec a a); [exact IH|congruence].
Qed.

Lemma startswith_app (p s : string) :
  startswith p s = true -> exists rest, s = (p ++ rest)%string.
Proof. apply prefix_app. Qed.

Lemma string_app_assoc (a b c : string) :
  ((a ++ b) ++ c)%string = (a ++ (b ++ c))%string.
Proof. induction a as [|x a IH]; simpl; [reflexivity|]. rewrite IH. reflexivity. Qed.

Lemma string_app_length (a b : string) :
  String.length (a ++ b) = (String.length a + String.length b)%nat.
Proof. induction a as [|x a IH]; simpl; [reflexivity|]. rewrite IH. reflexivity. Qed.

Lemma string_rev_onto_app (s t acc : string) :
  string_rev_onto (s ++ t) acc = string_rev_onto t (string_rev_onto s acc).
Proof.
  revert acc. induction s as [|a s IH]; intros acc; simpl; [reflexivity|].
  apply IH.
Qed.

Lemma string_rev_onto_acc (s acc : string) :
  string_rev_onto s acc = (string_rev_onto s "" ++ acc)%string.
Proof.
  revert acc. induction s as [|a s IH]; intros acc; simpl; [reflexivity|].
  rewrite IH. rewrite (IH (String a "")).
  rewrite string_app_assoc. reflexivity.
Qed.

Lemma string_rev_length (s : string) :
  String.length (string_rev s) = String.length s.
Proof.
  unfold string_rev. induction s as [|a s IH]; simpl; [reflexivity|].
  rewrite string_rev_onto_acc, string_app_length, IH. simpl. lia.
Qed.

Lemma string_rev_app (s t : string) :
  string_rev (s ++ t) = (string_rev t ++ string_rev s)%string.
Proof.
  unfold string_rev. rewrite string_rev_onto_app.
  apply string_rev_onto_acc.
Qed.

(** [(s + suffix).endswith(suffix)] *)
Lemma endswith_app (suffix s : string) : endswith suffix (s ++ suffix) = true.
Proof.
  unfold endswith. rewrite string_rev_app. apply prefix_of_app.
Qed.

(** * The blocks of calculate_derived_metrics on regular tables *)

Ltac name_neq :=
  let H := fresh in intros H; simpl in H; discriminate H.

Section Blocks.
Context {B : Builtins}.

Lemma fold_res_extends {A : Type} (W : string -> bool)
    (f : A -> DataFrame -> result DataFrame)
    (pre : A -> DataFrame -> Prop) (l : list A) :
  (forall a df df', pre a df -> extends W df df' -> pre a df') ->
  (forall a df, In a l -> plain df -> pre a df ->
     exists df', f a df = OK df' /\ plain df' /\ extends W df df') ->
  forall df, plain df -> (forall a, In a l -> pre a df) ->
  exists df', fold_res f l df = OK df' /\ plain df' /\ extends W df df'.
Proof.
  intros Hpre Hstep. induction l as [|a l IH]; intros df Hp Hall; simpl.
  - exists df. split; [reflexivity|]. split; [exact Hp|apply extends_refl].
  - destruct (Hstep a df) as (df1 & E1 & P1 & X1);
      [left; reflexivity|exact Hp|apply Hall; left; reflexivity|].
    rewrite E1. simpl.
    destruct IH with (df := df1) as (df2 & E2 & P2 & X2).
    + intros b d Hb. apply Hstep. right. exact Hb.
    + exact P1.
    + intros b Hb. eapply Hpre; [|exact X1]. apply Hall. right. exact Hb.
    + exists df2. split; [exact E2|]. split; [exact P2|].
      eapply extends_trans; eassumption.
Qed.

Lemma has_col_extends W df df' n :
  has_col n df = true -> extends W df df' -> has_col n df' = true.
Proof. intros H (_ & _ & K). apply K. exact H. Qed.

Lemma plain_floats df n :
  plain df -> has_col n df = true -> exempt n = false ->
  exists xs, floats n df = OK xs /\ get_col n df = Some (of_floats xs)
             /\ List.length xs = nrows df.
Proof. intros [R _]. apply regular_floats. exact R. Qed.

Lemma plain_timestamp df :
  plain df ->
  exists ts, floats "timestamp" df = OK ts
             /\ get_col "timestamp" df = Some (of_floats ts)
             /\ List.length ts = nrows df.
Proof. intros [R _]. apply regular_timestamp. exact R. Qed.

(** ** Temperature deviations *)

Definition W_dev (n : string) : bool :=
  (startswith "sensor_gateway_dev_" n || startswith "sensor_true_dev_" n
   || startswith "gateway_true_dev_" n)%bool.

Lemma abs_difference_plain df a b :
  plain df -> has_col a df = true -> has_col b df = true ->
  exempt a = false -> exempt b = false ->
  exists xs, abs_difference a b df = OK (of_floats xs)
             /\ List.length xs = nrows df.
Proof.
  intros P Ha Hb Ea Eb.
  destruct (plain_floats df a P Ha Ea) as (x & Fx & _ & Lx).
  destruct (plain_floats df b P Hb Eb) as (y & Fy & _ & Ly).
  unfold abs_difference. rewrite Fx, Fy. simpl.
  eexists. split; [reflexivity|].
  rewrite length_map, zip_with_length; congruence.
Qed.

Lemma split_max_zero (s : string) : split_max 0 s = [s].
Proof. destruct s; reflexivity. Qed.

Lemma temperature_parts (sid : string) :
  item 1 (split_max 1 ("temperature_" ++ sid)) = OK sid.
Proof. simpl. rewrite split_max_zero. reflexivity. Qed.

Lemma deviations_for_plain (col : string) (df : DataFrame) :
  startswith "temperature_" col = true ->
  plain df -> has_col col df = true ->
  exists df', deviations_for col df = OK df' /\ plain df'
              /\ extends W_dev df df'.
Proof.
  intros Hcol P Hc. apply startswith_app in Hcol. destruct Hcol as [sid ->].
  unfold deviations_for. rewrite temperature_parts. cbn [bind].
  set (gw := ("gateway_temp_" ++ sid)%string).
  set (tr := ("true_temp_" ++ sid)%string).
  assert (Et : exempt ("temperature_" ++ sid) = false) by reflexivity.
  assert (Eg : exempt gw = false) by reflexivity.
  assert (Er : exempt tr = false) by reflexivity.
  (* sensor against gateway *)
  assert (S1 : exists df1,
             (if has_col gw df
              then let* c := abs_difference ("temperature_" ++ sid) gw df in
                   OK (set_col ("sensor_gateway_dev_" ++ sid) c df)
              else OK df) = OK df1
             /\ plain df1 /\ extends W_dev df df1).
  { destruct (has_col gw df) eqn:Hg.
    - destruct (abs_difference_plain df _ gw P Hc Hg Et Eg) as (xs & -> & L).
      cbn [bind]. eexists. split; [reflexivity|]. split.
      + apply plain_set_col; [exact P|exact L|name_neq|name_neq].
      + apply extends_set_col. unfold W_dev, startswith.
        rewrite prefix_of_app. reflexivity.
    - exists df. split; [reflexivity|]. split; [exact P|apply extends_refl]. }
  destruct S1 as (df1 & -> & P1 & X1). cbn [bind].
  assert (Hc1 : has_col ("temperature_" ++ sid) df1 = true)
    by (eapply has_col_extends; eassumption).
  destruct (has_col tr df1) eqn:Ht.
  - destruct (abs_difference_plain df1 _ tr P1 Hc1 Ht Et Er) as (xs & -> & L).
    cbn [bind].
    set (df2 := set_col ("sensor_true_dev_" ++ sid) (of_floats xs) df1).
    assert (P2 : plain df2)
      by (apply plain_set_col; [exact P1|exact L|name_neq|name_neq]).
    assert (X2 : extends W_dev df1 df2).
    { apply extends_set_col. unfold W_dev, startswith.
      rewrite prefix_of_app. rewrite orb_true_r. reflexivity. }
    destruct (has_col gw df2) eqn:Hg2.
    + assert (Ht2 : has_col tr df2 = true)
        by (eapply has_col_extends; eassumption).
      destruct (abs_difference_plain df2 gw tr P2 Hg2 Ht2 Eg Er)
        as (ys & -> & L2).
      cbn [bind]. eexists. split; [reflexivity|]. split.
      * apply plain_set_col; [exact P2| |name_neq|name_neq].
        rewrite L2. reflexivity.
      * eapply extends_trans; [exact X1|].
        eapply extends_trans; [exact X2|].
        apply extends_set_col. unfold W_dev, startswith.
        rewrite prefix_of_app. rewrite !orb_true_r. reflexivity.
    + exists df2. split; [reflexivity|]. split; [exact P2|].
      eapply extends_trans; eassumption.
  - exists df1. split; [reflexivity|]. split; [exact P1|exact X1].
Qed.

(** ** Reporting intervals *)

Definition W_int (n : string) : bool := startswith "reporting_interval_" n.

Lemma cells_plain df n :
  plain df -> exempt n = false ->
  exists xs, cells n df = of_floats xs /\ List.length xs = nrows df.
Proof.
  intros [R _] E. unfold cells. destruct (get_col n df) as [c|] eqn:G.
  - apply (reg_numeric df R n c G E).
  - exists (repeat NaN (nrows df)). split.
    + unfold of_floats. rewrite map_repeat. reflexivity.
    + apply repeat_length.
Qed.

Lemma plain_phase df :
  plain df ->
  exists ps, objs "phase" df = OK (map OStr ps)
             /\ List.length ps = nrows df.
Proof.
  intros [R _]. destruct (reg_phase df R) as (ps & G & L).
  exists ps. unfold objs. rewrite G. auto.
Qed.

Lemma unique_onto_strings (ps : list string) (seen : list obj) :
  exists us, unique_onto seen (map OStr ps) = OK us.
Proof.
  revert seen. induction ps as [|p ps IH]; intros seen; simpl.
  - eexists. reflexivity.
  - destruct (existsb (same_value (OStr p)) seen); apply IH.
Qed.

Lemma plain_phases_of df :
  plain df -> exists us, phases_of df = OK us.
Proof.
  intros P. unfold phases_of.
  destruct (plain_phase df P) as (ps & -> & _).
  cbn [bind]. apply unique_onto_strings.
Qed.

Lemma has_dup_false (l : list Z) : NoDup l -> has_dup l = false.
Proof.
  induction 1 as [|x l Hx Hn IH]; simpl; [reflexivity|].
  rewrite IH, orb_false_r.
  destruct (existsb (Z.eqb x) l) eqn:E; [|reflexivity].
  apply existsb_exists in E. destruct E as (y & Hy & Exy).
  apply Z.eqb_eq in Exy. subst y. contradiction.
Qed.

Lemma select_in {A : Type} (mask : list bool) (xs : list A) (x : A) :
  In x (select mask xs) -> In x xs.
Proof.
  revert xs. induction mask as [|b mask IH]; intros [|y xs]; simpl;
    try contradiction.
  - destruct b; contradiction.
  - destruct b; simpl; intros H.
    + destruct H as [H|H]; [left; exact H|right; apply IH; exact H].
    + right. apply IH. exact H.
Qed.

Lemma select_nodup {A : Type} (mask : list bool) (xs : list A) :
  NoDup xs -> NoDup (select mask xs).
Proof.
  revert xs. induction mask as [|b mask IH]; intros [|y xs] H; simpl;
    try constructor.
  - destruct b; constructor.
  - inversion H as [|? ? Hy Hxs]; subst. destruct b.
    + constructor; [|apply IH; exact Hxs].
      intros Hin. apply Hy. eapply select_in. exact Hin.
    + apply IH. exact Hxs.
Qed.

Lemma combine_fst_nodup {X Y : Type} (xs : list X) (ys : list Y) :
  NoDup xs -> NoDup (map fst (combine xs ys)).
Proof.
  revert ys. induction xs as [|x xs IH]; intros ys H; simpl; [constructor|].
  destruct ys as [|y ys]; simpl; [constructor|].
  inversion H as [|? ? Hx Hxs]; subst. constructor; [|apply IH; exact Hxs].
  intros Hin. apply Hx. apply in_map_iff in Hin.
  destruct Hin as ([a b] & <- & Hab). apply in_combine_l in Hab. exact Hab.
Qed.

Lemma insert_row_perm (r : Z * fl) (l : list (Z * fl)) :
  Permutation (r :: l) (insert_row r l).
Proof.
  induction l as [|y l IH]; simpl.
  - apply Permutation_refl.
  - destruct (ts_before (snd r) (snd y)).
    + apply Permutation_refl.
    + eapply perm_trans; [apply perm_swap|]. apply perm_skip. exact IH.
Qed.

Lemma fold_insert_row_perm (rows acc : list (Z * fl)) :
  Permutation (rows ++ acc)
              (fold_left (fun a r => insert_row r a) rows acc).
Proof.
  revert acc. induction rows as [|x rows IH]; intros acc; simpl.
  - apply Permutation_refl.
  - eapply perm_trans; [|apply IH].
    eapply perm_trans; [apply Permutation_middle|].
    apply Permutation_app_head. apply insert_row_perm.
Qed.

Lemma sort_by_timestamp_perm (rows : list (Z * fl)) :
  Permutation rows (sort_by_timestamp rows).
Proof.
  unfold sort_by_timestamp.
  rewrite <- (app_nil_r rows) at 1. apply fold_insert_row_perm.
Qed.

(** The values [df.loc[idx, col] = phase_df[col]] leaves in the column. *)
Definition phase_intervals (index : list Z) (timestamps : list fl)
    (mask : list bool) (old : list fl) : list fl :=
  let phase_df :=
    sort_by_timestamp (combine (select mask index) (select mask timestamps)) in
  zip_with (fun l x =>
              match value_at_label l (map fst phase_df)
                                   (diff (map snd phase_df)) with
              | Some v => v
              | None => x
              end) index old.

Lemma zip_with_of_floats (f : Z -> option fl) (index : list Z)
    (old : list fl) :
  zip_with (fun l o => match f l with Some v => ONum v | None => o end)
           index (of_floats old)
  = of_floats (zip_with (fun l x => match f l with Some v => v | None => x end)
                        index old).
Proof.
  revert old. induction index as [|l index IH]; intros [|x old]; simpl;
    try reflexivity.
  rewrite IH. destruct (f l); reflexivity.
Qed.

Lemma intervals_for_phase_eq (name : string) (phase : obj) (df : DataFrame)
    (ps : list string) (ts old : list fl) :
  NoDup (df_index df) ->
  objs "phase" df = OK (map OStr ps) ->
  floats "timestamp" df = OK ts ->
  cells name df = of_floats old ->
  let mask := eq_mask (map OStr ps) phase in
  intervals_for_phase name phase df
  = OK (if (1 <? List.length (select mask (df_index df)))%nat
        then set_col name
                     (of_floats (phase_intervals (df_index df) ts mask old)) df
        else df).
Proof.
  intros Hnd Hp Ht Hc mask. unfold intervals_for_phase.
  rewrite Hp. cbn [bind]. fold mask.
  destruct (1 <? List.length (select mask (df_index df)))%nat; [|reflexivity].
  rewrite Ht. cbn [bind].
  unfold assign_labels. rewrite has_dup_false.
  - rewrite Hc. cbn [bind].
    rewrite (zip_with_of_floats
               (fun l => value_at_label l _ _)). reflexivity.
  - eapply Permutation_NoDup.
    + apply Permutation_map. apply sort_by_timestamp_perm.
    + apply combine_fst_nodup. apply select_nodup. exact Hnd.
Qed.

Lemma phase_intervals_length index ts mask old :
  List.length old = List.length index ->
  List.length (phase_intervals index ts mask old) = List.length index.
Proof.
  intros H. unfold phase_intervals. apply zip_with_length. congruence.
Qed.

Lemma intervals_for_phase_plain (name : string) (phase : obj)
    (df : DataFrame) :
  W_int name = true -> exempt name = false ->
  name <> "phase"%string -> name <> "bucket"%string ->
  plain df ->
  exists df', intervals_for_phase name phase df = OK df' /\ plain df'
              /\ extends W_int df df'.
Proof.
  intros Hw He Hn1 Hn2 P.
  destruct (plain_phase df P) as (ps & Hp & Lp).
  destruct (plain_timestamp df P) as (ts & Ht & _ & Lt).
  destruct (cells_plain df name P He) as (old & Hc & Lo).
  rewrite (intervals_for_phase_eq name phase df ps ts old);
    [|apply P|exact Hp|exact Ht|exact Hc].
  match goal with |- context [if ?c then _ else _] => destruct c end.
  - eexists. split; [reflexivity|]. split.
    + apply plain_set_col; [exact P| |exact Hn1|exact Hn2].
      apply phase_intervals_length. exact Lo.
    + apply extends_set_col. exact Hw.
  - exists df. split; [reflexivity|]. split; [exact P|apply extends_refl].
Qed.

Lemma intervals_for_plain (col : string) (df : DataFrame) :
  startswith "temperature_" col = true ->
  plain df ->
  exists df', intervals_for col df = OK df' /\ plain df'
              /\ extends W_int df df'.
Proof.
  intros Hcol P. apply startswith_app in Hcol. destruct Hcol as [sid ->].
  unfold intervals_for. rewrite temperature_parts. cbn [bind].
  destruct (plain_phases_of df P) as (us & ->). cbn [bind].
  apply (fold_res_extends W_int _ (fun _ _ => True)); auto.
  intros phase d _ Pd _.
  apply intervals_for_phase_plain; try exact Pd.
  - unfold W_int, startswith. apply prefix_of_app.
  - reflexivity.
  - name_neq.
  - name_neq.
Qed.

(** ** Network rates *)

Lemma network_sent_parts (sid : string) :
  item 2 (split_max 2 ("network_sent_" ++ sid)) = OK sid.
Proof. simpl. rewrite split_max_zero. reflexivity. Qed.

Lemma network_received_parts (sid : string) :
  item 2 (split_max 2 ("network_received_" ++ sid)) = OK sid.
Proof. simpl. rewrite split_max_zero. reflexivity. Qed.

Lemma rate_for_plain (rate_prefix col sid : string) (df : DataFrame) :
  item 2 (split_max 2 col) = OK sid ->
  exempt col = false ->
  (rate_prefix ++ sid)%string <> "phase"%string ->
  (rate_prefix ++ sid)%string <> "bucket"%string ->
  plain df -> has_col col df = true ->
  exists df', rate_for rate_prefix col df = OK df' /\ plain df'
              /\ extends (startswith rate_prefix) df df'.
Proof.
  intros Hparts He Hn1 Hn2 P Hc. unfold rate_for. rewrite Hparts. cbn [bind].
  destruct (plain_floats df col P Hc He) as (x & -> & _ & Lx).
  destruct (plain_timestamp df P) as (ts & -> & _ & Lt). cbn [bind].
  eexists. split; [reflexivity|]. split.
  - apply plain_set_col; [exact P| |exact Hn1|exact Hn2].
    rewrite zip_with_length; rewrite !diff_length; congruence.
  - apply extends_set_col. unfold startswith. apply prefix_of_app.
Qed.

(** ** Latency in milliseconds *)

Definition W_lat (n : string) : bool :=
  (String.eqb n "response_time_ms" || startswith "latency_ms_" n)%bool.

Lemma three_parts (parts : list string) :
  (3 <=? List.length parts)%nat = true ->
  exists e s, item 1 parts = OK e /\ item 2 parts = OK s.
Proof.
  destruct parts as [|a [|b [|c rest]]]; simpl; try discriminate.
  intros _. exists b, c. split; reflexivity.
Qed.

Lemma raw_latency_not_exempt (col : string) :
  is_raw_latency col = true -> exempt col = false.
Proof.
  unfold is_raw_latency. rewrite andb_true_iff, negb_true_iff.
  intros [H1 H2]. apply startswith_app in H1. destruct H1 as [rest ->].
  unfold exempt. rewrite H2. reflexivity.
Qed.

Lemma latency_for_plain (col : string) (df : DataFrame) :
  is_raw_latency col = true ->
  plain df ->
  has_col col df = true /\ has_col "response_time_ms" df = true ->
  exists df', latency_for col df = OK df' /\ plain df'
              /\ extends W_lat df df'.
Proof.
  intros Hraw P [Hc Hr]. pose proof (raw_latency_not_exempt col Hraw) as He.
  unfold latency_for.
  destruct (3 <=? List.length (split_max 2 col))%nat eqn:E3.
  2:{ exists df. split; [reflexivity|]. split; [exact P|apply extends_refl]. }
  destruct (three_parts _ E3) as (e & s & -> & ->). cbn [bind].
  set (ms_col := ("latency_ms_" ++ e ++ "_" ++ s)%string).
  assert (S1 : exists df1,
             (if has_col ms_col df then OK df
              else let* seconds := floats col df in
                   OK (set_col ms_col (of_floats (map ms seconds)) df))
             = OK df1 /\ plain df1 /\ extends W_lat df df1).
  { destruct (has_col ms_col df).
    - exists df. split; [reflexivity|]. split; [exact P|apply extends_refl].
    - destruct (plain_floats df col P Hc He) as (x & -> & _ & Lx).
      cbn [bind]. eexists. split; [reflexivity|]. split.
      + apply plain_set_col; [exact P| |name_neq|name_neq].
        rewrite length_map. exact Lx.
      + apply extends_set_col. unfold W_lat, startswith, ms_col.
        rewrite prefix_of_app. apply orb_true_r. }
  destruct S1 as (df1 & -> & P1 & X1). cbn [bind].
  assert (Hc1 : has_col col df1 = true) by (eapply has_col_extends; eassumption).
  assert (Hr1 : has_col "response_time_ms" df1 = true)
    by (eapply has_col_extends; eassumption).
  destruct (plain_floats df1 col P1 Hc1 He) as (x & -> & _ & Lx).
  destruct (plain_floats df1 "response_time_ms" P1 Hr1 eq_refl)
    as (r & -> & _ & Lr).
  cbn [bind]. eexists. split; [reflexivity|]. split.
  - apply plain_set_col; [exact P1| |name_neq|name_neq].
    rewrite zip_with_length; congruence.
  - eapply extends_trans; [exact X1|].
    apply extends_set_col. reflexivity.
Qed.

Lemma latency_block_plain (df : DataFrame) :
  plain df ->
  exists df', latency_block df = OK df' /\ plain df' /\ extends W_lat df df'.
Proof.
  intros P. unfold latency_block.
  destruct (filter is_raw_latency (names df)) as [|c0 cs] eqn:F.
  - exists df. split; [reflexivity|]. split; [exact P|apply extends_refl].
  - rewrite <- F.
    set (df0 := if has_col "response_time_ms" df then df
                else set_col "response_time_ms"
                             (of_floats (repeat (Fin 0) (nrows df))) df).
    assert (P0 : plain df0 /\ extends W_lat df df0
                 /\ has_col "response_time_ms" df0 = true).
    { unfold df0. destruct (has_col "response_time_ms" df) eqn:H.
      - split; [exact P|]. split; [apply extends_refl|exact H].
      - split; [|split].
        + apply plain_set_col; [exact P| |name_neq|name_neq].
          apply repeat_length.
        + apply extends_set_col. reflexivity.
        + rewrite has_set_col. reflexivity. }
    destruct P0 as (P0 & X0 & H0).
    destruct (fold_res_extends W_lat latency_for
                (fun col d => has_col col d = true
                              /\ has_col "response_time_ms" d = true)
                (filter is_raw_latency (names df)))
      with (df := df0) as (df1 & E1 & P1 & X1).
    + intros a d d' [H1 H2] X. split; eapply has_col_extends; eassumption.
    + intros a d Ha Pd Hpre. apply latency_for_plain; try assumption.
      apply filter_In in Ha. apply Ha.
    + exact P0.
    + intros a Ha. apply filter_In in Ha. destruct Ha as [Ha _].
      split; [|exact H0].
      eapply has_col_extends; [|exact X0]. apply has_col_in. exact Ha.
    + exists df1. split; [exact E1|]. split; [exact P1|].
      eapply extends_trans; eassumption.
Qed.
End Blocks.

Section MoreBlocks.
Context {B : Builtins}.

(** ** Rolling statistics *)

Definition rolling_suffix (n : string) : bool :=
  (endswith "_roll_mean" n || endswith "_roll_std" n
   || endswith "_zscore" n)%bool.

Definition W_roll (n : string) : bool :=
  (startswith "temperature_" n && rolling_suffix n)%bool.

Lemma rolling_from_length (w : nat) (seen xs : list fl) :
  List.length (rolling_from w seen xs) = List.length xs.
Proof.
  revert seen. induction xs as [|x xs IH]; intros seen; simpl;
    [reflexivity|]. rewrite IH. reflexivity.
Qed.

Lemma rolling_mean_length w m xs :
  List.length (rolling_mean w m xs) = List.length xs.
Proof. unfold rolling_mean. rewrite length_map. apply rolling_from_length. Qed.

Lemma rolling_std_length w m xs :
  List.length (rolling_std w m xs) = List.length xs.
Proof. unfold rolling_std. rewrite length_map. apply rolling_from_length. Qed.

Lemma zscore_length x m s :
  List.length m = List.length x -> List.length s = List.length x ->
  List.length (zscore x m s) = List.length x.
Proof.
  intros Hm Hs. unfold zscore, replace_zero_nan.
  rewrite length_map, zip_with_length.
  - apply zip_with_length. congruence.
  - rewrite length_map, zip_with_length; congruence.
Qed.

Lemma W_roll_name (sid suffix : string) :
  rolling_suffix (("temperature_" ++ sid) ++ suffix) = true ->
  W_roll (("temperature_" ++ sid) ++ suffix) = true.
Proof.
  intros H. unfold W_roll. rewrite H, andb_true_r.
  rewrite string_app_assoc. unfold startswith. apply prefix_of_app.
Qed.

Lemma try_steps_plain (W : string -> bool)
    (steps : list (DataFrame -> result DataFrame)) :
  (forall step d d', In step steps -> plain d -> step d = OK d' ->
                     plain d' /\ extends W d d') ->
  forall df, plain df ->
  plain (try_steps steps df) /\ extends W df (try_steps steps df).
Proof.
  induction steps as [|step steps IH]; intros Hs df P; simpl.
  - split; [exact P|apply extends_refl].
  - destruct (step df) as [d'|e] eqn:E.
    + destruct (Hs step df d') as [P' X']; [left; reflexivity|exact P|exact E|].
      destruct (IH (fun s d d'' Hin => Hs s d d'' (or_intror Hin)) d' P')
        as [P'' X''].
      split; [exact P''|]. eapply extends_trans; eassumption.
    + split; [exact P|apply extends_refl].
Qed.

Lemma floats_plain_length df n xs :
  plain df -> exempt n = false -> floats n df = OK xs ->
  List.length xs = nrows df /\ get_col n df = Some (of_floats xs).
Proof.
  intros P E F.
  assert (H : has_col n df = true).
  { unfold floats in F. apply has_col_get.
    destruct (get_col n df); [eauto|discriminate]. }
  destruct (plain_floats df n P H E) as (ys & Fy & G & L).
  rewrite Fy in F. injection F as ->. auto.
Qed.

Lemma rolling_for_plain (col : string) (df : DataFrame) :
  startswith "temperature_" col = true -> plain df ->
  plain (rolling_for col df) /\ extends W_roll df (rolling_for col df).
Proof.
  intros Hcol P. apply startswith_app in Hcol. destruct Hcol as [sid ->].
  unfold rolling_for.
  destruct (5 <=? nrows df)%nat; [|split; [exact P|apply extends_refl]].
  apply try_steps_plain; [|exact P].
  assert (Ec : exempt ("temperature_" ++ sid) = false) by reflexivity.
  intros step d d' [<-|[<-|[<-|[]]]] Pd E.
  - unfold roll_mean_step in E.
    destruct (floats ("temperature_" ++ sid) d) as [x|] eqn:F;
      [|discriminate].
    cbn [bind] in E. injection E as <-.
    destruct (floats_plain_length d _ x Pd Ec F) as [L _]. split.
    + apply plain_set_col; [exact Pd| |name_neq|name_neq].
      rewrite rolling_mean_length. exact L.
    + apply extends_set_col. apply W_roll_name.
      unfold rolling_suffix. rewrite endswith_app. reflexivity.
  - unfold roll_std_step in E.
    destruct (floats ("temperature_" ++ sid) d) as [x|] eqn:F;
      [|discriminate].
    cbn [bind] in E. injection E as <-.
    destruct (floats_plain_length d _ x Pd Ec F) as [L _]. split.
    + apply plain_set_col; [exact Pd| |name_neq|name_neq].
      rewrite rolling_std_length. exact L.
    + apply extends_set_col. apply W_roll_name.
      unfold rolling_suffix. rewrite endswith_app, orb_true_r. reflexivity.
  - unfold zscore_step in E.
    destruct (floats ("temperature_" ++ sid) d) as [x|] eqn:F;
      [|discriminate].
    cbn [bind] in E.
    destruct (floats (("temperature_" ++ sid) ++ "_roll_mean") d)
      as [m|] eqn:Fm; [|discriminate].
    cbn [bind] in E.
    destruct (floats (("temperature_" ++ sid) ++ "_roll_std") d)
      as [s|] eqn:Fs; [|discriminate].
    cbn [bind] in E. injection E as <-.
    destruct (floats_plain_length d _ x Pd Ec F) as [L _].
    destruct (floats_plain_length
                d (("temperature_" ++ sid) ++ "_roll_mean") m Pd eq_refl Fm)
      as [Lm _].
    destruct (floats_plain_length
                d (("temperature_" ++ sid) ++ "_roll_std") s Pd eq_refl Fs)
      as [Ls _].
    split.
    + apply plain_set_col; [exact Pd| |name_neq|name_neq].
      rewrite zscore_length; congruence.
    + apply extends_set_col. apply W_roll_name.
      unfold rolling_suffix. rewrite endswith_app, !orb_true_r. reflexivity.
Qed.

Lemma fold_rolling_plain (cols : list string) (df : DataFrame) :
  Forall (fun col => startswith "temperature_" col = true) cols ->
  plain df ->
  plain (fold_left (fun d col => rolling_for col d) cols df)
  /\ extends W_roll df (fold_left (fun d col => rolling_for col d) cols df).
Proof.
  intros Hall. revert df. induction Hall as [|col cols Hc _ IH];
    intros df P; simpl.
  - split; [exact P|apply extends_refl].
  - destruct (rolling_for_plain col df Hc P) as [P1 X1].
    destruct (IH _ P1) as [P2 X2]. split; [exact P2|].
    eapply extends_trans; eassumption.
Qed.

(** ** Interval stability *)

Definition W_stab (n : string) : bool := startswith "interval_stability_" n.

Fixpoint assign_mask_floats (mask : list bool) (values old : list fl)
  : list fl :=
  match mask, old with
  | true :: m, o :: rest =>
      match values with
      | v :: vs => v :: assign_mask_floats m vs rest
      | [] => o :: assign_mask_floats m [] rest
      end
  | false :: m, o :: rest => o :: assign_mask_floats m values rest
  | _, _ => old
  end.

Lemma assign_mask_of_floats (mask : list bool) (values old : list fl) :
  assign_mask mask values (of_floats old)
  = of_floats (assign_mask_floats mask values old).
Proof.
  revert values old. induction mask as [|b mask IH]; intros values old.
  - destruct old; reflexivity.
  - destruct old as [|o old]; [destruct b; reflexivity|].
    destruct b; simpl.
    + destruct values as [|v vs]; simpl; rewrite IH; reflexivity.
    + rewrite IH. reflexivity.
Qed.

Lemma assign_mask_floats_length (mask : list bool) (values old : list fl) :
  List.length (assign_mask_floats mask values old) = List.length old.
Proof.
  revert values old. induction mask as [|b mask IH]; intros values old.
  - destruct old; reflexivity.
  - destruct old as [|o old]; [destruct b; reflexivity|].
    destruct b; simpl.
    + destruct values as [|v vs]; simpl; rewrite IH; reflexivity.
    + rewrite IH. reflexivity.
Qed.

Lemma stability_for_phase_plain (interval_col stability_col : string)
    (phase : obj) (df : DataFrame) :
  exempt interval_col = false -> exempt stability_col = false ->
  W_stab stability_col = true ->
  stability_col <> "phase"%string -> stability_col <> "bucket"%string ->
  plain df -> has_col interval_col df = true ->
  exists df', stability_for_phase interval_col stability_col phase df = OK df'
              /\ plain df' /\ extends W_stab df df'.
Proof.
  intros Ei Es Hw Hn1 Hn2 P Hi. unfold stability_for_phase.
  destruct (plain_phase df P) as (ps & -> & _). cbn [bind].
  destruct (5 <? count_true (eq_mask (map OStr ps) phase))%nat.
  2:{ exists df. split; [reflexivity|]. split; [exact P|apply extends_refl]. }
  destruct (plain_floats df interval_col P Hi Ei) as (v & -> & _ & _).
  cbn [bind].
  destruct (cells_plain df stability_col P Es) as (old & -> & Lo).
  rewrite assign_mask_of_floats.
  eexists. split; [reflexivity|]. split.
  - apply plain_set_col; [exact P| |exact Hn1|exact Hn2].
    rewrite assign_mask_floats_length. exact Lo.
  - apply extends_set_col. exact Hw.
Qed.

Lemma stability_for_plain (sid : string) (df : DataFrame) :
  plain df ->
  exists df', stability_for sid df = OK df' /\ plain df'
              /\ extends W_stab df df'.
Proof.
  intros P. unfold stability_for.
  destruct (has_col ("reporting_interval_" ++ sid) df) eqn:Hi.
  2:{ exists df. split; [reflexivity|]. split; [exact P|apply extends_refl]. }
  destruct (plain_phases_of df P) as (us & ->). cbn [bind].
  apply (fold_res_extends W_stab _
           (fun _ d => has_col ("reporting_interval_" ++ sid) d = true)).
  - intros _ d d' H X. eapply has_col_extends; eassumption.
  - intros phase d _ Pd Hd.
    apply stability_for_phase_plain; try assumption; try reflexivity.
    + unfold W_stab, startswith. apply prefix_of_app.
    + name_neq.
    + name_neq.
  - exact P.
  - intros _ _. exact Hi.
Qed.

Lemma sensor_ids_onto_ok (cols seen : list string) :
  Forall (fun col => startswith "temperature_" col = true) cols ->
  exists ids, sensor_ids_onto seen cols = OK ids.
Proof.
  intros H. revert seen. induction H as [|col cols Hc _ IH]; intros seen;
    simpl.
  - eexists. reflexivity.
  - apply startswith_app in Hc. destruct Hc as [sid ->].
    rewrite temperature_parts. cbn [bind].
    destruct (existsb (String.eqb sid) seen); apply IH.
Qed.

(** ** Cumulative failures *)

Definition W_cum (n : string) : bool := startswith "cumulative_failures_" n.

Lemma cumsum_from_length (acc : fl) (xs : list fl) :
  List.length (cumsum_from acc xs) = List.length xs.
Proof.
  revert acc. induction xs as [|x xs IH]; intros acc; simpl; [reflexivity|].
  destruct (isnan x); simpl; rewrite IH; reflexivity.
Qed.

Lemma cumulative_for_plain (col : string) (df : DataFrame) :
  startswith "failed_" col = true ->
  plain df -> has_col col df = true ->
  exists df', cumulative_for col df = OK df' /\ plain df'
              /\ extends W_cum df df'.
Proof.
  intros Hcol P Hc.
  assert (He : exempt col = false).
  { apply startswith_app in Hcol. destruct Hcol as [rest ->]. reflexivity. }
  unfold cumulative_for.
  destruct (3 <=? List.length (split_max 2 col))%nat eqn:E3.
  2:{ exists df. split; [reflexivity|]. split; [exact P|apply extends_refl]. }
  destruct (three_parts _ E3) as (e & s & -> & ->). cbn [bind].
  destruct (plain_floats df col P Hc He) as (x & -> & _ & Lx). cbn [bind].
  eexists. split; [reflexivity|]. split.
  - apply plain_set_col; [exact P| |name_neq|name_neq].
    unfold cumsum. rewrite cumsum_from_length. exact Lx.
  - apply extends_set_col. unfold W_cum, startswith. apply prefix_of_app.
Qed.
End MoreBlocks.

(** * The estimator never raises *)

Lemma scan_pairs_total (t : fl) (ni : list bucket) :
  exists r, scan_pairs t ni = OK r.
Proof.
  induction ni as [|cur [|nxt rest] IH].
  - eexists. reflexivity.
  - eexists. reflexivity.
  - rewrite scan_pairs_step. destruct (brackets t cur nxt).
    + eexists. reflexivity.
    + exact IH.
Qed.

Lemma estimate_sorted_total (sb : list bucket) :
  exists e, estimate_sorted sb = OK e.
Proof.
  destruct sb as [|[b1 c1] [|b2 sb]].
  - eexists. reflexivity.
  - simpl. destruct (feqb b1 PInf); eexists; reflexivity.
  - unfold estimate_sorted.
    match goal with
    | |- context [(2 <=? ?n)%nat] => destruct (2 <=? n)%nat
    end; [|eexists; reflexivity].
    match goal with
    | |- context [fltb (Fin 0) ?c] => destruct (fltb (Fin 0) c)
    end; [|eexists; reflexivity].
    match goal with
    | |- context [scan_pairs ?t ?l] =>
        destruct (scan_pairs_total t l) as [[s|] ->]
    end; eexists; reflexivity.
Qed.

Lemma estimate_latency_total (bb : list bucket) :
  exists e, estimate_latency bb = OK e.
Proof. apply estimate_sorted_total. Qed.

Section Estimation.
Context {B : Builtins}.

(** * The bucket stage on a regular table *)

Lemma bucket_bounds_onto_ok (buckets : list (string * fl)) (acc : list bucket) :
  forallb (fun kv => parses (fst kv)) buckets = true ->
  exists bb, bucket_bounds_onto acc buckets = OK bb.
Proof.
  revert acc. induction buckets as [|[k v] buckets IH]; intros acc H; simpl.
  - eexists. reflexivity.
  - simpl in H. apply andb_true_iff in H. destruct H as [Hk Hr].
    assert (Hb : exists b, le_bound k = OK b).
    { unfold le_bound, parses in *. destruct (String.eqb k "inf").
      - eexists. reflexivity.
      - simpl in Hk. destruct (float_of_str k); [eexists; reflexivity|].
        discriminate. }
    destruct Hb as [b ->]. cbn [bind]. apply IH. exact Hr.
Qed.

(** What the bucket stage keeps of the frame it started from. *)
Definition kept (df d : DataFrame) : Prop :=
  df_index d = df_index df
  /\ forall n, startswith "latency_ms_" n = false ->
               get_col n d = get_col n df.

Lemma kept_refl df : kept df df.
Proof. split; auto. Qed.

Lemma kept_set_at df d label (name : string) v :
  kept df d -> startswith "latency_ms_" name = true ->
  kept df (set_at label name v d).
Proof.
  intros [I G] Hn. split; [exact I|].
  intros n Hf. unfold set_at. rewrite get_set_other; [apply G; exact Hf|].
  intros ->. congruence.
Qed.

Lemma estimate_endpoint_kept df idx sid entry d :
  forallb (fun kv => parses (fst kv)) (snd entry) = true ->
  kept df d ->
  exists d', estimate_endpoint idx sid entry d = OK d' /\ kept df d'.
Proof.
  intros Hp K. destruct entry as [endpoint buckets]. simpl in Hp.
  unfold estimate_endpoint.
  destruct (bucket_bounds_onto_ok buckets [] Hp) as [bb ->]. cbn [bind].
  destruct (estimate_latency_total bb) as [e ->]. cbn [bind].
  eexists. split; [reflexivity|].
  repeat apply kept_set_at; try exact K; unfold startswith;
    rewrite ?string_app_assoc; apply prefix_of_app.
Qed.

Lemma fold_res_kept {A : Type} df (f : A -> DataFrame -> result DataFrame)
    (l : list A) :
  (forall a d, In a l -> kept df d -> exists d', f a d = OK d' /\ kept df d') ->
  forall d, kept df d -> exists d', fold_res f l d = OK d' /\ kept df d'.
Proof.
  induction l as [|a l IH]; intros Hf d K; simpl.
  - exists d. auto.
  - destruct (Hf a d (or_introl eq_refl) K) as (d1 & -> & K1). cbn [bind].
    apply IH; [|exact K1]. intros b d2 Hb. apply Hf. right. exact Hb.
Qed.

Lemma estimate_row_kept df row d :
  bucket_cell_ok (snd row) = true -> kept df d ->
  exists d', estimate_row row d = OK d' /\ kept df d'.
Proof.
  intros Hok K. unfold estimate_row. destruct (snd row) as [| |  |dict];
    try (exists d; split; [reflexivity|exact K]).
  simpl in Hok. apply fold_res_kept; [|exact K].
  intros [sid endpoints] d1 Hin K1. unfold estimate_sensor. simpl.
  rewrite forallb_forall in Hok. pose proof (Hok _ Hin) as Hs. simpl in Hs.
  apply fold_res_kept; [|exact K1].
  intros entry d2 Hin2 K2. apply estimate_endpoint_kept; [|exact K2].
  rewrite forallb_forall in Hs. apply Hs. exact Hin2.
Qed.

Lemma get_method_columns_as_str (n : string) (d : DataFrame) :
  get_col n (method_columns_as_str d)
  = if endswith "_method" n then option_map (map astype_str) (get_col n d)
    else get_col n d.
Proof.
  unfold get_col, method_columns_as_str. simpl.
  induction (df_columns d) as [|[m c] cols IH]; simpl.
  - destruct (endswith "_method" n); reflexivity.
  - destruct (endswith "_method" m) eqn:Em; simpl;
      destruct (String.eqb m n) eqn:E; try exact IH;
      apply String.eqb_eq in E; subst m; rewrite Em; reflexivity.
Qed.

Lemma lookup_filter_other (n m : string) cols :
  n <> m ->
  lookup n (filter (fun nc => negb (String.eqb (fst nc) m)) cols)
  = lookup n cols.
Proof.
  intros Hne. induction cols as [|[k c] cols IH]; simpl; [reflexivity|].
  destruct (String.eqb k m) eqn:E; simpl.
  - apply String.eqb_eq in E. subst k.
    destruct (String.eqb m n) eqn:E'; [|exact IH].
    apply String.eqb_eq in E'. congruence.
  - destruct (String.eqb k n); [reflexivity|exact IH].
Qed.

Lemma lookup_filter_same (m : string) cols :
  lookup m (filter (fun nc => negb (String.eqb (fst nc) m)) cols) = None.
Proof.
  induction cols as [|[k c] cols IH]; simpl; [reflexivity|].
  destruct (String.eqb k m) eqn:E; simpl; [exact IH|].
  rewrite E. exact IH.
Qed.

Lemma estimate_and_drop_plain (df : DataFrame) :
  regular df ->
  exists d, estimate_and_drop df = OK d /\ plain d
            /\ df_index d = df_index df
            /\ (forall n, exempt n = false -> get_col n d = get_col n df)
            /\ get_col "phase" d = get_col "phase" df.
Proof.
  intros R. unfold estimate_and_drop.
  destruct (has_col "bucket" df) eqn:Hb.
  2:{ exists df. split; [reflexivity|]. split; [|auto].
      split; [exact R|]. unfold has_col in Hb.
      destruct (get_col "bucket" df); [discriminate|reflexivity]. }
  apply has_col_get in Hb. destruct Hb as [cells Hc].
  destruct (reg_buckets df R cells Hc) as [Hok Hmeth].
  unfold process_latency_buckets. rewrite Hc.
  destruct (fold_res_kept df estimate_row (combine (df_index df) cells))
    with (d := df) as (d1 & -> & [I1 G1]).
  { intros row d Hin K. apply estimate_row_kept; [|exact K].
    destruct row as [l o]. apply in_combine_r in Hin.
    rewrite forallb_forall in Hok. apply Hok. exact Hin. }
  { apply kept_refl. }
  cbn [bind].
  set (d := drop_col "bucket" (method_columns_as_str d1)).
  assert (Gd : forall n, exempt n = false -> get_col n d = get_col n df).
  { intros n En. unfold d, drop_col, get_col. simpl.
    assert (Hnb : n <> "bucket"%string).
    { intros ->. discriminate En. }
    rewrite lookup_filter_other by exact Hnb.
    change (get_col n (method_columns_as_str d1) = get_col n df).
    rewrite get_method_columns_as_str.
    assert (Hl : startswith "latency_ms_" n = false).
    { unfold exempt in En. rewrite !orb_false_iff in En. apply En. }
    rewrite (G1 n Hl).
    destruct (endswith "_method" n) eqn:Em; [|reflexivity].
    destruct (get_col n df) as [c|] eqn:Gn; [|reflexivity].
    assert (Hn : has_col n df = true) by (apply has_col_get; eauto).
    rewrite (Hmeth n Hn Em) in En. discriminate. }
  assert (Gp : get_col "phase" d = get_col "phase" df).
  { unfold d, drop_col, get_col. simpl.
    rewrite lookup_filter_other by discriminate.
    change (get_col "phase" (method_columns_as_str d1) = get_col "phase" df).
    rewrite get_method_columns_as_str.
    replace (endswith "_method" "phase") with false by reflexivity.
    apply G1. reflexivity. }
  assert (Id : df_index d = df_index df) by exact I1.
  exists d. split; [reflexivity|]. split; [|auto].
  split.
  - constructor.
    + rewrite Id. apply R.
    + apply has_col_get. rewrite Gd by reflexivity.
      apply has_col_get. apply R.
    + destruct (reg_phase df R) as (ps & Hps & L). exists ps.
      rewrite Gp. unfold nrows. rewrite Id. auto.
    + intros n c Hn En. rewrite (Gd n En) in Hn.
      unfold nrows. rewrite Id. apply (reg_numeric df R n c Hn En).
    + intros c Hcb. exfalso. unfold d, drop_col, get_col in Hcb. simpl in Hcb.
      rewrite lookup_filter_same in Hcb. discriminate.
  - unfold d, drop_col, get_col. simpl. apply lookup_filter_same.
Qed.
End Estimation.

Section Stages.
Context {B : Builtins}.

(** * The stages of derive_columns on a regular table without buckets *)

Definition temperature_columns (df : DataFrame) : list string :=
  filter (startswith "temperature_") (names df).

Lemma temperature_columns_prefix (df : DataFrame) :
  Forall (fun col => startswith "temperature_" col = true)
         (temperature_columns df).
Proof.
  apply Forall_forall. intros col H. apply filter_In in H. apply H.
Qed.

Lemma temperature_columns_present (df : DataFrame) (col : string) :
  In col (temperature_columns df) -> has_col col df = true.
Proof. intros H. apply filter_In in H. apply has_col_in. apply H. Qed.

Record stages (df d1 d2 d3 d4 d5 d6 d7 d8 : DataFrame) : Prop := {
  st_dev : fold_res deviations_for (temperature_columns df) df = OK d1;
  st_dev_plain : plain d1;
  st_dev_ext : extends W_dev df d1;
  st_int : fold_res intervals_for (temperature_columns df) d1 = OK d2;
  st_int_plain : plain d2;
  st_int_ext : extends W_int d1 d2;
  st_sent : fold_res (rate_for "network_sent_rate_")
                     (filter (startswith "network_sent_") (names d2)) d2
            = OK d3;
  st_sent_plain : plain d3;
  st_sent_ext : extends (startswith "network_sent_rate_") d2 d3;
  st_recv : fold_res (rate_for "network_received_rate_")
                     (filter (startswith "network_received_") (names d2)) d3
            = OK d4;
  st_recv_plain : plain d4;
  st_recv_ext : extends (startswith "network_received_rate_") d3 d4;
  st_lat : latency_block d4 = OK d5;
  st_lat_plain : plain d5;
  st_lat_ext : extends W_lat d4 d5;
  st_roll : d6 = fold_left (fun d col => rolling_for col d)
                           (temperature_columns df) d5;
  st_roll_plain : plain d6;
  st_roll_ext : extends W_roll d5 d6;
  st_stab_plain : plain d7;
  st_stab_ext : extends W_stab d6 d7;
  st_cum_plain : plain d8;
  st_cum_ext : extends W_cum d7 d8;
  st_result : derive_columns df = OK d8
}.

Lemma derive_columns_stages (df : DataFrame) :
  plain df -> exists d1 d2 d3 d4 d5 d6 d7 d8, stages df d1 d2 d3 d4 d5 d6 d7 d8.
Proof.
  intros P.
  pose proof (temperature_columns_prefix df) as Ht.
  rewrite Forall_forall in Ht.
  (* deviations *)
  destruct (fold_res_extends W_dev deviations_for
              (fun col d => has_col col d = true) (temperature_columns df))
    with (df := df) as (d1 & E1 & P1 & X1).
  { intros a d d' H X. eapply has_col_extends; eassumption. }
  { intros a d Ha Pd Hd. apply deviations_for_plain; auto. }
  { exact P. }
  { apply temperature_columns_present. }
  (* intervals *)
  destruct (fold_res_extends W_int intervals_for
              (fun _ _ => True) (temperature_columns df))
    with (df := d1) as (d2 & E2 & P2 & X2); auto.
  { intros a d Ha Pd _. apply intervals_for_plain; auto. }
  (* sent rates *)
  destruct (fold_res_extends (startswith "network_sent_rate_")
              (rate_for "network_sent_rate_")
              (fun col d => has_col col d = true)
              (filter (startswith "network_sent_") (names d2)))
    with (df := d2) as (d3 & E3 & P3 & X3).
  { intros a d d' H X. eapply has_col_extends; eassumption. }
  { intros a d Ha Pd Hd. apply filter_In in Ha. destruct Ha as [_ Ha].
    apply startswith_app in Ha. destruct Ha as [sid ->].
    apply (rate_for_plain _ _ sid); auto.
    - apply network_sent_parts.
    - name_neq.
    - name_neq. }
  { exact P2. }
  { intros a Ha. apply filter_In in Ha. apply has_col_in. apply Ha. }
  (* received rates *)
  destruct (fold_res_extends (startswith "network_received_rate_")
              (rate_for "network_received_rate_")
              (fun col d => has_col col d = true)
              (filter (startswith "network_received_") (names d2)))
    with (df := d3) as (d4 & E4 & P4 & X4).
  { intros a d d' H X. eapply has_col_extends; eassumption. }
  { intros a d Ha Pd Hd. apply filter_In in Ha. destruct Ha as [_ Ha].
    apply startswith_app in Ha. destruct Ha as [sid ->].
    apply (rate_for_plain _ _ sid); auto.
    - apply network_received_parts.
    - name_neq.
    - name_neq. }
  { exact P3. }
  { intros a Ha. apply filter_In in Ha.
    eapply has_col_extends; [|exact X3]. apply has_col_in. apply Ha. }
  (* latency *)
  destruct (latency_block_plain d4 P4) as (d5 & E5 & P5 & X5).
  (* rolling statistics *)
  destruct (fold_rolling_plain (temperature_columns df) d5
              (temperature_columns_prefix df) P5) as [P6 X6].
  set (d6 := fold_left (fun d col => rolling_for col d)
                       (temperature_columns df) d5) in *.
  (* interval stability *)
  destruct (sensor_ids_onto_ok (temperature_columns df) []
              (temperature_columns_prefix df)) as [ids Eids].
  destruct (fold_res_extends W_stab stability_for (fun _ _ => True) ids)
    with (df := d6) as (d7 & E7 & P7 & X7); auto.
  { intros a d _ Pd _. apply stability_for_plain. exact Pd. }
  (* cumulative failures *)
  destruct (fold_res_extends W_cum cumulative_for
              (fun col d => has_col col d = true)
              (filter (startswith "failed_") (names d7)))
    with (df := d7) as (d8 & E8 & P8 & X8).
  { intros a d d' H X. eapply has_col_extends; eassumption. }
  { intros a d Ha Pd Hd. apply filter_In in Ha.
    apply cumulative_for_plain; auto. apply Ha. }
  { exact P7. }
  { intros a Ha. apply filter_In in Ha. apply has_col_in. apply Ha. }
  exists d1, d2, d3, d4, d5, d6, d7, d8.
  constructor; try assumption; try reflexivity.
  unfold derive_columns. fold (temperature_columns df).
  rewrite E1. cbn [bind]. rewrite E2. cbn [bind]. rewrite E3. cbn [bind].
  rewrite E4. cbn [bind]. rewrite E5. cbn [bind]. fold d6.
  rewrite Eids. cbn [bind]. rewrite E7. cbn [bind]. exact E8.
Qed.

(** The whole function on a regular table: the bucket stage, then the
    stages above. *)
Lemma calculate_derived_metrics_stages (df : DataFrame) :
  regular df -> df_empty df = false ->
  exists d0 d1 d2 d3 d4 d5 d6 d7 d8,
    estimate_and_drop df = OK d0 /\ plain d0
    /\ df_index d0 = df_index df
    /\ (forall n, exempt n = false -> get_col n d0 = get_col n df)
    /\ get_col "phase" d0 = get_col "phase" df
    /\ stages d0 d1 d2 d3 d4 d5 d6 d7 d8
    /\ calculate_derived_metrics df = OK d8.
Proof.
  intros R Hne.
  destruct (estimate_and_drop_plain df R) as (d0 & E0 & P0 & I0 & G0 & Gp).
  destruct (derive_columns_stages d0 P0)
    as (d1 & d2 & d3 & d4 & d5 & d6 & d7 & d8 & S).
  exists d0, d1, d2, d3, d4, d5, d6, d7, d8.
  repeat (split; [assumption|]).
  unfold calculate_derived_metrics. rewrite Hne, E0. cbn [bind].
  apply S.
Qed.
End Stages.

(** * The aggregated response time *)

(** The names [extract_metrics] can give a column: the four fixed fields,
    the bucket dict, and one prefix per metric kind. *)
Definition flattener_column (n : string) : bool :=
  (existsb (String.eqb n)
           ["timestamp"; "human_time"; "phase"; "vulnerability_type";
            "bucket"]%string
   || existsb (fun p => startswith p n)
              ["temperature_"; "gateway_temp_"; "true_temp_"; "cpu_";
               "memory_"; "fault_code_"; "latency_"; "failed_";
               "network_sent_"; "network_received_"; "cpu_total_";
               "memory_total_"]%string)%bool.

Definition flattened (df : DataFrame) : Prop :=
  forallb flattener_column (names df) = true.

(** The cell of column [name] in row [i] is missing. *)
Definition missing_at (i : nat) (name : string) (df : DataFrame) : Prop :=
  exists c, get_col name df = Some c /\ nth_error c i = Some (ONum NaN).

Lemma flattened_no_response_time (df : DataFrame) :
  flattened df -> has_col "response_time_ms" df = false.
Proof.
  intros F. destruct (has_col "response_time_ms" df) eqn:H; [|reflexivity].
  apply has_col_in in H. unfold flattened in F.
  rewrite forallb_forall in F. apply F in H. discriminate H.
Qed.

Lemma nth_error_zip_with {X Y Z' : Type} (f : X -> Y -> Z') xs ys i x y :
  nth_error xs i = Some x -> nth_error ys i = Some y ->
  nth_error (zip_with f xs ys) i = Some (f x y).
Proof.
  revert ys i. induction xs as [|a xs IH]; intros [|b ys] [|i]; simpl;
    try discriminate.
  - intros [= ->] [= ->]. reflexivity.
  - apply IH.
Qed.

Lemma nth_error_of_floats xs i :
  nth_error (of_floats xs) i = option_map ONum (nth_error xs i).
Proof. apply nth_error_map. Qed.

Section ResponseTime.
Context {B : Builtins}.

Lemma floats_set_same n xs df :
  floats n (set_col n (of_floats xs) df) = OK xs.
Proof. unfold floats. rewrite get_set_same. apply as_floats_of_floats. Qed.

Lemma floats_set_other n m c df :
  n <> m -> floats n (set_col m c df) = floats n df.
Proof. intros H. unfold floats. rewrite get_set_other by exact H. reflexivity. Qed.

Definition add_latency (response seconds : list fl) : list fl :=
  zip_with (fun r x => if notna x then fadd r (ms x) else r) response seconds.

(** [latency_for] written out for a column that can be read. *)
Lemma latency_for_eq (col : string) (df : DataFrame) (x r : list fl) :
  is_raw_latency col = true ->
  floats col df = OK x -> floats "response_time_ms" df = OK r ->
  exists ms_cols,
    latency_for col df
    = OK (fold_right (fun nc d => set_col (fst nc) (snd nc) d) df ms_cols)
    /\ Forall (fun nc => W_lat (fst nc) = true) ms_cols
    /\ (ms_cols = []
        \/ exists rest, ms_cols
                        = ("response_time_ms"%string,
                           of_floats (add_latency r x)) :: rest
                        /\ Forall (fun nc => startswith "latency_ms_" (fst nc)
                                             = true) rest).
Proof.
  intros Hraw Fx Fr. unfold latency_for.
  destruct (3 <=? List.length (split_max 2 col))%nat eqn:E3.
  2:{ exists []. split; [reflexivity|]. split; [constructor|left; reflexivity]. }
  destruct (three_parts _ E3) as (e & s & -> & ->). cbn [bind].
  set (ms_col := ("latency_ms_" ++ e ++ "_" ++ s)%string).
  assert (Hms : startswith "latency_ms_" ms_col = true)
    by (unfold startswith; apply prefix_of_app).
  assert (Hcol : col <> ms_col).
  { intros Heq.
    assert (Hx : startswith "latency_ms_" col = true)
      by (rewrite Heq; exact Hms).
    unfold is_raw_latency in Hraw. rewrite Hx in Hraw.
    rewrite andb_false_r in Hraw. discriminate. }
  assert (Hrt : "response_time_ms"%string <> ms_col) by (unfold ms_col; name_neq).
  destruct (has_col ms_col df).
  - cbn [bind]. rewrite Fx, Fr. cbn [bind].
    exists [("response_time_ms"%string, of_floats (add_latency r x))].
    split; [reflexivity|]. split; [repeat constructor|].
    right. exists []. split; [reflexivity|constructor].
  - rewrite Fx. cbn [bind].
    rewrite floats_set_other by exact Hcol. rewrite Fx. cbn [bind].
    rewrite floats_set_other by exact Hrt. rewrite Fr. cbn [bind].
    exists [("response_time_ms"%string, of_floats (add_latency r x));
            (ms_col, of_floats (map ms x))].
    split; [reflexivity|]. split.
    + repeat constructor. cbn [fst]. unfold W_lat. rewrite Hms.
      apply orb_true_r.
    + right. eexists. split; [reflexivity|]. repeat constructor. exact Hms.
Qed.

(** Row [i] of the response time is still 0.0. *)
Definition untouched (i : nat) (df : DataFrame) : Prop :=
  exists r, floats "response_time_ms" df = OK r
            /\ nth_error r i = Some (Fin 0).

Lemma get_col_fold_set (n : string) (cols : list (string * column)) df :
  Forall (fun nc => fst nc <> n) cols ->
  get_col n (fold_right (fun nc d => set_col (fst nc) (snd nc) d) df cols)
  = get_col n df.
Proof.
  induction 1 as [|[m c] cols Hm _ IH]; simpl; [reflexivity|].
  rewrite get_set_other; [exact IH|]. simpl in Hm. congruence.
Qed.

Lemma as_floats_nth (c : column) (x : list fl) (i : nat) (v : fl) :
  as_floats c = OK x -> nth_error c i = Some (ONum v) ->
  nth_error x i = Some v.
Proof.
  revert x i. induction c as [|o c IH]; intros x [|i] F N; simpl in *;
    try discriminate.
  - injection N as ->. simpl in F.
    destruct (as_floats c); simpl in F; [|discriminate].
    injection F as <-. reflexivity.
  - destruct (as_float o); simpl in F; [|discriminate].
    destruct (as_floats c) as [xs|] eqn:E; simpl in F; [|discriminate].
    injection F as <-. simpl. apply (IH xs i eq_refl N).
Qed.

Lemma missing_floats i col df x :
  missing_at i col df -> floats col df = OK x -> nth_error x i = Some NaN.
Proof.
  intros (c & G & N) F. unfold floats in F. rewrite G in F.
  eapply as_floats_nth; eassumption.
Qed.

Lemma raw_latency_W_lat (col : string) :
  is_raw_latency col = true -> W_lat col = false.
Proof.
  unfold is_raw_latency, W_lat. rewrite andb_true_iff, negb_true_iff.
  intros [H1 H2]. rewrite H2, orb_false_r.
  apply startswith_app in H1. destruct H1 as [rest ->]. reflexivity.
Qed.

Lemma latency_for_untouched (i : nat) (col : string) (df df' : DataFrame) :
  is_raw_latency col = true -> plain df ->
  has_col col df = true -> missing_at i col df -> untouched i df ->
  latency_for col df = OK df' ->
  untouched i df'
  /\ forall n, W_lat n = false -> get_col n df' = get_col n df.
Proof.
  intros Hraw P Hc Hm (r & Fr & Nr) E.
  destruct (plain_floats df col P Hc (raw_latency_not_exempt col Hraw))
    as (x & Fx & _ & _).
  destruct (latency_for_eq col df x r Hraw Fx Fr) as (cols & E' & Hw & Hshape).
  rewrite E' in E. injection E as <-. split.
  - destruct Hshape as [->|(rest & -> & Hrest)].
    + exists r. auto.
    + exists (add_latency r x). simpl. rewrite floats_set_same.
      split; [reflexivity|]. unfold add_latency.
      rewrite (nth_error_zip_with _ r x i (Fin 0) NaN Nr
                 (missing_floats i col df x Hm Fx)).
      reflexivity.
  - intros n Hn. apply get_col_fold_set.
    eapply Forall_impl; [|exact Hw]. intros [m c] Hmw. simpl in *.
    intros ->. congruence.
Qed.

Lemma fold_latency_untouched (i : nat) (cols : list string) :
  forall df df',
    Forall (fun col => is_raw_latency col = true) cols ->
    plain df -> has_col "response_time_ms" df = true ->
    (forall col, In col cols -> has_col col df = true /\ missing_at i col df) ->
    untouched i df ->
    fold_res latency_for cols df = OK df' ->
    untouched i df'.
Proof.
  induction cols as [|col cols IH]; intros df df' Hraw P Hrt Hcols U E;
    simpl in E.
  - injection E as <-. exact U.
  - inversion Hraw as [|? ? Hr Hraw']; subst.
    destruct (Hcols col (or_introl eq_refl)) as [Hc Hm].
    destruct (latency_for_plain col df Hr P (conj Hc Hrt))
      as (d1 & E1 & P1 & X1).
    rewrite E1 in E. cbn [bind] in E.
    destruct (latency_for_untouched i col df d1 Hr P Hc Hm U E1) as [U1 G1].
    apply (IH d1 df' Hraw' P1); try assumption.
    + eapply has_col_extends; eassumption.
    + intros c Hin. destruct (Hcols c (or_intror Hin)) as [Hc' Hm'].
      split; [eapply has_col_extends; eassumption|].
      destruct Hm' as (cells & G & N). exists cells. split; [|exact N].
      rewrite G1; [exact G|].
      apply raw_latency_W_lat. rewrite Forall_forall in Hraw'. auto.
Qed.

Lemma latency_block_untouched (i : nat) (df df' : DataFrame) :
  plain df -> has_col "response_time_ms" df = false ->
  (i < nrows df)%nat ->
  (forall col, In col (names df) -> is_raw_latency col = true ->
               missing_at i col df) ->
  latency_block df = OK df' ->
  filter is_raw_latency (names df) <> [] ->
  untouched i df'.
Proof.
  intros P Hno Hi Hmiss E Hne. unfold latency_block in E.
  destruct (filter is_raw_latency (names df)) as [|c0 cs] eqn:F;
    [congruence|]. rewrite <- F in E. rewrite Hno in E.
  set (df0 := set_col "response_time_ms"
                      (of_floats (repeat (Fin 0) (nrows df))) df) in *.
  assert (P0 : plain df0).
  { apply plain_set_col; [exact P|apply repeat_length|name_neq|name_neq]. }
  apply (fold_latency_untouched i (filter is_raw_latency (names df)) df0 df');
    try assumption.
  - apply Forall_forall. intros c Hc. apply filter_In in Hc. apply Hc.
  - unfold df0. rewrite has_set_col. reflexivity.
  - intros c Hc. apply filter_In in Hc. destruct Hc as [Hin Hraw].
    assert (Hcn : c <> "response_time_ms"%string).
    { intros ->. discriminate Hraw. }
    split.
    + unfold df0. rewrite has_set_col. apply has_col_in in Hin.
      rewrite Hin. apply orb_true_r.
    + destruct (Hmiss c Hin Hraw) as (cells & G & N). exists cells.
      split; [|exact N]. unfold df0. rewrite get_set_other; assumption.
  - exists (repeat (Fin 0) (nrows df)). unfold df0.
    rewrite floats_set_same. split; [reflexivity|].
    apply nth_error_repeat. exact Hi.
Qed.
End ResponseTime.

Section ResponseTimeClaim.
Context {B : Builtins}.

Lemma stages_index d0 d1 d2 d3 d4 d5 d6 d7 d8 :
  stages d0 d1 d2 d3 d4 d5 d6 d7 d8 ->
  df_index d4 = df_index d0 /\ df_index d5 = df_index d0
  /\ df_index d8 = df_index d0.
Proof.
  intros S.
  destruct (st_dev_ext _ _ _ _ _ _ _ _ _ S) as (I1 & _).
  destruct (st_int_ext _ _ _ _ _ _ _ _ _ S) as (I2 & _).
  destruct (st_sent_ext _ _ _ _ _ _ _ _ _ S) as (I3 & _).
  destruct (st_recv_ext _ _ _ _ _ _ _ _ _ S) as (I4 & _).
  destruct (st_lat_ext _ _ _ _ _ _ _ _ _ S) as (I5 & _).
  destruct (st_roll_ext _ _ _ _ _ _ _ _ _ S) as (I6 & _).
  destruct (st_stab_ext _ _ _ _ _ _ _ _ _ S) as (I7 & _).
  destruct (st_cum_ext _ _ _ _ _ _ _ _ _ S) as (I8 & _).
  repeat split; congruence.
Qed.

Lemma stages_before_latency d0 d1 d2 d3 d4 d5 d6 d7 d8 (n : string) :
  stages d0 d1 d2 d3 d4 d5 d6 d7 d8 ->
  W_dev n = false -> W_int n = false ->
  startswith "network_sent_rate_" n = false ->
  startswith "network_received_rate_" n = false ->
  get_col n d4 = get_col n d0.
Proof.
  intros S H1 H2 H3 H4.
  destruct (st_dev_ext _ _ _ _ _ _ _ _ _ S) as (_ & G1 & _).
  destruct (st_int_ext _ _ _ _ _ _ _ _ _ S) as (_ & G2 & _).
  destruct (st_sent_ext _ _ _ _ _ _ _ _ _ S) as (_ & G3 & _).
  destruct (st_recv_ext _ _ _ _ _ _ _ _ _ S) as (_ & G4 & _).
  rewrite G4, G3, G2, G1; auto.
Qed.

Lemma stages_after_latency d0 d1 d2 d3 d4 d5 d6 d7 d8 (n : string) :
  stages d0 d1 d2 d3 d4 d5 d6 d7 d8 ->
  W_roll n = false -> W_stab n = false -> W_cum n = false ->
  get_col n d8 = get_col n d5.
Proof.
  intros S H1 H2 H3.
  destruct (st_roll_ext _ _ _ _ _ _ _ _ _ S) as (_ & G1 & _).
  destruct (st_stab_ext _ _ _ _ _ _ _ _ _ S) as (_ & G2 & _).
  destruct (st_cum_ext _ _ _ _ _ _ _ _ _ S) as (_ & G3 & _).
  rewrite G3, G2, G1; auto.
Qed.

Lemma raw_latency_before (col : string) :
  is_raw_latency col = true ->
  W_dev col = false /\ W_int col = false
  /\ startswith "network_sent_rate_" col = false
  /\ startswith "network_received_rate_" col = false.
Proof.
  unfold is_raw_latency. rewrite andb_true_iff. intros [H _].
  apply startswith_app in H. destruct H as [rest ->].
  repeat split; reflexivity.
Qed.

Lemma latency_block_has (df df' : DataFrame) :
  plain df -> filter is_raw_latency (names df) <> [] ->
  latency_block df = OK df' -> has_col "response_time_ms" df' = true.
Proof.
  intros P Hne E.
  destruct (latency_block_plain df P) as (d & Ed & _ & X).
  rewrite Ed in E. injection E as <-.
  unfold latency_block in Ed.
  destruct (filter is_raw_latency (names df)) as [|c0 cs] eqn:F;
    [congruence|]. rewrite <- F in Ed.
  destruct (has_col "response_time_ms" df) eqn:H.
  - eapply has_col_extends; eassumption.
  - set (df0 := set_col "response_time_ms"
                        (of_floats (repeat (Fin 0) (nrows df))) df) in *.
    assert (P0 : plain df0).
    { apply plain_set_col; [exact P|apply repeat_length|name_neq|name_neq]. }
    destruct (fold_res_extends W_lat latency_for
                (fun col d => has_col col d = true
                              /\ has_col "response_time_ms" d = true)
                (filter is_raw_latency (names df)))
      with (df := df0) as (d1 & E1 & _ & X1).
    + intros a d0 d' [H1 H2] X0. split; eapply has_col_extends; eassumption.
    + intros a d0 Ha Pd Hpre. apply latency_for_plain; try assumption.
      apply filter_In in Ha. apply Ha.
    + exact P0.
    + intros a Ha. apply filter_In in Ha. destruct Ha as [Ha _].
      unfold df0. rewrite !has_set_col. apply has_col_in in Ha. rewrite Ha.
      split; [apply orb_true_r|reflexivity].
    + rewrite E1 in Ed. injection Ed as <-.
      eapply has_col_extends; [|exact X1].
      unfold df0. rewrite has_set_col. reflexivity.
Qed.

(** C10.  On a regular flattened table with at least one raw latency
    column, the calculator returns a table with the same rows in which
    every row has a float under [response_time_ms]; and a row whose raw
    latency cells are all missing has 0.0 there. *)
Theorem response_time_in_every_row (df : DataFrame) :
  regular df -> flattened df ->
  (exists col, In col (names df) /\ is_raw_latency col = true) ->
  exists df',
    calculate_derived_metrics df = OK df'
    /\ df_index df' = df_index df
    /\ forall i, (i < nrows df)%nat ->
         exists response x,
           floats "response_time_ms" df' = OK response
           /\ nth_error response i = Some x
           /\ ((forall col, In col (names df) -> is_raw_latency col = true ->
                            missing_at i col df) ->
               x = Fin 0).
Proof.
  intros R F (col & Hin & Hraw).
  destruct (df_empty df) eqn:Em.
  { exists df. unfold calculate_derived_metrics. rewrite Em.
    split; [reflexivity|]. split; [reflexivity|].
    intros i Hi. exfalso. unfold df_empty in Em.
    apply orb_true_iff in Em. destruct Em as [Em|Em].
    - apply Nat.eqb_eq in Em. lia.
    - apply Nat.eqb_eq in Em. unfold names in Hin.
      destruct (df_columns df); [contradiction|discriminate]. }
  destruct (calculate_derived_metrics_stages df R Em)
    as (d0 & d1 & d2 & d3 & d4 & d5 & d6 & d7 & d8
        & _ & P0 & I0 & G0 & _ & S & E).
  destruct (stages_index _ _ _ _ _ _ _ _ _ S) as (I4 & I5 & I8).
  exists d8. split; [exact E|]. split; [congruence|].
  assert (Hsame : forall c, is_raw_latency c = true ->
                            get_col c d4 = get_col c df).
  { intros c Hc. destruct (raw_latency_before c Hc) as (H1 & H2 & H3 & H4).
    rewrite (stages_before_latency _ _ _ _ _ _ _ _ _ c S H1 H2 H3 H4).
    apply G0. apply raw_latency_not_exempt. exact Hc. }
  assert (Hne : filter is_raw_latency (names d4) <> []).
  { intros Hnil.
    assert (Hc : In col (filter is_raw_latency (names d4))).
    { apply filter_In. split; [|exact Hraw]. apply has_col_in.
      apply has_col_get. rewrite (Hsame col Hraw).
      apply has_col_get. apply has_col_in. exact Hin. }
    rewrite Hnil in Hc. contradiction. }
  pose proof (st_lat_plain _ _ _ _ _ _ _ _ _ S) as P5.
  pose proof (st_recv_plain _ _ _ _ _ _ _ _ _ S) as P4.
  pose proof (st_lat _ _ _ _ _ _ _ _ _ S) as E5.
  pose proof (latency_block_has d4 d5 P4 Hne E5) as Hrt.
  destruct (plain_floats d5 "response_time_ms" P5 Hrt eq_refl)
    as (response & Fr & Gr & Lr).
  assert (F8 : floats "response_time_ms" d8 = OK response).
  { unfold floats.
    rewrite (stages_after_latency _ _ _ _ _ _ _ _ _ "response_time_ms" S);
      try reflexivity.
    exact Fr. }
  intros i Hi.
  assert (Hlen : (i < List.length response)%nat).
  { rewrite Lr. unfold nrows. rewrite I5, I0. exact Hi. }
  destruct (nth_error response i) as [x|] eqn:Nx.
  2:{ apply nth_error_None in Nx. lia. }
  exists response, x. split; [exact F8|]. split; [exact Nx|].
  intros Hmiss.
  assert (Hno : has_col "response_time_ms" d4 = false).
  { unfold has_col.
    rewrite (stages_before_latency _ _ _ _ _ _ _ _ _ "response_time_ms" S);
      try reflexivity.
    rewrite G0 by reflexivity.
    apply (flattened_no_response_time df F). }
  destruct (latency_block_untouched i d4 d5 P4 Hno) as (r & Fr' & Nr);
    try assumption.
  - unfold nrows. rewrite I4, I0. exact Hi.
  - intros c Hc Hrc.
    assert (Hcdf : In c (names df)).
    { apply has_col_in. apply has_col_get. rewrite <- (Hsame c Hrc).
      apply has_col_get. apply has_col_in. exact Hc. }
    destruct (Hmiss c Hcdf Hrc) as (cells & G & N).
    exists cells. rewrite (Hsame c Hrc). auto.
  - rewrite Fr in Fr'. injection Fr' as <-. congruence.
Qed.
End ResponseTimeClaim.

(** * Rolling z-score of a constant column *)

Lemma skipn_repeat {A : Type} (x : A) (k n : nat) :
  skipn k (repeat x n) = repeat x (n - k).
Proof.
  revert k. induction n as [|n IH]; intros [|k]; simpl; try reflexivity.
  apply IH.
Qed.

Lemma repeat_snoc {A : Type} (x : A) (n : nat) :
  (repeat x n ++ [x])%list = repeat x (S n).
Proof. induction n as [|n IH]; simpl; [reflexivity|]. rewrite IH. reflexivity. Qed.

Lemma rolling_from_repeat (w : nat) (c : fl) (j n : nat) :
  Forall (fun window => exists k, window = repeat c k)
         (rolling_from w (repeat c j) (repeat c n)).
Proof.
  revert j. induction n as [|n IH]; intros j; simpl; [constructor|].
  rewrite repeat_snoc. constructor; [|apply IH].
  unfold lastn. rewrite skipn_repeat. eexists. reflexivity.
Qed.

Lemma rolling_repeat (w : nat) (c : fl) (n : nat) :
  Forall (fun window => exists k, window = repeat c k)
         (rolling w (repeat c n)).
Proof. apply (rolling_from_repeat w c 0 n). Qed.

(** ** Sums and means of equal values *)

Lemma fold_fadd_repeat (q a : Q) (k : nat) :
  exists s, fold_left fadd (repeat (Fin q) k) (Fin a) = Fin s
            /\ s == a + inject_Z (Z.of_nat k) * q.
Proof.
  revert a. induction k as [|k IH]; intros a.
  - exists a. split; [reflexivity|]. simpl. ring.
  - cbn [repeat fold_left fadd]. unfold fin.
    destruct (IH (Qred (a + q))) as (s & -> & Hs).
    exists s. split; [reflexivity|]. rewrite Hs, Qred_correct.
    rewrite Nat2Z.inj_succ. unfold Z.succ. rewrite inject_Z_plus. ring.
Qed.

Lemma of_nat_nonzero (k : nat) :
  (0 < k)%nat -> Qeq_bool (inject_Z (Z.of_nat k)) 0 = false.
Proof.
  intros H. destruct (Qeq_bool (inject_Z (Z.of_nat k)) 0) eqn:E;
    [|reflexivity].
  apply Qeq_bool_iff in E. unfold Qeq in E. simpl in E. lia.
Qed.

Lemma inject_nat_pos (k : nat) : (0 < k)%nat -> 0 < inject_Z (Z.of_nat k).
Proof.
  intros H. change 0 with (inject_Z 0). rewrite <- Zlt_Qlt. lia.
Qed.

Lemma np_mean_repeat (q : Q) (k : nat) :
  (0 < k)%nat ->
  exists m, np_mean (repeat (Fin q) k) = Fin m /\ m == q.
Proof.
  intros Hk. unfold np_mean, fsum.
  destruct (fold_fadd_repeat q 0 k) as (s & -> & Hs).
  rewrite repeat_length. unfold of_nat, of_Z, fdiv.
  rewrite (of_nat_nonzero k Hk). unfold fin. eexists. split; [reflexivity|].
  rewrite Qred_correct, Hs.
  pose proof (inject_nat_pos k Hk) as Hp. field. lra.
Qed.

(** The mean of equal values, in lowest terms, is the value itself. *)
Lemma np_mean_repeat_canonical (q : Q) (k : nat) :
  (0 < k)%nat -> Qred q = q -> np_mean (repeat (Fin q) k) = Fin q.
Proof.
  intros Hk Hq. unfold np_mean, fsum.
  destruct (fold_fadd_repeat q 0 k) as (s & -> & Hs).
  rewrite repeat_length. unfold of_nat, of_Z, fdiv.
  rewrite (of_nat_nonzero k Hk). unfold fin. f_equal.
  rewrite <- Hq. apply Qred_complete. rewrite Hs.
  pose proof (inject_nat_pos k Hk) as Hp. field. lra.
Qed.

Lemma fold_fadd_zeros (terms : list fl) (a : Q) :
  Forall (fun t => exists z, t = Fin z /\ z == 0) terms -> a == 0 ->
  exists s, fold_left fadd terms (Fin a) = Fin s /\ s == 0.
Proof.
  intros H. revert a. induction H as [|t terms (z & -> & Hz) _ IH];
    intros a Ha.
  - exists a. auto.
  - cbn [fold_left fadd]. unfold fin. apply IH. rewrite Qred_correct, Ha, Hz. reflexivity.
Qed.

Section ConstantColumn.
Context {B : Builtins}.

Definition zero_or_nan (x : fl) : Prop :=
  x = NaN \/ exists z, x = Fin z /\ z == 0.

Lemma window_std_repeat (min_periods : nat) (c : fl) (k : nat) :
  zero_or_nan (window_std min_periods (repeat c k)).
Proof.
  unfold window_std, observations.
  destruct c as [| | |q].
  1-3: left; replace (filter is_finite (repeat _ k)) with (@nil fl);
       [destruct min_periods; reflexivity|];
       induction k; simpl; auto.
  replace (filter is_finite (repeat (Fin q) k)) with (repeat (Fin q) k).
  2:{ induction k as [|k IH]; simpl; [reflexivity|]. rewrite <- IH.
      reflexivity. }
  rewrite repeat_length.
  destruct ((min_periods <=? k)%nat && (2 <=? k)%nat) eqn:E;
    [|left; reflexivity].
  apply andb_true_iff in E. destruct E as [_ E]. apply Nat.leb_le in E.
  destruct (np_mean_repeat q k) as (m & -> & Hm); [lia|].
  assert (Hterms : Forall (fun t => exists z, t = Fin z /\ z == 0)
                          (map (fun x => fmul (fsub x (Fin m)) (fsub x (Fin m)))
                               (repeat (Fin q) k))).
  { rewrite map_repeat. apply Forall_forall. intros t Ht.
    apply repeat_spec in Ht. subst t.
    cbv beta iota delta [fsub fopp fadd fmul fin]. eexists.
    split; [reflexivity|]. rewrite !Qred_correct, Hm. ring. }
  unfold fsum.
  destruct (fold_fadd_zeros _ 0 Hterms) as (s & -> & Hs); [reflexivity|].
  unfold of_nat, of_Z, fdiv. rewrite (of_nat_nonzero (k - 1)) by lia.
  right. cbv beta iota delta [fin fsqrt]. eexists. split; [reflexivity|].
  rewrite Qred_correct. apply sqrt_q_zero.
  rewrite Qred_correct, Hs. unfold Qdiv. ring.
Qed.

Lemma replace_zero_nan_nan (x : fl) :
  zero_or_nan x -> (if feqb x (Fin 0) then NaN else x) = NaN.
Proof.
  intros [->|(z & -> & Hz)]; [reflexivity|].
  simpl. apply Qeq_bool_iff in Hz. rewrite Hz. reflexivity.
Qed.

Lemma fdiv_nan (x : fl) : fdiv x NaN = NaN.
Proof. destruct x; reflexivity. Qed.

Lemma zscore_nan (x m s : list fl) :
  Forall zero_or_nan s ->
  List.length m = List.length x -> List.length s = List.length x ->
  zscore x m s = repeat NaN (List.length x).
Proof.
  intros Hs. revert x m.
  induction Hs as [|s0 s Hs0 _ IH]; intros [|x0 x] [|m0 m] Lm Ls;
    simpl in *; try discriminate; try reflexivity.
  unfold zscore in *. simpl. rewrite (replace_zero_nan_nan s0 Hs0), fdiv_nan.
  simpl. f_equal. apply IH; congruence.
Qed.

(** The z-score of a constant series is NaN on every row. *)
Lemma zscore_constant (c : fl) (n : nat) :
  zscore (repeat c n) (rolling_mean 5 1 (repeat c n))
         (rolling_std 5 1 (repeat c n))
  = repeat NaN n.
Proof.
  rewrite <- (repeat_length c n) at 4. apply zscore_nan.
  - unfold rolling_std. apply Forall_map.
    eapply Forall_impl; [|apply rolling_repeat].
    intros window [k ->]. apply window_std_repeat.
  - apply rolling_mean_length.
  - apply rolling_std_length.
Qed.
End ConstantColumn.

(** * The z-score column in the table the calculator returns *)

Lemma string_app_inv_r (a b s : string) :
  (a ++ s)%string = (b ++ s)%string -> a = b.
Proof.
  intros H.
  assert (R : string_rev (a ++ s) = string_rev (b ++ s)) by congruence.
  rewrite !string_rev_app in R.
  assert (Hinj : forall p x y : string, (p ++ x)%string = (p ++ y)%string -> x = y).
  { induction p as [|c p IH]; simpl; intros x y E; [exact E|].
    injection E as E. apply IH. exact E. }
  apply Hinj in R.
  assert (Hrr : forall x, string_rev (string_rev x) = x).
  { induction x as [|c x IH]; [reflexivity|].
    change (String c x) with ("" ++ String c x)%string at 1.
    change (String c x) with ((String c "") ++ x)%string at 1.
    simpl. change (String c x) with ((String c "") ++ x)%string at 1.
    rewrite string_rev_app, string_rev_app, IH. reflexivity. }
  rewrite <- (Hrr a), <- (Hrr b), R. reflexivity.
Qed.

Lemma endswith_rev (p q s : string) :
  endswith p (s ++ q) = String.prefix (string_rev p)
                                      (string_rev q ++ string_rev s).
Proof. unfold endswith. rewrite string_rev_app. reflexivity. Qed.

Section ZScoreColumn.
Context {B : Builtins}.

(** The three names [rolling_for col] writes. *)
Definition rolling_names (col n : string) : bool :=
  (String.eqb n (col ++ "_roll_mean") || String.eqb n (col ++ "_roll_std")
   || String.eqb n (col ++ "_zscore"))%bool.

Lemma rolling_for_writes (col : string) (df : DataFrame) :
  extends (rolling_names col) df (rolling_for col df).
Proof.
  unfold rolling_for. destruct (5 <=? nrows df)%nat; [|apply extends_refl].
  assert (H : forall steps d,
             (forall step d1 d2, In step steps -> step d1 = OK d2 ->
                                 extends (rolling_names col) d1 d2) ->
             extends (rolling_names col) d (try_steps steps d)).
  { induction steps as [|step steps IH]; intros d Hs; simpl.
    - apply extends_refl.
    - destruct (step d) as [d'|] eqn:E; [|apply extends_refl].
      eapply extends_trans; [apply (Hs step d d'); [left; reflexivity|exact E]|].
      apply IH. intros s d1 d2 Hin. apply Hs. right. exact Hin. }
  apply H. intros step d1 d2 [<-|[<-|[<-|[]]]] E.
  - unfold roll_mean_step in E. destruct (floats col d1); [|discriminate].
    cbn [bind] in E. injection E as <-. apply extends_set_col.
    unfold rolling_names. rewrite String.eqb_refl. reflexivity.
  - unfold roll_std_step in E. destruct (floats col d1); [|discriminate].
    cbn [bind] in E. injection E as <-. apply extends_set_col.
    unfold rolling_names. rewrite String.eqb_refl, orb_true_r. reflexivity.
  - unfold zscore_step in E. destruct (floats col d1); [|discriminate].
    cbn [bind] in E.
    destruct (floats (col ++ "_roll_mean") d1); [|discriminate].
    cbn [bind] in E.
    destruct (floats (col ++ "_roll_std") d1); [|discriminate].
    cbn [bind] in E. injection E as <-. apply extends_set_col.
    unfold rolling_names. rewrite String.eqb_refl, !orb_true_r. reflexivity.
Qed.

Lemma floats_repeat (col : string) (c : fl) (df : DataFrame) (n : nat) :
  get_col col df = Some (repeat (ONum c) n) ->
  floats col df = OK (repeat c n).
Proof.
  intros G. unfold floats. rewrite G.
  replace (repeat (ONum c) n) with (of_floats (repeat c n))
    by (unfold of_floats; apply map_repeat).
  apply as_floats_of_floats.
Qed.

Lemma rolling_suffix_false (col : string) :
  rolling_suffix col = false ->
  col <> (col ++ "_roll_mean")%string /\ col <> (col ++ "_roll_std")%string.
Proof.
  intros H. unfold rolling_suffix in H. rewrite !orb_false_iff in H.
  destruct H as [[H1 H2] _]. split; intros E.
  - rewrite E, endswith_app in H1. discriminate.
  - rewrite E, endswith_app in H2. discriminate.
Qed.

(** In its own turn, a constant column gets a z-score column of NaN. *)
Lemma rolling_for_constant (col : string) (c : fl) (df : DataFrame) :
  rolling_suffix col = false -> (5 <= nrows df)%nat ->
  get_col col df = Some (repeat (ONum c) (nrows df)) ->
  get_col (col ++ "_zscore") (rolling_for col df)
  = Some (repeat (ONum NaN) (nrows df)).
Proof.
  intros Hs Hn G. destruct (rolling_suffix_false col Hs) as [N1 N2].
  assert (N3 : (col ++ "_roll_mean")%string <> (col ++ "_roll_std")%string).
  { intros E.
    assert (F : endswith "_roll_std" (col ++ "_roll_mean") = true)
      by (rewrite E; apply endswith_app).
    rewrite endswith_rev in F. discriminate F. }
  unfold rolling_for. apply Nat.leb_le in Hn. rewrite Hn.
  pose proof (floats_repeat col c df _ G) as F.
  set (rm := (col ++ "_roll_mean")%string) in *.
  set (rs := (col ++ "_roll_std")%string) in *.
  cbn [try_steps]. unfold roll_mean_step at 1. rewrite F. cbn [bind].
  fold rm.
  unfold roll_std_step at 1. rewrite (floats_set_other col rm) by exact N1.
  rewrite F. cbn [bind]. fold rs.
  unfold zscore_step at 1. fold rm rs.
  rewrite (floats_set_other col rs) by exact N2.
  rewrite (floats_set_other col rm) by exact N1.
  rewrite F. cbn [bind].
  rewrite (floats_set_other rm rs) by exact N3.
  rewrite floats_set_same. cbn [bind].
  rewrite floats_set_same. cbn [bind].
  rewrite get_set_same. rewrite zscore_constant.
  unfold of_floats. rewrite map_repeat. reflexivity.
Qed.

Lemma zscore_name_other (col col' : string) :
  col' <> col -> rolling_names col' (col ++ "_zscore") = false.
Proof.
  intros Hne. unfold rolling_names. rewrite !orb_false_iff. repeat split.
  - apply String.eqb_neq. intros E.
    assert (F : endswith "_roll_mean" (col ++ "_zscore") = true)
      by (rewrite E; apply endswith_app).
    rewrite endswith_rev in F. discriminate F.
  - apply String.eqb_neq. intros E.
    assert (F : endswith "_roll_std" (col ++ "_zscore") = true)
      by (rewrite E; apply endswith_app).
    rewrite endswith_rev in F. discriminate F.
  - apply String.eqb_neq. intros E. apply string_app_inv_r in E. congruence.
Qed.

Lemma rolling_names_suffix (col' n : string) :
  rolling_names col' n = true -> rolling_suffix n = true.
Proof.
  unfold rolling_names, rolling_suffix. rewrite !orb_true_iff, !String.eqb_eq.
  intros [[->| ->]| ->]; rewrite endswith_app; rewrite ?orb_true_r; auto.
Qed.

Lemma fold_rolling_constant (col : string) (c : fl) (n : nat)
    (cols : list string) :
  rolling_suffix col = false -> (5 <= n)%nat ->
  forall df,
    nrows df = n ->
    get_col col df = Some (repeat (ONum c) n) ->
    In col cols
    \/ get_col (col ++ "_zscore") df = Some (repeat (ONum NaN) n) ->
    get_col (col ++ "_zscore")
            (fold_left (fun d col' => rolling_for col' d) cols df)
    = Some (repeat (ONum NaN) n).
Proof.
  intros Hs Hn. induction cols as [|col' cols IH]; intros df Hrows G Hz;
    simpl.
  - destruct Hz as [[]|Hz]. exact Hz.
  - pose proof (rolling_for_writes col' df) as X.
    assert (Hrows' : nrows (rolling_for col' df) = n).
    { rewrite (extends_nrows _ _ _ X). exact Hrows. }
    assert (G' : get_col col (rolling_for col' df)
                 = Some (repeat (ONum c) n)).
    { destruct X as (_ & Gx & _). rewrite Gx; [exact G|].
      destruct (rolling_names col' col) eqn:E; [|reflexivity].
      apply rolling_names_suffix in E. congruence. }
    apply IH; try assumption.
    destruct (string_dec col' col) as [->|Hne].
    + right. rewrite <- Hrows. apply (rolling_for_constant col c df).
      * exact Hs.
      * lia.
      * rewrite Hrows. exact G.
    + destruct Hz as [[Hc|Hin]|Hz].
      * congruence.
      * left. exact Hin.
      * right. destruct X as (_ & Gx & _). rewrite Gx; [exact Hz|].
        apply zscore_name_other. exact Hne.
Qed.
End ZScoreColumn.

Section ZScoreClaim.
Context {B : Builtins}.

Lemma temperature_not_written (col : string) :
  startswith "temperature_" col = true ->
  exempt col = false /\ W_dev col = false /\ W_int col = false
  /\ startswith "network_sent_rate_" col = false
  /\ startswith "network_received_rate_" col = false
  /\ W_lat col = false /\ W_stab col = false /\ W_cum col = false.
Proof.
  intros H. apply startswith_app in H. destruct H as [rest ->].
  repeat split; reflexivity.
Qed.

(** C8, as the code has it.  On a regular table with at least 5 rows, a
    sensor temperature column that holds one value in every row, and whose
    name does not itself end in [_roll_mean], [_roll_std] or [_zscore], gets
    a z-score column that is NaN in every row; the calculator returns
    normally. *)
Theorem zscore_of_constant_column (df : DataFrame) (col : string) (c : fl) :
  regular df ->
  startswith "temperature_" col = true ->
  rolling_suffix col = false ->
  (5 <= nrows df)%nat ->
  get_col col df = Some (repeat (ONum c) (nrows df)) ->
  exists df',
    calculate_derived_metrics df = OK df'
    /\ df_index df' = df_index df
    /\ get_col (col ++ "_zscore") df' = Some (repeat (ONum NaN) (nrows df)).
Proof.
  intros R Hcol Hsuf Hrows G.
  assert (Em : df_empty df = false).
  { unfold df_empty. apply orb_false_iff. split; apply Nat.eqb_neq.
    - lia.
    - unfold get_col in G. destruct (df_columns df); [discriminate|].
      discriminate. }
  destruct (calculate_derived_metrics_stages df R Em)
    as (d0 & d1 & d2 & d3 & d4 & d5 & d6 & d7 & d8
        & _ & P0 & I0 & G0 & _ & S & E).
  destruct (stages_index _ _ _ _ _ _ _ _ _ S) as (I4 & I5 & I8).
  destruct (temperature_not_written col Hcol)
    as (Ex & W1 & W2 & W3 & W4 & W5 & W7 & W8).
  exists d8. split; [exact E|]. split; [congruence|].
  assert (G4 : get_col col d4 = Some (repeat (ONum c) (nrows df))).
  { rewrite (stages_before_latency _ _ _ _ _ _ _ _ _ col S W1 W2 W3 W4).
    rewrite (G0 col Ex). exact G. }
  assert (G5 : get_col col d5 = Some (repeat (ONum c) (nrows df))).
  { destruct (st_lat_ext _ _ _ _ _ _ _ _ _ S) as (_ & Gl & _).
    rewrite (Gl col W5). exact G4. }
  assert (Hin : In col (temperature_columns d0)).
  { apply filter_In. split; [|exact Hcol]. apply has_col_in.
    apply has_col_get. rewrite (G0 col Ex). eauto. }
  assert (G6 : get_col (col ++ "_zscore") d6
               = Some (repeat (ONum NaN) (nrows df))).
  { rewrite (st_roll _ _ _ _ _ _ _ _ _ S).
    apply (fold_rolling_constant col c); try assumption.
    - unfold nrows. rewrite I5, I0. reflexivity.
    - left. exact Hin. }
  assert (Hz : W_stab (col ++ "_zscore") = false
               /\ W_cum (col ++ "_zscore") = false).
  { apply startswith_app in Hcol. destruct Hcol as [rest ->].
    split; reflexivity. }
  destruct (st_stab_ext _ _ _ _ _ _ _ _ _ S) as (_ & Gs & _).
  destruct (st_cum_ext _ _ _ _ _ _ _ _ _ S) as (_ & Gc & _).
  rewrite Gc, Gs; [exact G6|apply Hz|apply Hz].
Qed.
End ZScoreClaim.

(** * Reporting intervals of four rows *)

(** ** Row labels do not matter, only that they are distinct *)

Definition relabel (f : Z -> Z) (rows : list (Z * fl)) : list (Z * fl) :=
  map (fun r => (f (fst r), snd r)) rows.

Lemma insert_row_relabel (f : Z -> Z) (r : Z * fl) (rows : list (Z * fl)) :
  insert_row (f (fst r), snd r) (relabel f rows)
  = relabel f (insert_row r rows).
Proof.
  induction rows as [|r' rows IH]; simpl; [reflexivity|].
  destruct (ts_before (snd r) (snd r')); simpl; [reflexivity|].
  rewrite IH. reflexivity.
Qed.

Lemma sort_relabel (f : Z -> Z) (rows : list (Z * fl)) :
  sort_by_timestamp (relabel f rows) = relabel f (sort_by_timestamp rows).
Proof.
  unfold sort_by_timestamp.
  change (@nil (Z * fl)) with (relabel f []) at 1.
  generalize (@nil (Z * fl)).
  induction rows as [|r rows IH]; intros acc; simpl; [reflexivity|].
  rewrite insert_row_relabel. apply IH.
Qed.

Lemma combine_relabel (f : Z -> Z) (labels : list Z) (ts : list fl) :
  combine (map f labels) ts = relabel f (combine labels ts).
Proof.
  revert ts. induction labels as [|l labels IH]; intros [|t ts]; simpl;
    try reflexivity. rewrite IH. reflexivity.
Qed.

Lemma select_map {X Y : Type} (f : X -> Y) (mask : list bool) (xs : list X) :
  select mask (map f xs) = map f (select mask xs).
Proof.
  revert xs. induction mask as [|b mask IH]; intros [|x xs]; simpl;
    try reflexivity; destruct b; simpl; rewrite ?IH; reflexivity.
Qed.

Lemma value_at_label_relabel (f : Z -> Z) (l : Z) (labels : list Z)
    (values : list fl) :
  (forall l', In l' labels -> f l' = f l -> l' = l) ->
  value_at_label (f l) (map f labels) values = value_at_label l labels values.
Proof.
  revert values. induction labels as [|l' labels IH]; intros values Hinj;
    simpl; [reflexivity|].
  destruct values as [|v values]; [reflexivity|].
  destruct (Z.eqb l' l) eqn:E.
  - apply Z.eqb_eq in E. subst. rewrite Z.eqb_refl. reflexivity.
  - destruct (Z.eqb (f l') (f l)) eqn:E'.
    + apply Z.eqb_eq in E'. apply Hinj in E'; [|left; reflexivity].
      apply Z.eqb_neq in E. contradiction.
    + apply IH. intros x Hx. apply Hinj. right. exact Hx.
Qed.

Lemma zip_relabel (f : Z -> Z) (labels : list Z) (values : list fl)
    (ix : list Z) (old : list fl) :
  (forall l l', In l ix -> In l' labels -> f l' = f l -> l' = l) ->
  zip_with (fun l x => match value_at_label l (map f labels) values with
                       | Some v => v
                       | None => x
                       end) (map f ix) old
  = zip_with (fun l x => match value_at_label l labels values with
                         | Some v => v
                         | None => x
                         end) ix old.
Proof.
  revert old. induction ix as [|l ix IH]; intros old Hinj; simpl;
    [reflexivity|].
  destruct old as [|o old]; [reflexivity|].
  rewrite value_at_label_relabel.
  - f_equal. apply IH. intros a b Ha. apply Hinj. right. exact Ha.
  - intros l' Hl'. apply Hinj; [left; reflexivity|exact Hl'].
Qed.

Lemma phase_intervals_relabel (f : Z -> Z) (index : list Z) (ts : list fl)
    (mask : list bool) (old : list fl) :
  (forall a b, In a index -> In b index -> f a = f b -> a = b) ->
  phase_intervals (map f index) ts mask old
  = phase_intervals index ts mask old.
Proof.
  intros Hinj. unfold phase_intervals.
  rewrite select_map, combine_relabel, sort_relabel.
  set (rows := sort_by_timestamp (combine (select mask index)
                                          (select mask ts))).
  assert (Hrows : forall l, In l (map fst rows) -> In l index).
  { intros l Hl. unfold rows in Hl.
    apply (Permutation_in _ (Permutation_sym
             (Permutation_map fst (sort_by_timestamp_perm _)))) in Hl.
    apply in_map_iff in Hl. destruct Hl as ([a b] & <- & Hab).
    apply in_combine_l in Hab. eapply select_in. exact Hab. }
  replace (map fst (relabel f rows)) with (map f (map fst rows))
    by (unfold relabel; rewrite !map_map; reflexivity).
  replace (map snd (relabel f rows)) with (map snd rows)
    by (unfold relabel; rewrite !map_map; reflexivity).
  apply zip_relabel.
  intros l l' Hl Hl' E. apply Hinj; auto.
Qed.

(** ** The four timestamps in any order *)

Definition four_rows : list fl := [Fin 0; Fin 5; Fin 10; Fin 17].

(** The interval a row with timestamp [t] must hold. *)
Definition interval_at (t iv : fl) : Prop :=
  (t = Fin 0 /\ iv = NaN) \/ (t = Fin 5 /\ iv = Fin 5)
  \/ (t = Fin 10 /\ iv = Fin 5) \/ (t = Fin 17 /\ iv = Fin 7).

Definition pick (l0 l1 l2 l3 : Z) (z : Z) : Z :=
  if Z.eqb z 0 then l0 else if Z.eqb z 1 then l1
  else if Z.eqb z 2 then l2 else l3.

Lemma four_labels (index : list Z) :
  List.length index = 4%nat -> NoDup index ->
  exists f, index = map f [0; 1; 2; 3]%Z
            /\ forall a b, In a [0; 1; 2; 3]%Z -> In b [0; 1; 2; 3]%Z ->
                           f a = f b -> a = b.
Proof.
  destruct index as [|l0 [|l1 [|l2 [|l3 [|? ?]]]]]; try discriminate.
  intros _ Hnd. exists (pick l0 l1 l2 l3). split; [reflexivity|].
  inversion Hnd as [|? ? H0 Hnd1]; subst.
  inversion Hnd1 as [|? ? H1 Hnd2]; subst.
  inversion Hnd2 as [|? ? H2 _]; subst.
  simpl in H0, H1, H2.
  intros a b Ha Hb. simpl in Ha, Hb.
  destruct Ha as [<-|[<-|[<-|[<-|[]]]]];
    destruct Hb as [<-|[<-|[<-|[<-|[]]]]]; unfold pick; simpl;
    intros E; try reflexivity; exfalso; intuition congruence.
Qed.

Lemma four_orders (ts : list fl) :
  Permutation ts four_rows ->
  exists a b c d, ts = [a; b; c; d]
    /\ In a four_rows /\ In b four_rows /\ In c four_rows /\ In d four_rows
    /\ a <> b /\ a <> c /\ a <> d /\ b <> c /\ b <> d /\ c <> d.
Proof.
  intros Hp. pose proof (Permutation_length Hp) as Hl.
  destruct ts as [|a [|b [|c [|d [|? ?]]]]]; try discriminate.
  exists a, b, c, d. split; [reflexivity|].
  assert (Hnd : NoDup [a; b; c; d]).
  { apply (Permutation_NoDup (Permutation_sym Hp)).
    repeat constructor; simpl; intuition discriminate. }
  assert (Hin : forall x, In x [a; b; c; d] -> In x four_rows)
    by (intros x; apply Permutation_in; exact Hp).
  inversion Hnd as [|? ? H0 Hnd1]; subst.
  inversion Hnd1 as [|? ? H1 Hnd2]; subst.
  inversion Hnd2 as [|? ? H2 _]; subst.
  simpl in H0, H1, H2.
  repeat split; try (apply Hin; simpl; tauto); intros E; subst; tauto.
Qed.

Lemma intervals_of_four (ts old : list fl) :
  Permutation ts four_rows -> List.length old = 4%nat ->
  Forall2 interval_at ts
          (phase_intervals [0; 1; 2; 3]%Z ts [true; true; true; true] old).
Proof.
  intros Hp Hold.
  destruct old as [|o0 [|o1 [|o2 [|o3 [|? ?]]]]]; try discriminate.
  destruct (four_orders ts Hp)
    as (a & b & c & d & -> & Ha & Hb & Hc & Hd & N).
  unfold four_rows in *. simpl in Ha, Hb, Hc, Hd.
  destruct N as (Nab & Nac & Nad & Nbc & Nbd & Ncd).
  destruct Ha as [<-|[<-|[<-|[<-|[]]]]];
    destruct Hb as [<-|[<-|[<-|[<-|[]]]]];
    try (exfalso; apply Nab; reflexivity);
    destruct Hc as [<-|[<-|[<-|[<-|[]]]]];
    try (exfalso; apply Nac; reflexivity);
    try (exfalso; apply Nbc; reflexivity);
    destruct Hd as [<-|[<-|[<-|[<-|[]]]]];
    try (exfalso; apply Nad; reflexivity);
    try (exfalso; apply Nbd; reflexivity);
    try (exfalso; apply Ncd; reflexivity);
    vm_compute; repeat apply Forall2_cons; try apply Forall2_nil;
    unfold interval_at; auto 8.
Qed.

(** ** One phase *)

Lemma string_app_inv_l (p x y : string) :
  (p ++ x)%string = (p ++ y)%string -> x = y.
Proof.
  induction p as [|c p IH]; simpl; intros E; [exact E|].
  injection E as E. apply IH. exact E.
Qed.

Lemma eq_mask_repeat (p : string) (n : nat) :
  eq_mask (map OStr (repeat p n)) (OStr p) = repeat true n.
Proof.
  induction n as [|n IH]; simpl; [reflexivity|].
  rewrite String.eqb_refl. f_equal. exact IH.
Qed.

Lemma unique_onto_repeat (p : string) (n : nat) :
  unique_onto [OStr p] (map OStr (repeat p n)) = OK [OStr p].
Proof.
  induction n as [|n IH]; [reflexivity|].
  cbn [repeat map unique_onto existsb].
  unfold same_value. cbn [obj_eqb].
  rewrite String.eqb_refl. exact IH.
Qed.

Lemma unique_repeat (p : string) (n : nat) :
  unique (map OStr (repeat p (S n))) = OK [OStr p].
Proof. unfold unique. simpl. apply unique_onto_repeat. Qed.

Lemma select_all {A : Type} (xs : list A) :
  select (repeat true (List.length xs)) xs = xs.
Proof. induction xs as [|x xs IH]; simpl; [reflexivity|]. rewrite IH. reflexivity. Qed.

Section FourRows.
Context {B : Builtins}.

(** What the interval loop reads: the labels, the timestamps, the phase. *)
Definition core (idx : list Z) (ts : list fl) (p : string) (df : DataFrame)
  : Prop :=
  df_index df = idx
  /\ get_col "timestamp" df = Some (of_floats ts)
  /\ get_col "phase" df = Some (map OStr (repeat p 4)).

Definition all_rows : list bool := [true; true; true; true].

Lemma intervals_for_single (sid : string) (idx : list Z) (ts : list fl)
    (p : string) (df : DataFrame) :
  plain df -> core idx ts p df -> List.length idx = 4%nat ->
  exists old,
    List.length old = 4%nat
    /\ intervals_for ("temperature_" ++ sid) df
       = OK (set_col ("reporting_interval_" ++ sid)
                     (of_floats (phase_intervals idx ts all_rows old)) df).
Proof.
  intros P (I & Gt & Gp) L4.
  unfold intervals_for. rewrite temperature_parts. cbn [bind].
  unfold phases_of, objs. rewrite Gp. cbn [bind].
  rewrite (unique_repeat p 3). cbn [bind fold_res].
  destruct (cells_plain df ("reporting_interval_" ++ sid) P eq_refl)
    as (old & Hc & Lo).
  assert (Hn : nrows df = 4%nat) by (unfold nrows; rewrite I; exact L4).
  exists old. split; [congruence|].
  rewrite (intervals_for_phase_eq _ (OStr p) df (repeat p 4) ts old).
  - cbn [bind]. rewrite (eq_mask_repeat p 4). rewrite I.
    change (repeat true 4) with all_rows.
    destruct idx as [|? [|? [|? [|? [|? ?]]]]]; try discriminate.
    reflexivity.
  - apply P.
  - unfold objs. rewrite Gp. reflexivity.
  - unfold floats. rewrite Gt. apply as_floats_of_floats.
  - exact Hc.
Qed.

Lemma fold_intervals_single (col_id : string) (idx : list Z) (ts : list fl)
    (p : string) (cols : list string) :
  List.length idx = 4%nat ->
  Forall (fun col => startswith "temperature_" col = true) cols ->
  forall df,
    plain df -> core idx ts p df ->
    In ("temperature_" ++ col_id)%string cols
    \/ (exists old, List.length old = 4%nat
                    /\ get_col ("reporting_interval_" ++ col_id) df
                       = Some (of_floats
                                 (phase_intervals idx ts all_rows old))) ->
    exists df' old,
      fold_res intervals_for cols df = OK df'
      /\ List.length old = 4%nat
      /\ get_col ("reporting_interval_" ++ col_id) df'
         = Some (of_floats (phase_intervals idx ts all_rows old)).
Proof.
  intros L4 Hall. induction Hall as [|col cols Hcol _ IH];
    intros df P C Hz.
  - destruct Hz as [[]|(old & Lo & G)]. exists df, old. auto.
  - apply startswith_app in Hcol. destruct Hcol as [sid ->].
    destruct (intervals_for_single sid idx ts p df P C L4) as (old & Lo & E).
    cbn [fold_res]. rewrite E. cbn [bind].
    set (df1 := set_col ("reporting_interval_" ++ sid)
                        (of_floats (phase_intervals idx ts all_rows old)) df).
    assert (Hn : nrows df = 4%nat)
      by (unfold nrows; destruct C as (I & _); rewrite I; exact L4).
    assert (P1 : plain df1).
    { apply plain_set_col; [exact P| |name_neq|name_neq].
      rewrite phase_intervals_length; congruence. }
    assert (C1 : core idx ts p df1).
    { destruct C as (I & Gt & Gp). split; [exact I|]. split.
      - unfold df1. rewrite get_set_other; [exact Gt|name_neq].
      - unfold df1. rewrite get_set_other; [exact Gp|name_neq]. }
    apply (IH df1 P1 C1).
    destruct (string_dec sid col_id) as [->|Hne].
    + right. exists old. split; [exact Lo|]. apply get_set_same.
    + destruct Hz as [[Hc|Hin]|(old' & Lo' & G)].
      * exfalso. apply Hne. apply (string_app_inv_l "temperature_").
        exact Hc.
      * left. exact Hin.
      * right. exists old'. split; [exact Lo'|].
        unfold df1. rewrite get_set_other; [exact G|].
        intros Heq. apply Hne. symmetry.
        apply (string_app_inv_l "reporting_interval_"). exact Heq.
Qed.
End FourRows.

Section FourRowsClaim.
Context {B : Builtins}.

Lemma interval_not_written (sid : string) :
  startswith "network_sent_rate_" ("reporting_interval_" ++ sid) = false
  /\ startswith "network_received_rate_" ("reporting_interval_" ++ sid)
     = false
  /\ W_lat ("reporting_interval_" ++ sid) = false
  /\ W_roll ("reporting_interval_" ++ sid) = false
  /\ W_stab ("reporting_interval_" ++ sid) = false
  /\ W_cum ("reporting_interval_" ++ sid) = false.
Proof. repeat split; reflexivity. Qed.

(** C7.  Take a regular table of one phase whose four rows carry a sensor
    temperature column and the timestamps 0, 5, 10, 17 in any row order.
    The calculator returns a table with the same rows (same labels in the
    same order, same timestamps) in which the sensor's reporting-interval
    column holds NaN in the row with timestamp 0, 5 in the row with
    timestamp 5, 5 in the row with timestamp 10 and 7 in the row with
    timestamp 17. *)
Theorem reporting_intervals_by_row (df : DataFrame) (sid p : string)
    (ts : list fl) :
  regular df ->
  has_col ("temperature_" ++ sid) df = true ->
  floats "timestamp" df = OK ts ->
  Permutation ts four_rows ->
  get_col "phase" df = Some (map OStr (repeat p (nrows df))) ->
  exists df' intervals,
    calculate_derived_metrics df = OK df'
    /\ df_index df' = df_index df
    /\ floats "timestamp" df' = OK ts
    /\ floats ("reporting_interval_" ++ sid) df' = OK intervals
    /\ Forall2 interval_at ts intervals.
Proof.
  intros R Hcol Ft Hperm Gp.
  destruct (regular_timestamp df R) as (ts' & Ft' & Gt & Lt).
  rewrite Ft in Ft'. injection Ft' as <-.
  assert (L4 : List.length ts = 4%nat)
    by (rewrite (Permutation_length Hperm); reflexivity).
  assert (Hn : nrows df = 4%nat) by congruence.
  assert (Em : df_empty df = false).
  { unfold df_empty. apply orb_false_iff. split; apply Nat.eqb_neq.
    - lia.
    - unfold get_col in Gt. destruct (df_columns df); discriminate. }
  destruct (calculate_derived_metrics_stages df R Em)
    as (d0 & d1 & d2 & d3 & d4 & d5 & d6 & d7 & d8
        & _ & P0 & I0 & G0 & Gp0 & S & E).
  destruct (stages_index _ _ _ _ _ _ _ _ _ S) as (I4 & I5 & I8).
  pose proof (st_dev_ext _ _ _ _ _ _ _ _ _ S) as (I1 & G1 & _).
  pose proof (st_int_ext _ _ _ _ _ _ _ _ _ S) as (I2 & G2 & _).
  (* what the interval loop reads is what the table came with *)
  assert (C1 : core (df_index df) ts p d1).
  { split; [congruence|]. split.
    - rewrite G1 by reflexivity. rewrite G0 by reflexivity. exact Gt.
    - rewrite G1 by reflexivity. rewrite Gp0, Gp, Hn. reflexivity. }
  assert (Hin : In ("temperature_" ++ sid)%string (temperature_columns d0)).
  { apply filter_In. split.
    - apply has_col_in. apply has_col_get. rewrite G0 by reflexivity.
      apply has_col_get. exact Hcol.
    - unfold startswith. apply prefix_of_app. }
  destruct (fold_intervals_single sid (df_index df) ts p
              (temperature_columns d0) Hn (temperature_columns_prefix d0)
              d1 (st_dev_plain _ _ _ _ _ _ _ _ _ S) C1 (or_introl Hin))
    as (d2' & old & E2 & Lo & Gi).
  rewrite (st_int _ _ _ _ _ _ _ _ _ S) in E2. injection E2 as <-.
  (* the later blocks leave the column and the timestamps alone *)
  destruct (interval_not_written sid) as (W3 & W4 & W5 & W6 & W7 & W8).
  assert (Gi8 : get_col ("reporting_interval_" ++ sid) d8
                = Some (of_floats
                          (phase_intervals (df_index df) ts all_rows old))).
  { rewrite (stages_after_latency _ _ _ _ _ _ _ _ _ _ S W6 W7 W8).
    destruct (st_lat_ext _ _ _ _ _ _ _ _ _ S) as (_ & Gl & _).
    destruct (st_recv_ext _ _ _ _ _ _ _ _ _ S) as (_ & Gr & _).
    destruct (st_sent_ext _ _ _ _ _ _ _ _ _ S) as (_ & Gs & _).
    rewrite Gl, Gr, Gs; assumption. }
  assert (Gt8 : get_col "timestamp" d8 = Some (of_floats ts)).
  { rewrite (stages_after_latency _ _ _ _ _ _ _ _ _ "timestamp" S);
      try reflexivity.
    destruct (st_lat_ext _ _ _ _ _ _ _ _ _ S) as (_ & Gl & _).
    rewrite Gl by reflexivity.
    rewrite (stages_before_latency _ _ _ _ _ _ _ _ _ "timestamp" S);
      try reflexivity.
    rewrite G0 by reflexivity. exact Gt. }
  exists d8, (phase_intervals (df_index df) ts all_rows old).
  split; [exact E|]. split; [congruence|]. split.
  { unfold floats. rewrite Gt8. apply as_floats_of_floats. }
  split.
  { unfold floats. rewrite Gi8. apply as_floats_of_floats. }
  destruct (four_labels (df_index df) Hn (reg_labels df R)) as (f & Hf & Hinj).
  rewrite Hf, phase_intervals_relabel by exact Hinj.
  apply intervals_of_four; assumption.
Qed.
End FourRowsClaim.

(** * Impact analysis *)

(** The columns [analyze_impact] averages without converting them first. *)
Definition stat_column (n : string) : bool :=
  (startswith "cpu_" n || startswith "memory_" n
   || contains "true_dev_" n)%bool.

(** A table [analyze_impact] can summarise: an experiment label and a phase
    name in every row, and floats in the CPU, memory and deviation
    columns, none of which is named like a method column. *)
Record analysable (df : DataFrame) (faults phases : list string) : Prop := {
  an_faults : get_col "vulnerability_type" df = Some (map OStr faults);
  an_phases : get_col "phase" df = Some (map OStr phases);
  an_faults_len : List.length faults = nrows df;
  an_phases_len : List.length phases = nrows df;
  an_stats : forall n c,
      get_col n df = Some c -> stat_column n = true ->
      endswith "_method" n = false
      /\ exists xs, c = of_floats xs /\ List.length xs = nrows df
}.

(** The rows of experiment [label] in phase [phase]. *)
Definition rows_of (faults phases : list string) (label phase : string)
  : list bool :=
  and_mask (eq_mask (map OStr faults) (OStr label))
           (eq_mask (map OStr phases) (OStr phase)).

(** Every CPU column reads [v] in the rows of [label] and [phase]. *)
Definition cpu_reads (df : DataFrame) (faults phases : list string)
    (label phase : string) (v : fl) : Prop :=
  forall n xs i,
    get_col n df = Some (of_floats xs) -> startswith "cpu_" n = true ->
    nth_error faults i = Some label -> nth_error phases i = Some phase ->
    nth_error xs i = Some v.

(** Some row belongs to [label] and [phase]. *)
Definition has_row (faults phases : list string) (label phase : string)
  : Prop :=
  exists i, nth_error faults i = Some label
            /\ nth_error phases i = Some phase.

Section ImpactFacts.
Context {B : Builtins}.
Local Open Scope string_scope.

Lemma get_coerce_columns (n : string) (df : DataFrame) :
  get_col n (coerce_columns df)
  = if endswith "_method" n
    then option_map (map astype_str) (get_col n df)
    else if is_latency_ms_value n
         then option_map (fun c => of_floats (map to_numeric c)) (get_col n df)
         else get_col n df.
Proof.
  unfold get_col, coerce_columns. simpl.
  induction (df_columns df) as [|[m c] cols IH]; simpl.
  - destruct (endswith "_method" n); [reflexivity|].
    destruct (is_latency_ms_value n); reflexivity.
  - destruct (endswith "_method" m) eqn:Em; simpl.
    + destruct (String.eqb m n) eqn:E; [|exact IH].
      apply String.eqb_eq in E. subst m. rewrite Em. reflexivity.
    + destruct (is_latency_ms_value m) eqn:El; simpl;
        (destruct (String.eqb m n) eqn:E; [|exact IH]);
        apply String.eqb_eq in E; subst m; rewrite Em, El; reflexivity.
Qed.

Lemma names_coerce_columns (df : DataFrame) :
  names (coerce_columns df) = names df.
Proof.
  unfold names, coerce_columns. simpl. rewrite map_map.
  apply map_ext. intros [m c]. simpl.
  destruct (endswith "_method" m); [reflexivity|].
  destruct (is_latency_ms_value m); reflexivity.
Qed.

Lemma to_numeric_of_floats (xs : list fl) :
  map to_numeric (of_floats xs) = xs.
Proof.
  unfold of_floats. rewrite map_map. simpl. apply map_id.
Qed.

Lemma analysable_coerced df faults phases :
  analysable df faults phases -> analysable (coerce_columns df) faults phases.
Proof.
  intros A. constructor.
  - rewrite get_coerce_columns. simpl. apply A.
  - rewrite get_coerce_columns. simpl. apply A.
  - apply A.
  - apply A.
  - intros n c G S. rewrite get_coerce_columns in G.
    destruct (get_col n df) as [c0|] eqn:G0.
    2:{ destruct (endswith "_method" n); [discriminate|].
        destruct (is_latency_ms_value n); discriminate. }
    destruct (an_stats df faults phases A n c0 G0 S) as (Em & xs & -> & L).
    rewrite Em in G. split; [exact Em|]. exists xs.
    destruct (is_latency_ms_value n); simpl in G; injection G as <-.
    + rewrite to_numeric_of_floats. auto.
    + auto.
Qed.

Lemma analysable_floats df faults phases n :
  analysable df faults phases -> In n (names df) -> stat_column n = true ->
  exists xs, floats n df = OK xs /\ get_col n df = Some (of_floats xs).
Proof.
  intros A I S. apply has_col_in, has_col_get in I. destruct I as [c G].
  destruct (an_stats df faults phases A n c G S) as (_ & xs & -> & _).
  exists xs. unfold floats. rewrite G, as_floats_of_floats. auto.
Qed.

Lemma per_column_total (f : list fl -> fl) (mask : list bool)
    (cols : list string) (df : DataFrame) :
  (forall col, In col cols -> exists xs, floats col df = OK xs) ->
  exists vals, per_column f mask cols df = OK vals.
Proof.
  induction cols as [|col cols IH]; intros H; simpl.
  - eexists. reflexivity.
  - destruct (H col (or_introl eq_refl)) as [xs ->].
    destruct IH as [vals ->]; [intros c I; apply H; right; exact I|].
    cbn [bind]. eexists. reflexivity.
Qed.

Lemma per_column_values (f : list fl -> fl) (mask : list bool)
    (cols : list string) (df : DataFrame) (vals : list fl) :
  per_column f mask cols df = OK vals ->
  Forall2 (fun col v => exists xs, floats col df = OK xs
                                   /\ v = f (select mask xs)) cols vals.
Proof.
  revert vals. induction cols as [|col cols IH]; intros vals; simpl.
  - intros E. injection E as <-. constructor.
  - destruct (floats col df) as [xs|] eqn:F; [|discriminate]. cbn [bind].
    destruct (per_column f mask cols df) as [others|]; [|discriminate].
    cbn [bind]. intros E. injection E as <-. constructor.
    + exists xs. auto.
    + apply IH. reflexivity.
Qed.

Lemma per_numeric_column_total (f : list fl -> fl) (mask : list bool)
    (cols : list string) (df : DataFrame) :
  (forall col, In col cols -> has_col col df = true) ->
  exists vals, per_numeric_column f mask cols df = OK vals.
Proof.
  induction cols as [|col cols IH]; intros H; simpl.
  - eexists. reflexivity.
  - destruct (proj1 (has_col_get col df) (H col (or_introl eq_refl)))
      as [c G].
    unfold objs. rewrite G. cbn [bind].
    destruct IH as [vals ->]; [intros c' I; apply H; right; exact I|].
    cbn [bind]. eexists. reflexivity.
Qed.

Lemma cleaned_means_total (clean : list fl -> list fl) (mask : list bool)
    (cols : list string) (df : DataFrame) :
  (forall col, In col cols -> has_col col df = true) ->
  exists vals, cleaned_means clean mask cols df = OK vals.
Proof.
  induction cols as [|col cols IH]; intros H; simpl.
  - eexists. reflexivity.
  - destruct (proj1 (has_col_get col df) (H col (or_introl eq_refl)))
      as [c G].
    unfold objs. rewrite G. cbn [bind].
    destruct IH as [vals ->]; [intros c' I; apply H; right; exact I|].
    cbn [bind].
    destruct (clean (map to_numeric (drop_missing (select mask c))));
      eexists; reflexivity.
Qed.

Lemma filtered_names_present (p : string -> bool) (df : DataFrame) :
  forall col, In col (filter p (names df)) -> has_col col df = true.
Proof.
  intros col I. apply filter_In in I. apply has_col_in. apply I.
Qed.

(** What a summary row says about the CPU columns. *)
Definition cpu_row (df : DataFrame) (mask : list bool) (r : PhaseSummary)
  : Prop :=
  exists cpu_avg,
    per_column nanmean mask (filter (startswith "cpu_") (names df)) df
    = OK cpu_avg
    /\ avg_cpu r = or_nan np_mean cpu_avg.

Lemma summarize_phase_row (vt : string) (df : DataFrame)
    (faults phases : list string) (f ph : obj) :
  analysable df faults phases ->
  let mask := and_mask (eq_mask (map OStr faults) f)
                       (eq_mask (map OStr phases) ph) in
  exists row,
    summarize_phase vt df f ph = OK row
    /\ match row with
       | None => count_true mask = 0%nat
       | Some r => count_true mask <> 0%nat
                   /\ s_fault_type r = f /\ s_phase r = ph
                   /\ cpu_row df mask r
       end.
Proof.
  intros A mask. unfold summarize_phase, objs.
  rewrite (an_faults df faults phases A), (an_phases df faults phases A).
  cbn [bind]. fold mask.
  destruct (Nat.eqb_spec (count_true mask) 0) as [Z|NZ].
  { exists None. auto. }
  assert (S : forall (p : string -> bool) g,
             (forall n, p n = true -> stat_column n = true) ->
             exists vals, per_column g mask (filter p (names df)) df
                          = OK vals).
  { intros p g Hp. apply per_column_total. intros col I.
    apply filter_In in I. destruct I as [I Pc].
    destruct (analysable_floats df faults phases col A I (Hp col Pc))
      as (xs & F & _).
    exists xs. exact F. }
  destruct (S (startswith "cpu_") nanmean) as [cpu_avg E1].
  { intros n H. unfold stat_column. rewrite H. reflexivity. }
  destruct (S (startswith "cpu_") nanmax) as [cpu_max E2].
  { intros n H. unfold stat_column. rewrite H. reflexivity. }
  destruct (S (startswith "memory_") nanmean) as [mem_avg E3].
  { intros n H. unfold stat_column. rewrite H.
    rewrite ?orb_true_r, ?orb_true_l. reflexivity. }
  destruct (S (startswith "memory_") nanmax) as [mem_max E4].
  { intros n H. unfold stat_column. rewrite H.
    rewrite ?orb_true_r, ?orb_true_l. reflexivity. }
  destruct (S (contains "true_dev_") nanmean) as [dev_avg E5].
  { intros n H. unfold stat_column. rewrite H.
    rewrite ?orb_true_r, ?orb_true_l. reflexivity. }
  destruct (S (contains "true_dev_") nanmax) as [dev_max E6].
  { intros n H. unfold stat_column. rewrite H.
    rewrite ?orb_true_r, ?orb_true_l. reflexivity. }
  rewrite E1, E2, E3, E4, E5, E6. cbn [bind].
  destruct (per_numeric_column_total nanmean mask
              (filter is_latency_ms_value (names df)) df
              (filtered_names_present _ df)) as [lat_avg ->].
  destruct (per_numeric_column_total nanmax mask
              (filter is_latency_ms_value (names df)) df
              (filtered_names_present _ df)) as [lat_max ->].
  cbn [bind].
  assert (R : forall g,
             exists vals,
               (if has_col "response_time_ms" df
                then per_numeric_column g mask ["response_time_ms"] df
                else OK []) = OK vals).
  { intros g. destruct (has_col "response_time_ms" df) eqn:H.
    - apply per_numeric_column_total. intros col [<-|[]]. exact H.
    - eexists. reflexivity. }
  assert (L1 : exists vals,
             match lat_avg with
             | [] => if has_col "response_time_ms" df
                     then per_numeric_column nanmean mask
                                             ["response_time_ms"] df
                     else OK []
             | _ => OK lat_avg
             end = OK vals).
  { destruct lat_avg; [apply R|eexists; reflexivity]. }
  assert (L2 : exists vals,
             match lat_max with
             | [] => if has_col "response_time_ms" df
                     then per_numeric_column nanmax mask
                                             ["response_time_ms"] df
                     else OK []
             | _ => OK lat_max
             end = OK vals).
  { destruct lat_max; [apply R|eexists; reflexivity]. }
  destruct L1 as [la ->]. destruct L2 as [lm ->]. cbn [bind].
  destruct (cleaned_means_total genuine_intervals mask
              (filter (startswith "reporting_interval_") (names df)) df
              (filtered_names_present _ df)) as [ai ->].
  destruct (cleaned_means_total (fun xs => xs) mask
              (filter (startswith "interval_stability_") (names df)) df
              (filtered_names_present _ df)) as [sm ->].
  cbn [bind].
  match goal with
  | |- context [cleaned_means positive_only mask (filter ?p (filter ?q _)) df] =>
      destruct (cleaned_means_total positive_only mask
                  (filter p (filter q (names df))) df) as [nr ->]
  end.
  { intros col I. apply filter_In in I.
    apply (filtered_names_present _ df col (proj1 I)). }
  cbn [bind]. eexists. split; [reflexivity|]. cbn.
  split; [exact NZ|]. split; [reflexivity|]. split; [reflexivity|].
  exists cpu_avg. split; [exact E1|reflexivity].
Qed.

(** *** The summary table *)

Lemma summarize_phases_rows (vt : string) (df : DataFrame) (f : obj)
    (phs : list obj) (rows : list PhaseSummary) :
  summarize_phases vt df f phs = OK rows ->
  forall r, In r rows <->
            exists ph, In ph phs /\ summarize_phase vt df f ph = OK (Some r).
Proof.
  revert rows. induction phs as [|ph phs IH]; intros rows; simpl.
  - intros E. injection E as <-. intros r. split; [intros []|].
    intros (ph & [] & _).
  - destruct (summarize_phase vt df f ph) as [row|] eqn:E1; [|discriminate].
    cbn [bind].
    destruct (summarize_phases vt df f phs) as [rest|] eqn:E2;
      [|discriminate].
    cbn [bind]. intros E. injection E as <-. intros r.
    specialize (IH rest eq_refl r). split.
    + intros I. destruct row as [r0|].
      * destruct I as [<-|I].
        -- exists ph. auto.
        -- apply IH in I. destruct I as (ph' & I & S). exists ph'. auto.
      * apply IH in I. destruct I as (ph' & I & S). exists ph'. auto.
    + intros (ph' & [<-|I] & S).
      * rewrite E1 in S. injection S as ->. left. reflexivity.
      * assert (In r rest) by (apply IH; exists ph'; auto).
        destruct row; [right|]; assumption.
Qed.

Lemma summarize_rows (vt : string) (df : DataFrame) (fts phs : list obj)
    (rows : list PhaseSummary) :
  summarize vt df fts phs = OK rows ->
  forall r, In r rows <->
            exists f ph, In f fts /\ In ph phs
                         /\ summarize_phase vt df f ph = OK (Some r).
Proof.
  revert rows. induction fts as [|f fts IH]; intros rows; simpl.
  - intros E. injection E as <-. intros r. split; [intros []|].
    intros (f & ph & [] & _).
  - destruct (summarize_phases vt df f phs) as [here|] eqn:E1;
      [|discriminate].
    cbn [bind].
    destruct (summarize vt df fts phs) as [more|] eqn:E2; [|discriminate].
    cbn [bind]. intros E. injection E as <-. intros r.
    specialize (IH more eq_refl r).
    pose proof (summarize_phases_rows vt df f phs here E1 r) as H1.
    rewrite in_app_iff. split.
    + intros [I|I].
      * apply H1 in I. destruct I as (ph & I & S). exists f, ph. auto.
      * apply IH in I. destruct I as (f' & ph & I1 & I2 & S).
        exists f', ph. auto.
    + intros (f' & ph & [<-|I1] & I2 & S).
      * left. apply H1. exists ph. auto.
      * right. apply IH. exists f', ph. auto.
Qed.

Lemma summarize_phases_total (vt : string) (df : DataFrame)
    (faults phases : list string) (f : obj) (phs : list obj) :
  analysable df faults phases ->
  exists rows, summarize_phases vt df f phs = OK rows.
Proof.
  intros A. induction phs as [|ph phs [rows IH]]; simpl.
  - eexists. reflexivity.
  - destruct (summarize_phase_row vt df faults phases f ph A)
      as (row & -> & _).
    rewrite IH. cbn [bind]. eexists. reflexivity.
Qed.

Lemma summarize_total (vt : string) (df : DataFrame)
    (faults phases : list string) (fts phs : list obj) :
  analysable df faults phases ->
  exists rows, summarize vt df fts phs = OK rows.
Proof.
  intros A. induction fts as [|f fts [more IH]]; simpl.
  - eexists. reflexivity.
  - destruct (summarize_phases_total vt df faults phases f phs A)
      as [rows ->].
    rewrite IH. cbn [bind]. eexists. reflexivity.
Qed.

(** *** Distinct values of a column of strings *)

Lemma same_value_string (p : string) (o : obj) :
  same_value (OStr p) o = true -> o = OStr p.
Proof.
  unfold same_value. simpl. rewrite orb_false_r.
  destruct o; try discriminate.
  intros E. apply String.eqb_eq in E. subst. reflexivity.
Qed.

Lemma obj_eqb_string (o : obj) (p : string) :
  obj_eqb o (OStr p) = true -> o = OStr p.
Proof.
  destruct o; try discriminate. simpl.
  intros E. apply String.eqb_eq in E. subst. reflexivity.
Qed.

Lemma unique_onto_strings_in (ps : list string) (seen us : list obj) :
  unique_onto seen (map OStr ps) = OK us ->
  (forall o, In o seen -> In o us)
  /\ (forall p, In p ps -> In (OStr p) us).
Proof.
  revert seen. induction ps as [|p ps IH]; intros seen; simpl.
  - intros E. injection E as <-. split; [auto|intros p []].
  - destruct (existsb (same_value (OStr p)) seen) eqn:X; intros E;
      destruct (IH _ E) as [K1 K2].
    + split; [exact K1|]. intros q [<-|I]; [|auto].
      apply existsb_exists in X. destruct X as (o & I & S).
      apply same_value_string in S. subst o. auto.
    + split.
      * intros o I. apply K1, in_or_app. auto.
      * intros q [<-|I]; [|auto]. apply K1, in_or_app. right. left.
        reflexivity.
Qed.

(** *** Rows of one experiment and phase *)

Lemma rows_of_cons (f p label phase : string) (faults phases : list string) :
  rows_of (f :: faults) (p :: phases) label phase
  = (String.eqb f label && String.eqb p phase)
      :: rows_of faults phases label phase.
Proof. reflexivity. Qed.

Lemma select_rows_constant (faults phases : list string)
    (label phase : string) (xs : list fl) (v : fl) :
  (forall i, nth_error faults i = Some label ->
             nth_error phases i = Some phase ->
             nth_error xs i = Some v) ->
  select (rows_of faults phases label phase) xs
  = repeat v (count_true (rows_of faults phases label phase)).
Proof.
  revert phases xs. induction faults as [|f faults IH]; intros phases xs H.
  - reflexivity.
  - destruct phases as [|p phases]; [reflexivity|].
    rewrite rows_of_cons.
    assert (T : forall ys,
               (forall i, nth_error faults i = Some label ->
                          nth_error phases i = Some phase ->
                          nth_error ys i = Some v) ->
               select (rows_of faults phases label phase) ys
               = repeat v (count_true (rows_of faults phases label phase)))
      by (intros ys Hy; apply IH; exact Hy).
    destruct (String.eqb f label && String.eqb p phase) eqn:E.
    + apply andb_prop in E. destruct E as [E1 E2].
      apply String.eqb_eq in E1, E2. subst f p.
      pose proof (H 0%nat eq_refl eq_refl) as H0.
      destruct xs as [|x xs]; [discriminate|]. injection H0 as ->.
      unfold count_true. simpl. f_equal.
      apply T. intros i Hf Hp. exact (H (S i) Hf Hp).
    + destruct xs as [|x xs].
      * unfold count_true. simpl.
        fold (count_true (rows_of faults phases label phase)).
        rewrite <- (T []).
        -- destruct (rows_of faults phases label phase) as [|[] ?];
             reflexivity.
        -- intros i Hf Hp. specialize (H (S i) Hf Hp).
           destruct i; discriminate.
      * unfold count_true. simpl. apply T.
        intros i Hf Hp. exact (H (S i) Hf Hp).
Qed.

Lemma rows_of_present (faults phases : list string) (label phase : string) :
  (exists i, nth_error faults i = Some label
             /\ nth_error phases i = Some phase) ->
  count_true (rows_of faults phases label phase) <> 0%nat.
Proof.
  intros (i & Hf & Hp). revert faults phases Hf Hp.
  induction i as [|i IH]; intros [|f faults] [|p phases] Hf Hp;
    try discriminate; rewrite rows_of_cons.
  - injection Hf as ->. injection Hp as ->.
    rewrite !String.eqb_refl. unfold count_true. simpl. discriminate.
  - simpl in Hf, Hp. specialize (IH faults phases Hf Hp).
    unfold count_true in *. simpl.
    destruct (String.eqb f label && String.eqb p phase); simpl; [lia|].
    exact IH.
Qed.

(** *** The CPU average of a phase *)

Lemma dropna_repeat (q : Q) (k : nat) :
  dropna (repeat (Fin q) k) = repeat (Fin q) k.
Proof.
  unfold dropna. induction k as [|k IH]; simpl; [reflexivity|].
  rewrite IH. reflexivity.
Qed.

Lemma nanmean_repeat (q : Q) (k : nat) :
  k <> 0%nat -> Qred q = q -> nanmean (repeat (Fin q) k) = Fin q.
Proof.
  intros Hk Hq. unfold nanmean. rewrite dropna_repeat.
  destruct k as [|k]; [contradiction|].
  cbn [repeat].
  change (Fin q :: repeat (Fin q) k) with (repeat (Fin q) (S k)).
  apply np_mean_repeat_canonical; [lia|exact Hq].
Qed.

Lemma constant_values (cols : list string) (df : DataFrame)
    (mask : list bool) (vals : list fl) (v : fl) :
  Forall2 (fun col x => exists xs, floats col df = OK xs
                                   /\ x = nanmean (select mask xs))
          cols vals ->
  (forall col xs, In col cols -> floats col df = OK xs ->
                  nanmean (select mask xs) = v) ->
  vals = repeat v (List.length cols).
Proof.
  induction 1 as [|col x cols vals (xs & F & ->) _ IH]; intros H.
  - reflexivity.
  - simpl. f_equal.
    + apply (H col xs); [left; reflexivity|exact F].
    + apply IH. intros c ys I. apply H. right. exact I.
Qed.

Lemma avg_cpu_constant (vt : string) (df : DataFrame)
    (faults phases : list string) (label phase : string) (q : Q)
    (r : PhaseSummary) :
  analysable df faults phases ->
  (exists n, In n (names df) /\ startswith "cpu_" n = true) ->
  cpu_reads df faults phases label phase (Fin q) ->
  Qred q = q ->
  summarize_phase vt df (OStr label) (OStr phase) = OK (Some r) ->
  avg_cpu r = Fin q.
Proof.
  intros A (n0 & I0 & S0) Hr Hq E.
  destruct (summarize_phase_row vt df faults phases (OStr label)
              (OStr phase) A) as (row & E' & K).
  rewrite E in E'. injection E' as <-.
  destruct K as (NZ & _ & _ & cpu_avg & P & ->).
  fold (rows_of faults phases label phase) in NZ, P.
  set (mask := rows_of faults phases label phase) in *.
  set (cols := filter (startswith "cpu_") (names df)) in *.
  apply per_column_values in P.
  assert (V : cpu_avg = repeat (Fin q) (List.length cols)).
  { apply (constant_values cols df mask); [exact P|].
    intros col xs I F. apply filter_In in I. destruct I as [I S].
    assert (St : stat_column col = true)
      by (unfold stat_column; rewrite S; reflexivity).
    destruct (analysable_floats df faults phases col A I St)
      as (ys & F' & G).
    rewrite F in F'. injection F' as <-.
    unfold mask. rewrite (select_rows_constant faults phases label phase xs (Fin q)).
    - apply nanmean_repeat; assumption.
    - intros i Hf Hp. exact (Hr col xs i G S Hf Hp). }
  assert (Lc : cols <> []).
  { intros Z. assert (In n0 cols) by (apply filter_In; auto).
    rewrite Z in H. exact H. }
  rewrite V. destruct cols as [|c cols]; [contradiction|].
  cbn [List.length repeat or_nan].
  change (Fin q :: repeat (Fin q) (List.length cols))
    with (repeat (Fin q) (S (List.length cols))).
  apply np_mean_repeat_canonical; [lia|exact Hq].
Qed.

(** *** The impact record *)

Lemma summary_rows_of_phase (vt : string) (df : DataFrame)
    (faults phases : list string) (fts phs : list obj)
    (summary : list PhaseSummary) (label phase : string) :
  analysable df faults phases ->
  summarize vt df fts phs = OK summary ->
  In (OStr label) fts -> In (OStr phase) phs ->
  has_row faults phases label phase ->
  exists r rest,
    summary_rows summary (OStr label) phase = r :: rest
    /\ summarize_phase vt df (OStr label) (OStr phase) = OK (Some r).
Proof.
  intros A E If Ip Hrow.
  pose proof (summarize_rows vt df fts phs summary E) as M.
  destruct (summarize_phase_row vt df faults phases (OStr label)
              (OStr phase) A) as (row & E1 & K).
  destruct row as [r0|].
  2:{ exfalso. exact (rows_of_present faults phases label phase Hrow K). }
  destruct K as (_ & Kf & Kp & _).
  assert (I0 : In r0 (summary_rows summary (OStr label) phase)).
  { unfold summary_rows. apply filter_In. split.
    - apply M. exists (OStr label), (OStr phase). auto.
    - rewrite Kf, Kp. simpl. rewrite !String.eqb_refl. reflexivity. }
  destruct (summary_rows summary (OStr label) phase) as [|r rest] eqn:S;
    [destruct I0|].
  exists r, rest. split; [reflexivity|].
  assert (I : In r (summary_rows summary (OStr label) phase))
    by (rewrite S; left; reflexivity).
  unfold summary_rows in I. apply filter_In in I. destruct I as [I X].
  apply andb_prop in X. destruct X as [X1 X2].
  apply obj_eqb_string in X1, X2.
  apply M in I. destruct I as (f & ph & _ & _ & Sp).
  destruct (summarize_phase_row vt df faults phases f ph A)
    as (row & Sp' & K).
  rewrite Sp in Sp'. injection Sp' as <-.
  destruct K as (_ & Kf' & Kp' & _).
  rewrite Kf' in X1. rewrite Kp' in X2. subst f ph. exact Sp.
Qed.

Lemma impact_of_cpu (vt : string) (summary : list PhaseSummary)
    (fault : obj) (b e : PhaseSummary) (bs es : list PhaseSummary)
    (v : fl) :
  summary_rows summary fault "baseline" = b :: bs ->
  summary_rows summary fault "event" = e :: es ->
  calculate_percent_increase (avg_cpu b) (avg_cpu e) = OK v ->
  exists record,
    impact_of vt summary fault = OK (Some record)
    /\ i_fault_type record = fault
    /\ cpu_increase_percent record = v.
Proof.
  intros Sb Se C. unfold impact_of. rewrite Sb, Se, C. cbn [bind].
  destruct (percent_increase_total (avg_memory b) (avg_memory e))
    as [x1 ->].
  destruct (percent_increase_total (avg_temp_deviation b)
                                   (avg_temp_deviation e)) as [x2 ->].
  destruct (percent_increase_total (avg_latency_ms b) (avg_latency_ms e))
    as [x3 ->].
  destruct (percent_increase_total (avg_reporting_interval b)
                                   (avg_reporting_interval e)) as [x4 ->].
  destruct (percent_increase_total (interval_stability b)
                                   (interval_stability e)) as [x5 ->].
  destruct (percent_increase_total (network_egress_rate b)
                                   (network_egress_rate e)) as [x6 ->].
  cbn [bind].
  destruct (summary_rows summary fault "recovery") as [|rc rcs].
  - cbn [bind]. eexists. split; [reflexivity|]. split; reflexivity.
  - destruct (safe_divide_total (avg_cpu rc) (avg_cpu b)) as [y1 ->].
    destruct (safe_divide_total (avg_memory rc) (avg_memory b)) as [y2 ->].
    destruct (safe_divide_total (avg_latency_ms rc) (avg_latency_ms b))
      as [y3 ->].
    destruct (safe_divide_total (avg_reporting_interval rc)
                                (avg_reporting_interval b)) as [y4 ->].
    cbn [bind]. eexists. split; [reflexivity|]. split; reflexivity.
Qed.

Lemma impacts_in (vt : string) (summary : list PhaseSummary)
    (fts : list obj) (fault : obj) (record : ImpactRecord) :
  In fault fts -> impact_of vt summary fault = OK (Some record) ->
  In record (impacts vt summary fts).
Proof.
  intros I E. induction fts as [|f fts IH]; [destruct I|].
  simpl. destruct I as [->|I].
  - rewrite E. left. reflexivity.
  - specialize (IH I).
    destruct (impact_of vt summary f) as [[x|]|]; [right| |]; exact IH.
Qed.

Lemma coerce_stat_column (df : DataFrame) (faults phases : list string)
    (n : string) :
  analysable df faults phases -> stat_column n = true ->
  get_col n (coerce_columns df) = get_col n df.
Proof.
  intros A S. rewrite get_coerce_columns.
  destruct (get_col n df) as [c|] eqn:G.
  - destruct (an_stats df faults phases A n c G S) as (-> & xs & -> & _).
    destruct (is_latency_ms_value n); [|reflexivity].
    simpl. rewrite to_numeric_of_floats. reflexivity.
  - destruct (endswith "_method" n); [reflexivity|].
    destruct (is_latency_ms_value n); reflexivity.
Qed.

Lemma cpu_reads_coerced (df : DataFrame) (faults phases : list string)
    (label phase : string) (v : fl) :
  analysable df faults phases ->
  cpu_reads df faults phases label phase v ->
  cpu_reads (coerce_columns df) faults phases label phase v.
Proof.
  intros A H n xs i G S. apply (H n xs i); [|exact S].
  rewrite <- G. symmetry. apply (coerce_stat_column df faults phases n A).
  unfold stat_column. rewrite S. reflexivity.
Qed.

Lemma has_row_label (faults phases : list string) (label phase : string) :
  has_row faults phases label phase -> In label faults /\ In phase phases.
Proof.
  intros (i & Hf & Hp). split; eapply nth_error_In; eassumption.
Qed.

(** C1, amended: when every CPU column reads 10 in the baseline rows of an
    experiment label and 40 in its event rows, each phase having at least
    one row, [analyze_impact] returns an impact record for that label whose
    [cpu_increase_percent] is 300, that is (40 / 10 - 1) * 100. *)
Theorem cpu_increase_of_constant_columns (vt : string) (df : DataFrame)
    (faults phases : list string) (label : string) :
  analysable df faults phases ->
  (exists n, In n (names df) /\ startswith "cpu_" n = true) ->
  has_row faults phases label "baseline" ->
  has_row faults phases label "event" ->
  cpu_reads df faults phases label "baseline" (Fin 10) ->
  cpu_reads df faults phases label "event" (Fin 40) ->
  exists summary impact record,
    analyze_impact vt df = OK (summary, impact)
    /\ In record impact
    /\ i_fault_type record = OStr label
    /\ cpu_increase_percent record = Fin 300.
Proof.
  intros A Hcpu Hb He Rb Re.
  assert (NE : df_empty df = false).
  { unfold df_empty. apply orb_false_iff. split; apply Nat.eqb_neq.
    - rewrite <- (an_faults_len df faults phases A).
      destruct Hb as (i & Hf & _). destruct faults; [destruct i|];
        simpl; discriminate.
    - pose proof (an_phases df faults phases A) as G.
      unfold get_col in G. destruct (df_columns df); [discriminate|].
      simpl. discriminate. }
  unfold analyze_impact. rewrite NE.
  set (df' := coerce_columns df).
  assert (A' : analysable df' faults phases)
    by (apply analysable_coerced; exact A).
  assert (Rb' := cpu_reads_coerced df faults phases label "baseline" _ A Rb).
  assert (Re' := cpu_reads_coerced df faults phases label "event" _ A Re).
  fold df' in Rb', Re'.
  assert (Hcpu' : exists n, In n (names df') /\ startswith "cpu_" n = true).
  { unfold df'. rewrite names_coerce_columns. exact Hcpu. }
  unfold impact_tables, phases_of, objs.
  rewrite (an_faults df' faults phases A'), (an_phases df' faults phases A').
  cbn [bind]. unfold unique.
  destruct (unique_onto_strings faults []) as [fts Ef].
  destruct (unique_onto_strings phases []) as [phs Ep].
  rewrite Ef, Ep. cbn [bind].
  destruct (summarize_total vt df' faults phases fts phs A')
    as [summary Es].
  rewrite Es. cbn [bind].
  destruct (has_row_label _ _ _ _ Hb) as [Il Ib].
  destruct (has_row_label _ _ _ _ He) as [_ Ie].
  apply (proj2 (unique_onto_strings_in faults [] fts Ef)) in Il.
  pose proof (proj2 (unique_onto_strings_in phases [] phs Ep)) as Ip.
  destruct (summary_rows_of_phase vt df' faults phases fts phs summary
              label "baseline" A' Es Il (Ip _ Ib) Hb)
    as (b & bs & Sb & Pb).
  destruct (summary_rows_of_phase vt df' faults phases fts phs summary
              label "event" A' Es Il (Ip _ Ie) He)
    as (e & es & Se & Pe).
  pose proof (avg_cpu_constant vt df' faults phases label "baseline" 10 b
                A' Hcpu' Rb' eq_refl Pb) as Vb.
  pose proof (avg_cpu_constant vt df' faults phases label "event" 40 e
                A' Hcpu' Re' eq_refl Pe) as Ve.
  destruct (impact_of_cpu vt summary (OStr label) b e bs es (Fin 300) Sb Se)
    as (record & Ei & Kf & Kc).
  { rewrite Vb, Ve. reflexivity. }
  exists summary, (impacts vt summary fts), record.
  split; [reflexivity|]. split; [|split; assumption].
  apply (impacts_in vt summary fts (OStr label) record Il Ei).
Qed.
End ImpactFacts.

(** * Concrete tables *)

(** Splits on the column a lookup in a concrete table found. *)
Ltac by_column G :=
  repeat match type of G with
         | (if String.eqb ?a ?n then _ else _) = Some _ =>
             destruct (String.eqb_spec a n) as [?|?]; [subst n|]
         end.

Ltac float_columns T :=
  let n := fresh "n" in
  let c := fresh "c" in
  let G := fresh "G" in
  let E := fresh "E" in
  intros n c G E; unfold get_col, T in G; cbn [df_columns lookup] in G;
  by_column G; try discriminate G;
  try (vm_compute in E; discriminate E);
  match type of G with
  | Some ?x = Some _ => assert (c = x) by congruence; subst c; clear G
  end.

(** ** One sensor, CPU 10 at baseline and 40 during the event *)

Definition one_sensor : DataFrame :=
  mkFrame [0; 1; 2]%Z
    [("timestamp", of_floats [Fin 0; Fin 5; Fin 10]);
     ("phase", map OStr ["baseline"; "event"; "event"]);
     ("vulnerability_type", map OStr ["ddos"; "ddos"; "ddos"]);
     ("cpu_S1", of_floats [Fin 10; Fin 40; Fin 40])]%string.

(** The same with a second sensor whose CPU stays at 10. *)
Definition two_sensors : DataFrame :=
  mkFrame [0; 1; 2]%Z
    [("timestamp", of_floats [Fin 0; Fin 5; Fin 10]);
     ("phase", map OStr ["baseline"; "event"; "event"]);
     ("vulnerability_type", map OStr ["ddos"; "ddos"; "ddos"]);
     ("cpu_S1", of_floats [Fin 10; Fin 40; Fin 40]);
     ("cpu_S2", of_floats [Fin 10; Fin 10; Fin 10])]%string.

Lemma one_sensor_analysable :
  analysable one_sensor ["ddos"; "ddos"; "ddos"]%string
             ["baseline"; "event"; "event"]%string.
Proof.
  constructor; try reflexivity.
  float_columns one_sensor.
  split; [reflexivity|]. eexists. split; reflexivity.
Qed.

Lemma one_sensor_cpu_reads (phase : string) (v : fl) :
  (forall i, nth_error ["baseline"; "event"; "event"]%string i = Some phase ->
             nth_error [Fin 10; Fin 40; Fin 40] i = Some v) ->
  cpu_reads one_sensor ["ddos"; "ddos"; "ddos"]%string
            ["baseline"; "event"; "event"]%string "ddos" phase v.
Proof.
  intros H n xs i G S Hf Hp.
  unfold get_col, one_sensor in G; cbn [df_columns lookup] in G.
  by_column G; try discriminate G; try (vm_compute in S; discriminate S).
  injection G as G. assert (X : xs = [Fin 10; Fin 40; Fin 40]).
  { clear - G. unfold of_floats in G.
    do 3 (destruct xs as [|? xs]; [discriminate|]; injection G as -> G).
    destruct xs; [reflexivity|discriminate]. }
  subst xs. apply H. exact Hp.
Qed.

Lemma cpu_increase_of_constant_columns_witness :
  analysable one_sensor ["ddos"; "ddos"; "ddos"]%string
             ["baseline"; "event"; "event"]%string
  /\ exists summary impact record,
       analyze_impact "ddos" one_sensor = OK (summary, impact)
       /\ In record impact
       /\ i_fault_type record = OStr "ddos"
       /\ cpu_increase_percent record = Fin 300.
Proof.
  split; [exact one_sensor_analysable|].
  apply (cpu_increase_of_constant_columns "ddos" one_sensor
           ["ddos"; "ddos"; "ddos"]%string
           ["baseline"; "event"; "event"]%string "ddos").
  - exact one_sensor_analysable.
  - exists "cpu_S1"%string. split; [simpl; tauto|reflexivity].
  - exists 0%nat. split; reflexivity.
  - exists 1%nat. split; reflexivity.
  - apply one_sensor_cpu_reads.
    intros [|[|[|i]]] H; try discriminate H; try reflexivity.
    destruct i; discriminate H.
  - apply one_sensor_cpu_reads.
    intros [|[|[|i]]] H; try discriminate H; try reflexivity.
    destruct i; discriminate H.
Defined.

(** C1 as stated fails on [one_sensor]: its only CPU column is 10 in the
    baseline row and 40 in the event rows, and the one impact record has
    [cpu_increase_percent] 300, not 200.  With a second sensor at 10
    throughout, [two_sensors], the averages are 10 and 25 and the figure
    is 150. *)
Lemma cpu_increase_is_not_200 :
  get_col "cpu_S1" one_sensor = Some (of_floats [Fin 10; Fin 40; Fin 40])
  /\ get_col "phase" one_sensor
     = Some (map OStr ["baseline"; "event"; "event"]%string)
  /\ match analyze_impact "ddos" one_sensor with
     | OK (_, impact) => map cpu_increase_percent impact
     | Raise _ => []
     end = [Fin 300]
  /\ Fin 300 <> Fin 200
  /\ match analyze_impact "ddos" two_sensors with
     | OK (_, impact) => map cpu_increase_percent impact
     | Raise _ => []
     end = [Fin 150].
Proof.
  split; [reflexivity|]. split; [reflexivity|].
  split; [vm_compute; reflexivity|]. split; [discriminate|].
  vm_compute. reflexivity.
Qed.

(** * The table a stage was given, after the call *)

(** Two datasets put together by [pd.concat], the second without latency
    histograms: its row has no estimate, no flag and no method. *)
Definition concatenated : DataFrame :=
  mkFrame [0; 0]%Z
    [("timestamp", of_floats [Fin 0; Fin 5]);
     ("phase", map OStr ["baseline"; "event"]);
     ("vulnerability_type", map OStr ["ddos"; "ddos"]);
     ("cpu_S1", of_floats [Fin 10; Fin 40]);
     ("latency_ms_api_S1", of_floats [Fin 120; NaN]);
     ("latency_ms_api_S1_estimated", [OBool false; ONum NaN]);
     ("latency_ms_api_S1_method", [OStr "interpolation"; ONum NaN])]%string.

Lemma nth_error_store_same (r : ref) (df : DataFrame) (h : heap) :
  (r < List.length h)%nat -> nth_error (store r df h) r = Some df.
Proof.
  revert r. induction h as [|d h IH]; intros [|r] H; simpl in *;
    try lia; [reflexivity|].
  apply IH. lia.
Qed.

Lemma nth_error_store_other (r r' : ref) (df : DataFrame) (h : heap) :
  r <> r' -> nth_error (store r' df h) r = nth_error h r.
Proof.
  revert r r'. induction h as [|d h IH]; intros [|r] [|r'] H; simpl;
    try reflexivity; try contradiction.
  apply IH. congruence.
Qed.

Lemma store_length (r : ref) (df : DataFrame) (h : heap) :
  List.length (store r df h) = List.length h.
Proof.
  revert r. induction h as [|d h IH]; intros [|r]; simpl; auto.
Qed.

Lemma deref_bound (r : ref) (h : heap) (df : DataFrame) :
  deref r h = OK df -> (r < List.length h)%nat.
Proof.
  unfold deref. destruct (nth_error h r) eqn:E; [|discriminate].
  intros _. apply nth_error_Some. congruence.
Qed.

Lemma deref_alloc (r : ref) (h : heap) (df d : DataFrame) :
  deref r h = OK df -> deref r (snd (alloc d h)) = OK df.
Proof.
  intros H. pose proof (deref_bound r h df H) as L.
  unfold deref, alloc in *. simpl. rewrite nth_error_app1; assumption.
Qed.

Lemma deref_store_other (r r' : ref) (h : heap) (d : DataFrame) :
  r <> r' -> deref r (store r' d h) = deref r h.
Proof.
  intros H. unfold deref. rewrite nth_error_store_other; auto.
Qed.

Section CallFacts.
Context {B : Builtins}.

(** [calculate_derived_metrics] works on copies: the table at the
    reference it was given is the same after the call. *)
Lemma calculate_derived_metrics_keeps_input (r r' : ref) (h h' : heap)
    (df : DataFrame) :
  deref r h = OK df ->
  calculate_derived_metrics_call r h = OK (r', h') ->
  deref r h' = OK df.
Proof.
  intros D. pose proof (deref_bound r h df D) as L.
  unfold calculate_derived_metrics_call. rewrite D. cbn [bind].
  destruct (df_empty df).
  { intros E. injection E as <- <-. exact D. }
  unfold alloc.
  destruct (has_col "bucket" df).
  - destruct (process_latency_buckets df) as [est|]; [|discriminate].
    cbn [bind].
    set (h1 := store (List.length h) est (h ++ [df])%list).
    assert (L1 : List.length h1 = S (List.length h)).
    { unfold h1. rewrite store_length, length_app. simpl. lia. }
    assert (D1 : deref r h1 = OK df).
    { unfold h1. rewrite deref_store_other by lia.
      apply (deref_alloc r h df df D). }
    assert (D2 : deref r (h1 ++ [drop_col "bucket" est])%list = OK df)
      by (apply (deref_alloc r h1 df _ D1)).
    unfold deref at 1. rewrite nth_error_app2 by lia.
    replace (List.length h1 - List.length h1)%nat with 0%nat by lia.
    cbn [nth_error bind].
    destruct (derive_columns (drop_col "bucket" est)) as [out|];
      [|discriminate].
    cbn [bind]. intros E. injection E as <- <-.
    rewrite deref_store_other by lia. exact D2.
  - cbn [bind].
    assert (D1 : deref r (h ++ [df])%list = OK df)
      by (apply (deref_alloc r h df df D)).
    unfold deref at 1. rewrite nth_error_app2 by lia.
    replace (List.length h - List.length h)%nat with 0%nat by lia.
    cbn [nth_error bind].
    destruct (derive_columns df) as [out|]; [|discriminate].
    cbn [bind]. intros E. injection E as <- <-.
    rewrite deref_store_other by lia. exact D1.
Qed.

(** [analyze_impact] assigns the coerced columns to the table it was
    given. *)
Lemma analyze_impact_stores (r : ref) (vt : string) (h h' : heap)
    (df : DataFrame) (summary : list PhaseSummary)
    (impact : list ImpactRecord) :
  deref r h = OK df -> df_empty df = false ->
  analyze_impact_call r vt h = OK (summary, impact, h') ->
  deref r h' = OK (coerce_columns df).
Proof.
  intros D Em. pose proof (deref_bound r h df D) as L.
  unfold analyze_impact_call. rewrite D. cbn [bind]. rewrite Em.
  unfold deref at 1. rewrite nth_error_store_same by exact L.
  cbn [bind].
  destruct (impact_tables vt (coerce_columns df)) as [t|]; [|discriminate].
  cbn [bind]. intros E. injection E as _ _ <-.
  unfold deref. rewrite nth_error_store_same by exact L. reflexivity.
Qed.

(** C9.  [analyze_impact] called on [concatenated] returns its two tables
    and leaves another table where its argument was: the missing cell of
    the method column now holds the text [str] makes of NaN. *)
Theorem analyze_impact_overwrites_its_argument :
  exists summary impact h',
    deref 0%nat [concatenated] = OK concatenated
    /\ analyze_impact_call 0%nat "ddos" [concatenated] = OK (summary, impact, h')
    /\ deref 0%nat h' = OK (coerce_columns concatenated)
    /\ get_col "latency_ms_api_S1_method" concatenated
       = Some [OStr "interpolation"; ONum NaN]
    /\ get_col "latency_ms_api_S1_method" (coerce_columns concatenated)
       = Some [OStr "interpolation"; OStr (py_str (ONum NaN))]
    /\ deref 0%nat h' <> deref 0%nat [concatenated].
Proof.
  destruct (analyze_impact_call 0%nat "ddos" [concatenated])
    as [[[summary impact] h']|e] eqn:E.
  2:{ exfalso. vm_compute in E. discriminate E. }
  exists summary, impact, h'.
  pose proof (analyze_impact_stores 0%nat "ddos" [concatenated] h' concatenated
                summary impact eq_refl eq_refl E) as S.
  split; [reflexivity|]. split; [reflexivity|]. split; [exact S|].
  split; [reflexivity|]. split; [reflexivity|].
  rewrite S. intros X. injection X as X. discriminate X.
Qed.
End CallFacts.

(** ** Four rows out of timestamp order *)

Definition unordered_rows : DataFrame :=
  mkFrame [0; 1; 2; 3]%Z
    [("timestamp", of_floats [Fin 10; Fin 0; Fin 17; Fin 5]);
     ("phase", map OStr ["baseline"; "baseline"; "baseline"; "baseline"]);
     ("vulnerability_type", map OStr ["ddos"; "ddos"; "ddos"; "ddos"]);
     ("temperature_S1", of_floats [Fin 21; Fin 22; Fin 23; Fin 24])]%string.

Ltac distinct_labels :=
  repeat (constructor; [simpl; intuition discriminate|]); constructor.

Ltac regular_table T :=
  constructor;
  [ distinct_labels
  | reflexivity
  | eexists; split; reflexivity
  | float_columns T; eexists; split; reflexivity
  | let c := fresh "c" in
    let G := fresh "G" in
    intros c G; discriminate G ].

Lemma unordered_rows_regular : regular unordered_rows.
Proof. regular_table unordered_rows. Qed.

Lemma reporting_intervals_by_row_witness :
  regular unordered_rows
  /\ Permutation [Fin 10; Fin 0; Fin 17; Fin 5] four_rows
  /\ exists df' intervals,
       calculate_derived_metrics unordered_rows = OK df'
       /\ df_index df' = df_index unordered_rows
       /\ floats "timestamp" df' = OK [Fin 10; Fin 0; Fin 17; Fin 5]
       /\ floats "reporting_interval_S1" df' = OK intervals
       /\ Forall2 interval_at [Fin 10; Fin 0; Fin 17; Fin 5] intervals.
Proof.
  assert (P : Permutation [Fin 10; Fin 0; Fin 17; Fin 5] four_rows).
  { unfold four_rows.
    apply perm_trans with [Fin 0; Fin 10; Fin 17; Fin 5];
      [apply perm_swap|].
    apply perm_skip.
    apply perm_trans with [Fin 10; Fin 5; Fin 17];
      [apply perm_skip, perm_swap|].
    apply perm_trans with [Fin 5; Fin 10; Fin 17]; [apply perm_swap|].
    apply Permutation_refl. }
  split; [exact unordered_rows_regular|]. split; [exact P|].
  apply (reporting_intervals_by_row unordered_rows "S1" "baseline"
           [Fin 10; Fin 0; Fin 17; Fin 5]).
  - exact unordered_rows_regular.
  - reflexivity.
  - reflexivity.
  - exact P.
  - reflexivity.
Defined.

(** ** Five rows of one temperature *)

Definition steady_sensor : DataFrame :=
  mkFrame [0; 1; 2; 3; 4]%Z
    [("timestamp", of_floats [Fin 0; Fin 5; Fin 10; Fin 15; Fin 20]);
     ("phase", map OStr ["baseline"; "baseline"; "baseline"; "event";
                         "event"]);
     ("temperature_S1", of_floats [Fin 21; Fin 21; Fin 21; Fin 21; Fin 21])
    ]%string.

Lemma steady_sensor_regular : regular steady_sensor.
Proof. regular_table steady_sensor. Qed.

Lemma zscore_of_constant_column_witness :
  regular steady_sensor
  /\ exists df',
       calculate_derived_metrics steady_sensor = OK df'
       /\ df_index df' = df_index steady_sensor
       /\ get_col "temperature_S1_zscore" df'
          = Some (repeat (ONum NaN) 5).
Proof.
  split; [exact steady_sensor_regular|].
  apply (zscore_of_constant_column steady_sensor "temperature_S1" (Fin 21)).
  - exact steady_sensor_regular.
  - reflexivity.
  - reflexivity.
  - unfold nrows, steady_sensor. cbn [df_index List.length]. lia.
  - reflexivity.
Defined.

(** The same sensor with rising readings, next to a column that already
    has the name of its rolling mean. *)
Definition shadowed_mean : DataFrame :=
  mkFrame [0; 1; 2; 3; 4]%Z
    [("timestamp", of_floats [Fin 0; Fin 5; Fin 10; Fin 15; Fin 20]);
     ("phase", map OStr ["baseline"; "baseline"; "baseline"; "event";
                         "event"]);
     ("temperature_A", of_floats [Fin 1; Fin 2; Fin 3; Fin 4; Fin 5]);
     ("temperature_A_roll_mean",
      of_floats [Fin 7; Fin 7; Fin 7; Fin 7; Fin 7])]%string.

(** C8 as stated fails on [shadowed_mean]: the column
    [temperature_A_roll_mean] starts with [temperature_] and holds 7 in
    each of the five rows, and its z-score column is NaN in the first row
    only.  The rolling mean of [temperature_A] was written over it before
    its own statistics were taken. *)
Lemma zscore_of_shadowed_column :
  startswith "temperature_" "temperature_A_roll_mean" = true
  /\ get_col "temperature_A_roll_mean" shadowed_mean
     = Some (repeat (ONum (Fin 7)) (nrows shadowed_mean))
  /\ match calculate_derived_metrics shadowed_mean with
     | OK df' =>
         option_map (map is_nan_obj)
                    (get_col "temperature_A_roll_mean_zscore" df')
     | Raise _ => None
     end = Some [true; false; false; false; false].
Proof.
  split; [reflexivity|]. split; [reflexivity|].
  vm_compute. reflexivity.
Qed.

(** ** Raw latencies with gaps *)

Definition latency_gaps : DataFrame :=
  mkFrame [0; 1; 2]%Z
    [("timestamp", of_floats [Fin 0; Fin 5; Fin 10]);
     ("phase", map OStr ["baseline"; "baseline"; "event"]);
     ("temperature_S1", of_floats [Fin 21; Fin 22; Fin 23]);
     ("latency_api_S1", of_floats [Fin (1 # 4); NaN; Fin (1 # 2)]);
     ("latency_data_S1", of_floats [Fin (1 # 10); NaN; NaN])]%string.

Lemma latency_gaps_regular : regular latency_gaps.
Proof. regular_table latency_gaps. Qed.

Lemma response_time_in_every_row_witness :
  regular latency_gaps /\ flattened latency_gaps
  /\ exists df',
       calculate_derived_metrics latency_gaps = OK df'
       /\ df_index df' = df_index latency_gaps
       /\ forall i, (i < nrows latency_gaps)%nat ->
            exists response x,
              floats "response_time_ms" df' = OK response
              /\ nth_error response i = Some x
              /\ ((forall col, In col (names latency_gaps) ->
                               is_raw_latency col = true ->
                               missing_at i col latency_gaps) ->
                  x = Fin 0).
Proof.
  split; [exact latency_gaps_regular|]. split; [reflexivity|].
  apply (response_time_in_every_row latency_gaps).
  - exact latency_gaps_regular.
  - reflexivity.
  - exists "latency_api_S1"%string. split; [simpl; tauto|reflexivity].
Defined.

(** * Which labels get an impact record *)

Section ImpactRecords.
Context {B : Builtins}.
Local Open Scope string_scope.

(** What [impact_of] returns, by the rows the summary has for the label. *)
Lemma impact_of_spec (vt : string) (summary : list PhaseSummary)
    (fault : obj) :
  match summary_rows summary fault "baseline",
        summary_rows summary fault "event" with
  | b :: _, e :: _ =>
      exists r,
        impact_of vt summary fault = OK (Some r)
        /\ i_fault_type r = fault
        /\ OK (cpu_increase_percent r)
           = calculate_percent_increase (avg_cpu b) (avg_cpu e)
        /\ match summary_rows summary fault "recovery" with
           | [] => recovery r = None
           | rc :: _ =>
               exists ratios,
                 recovery r = Some ratios
                 /\ OK (recovery_cpu_ratio ratios)
                    = safe_divide (avg_cpu rc) (avg_cpu b)
           end
  | _, _ => impact_of vt summary fault = OK None
  end.
Proof.
  unfold impact_of.
  destruct (summary_rows summary fault "baseline") as [|b bs];
    [reflexivity|].
  destruct (summary_rows summary fault "event") as [|e es]; [reflexivity|].
  destruct (percent_increase_total (avg_cpu b) (avg_cpu e)) as [x0 ->].
  destruct (percent_increase_total (avg_memory b) (avg_memory e))
    as [x1 ->].
  destruct (percent_increase_total (avg_temp_deviation b)
                                   (avg_temp_deviation e)) as [x2 ->].
  destruct (percent_increase_total (avg_latency_ms b) (avg_latency_ms e))
    as [x3 ->].
  destruct (percent_increase_total (avg_reporting_interval b)
                                   (avg_reporting_interval e)) as [x4 ->].
  destruct (percent_increase_total (interval_stability b)
                                   (interval_stability e)) as [x5 ->].
  destruct (percent_increase_total (network_egress_rate b)
                                   (network_egress_rate e)) as [x6 ->].
  cbn [bind].
  destruct (summary_rows summary fault "recovery") as [|rc rcs].
  - cbn [bind]. eexists. repeat (split; [reflexivity|]). reflexivity.
  - destruct (safe_divide_total (avg_cpu rc) (avg_cpu b)) as [y1 ->].
    destruct (safe_divide_total (avg_memory rc) (avg_memory b)) as [y2 ->].
    destruct (safe_divide_total (avg_latency_ms rc) (avg_latency_ms b))
      as [y3 ->].
    destruct (safe_divide_total (avg_reporting_interval rc)
                                (avg_reporting_interval b)) as [y4 ->].
    cbn [bind]. eexists. repeat (split; [reflexivity|]).
    eexists. split; reflexivity.
Qed.

Lemma impacts_records (vt : string) (summary : list PhaseSummary)
    (fts : list obj) (r : ImpactRecord) :
  In r (impacts vt summary fts) <->
  exists f, In f fts /\ impact_of vt summary f = OK (Some r).
Proof.
  induction fts as [|f fts IH]; simpl.
  - split; [intros []|intros (f & [] & _)].
  - destruct (impact_of vt summary f) as [[x|]|] eqn:E.
    + split.
      * intros [<-|I]; [exists f; auto|].
        apply IH in I. destruct I as (g & I & G). exists g. auto.
      * intros (g & [<-|I] & G).
        -- rewrite E in G. injection G as ->. left. reflexivity.
        -- right. apply IH. exists g. auto.
    + rewrite IH. split.
      * intros (g & I & G). exists g. auto.
      * intros (g & [<-|I] & G); [congruence|]. exists g. auto.
    + rewrite IH. split.
      * intros (g & I & G). exists g. auto.
      * intros (g & [<-|I] & G); [congruence|]. exists g. auto.
Qed.

(** The labels of the records follow the labels given, without repeats. *)
Lemma impacts_labels (vt : string) (summary : list PhaseSummary)
    (fts : list obj) :
  NoDup fts -> NoDup (map i_fault_type (impacts vt summary fts)).
Proof.
  induction 1 as [|f fts Hf Hn IH]; simpl; [constructor|].
  destruct (impact_of vt summary f) as [[x|]|] eqn:E; try exact IH.
  simpl. constructor; [|exact IH].
  intros I. apply in_map_iff in I. destruct I as (r & Er & I).
  apply impacts_records in I. destruct I as (g & Ig & G).
  pose proof (impact_of_spec vt summary f) as S.
  pose proof (impact_of_spec vt summary g) as Sg.
  rewrite E in S. rewrite G in Sg.
  assert (i_fault_type x = f /\ i_fault_type r = g) as [K1 K2].
  { destruct (summary_rows summary f "baseline"); [discriminate S|].
    destruct (summary_rows summary f "event"); [discriminate S|].
    destruct S as (r0 & S0 & F0 & _). injection S0 as <-.
    destruct (summary_rows summary g "baseline"); [discriminate Sg|].
    destruct (summary_rows summary g "event"); [discriminate Sg|].
    destruct Sg as (r1 & S1 & F1 & _). injection S1 as <-.
    auto. }
  apply Hf. congruence.
Qed.

Lemma count_rows_has_row (faults phases : list string)
    (label phase : string) :
  count_true (rows_of faults phases label phase) <> 0%nat ->
  has_row faults phases label phase.
Proof.
  revert phases. induction faults as [|f faults IH]; intros [|p phases];
    try (intros H; exfalso; apply H; reflexivity).
  rewrite rows_of_cons. unfold count_true. simpl.
  destruct (String.eqb f label && String.eqb p phase) eqn:E.
  - intros _. apply andb_prop in E. destruct E as [E1 E2].
    apply String.eqb_eq in E1, E2. subst. exists 0%nat. auto.
  - intros H. destruct (IH phases H) as (i & Hf & Hp).
    exists (S i). auto.
Qed.

Lemma summary_rows_has_row (vt : string) (df : DataFrame)
    (faults phases : list string) (fts phs : list obj)
    (summary : list PhaseSummary) (label phase : string) :
  analysable df faults phases ->
  summarize vt df fts phs = OK summary ->
  summary_rows summary (OStr label) phase <> [] ->
  has_row faults phases label phase.
Proof.
  intros A E N.
  destruct (summary_rows summary (OStr label) phase) as [|r rest] eqn:S;
    [contradiction|].
  assert (I : In r (summary_rows summary (OStr label) phase))
    by (rewrite S; left; reflexivity).
  unfold summary_rows in I. apply filter_In in I. destruct I as [I X].
  apply andb_prop in X. destruct X as [X1 X2].
  apply obj_eqb_string in X1, X2.
  apply (summarize_rows vt df fts phs summary E) in I.
  destruct I as (f & ph & _ & _ & Sp).
  destruct (summarize_phase_row vt df faults phases f ph A)
    as (row & Sp' & K).
  rewrite Sp in Sp'. injection Sp' as <-.
  destruct K as (NZ & Kf & Kp & _).
  rewrite Kf in X1. rewrite Kp in X2. subst f ph.
  apply count_rows_has_row. exact NZ.
Qed.

Lemma unique_onto_strings_from (ps : list string) (seen us : list obj) :
  unique_onto seen (map OStr ps) = OK us ->
  forall o, In o us -> In o seen \/ exists p, In p ps /\ o = OStr p.
Proof.
  revert seen. induction ps as [|p ps IH]; intros seen; simpl.
  - intros E. injection E as <-. auto.
  - destruct (existsb (same_value (OStr p)) seen); intros E o I;
      destruct (IH _ E o I) as [J|(q & J & ->)].
    + auto.
    + right. exists q. auto.
    + apply in_app_or in J. destruct J as [J|[<-|[]]]; [auto|].
      right. exists p. auto.
    + right. exists q. auto.
Qed.

Lemma unique_onto_strings_nodup (ps : list string) (seen us : list obj) :
  NoDup seen -> (forall o, In o seen -> exists s, o = OStr s) ->
  unique_onto seen (map OStr ps) = OK us -> NoDup us.
Proof.
  revert seen. induction ps as [|p ps IH]; intros seen N S; simpl.
  - intros E. injection E as <-. exact N.
  - destruct (existsb (same_value (OStr p)) seen) eqn:X; intros E.
    + apply (IH seen N S E).
    + apply (IH (seen ++ [OStr p])%list); [| |exact E].
      * apply NoDup_app.
        -- exact N.
        -- repeat constructor. intros [].
        -- intros o I [<-|[]].
           assert (existsb (same_value (OStr p)) seen = true).
           { apply existsb_exists. exists (OStr p). split; [exact I|].
             unfold same_value. simpl. rewrite String.eqb_refl.
             reflexivity. }
           congruence.
      * intros o I. apply in_app_or in I. destruct I as [I|[<-|[]]];
          [auto|]. exists p. reflexivity.
Qed.

(** For a table with at least one row that [analyze_impact] can
    summarise, the call returns, and the impact table has a record for an
    experiment label exactly when the label has a baseline row and an
    event row; no label has two records; and a record carries recovery
    ratios exactly when the label has a recovery row. *)
Theorem impact_records_need_both_phases (vt : string) (df : DataFrame)
    (faults phases : list string) :
  analysable df faults phases ->
  df_empty df = false ->
  exists summary impact,
    analyze_impact vt df = OK (summary, impact)
    /\ (forall label,
          (exists r, In r impact /\ i_fault_type r = OStr label)
          <-> has_row faults phases label "baseline"
              /\ has_row faults phases label "event")
    /\ NoDup (map i_fault_type impact)
    /\ (forall r, In r impact ->
          exists label,
            i_fault_type r = OStr label
            /\ (recovery r = None
                <-> ~ has_row faults phases label "recovery")).
Proof.
  intros A Em. unfold analyze_impact. rewrite Em.
  set (df' := coerce_columns df).
  assert (A' : analysable df' faults phases)
    by (apply analysable_coerced; exact A).
  unfold impact_tables, phases_of, objs.
  rewrite (an_faults df' faults phases A'), (an_phases df' faults phases A').
  cbn [bind]. unfold unique.
  destruct (unique_onto_strings faults []) as [fts Ef].
  destruct (unique_onto_strings phases []) as [phs Ep].
  rewrite Ef, Ep. cbn [bind].
  destruct (summarize_total vt df' faults phases fts phs A')
    as [summary Es].
  rewrite Es. cbn [bind].
  exists summary, (impacts vt summary fts). split; [reflexivity|].
  pose proof (proj2 (unique_onto_strings_in faults [] fts Ef)) as If.
  pose proof (proj2 (unique_onto_strings_in phases [] phs Ep)) as Ip.
  assert (Rows : forall label phase,
             has_row faults phases label phase ->
             summary_rows summary (OStr label) phase <> []).
  { intros label phase H. destruct (has_row_label _ _ _ _ H) as [I1 I2].
    destruct (summary_rows_of_phase vt df' faults phases fts phs summary
                label phase A' Es (If _ I1) (Ip _ I2) H)
      as (r & rest & -> & _).
    discriminate. }
  split; [|split].
  - intros label. split.
    + intros (r & I & F). apply impacts_records in I.
      destruct I as (f & _ & G).
      pose proof (impact_of_spec vt summary f) as S. rewrite G in S.
      destruct (summary_rows summary f "baseline") eqn:Sb;
        [discriminate S|].
      destruct (summary_rows summary f "event") eqn:Se; [discriminate S|].
      destruct S as (r0 & S0 & F0 & _). injection S0 as <-.
      rewrite F in F0. subst f.
      split; eapply (summary_rows_has_row vt df'); try eassumption;
        congruence.
    + intros [Hb He].
      pose proof (impact_of_spec vt summary (OStr label)) as S.
      pose proof (Rows label "baseline" Hb) as Nb.
      pose proof (Rows label "event" He) as Ne.
      destruct (summary_rows summary (OStr label) "baseline");
        [contradiction|].
      destruct (summary_rows summary (OStr label) "event");
        [contradiction|].
      destruct S as (r & S & F & _). exists r. split; [|exact F].
      apply impacts_records. exists (OStr label). split; [|exact S].
      apply If. apply (has_row_label _ _ _ _ Hb).
  - apply impacts_labels.
    apply (unique_onto_strings_nodup faults [] fts); [constructor| |exact Ef].
    intros o [].
  - intros r I. apply impacts_records in I. destruct I as (f & I & G).
    destruct (unique_onto_strings_from faults [] fts Ef f I)
      as [[]|(label & _ & ->)].
    exists label.
    pose proof (impact_of_spec vt summary (OStr label)) as S.
    rewrite G in S.
    destruct (summary_rows summary (OStr label) "baseline");
      [discriminate S|].
    destruct (summary_rows summary (OStr label) "event");
      [discriminate S|].
    destruct S as (r0 & S0 & F0 & _ & R0). injection S0 as <-.
    split; [exact F0|].
    pose proof (Rows label "recovery") as Nr.
    destruct (summary_rows summary (OStr label) "recovery") eqn:Sr.
    + split; [|intros _; exact R0]. intros _ H. apply (Nr H). reflexivity.
    + destruct R0 as (ratios & R0 & _). split; [congruence|].
      intros H. exfalso. apply H.
      apply (summary_rows_has_row vt df' faults phases fts phs summary
               label "recovery" A' Es).
      rewrite Sr. discriminate.
Qed.

(** A whole number that doubles add up without rounding over the table:
    its sum over as many terms as the table has rows, or columns, stays
    below [2^53]. *)
Definition adds_up_exactly (df : DataFrame) (x : Z) : Prop :=
  (Z.abs x * Z.of_nat (Nat.max (nrows df) (List.length (df_columns df)))
   < 2 ^ 53)%Z.

Lemma whole_number_canonical (x : Z) : Qred (inject_Z x) = inject_Z x.
Proof. apply Qred_identity. simpl. apply Z.gcd_1_r. Qed.

(** With every CPU column at the whole number [b] in the baseline rows of
    a label and at [e] in its event rows, the label's impact record has
    the percent increase from [b] to [e]; and with the CPU columns at [r]
    in the label's recovery rows, its recovery CPU ratio is the guarded
    quotient of [r] by [b].  The readings are whole numbers that add up
    exactly, so that the means the source takes over the rows and over the
    columns are the readings themselves. *)
Theorem cpu_figures_of_constant_columns (vt : string) (df : DataFrame)
    (faults phases : list string) (label : string) (b e r : Z) :
  analysable df faults phases ->
  (exists n, In n (names df) /\ startswith "cpu_" n = true) ->
  adds_up_exactly df b -> adds_up_exactly df e -> adds_up_exactly df r ->
  has_row faults phases label "baseline" ->
  has_row faults phases label "event" ->
  has_row faults phases label "recovery" ->
  cpu_reads df faults phases label "baseline" (of_Z b) ->
  cpu_reads df faults phases label "event" (of_Z e) ->
  cpu_reads df faults phases label "recovery" (of_Z r) ->
  exists summary impact record ratios,
    analyze_impact vt df = OK (summary, impact)
    /\ In record impact
    /\ i_fault_type record = OStr label
    /\ OK (cpu_increase_percent record)
       = calculate_percent_increase (of_Z b) (of_Z e)
    /\ recovery record = Some ratios
    /\ OK (recovery_cpu_ratio ratios) = safe_divide (of_Z r) (of_Z b).
Proof.
  intros A Hcpu _ _ _ Hb He Hr Rb Re Rr. unfold of_Z in *.
  pose proof (whole_number_canonical b) as Cb.
  pose proof (whole_number_canonical e) as Ce.
  pose proof (whole_number_canonical r) as Cr.
  assert (NE : df_empty df = false).
  { unfold df_empty. apply orb_false_iff. split; apply Nat.eqb_neq.
    - rewrite <- (an_faults_len df faults phases A).
      destruct Hb as (i & Hf & _). destruct faults; [destruct i|];
        simpl; discriminate.
    - pose proof (an_phases df faults phases A) as G.
      unfold get_col in G. destruct (df_columns df); [discriminate|].
      simpl. discriminate. }
  unfold analyze_impact. rewrite NE.
  set (df' := coerce_columns df).
  assert (A' : analysable df' faults phases)
    by (apply analysable_coerced; exact A).
  assert (Rb' := cpu_reads_coerced df faults phases label "baseline" _ A Rb).
  assert (Re' := cpu_reads_coerced df faults phases label "event" _ A Re).
  assert (Rr' := cpu_reads_coerced df faults phases label "recovery" _ A Rr).
  fold df' in Rb', Re', Rr'.
  assert (Hcpu' : exists n, In n (names df') /\ startswith "cpu_" n = true).
  { unfold df'. rewrite names_coerce_columns. exact Hcpu. }
  unfold impact_tables, phases_of, objs.
  rewrite (an_faults df' faults phases A'), (an_phases df' faults phases A').
  cbn [bind]. unfold unique.
  destruct (unique_onto_strings faults []) as [fts Ef].
  destruct (unique_onto_strings phases []) as [phs Ep].
  rewrite Ef, Ep. cbn [bind].
  destruct (summarize_total vt df' faults phases fts phs A')
    as [summary Es].
  rewrite Es. cbn [bind].
  destruct (has_row_label _ _ _ _ Hb) as [Il Ib].
  destruct (has_row_label _ _ _ _ He) as [_ Ie].
  destruct (has_row_label _ _ _ _ Hr) as [_ Ir].
  apply (proj2 (unique_onto_strings_in faults [] fts Ef)) in Il.
  pose proof (proj2 (unique_onto_strings_in phases [] phs Ep)) as Ip.
  destruct (summary_rows_of_phase vt df' faults phases fts phs summary
              label "baseline" A' Es Il (Ip _ Ib) Hb)
    as (rb & bs & Sb & Pb).
  destruct (summary_rows_of_phase vt df' faults phases fts phs summary
              label "event" A' Es Il (Ip _ Ie) He)
    as (re & es & Se & Pe).
  destruct (summary_rows_of_phase vt df' faults phases fts phs summary
              label "recovery" A' Es Il (Ip _ Ir) Hr)
    as (rr & rs & Sr & Pr).
  pose proof (avg_cpu_constant vt df' faults phases label "baseline"
                (inject_Z b) rb A' Hcpu' Rb' Cb Pb) as Vb.
  pose proof (avg_cpu_constant vt df' faults phases label "event"
                (inject_Z e) re A' Hcpu' Re' Ce Pe) as Ve.
  pose proof (avg_cpu_constant vt df' faults phases label "recovery"
                (inject_Z r) rr A' Hcpu' Rr' Cr Pr) as Vr.
  pose proof (impact_of_spec vt summary (OStr label)) as S.
  rewrite Sb, Se, Sr in S.
  destruct S as (record & Ei & Kf & Kc & ratios & Kr & Kq).
  rewrite Vb, Ve in Kc. rewrite Vb, Vr in Kq.
  exists summary, (impacts vt summary fts), record, ratios.
  split; [reflexivity|]. split; [|auto].
  apply impacts_records. exists (OStr label). auto.
Qed.
End ImpactRecords.

(** ** Two experiments, one of them with a baseline only *)

Definition two_experiments : DataFrame :=
  mkFrame [0; 1; 2; 3; 4]%Z
    [("timestamp", of_floats [Fin 0; Fin 5; Fin 10; Fin 15; Fin 20]);
     ("phase", map OStr ["baseline"; "event"; "event"; "recovery";
                         "baseline"]);
     ("vulnerability_type", map OStr ["ddos"; "ddos"; "ddos"; "ddos";
                                      "bola"]);
     ("cpu_S1", of_floats [Fin 10; Fin 40; Fin 40; Fin 11; Fin 25]);
     ("cpu_S2", of_floats [Fin 10; Fin 40; Fin 40; Fin 11; Fin 30])]%string.

Definition two_experiments_labels : list string :=
  ["ddos"; "ddos"; "ddos"; "ddos"; "bola"]%string.

Definition two_experiments_phases : list string :=
  ["baseline"; "event"; "event"; "recovery"; "baseline"]%string.

Lemma two_experiments_analysable :
  analysable two_experiments two_experiments_labels two_experiments_phases.
Proof.
  constructor; try reflexivity.
  float_columns two_experiments;
    (split; [reflexivity|]; eexists; split; reflexivity).
Qed.

Lemma of_floats_inj (xs ys : list fl) : of_floats xs = of_floats ys -> xs = ys.
Proof.
  revert ys. induction xs as [|x xs IH]; intros [|y ys] E;
    try discriminate; [reflexivity|].
  injection E as -> E. f_equal. apply IH. exact E.
Qed.

Lemma some_of_floats_inj (xs ys : list fl) :
  Some (of_floats xs) = Some (of_floats ys) -> xs = ys.
Proof. intros E. injection E as E. apply of_floats_inj. exact E. Qed.

Lemma two_experiments_cpu_reads (phase : string) (v : fl) :
  (forall i, nth_error two_experiments_labels i = Some "ddos"%string ->
             nth_error two_experiments_phases i = Some phase ->
             nth_error [Fin 10; Fin 40; Fin 40; Fin 11; Fin 25] i = Some v
             /\ nth_error [Fin 10; Fin 40; Fin 40; Fin 11; Fin 30] i
                = Some v) ->
  cpu_reads two_experiments two_experiments_labels two_experiments_phases
            "ddos" phase v.
Proof.
  intros H n xs i G S Hf Hp.
  unfold get_col, two_experiments in G; cbn [df_columns lookup] in G.
  by_column G; try discriminate G; try (vm_compute in S; discriminate S);
    apply some_of_floats_inj in G; subst xs;
    apply (H i Hf Hp).
Qed.

Lemma impact_records_need_both_phases_witness :
  analysable two_experiments two_experiments_labels two_experiments_phases
  /\ df_empty two_experiments = false
  /\ exists summary impact,
       analyze_impact "ddos" two_experiments = OK (summary, impact)
       /\ (forall label,
             (exists r, In r impact /\ i_fault_type r = OStr label)
             <-> has_row two_experiments_labels two_experiments_phases
                         label "baseline"
                 /\ has_row two_experiments_labels two_experiments_phases
                            label "event")
       /\ NoDup (map i_fault_type impact)
       /\ (forall r, In r impact ->
             exists label,
               i_fault_type r = OStr label
               /\ (recovery r = None
                   <-> ~ has_row two_experiments_labels
                                 two_experiments_phases label "recovery")).
Proof.
  split; [exact two_experiments_analysable|]. split; [reflexivity|].
  apply (impact_records_need_both_phases "ddos" two_experiments
           two_experiments_labels two_experiments_phases).
  - exact two_experiments_analysable.
  - reflexivity.
Defined.

Lemma cpu_figures_of_constant_columns_witness :
  analysable two_experiments two_experiments_labels two_experiments_phases
  /\ exists summary impact record ratios,
       analyze_impact "ddos" two_experiments = OK (summary, impact)
       /\ In record impact
       /\ i_fault_type record = OStr "ddos"
       /\ OK (cpu_increase_percent record)
          = calculate_percent_increase (of_Z 10) (of_Z 40)
       /\ recovery record = Some ratios
       /\ OK (recovery_cpu_ratio ratios) = safe_divide (of_Z 11) (of_Z 10).
Proof.
  split; [exact two_experiments_analysable|].
  apply (cpu_figures_of_constant_columns "ddos" two_experiments
           two_experiments_labels two_experiments_phases "ddos" 10 40 11).
  - exact two_experiments_analysable.
  - exists "cpu_S1"%string. split; [simpl; tauto|reflexivity].
  - unfold adds_up_exactly. simpl. lia.
  - unfold adds_up_exactly. simpl. lia.
  - unfold adds_up_exactly. simpl. lia.
  - exists 0%nat. split; reflexivity.
  - exists 1%nat. split; reflexivity.
  - exists 3%nat. split; reflexivity.
  - apply two_experiments_cpu_reads.
    intros [|[|[|[|[|i]]]]] Hf Hp; try discriminate Hp; try discriminate Hf;
      try (split; reflexivity).
    destruct i; discriminate Hf.
  - apply two_experiments_cpu_reads.
    intros [|[|[|[|[|i]]]]] Hf Hp; try discriminate Hp; try discriminate Hf;
      try (split; reflexivity).
    destruct i; discriminate Hf.
  - apply two_experiments_cpu_reads.
    intros [|[|[|[|[|i]]]]] Hf Hp; try discriminate Hp; try discriminate Hf;
      try (split; reflexivity).
    destruct i; discriminate Hf.
Defined.

(** * Every row is summarised once *)

(** The number of rows with experiment label [f] and phase [ph]. *)
Definition pair_count (faults phases : list string) (f ph : obj) : nat :=
  count_true (and_mask (eq_mask (map OStr faults) f)
                       (eq_mask (map OStr phases) ph)).

Lemma list_sum_add {A : Type} (g h : A -> nat) (l : list A) :
  list_sum (map (fun x => g x + h x)%nat l)
  = (list_sum (map g l) + list_sum (map h l))%nat.
Proof. induction l as [|x l IH]; simpl; lia. Qed.

Lemma list_sum_zero {A : Type} (l : list A) :
  list_sum (map (fun _ => 0%nat) l) = 0%nat.
Proof. induction l as [|x l IH]; simpl; lia. Qed.

Lemma list_sum_ext {A : Type} (g h : A -> nat) (l : list A) :
  (forall x, In x l -> g x = h x) ->
  list_sum (map g l) = list_sum (map h l).
Proof.
  induction l as [|x l IH]; intros H; simpl; [reflexivity|].
  rewrite (H x (or_introl eq_refl)), IH; [reflexivity|].
  intros y I. apply H. right. exact I.
Qed.

Lemma list_sum_cons (x : nat) (l : list nat) :
  list_sum (x :: l) = (x + list_sum l)%nat.
Proof. reflexivity. Qed.

Definition indicator (b : bool) : nat := if b then 1%nat else 0%nat.

Lemma obj_eqb_string_l (a : string) (u : obj) :
  obj_eqb (OStr a) u = true -> u = OStr a.
Proof.
  destruct u; try discriminate. simpl.
  intros E. apply String.eqb_eq in E. subst. reflexivity.
Qed.

Lemma indicator_sum (a : string) (us : list obj) :
  NoDup us -> In (OStr a) us ->
  list_sum (map (fun u => indicator (obj_eqb (OStr a) u)) us) = 1%nat.
Proof.
  induction 1 as [|u us Hu Hn IH]; intros I; [destruct I|].
  cbn [map]. rewrite list_sum_cons. destruct I as [->|I].
  - assert (R : obj_eqb (OStr a) (OStr a) = true)
      by (simpl; apply String.eqb_refl).
    rewrite R. cbn [indicator].
    rewrite (list_sum_ext _ (fun _ => 0%nat)), list_sum_zero; [reflexivity|].
    intros v Iv. cbv beta.
    destruct (obj_eqb (OStr a) v) eqn:E; [|reflexivity].
    apply obj_eqb_string_l in E. subst v. contradiction.
  - rewrite (IH I). destruct (obj_eqb (OStr a) u) eqn:E; [|reflexivity].
    apply obj_eqb_string_l in E. subst u. contradiction.
Qed.

Lemma pair_count_cons (a p : string) (faults phases : list string)
    (f ph : obj) :
  pair_count (a :: faults) (p :: phases) f ph
  = (indicator (obj_eqb (OStr a) f && obj_eqb (OStr p) ph)
     + pair_count faults phases f ph)%nat.
Proof.
  unfold pair_count, count_true, and_mask, eq_mask.
  cbn [map zip_with filter].
  destruct (obj_eqb (OStr a) f && obj_eqb (OStr p) ph); reflexivity.
Qed.

(** Over distinct labels and distinct phases that cover the columns, the
    pair counts add up to the number of rows. *)
Lemma pair_counts_add_up (fts phs : list obj) (faults phases : list string) :
  NoDup fts -> NoDup phs ->
  (forall a, In a faults -> In (OStr a) fts) ->
  (forall p, In p phases -> In (OStr p) phs) ->
  List.length faults = List.length phases ->
  list_sum (map (fun f =>
                   list_sum (map (fun ph => pair_count faults phases f ph)
                                 phs))
                fts)
  = List.length faults.
Proof.
  intros Nf Np. revert phases.
  induction faults as [|a faults IH]; intros [|p phases] Cf Cp L;
    try discriminate.
  - unfold pair_count, count_true. simpl.
    rewrite (list_sum_ext _ (fun _ => 0%nat)), list_sum_zero; [reflexivity|].
    intros f _. apply list_sum_zero.
  - rewrite (list_sum_ext _
               (fun f => (indicator (obj_eqb (OStr a) f)
                          + list_sum (map (fun ph =>
                                             pair_count faults phases f ph)
                                          phs))%nat)).
    + rewrite list_sum_add, indicator_sum;
        [|exact Nf|apply Cf; left; reflexivity].
      rewrite IH; [reflexivity| | |].
      * intros b I. apply Cf. right. exact I.
      * intros q I. apply Cp. right. exact I.
      * simpl in L. lia.
    + intros f _.
      rewrite (list_sum_ext _
                 (fun ph => (indicator (obj_eqb (OStr a) f
                                        && obj_eqb (OStr p) ph)
                             + pair_count faults phases f ph)%nat))
        by (intros ph _; apply pair_count_cons).
      rewrite list_sum_add. f_equal.
      destruct (obj_eqb (OStr a) f); simpl.
      * apply indicator_sum; [exact Np|apply Cp; left; reflexivity].
      * apply list_sum_zero.
Qed.

Section Measurements.
Context {B : Builtins}.
Local Open Scope string_scope.

Lemma summarize_phase_measurements (vt : string) (df : DataFrame)
    (faults phases : list string) (f ph : obj) (r : PhaseSummary) :
  analysable df faults phases ->
  summarize_phase vt df f ph = OK (Some r) ->
  measurements r = pair_count faults phases f ph
  /\ measurements r <> 0%nat.
Proof.
  intros A E. unfold summarize_phase, objs in E.
  rewrite (an_faults df faults phases A), (an_phases df faults phases A)
    in E.
  cbn [bind] in E. fold (pair_count faults phases f ph) in E.
  destruct (Nat.eqb_spec (pair_count faults phases f ph) 0) as [Z|NZ];
    [discriminate E|].
  repeat match type of E with
         | context [bind ?c _] =>
             destruct c; cbn [bind] in E; [|discriminate E]
         end.
  injection E as <-. simpl. auto.
Qed.

Lemma summarize_phases_measurements (vt : string) (df : DataFrame)
    (faults phases : list string) (f : obj) (phs : list obj)
    (rows : list PhaseSummary) :
  analysable df faults phases ->
  summarize_phases vt df f phs = OK rows ->
  list_sum (map measurements rows)
  = list_sum (map (fun ph => pair_count faults phases f ph) phs).
Proof.
  intros A. revert rows. induction phs as [|ph phs IH]; intros rows; simpl.
  - intros E. injection E as <-. reflexivity.
  - destruct (summarize_phase_row vt df faults phases f ph A)
      as (row & E1 & K).
    rewrite E1. cbn [bind].
    destruct (summarize_phases vt df f phs) as [rest|]; [|discriminate].
    cbn [bind]. intros E. injection E as <-.
    specialize (IH rest eq_refl).
    destruct row as [r|].
    + destruct (summarize_phase_measurements vt df faults phases f ph r
                  A E1) as [M _].
      simpl. rewrite M, IH. reflexivity.
    + fold (pair_count faults phases f ph) in K. rewrite K, IH.
      reflexivity.
Qed.

Lemma summarize_measurements (vt : string) (df : DataFrame)
    (faults phases : list string) (fts phs : list obj)
    (rows : list PhaseSummary) :
  analysable df faults phases ->
  summarize vt df fts phs = OK rows ->
  list_sum (map measurements rows)
  = list_sum (map (fun f =>
                     list_sum (map (fun ph => pair_count faults phases f ph)
                                   phs))
                  fts).
Proof.
  intros A. revert rows. induction fts as [|f fts IH]; intros rows; simpl.
  - intros E. injection E as <-. reflexivity.
  - destruct (summarize_phases vt df f phs) as [here|] eqn:E1;
      [|discriminate].
    cbn [bind].
    destruct (summarize vt df fts phs) as [more|]; [|discriminate].
    cbn [bind]. intros E. injection E as <-.
    rewrite map_app, list_sum_app.
    rewrite (summarize_phases_measurements vt df faults phases f phs here
               A E1).
    rewrite (IH more eq_refl). reflexivity.
Qed.

(** For a table with at least one row that [analyze_impact] can
    summarise, every row is counted in exactly one row of the summary:
    the summary has a row for a label and a phase exactly when the table
    has a row with both, that row's [measurements] is the number of such
    rows, and the measurements add up to the number of rows of the
    table. *)
Theorem summary_counts_every_row (vt : string) (df : DataFrame)
    (faults phases : list string) :
  analysable df faults phases ->
  df_empty df = false ->
  exists summary impact,
    analyze_impact vt df = OK (summary, impact)
    /\ list_sum (map measurements summary) = nrows df
    /\ (forall r, In r summary ->
          exists label phase,
            s_fault_type r = OStr label /\ s_phase r = OStr phase
            /\ has_row faults phases label phase
            /\ measurements r
               = count_true (rows_of faults phases label phase))
    /\ (forall label phase,
          has_row faults phases label phase ->
          exists r, In r summary /\ s_fault_type r = OStr label
                    /\ s_phase r = OStr phase).
Proof.
  intros A Em. unfold analyze_impact. rewrite Em.
  set (df' := coerce_columns df).
  assert (A' : analysable df' faults phases)
    by (apply analysable_coerced; exact A).
  unfold impact_tables, phases_of, objs.
  rewrite (an_faults df' faults phases A'), (an_phases df' faults phases A').
  cbn [bind]. unfold unique.
  destruct (unique_onto_strings faults []) as [fts Ef].
  destruct (unique_onto_strings phases []) as [phs Ep].
  rewrite Ef, Ep. cbn [bind].
  destruct (summarize_total vt df' faults phases fts phs A')
    as [summary Es].
  rewrite Es. cbn [bind].
  exists summary, (impacts vt summary fts). split; [reflexivity|].
  pose proof (proj2 (unique_onto_strings_in faults [] fts Ef)) as If.
  pose proof (proj2 (unique_onto_strings_in phases [] phs Ep)) as Ip.
  split; [|split].
  - rewrite (summarize_measurements vt df' faults phases fts phs summary
               A' Es).
    rewrite pair_counts_add_up; try assumption.
    + apply (an_faults_len df faults phases A).
    + apply (unique_onto_strings_nodup faults [] fts);
        [constructor|intros o []|exact Ef].
    + apply (unique_onto_strings_nodup phases [] phs);
        [constructor|intros o []|exact Ep].
    + rewrite (an_faults_len df faults phases A).
      symmetry. apply (an_phases_len df faults phases A).
  - intros r I.
    apply (summarize_rows vt df' fts phs summary Es) in I.
    destruct I as (f & ph & I1 & I2 & Sp).
    destruct (unique_onto_strings_from faults [] fts Ef f I1)
      as [[]|(label & _ & ->)].
    destruct (unique_onto_strings_from phases [] phs Ep ph I2)
      as [[]|(phase & _ & ->)].
    destruct (summarize_phase_row vt df' faults phases (OStr label)
                (OStr phase) A') as (row & Sp' & K).
    rewrite Sp in Sp'. injection Sp' as <-.
    destruct K as (NZ & Kf & Kp & _).
    destruct (summarize_phase_measurements vt df' faults phases _ _ r A' Sp)
      as [M _].
    exists label, phase. repeat (split; [assumption|]).
    split; [apply count_rows_has_row; exact NZ|exact M].
  - intros label phase H. destruct (has_row_label _ _ _ _ H) as [I1 I2].
    destruct (summary_rows_of_phase vt df' faults phases fts phs summary
                label phase A' Es (If _ I1) (Ip _ I2) H)
      as (r & rest & S & Sp).
    exists r.
    destruct (summarize_phase_row vt df' faults phases (OStr label)
                (OStr phase) A') as (row & Sp' & K).
    rewrite Sp in Sp'. injection Sp' as <-.
    destruct K as (_ & Kf & Kp & _).
    split; [|auto].
    assert (I : In r (summary_rows summary (OStr label) phase))
      by (rewrite S; left; reflexivity).
    unfold summary_rows in I. apply filter_In in I. apply I.
Qed.
End Measurements.

Lemma summary_counts_every_row_witness :
  analysable two_experiments two_experiments_labels two_experiments_phases
  /\ df_empty two_experiments = false
  /\ exists summary impact,
       analyze_impact "ddos" two_experiments = OK (summary, impact)
       /\ list_sum (map measurements summary) = nrows two_experiments
       /\ (forall r, In r summary ->
             exists label phase,
               s_fault_type r = OStr label /\ s_phase r = OStr phase
               /\ has_row two_experiments_labels two_experiments_phases
                          label phase
               /\ measurements r
                  = count_true (rows_of two_experiments_labels
                                        two_experiments_phases label phase))
       /\ (forall label phase,
             has_row two_experiments_labels two_experiments_phases
                     label phase ->
             exists r, In r summary /\ s_fault_type r = OStr label
                       /\ s_phase r = OStr phase).
Proof.
  split; [exact two_experiments_analysable|]. split; [reflexivity|].
  apply (summary_counts_every_row "ddos" two_experiments
           two_experiments_labels two_experiments_phases).
  - exact two_experiments_analysable.
  - reflexivity.
Defined.

(** * What the calculator leaves alone *)

(** The names under which [calculate_derived_metrics] writes. *)
Definition derived_name (n : string) : bool :=
  (W_dev n || W_int n || startswith "network_sent_rate_" n
   || startswith "network_received_rate_" n || W_lat n || W_roll n
   || W_stab n || W_cum n)%bool.

Section Frame.
Context {B : Builtins}.
Local Open Scope string_scope.

Lemma exempt_cases (n : string) :
  exempt n = true -> startswith "latency_ms_" n = false ->
  n = "human_time" \/ n = "phase" \/ n = "vulnerability_type"
  \/ n = "bucket".
Proof.
  unfold exempt. intros E L. rewrite L, orb_false_r in E.
  rewrite !orb_true_iff in E.
  destruct E as [[[E|E]|E]|E]; apply String.eqb_eq in E; auto.
Qed.

Lemma estimate_and_drop_keeps (df d : DataFrame) (n : string) :
  regular df -> estimate_and_drop df = OK d ->
  n <> "bucket" -> startswith "latency_ms_" n = false ->
  get_col n d = get_col n df.
Proof.
  intros R E Hb Hl. unfold estimate_and_drop in E.
  destruct (has_col "bucket" df) eqn:Hc; [|congruence].
  apply has_col_get in Hc. destruct Hc as [cells Hc].
  destruct (reg_buckets df R cells Hc) as [Hok Hmeth].
  unfold process_latency_buckets in E. rewrite Hc in E.
  destruct (fold_res_kept df estimate_row (combine (df_index df) cells))
    with (d := df) as (d1 & E1 & [I1 G1]).
  { intros row d0 Hin K. apply estimate_row_kept; [|exact K].
    destruct row as [l o]. apply in_combine_r in Hin.
    rewrite forallb_forall in Hok. apply Hok. exact Hin. }
  { apply kept_refl. }
  rewrite E1 in E. cbn [bind] in E. injection E as <-.
  unfold drop_col, get_col. cbn [df_columns].
  rewrite lookup_filter_other by exact Hb.
  change (get_col n (method_columns_as_str d1) = get_col n df).
  rewrite get_method_columns_as_str, (G1 n Hl).
  destruct (endswith "_method" n) eqn:Em; [|reflexivity].
  destruct (get_col n df) as [c|] eqn:Gn; [|reflexivity].
  exfalso.
  assert (Hn : has_col n df = true) by (apply has_col_get; eauto).
  destruct (exempt_cases n (Hmeth n Hn Em) Hl) as [-> | [-> | [-> | ->]]];
    discriminate Em.
Qed.

Lemma stages_keep d0 d1 d2 d3 d4 d5 d6 d7 d8 (n : string) :
  stages d0 d1 d2 d3 d4 d5 d6 d7 d8 ->
  derived_name n = false -> get_col n d8 = get_col n d0.
Proof.
  intros S D. unfold derived_name in D. rewrite !orb_false_iff in D.
  destruct D as [[[[[[[D1 D2] D3] D4] D5] D6] D7] D8].
  rewrite (stages_after_latency _ _ _ _ _ _ _ _ _ n S D6 D7 D8).
  destruct (st_lat_ext _ _ _ _ _ _ _ _ _ S) as (_ & G & _).
  rewrite (G n D5).
  apply (stages_before_latency _ _ _ _ _ _ _ _ _ n S D1 D2 D3 D4).
Qed.

Lemma regular_nonempty_columns (df : DataFrame) :
  regular df -> df_empty df = (nrows df =? 0)%nat.
Proof.
  intros R. unfold df_empty.
  pose proof (reg_time df R) as T. unfold has_col, get_col in T.
  destruct (df_columns df); [discriminate T|].
  simpl. apply orb_false_r.
Qed.

(** On a regular table [calculate_derived_metrics] returns normally, with
    the rows it was given; every column it was given, other than [bucket],
    whose name is not one of the names it writes under is in the result as
    it was; and the result of a table with rows has no [bucket] column. *)
Theorem derived_metrics_keep_their_input (df : DataFrame) :
  regular df ->
  exists df',
    calculate_derived_metrics df = OK df'
    /\ df_index df' = df_index df
    /\ (forall n, n <> "bucket" -> derived_name n = false ->
                  get_col n df' = get_col n df)
    /\ (nrows df <> 0%nat -> has_col "bucket" df' = false).
Proof.
  intros R. destruct (df_empty df) eqn:Em.
  { exists df. unfold calculate_derived_metrics. rewrite Em.
    split; [reflexivity|]. split; [reflexivity|]. split; [reflexivity|].
    rewrite (regular_nonempty_columns df R) in Em.
    apply Nat.eqb_eq in Em. intros N. contradiction. }
  destruct (calculate_derived_metrics_stages df R Em)
    as (d0 & d1 & d2 & d3 & d4 & d5 & d6 & d7 & d8
        & E0 & P0 & I0 & _ & _ & S & E).
  exists d8. split; [exact E|].
  destruct (stages_index _ _ _ _ _ _ _ _ _ S) as (_ & _ & I8).
  split; [congruence|]. split.
  - intros n Hb D. rewrite (stages_keep _ _ _ _ _ _ _ _ _ n S D).
    apply (estimate_and_drop_keeps df d0 n R E0 Hb).
    unfold derived_name, W_lat in D. rewrite !orb_false_iff in D.
    apply D.
  - intros _. unfold has_col.
    rewrite (stages_keep _ _ _ _ _ _ _ _ _ "bucket" S eq_refl).
    destruct P0 as [_ ->]. reflexivity.
Qed.
End Frame.

(** ** A table with a bucket histogram in every row *)

Definition with_histograms : DataFrame :=
  mkFrame [0; 1]%Z
    [("timestamp", of_floats [Fin 0; Fin 5]);
     ("human_time", map OStr ["1970-01-01 00:00:00"; "1970-01-01 00:00:05"]);
     ("phase", map OStr ["baseline"; "event"]);
     ("vulnerability_type", map OStr ["ddos"; "ddos"]);
     ("temperature_S1", of_floats [Fin 21; Fin 22]);
     ("latency_api_S1", of_floats [Fin 100; Fin 100]);
     ("bucket",
      [ODict [("S1", [("api", [("0.1", Fin 95); ("0.5", Fin 100);
                               ("inf", Fin 100)])])];
       ODict [("S1", [("api", [("0.1", Fin 10); ("0.5", Fin 60);
                               ("inf", Fin 100)])])]])]%string.

Lemma with_histograms_regular : regular with_histograms.
Proof.
  constructor.
  - distinct_labels.
  - reflexivity.
  - eexists. split; reflexivity.
  - float_columns with_histograms; eexists; split; reflexivity.
  - intros c G. injection G as <-. split; [reflexivity|].
    intros n H E. unfold has_col, get_col, with_histograms in H.
    cbn [df_columns lookup] in H.
    repeat match type of H with
           | context [String.eqb ?a n] =>
               destruct (String.eqb_spec a n) as [?|?]; [subst n|]
           end; try discriminate H; try discriminate E.
Qed.

Lemma derived_metrics_keep_their_input_witness :
  regular with_histograms
  /\ exists df',
       calculate_derived_metrics with_histograms = OK df'
       /\ df_index df' = df_index with_histograms
       /\ (forall n, n <> "bucket"%string -> derived_name n = false ->
                     get_col n df' = get_col n with_histograms)
       /\ (nrows with_histograms <> 0%nat -> has_col "bucket" df' = false).
Proof.
  split; [exact with_histograms_regular|].
  apply (derived_metrics_keep_their_input with_histograms).
  exact with_histograms_regular.
Defined.

(** * Tables too short for rolling statistics *)

(** The names of the rolling statistics of the temperature columns and of
    the interval stability columns. *)
Definition statistics_name (n : string) : bool :=
  (startswith "temperature_" n
   && (endswith "_roll_mean" n || endswith "_roll_std" n
       || endswith "_zscore" n)
   || startswith "interval_stability_" n)%bool.

Section ShortTables.
Context {B : Builtins}.
Local Open Scope string_scope.

Lemma rolling_for_short (col : string) (df : DataFrame) :
  (nrows df < 5)%nat -> rolling_for col df = df.
Proof.
  intros H. unfold rolling_for.
  destruct (Nat.leb_spec 5 (nrows df)); [lia|reflexivity].
Qed.

Lemma fold_rolling_short (cols : list string) (df : DataFrame) :
  (nrows df < 5)%nat ->
  fold_left (fun d col => rolling_for col d) cols df = df.
Proof.
  intros H. induction cols as [|col cols IH]; simpl; [reflexivity|].
  rewrite rolling_for_short by exact H. exact IH.
Qed.

Lemma count_true_le (mask : list bool) :
  (count_true mask <= List.length mask)%nat.
Proof. unfold count_true. apply filter_length_le. Qed.

Lemma stability_for_phase_short (interval_col stability_col : string)
    (phase : obj) (df : DataFrame) :
  plain df -> (nrows df <= 5)%nat ->
  stability_for_phase interval_col stability_col phase df = OK df.
Proof.
  intros P H. unfold stability_for_phase.
  destruct (plain_phase df P) as (ps & -> & L). cbn [bind].
  pose proof (count_true_le (eq_mask (map OStr ps) phase)) as C.
  unfold eq_mask in C. rewrite !length_map in C.
  fold (eq_mask (map OStr ps) phase) in C.
  destruct (Nat.ltb_spec 5 (count_true (eq_mask (map OStr ps) phase)));
    [lia|reflexivity].
Qed.

Lemma fold_stability_phases_short (interval_col stability_col : string)
    (phases : list obj) (df : DataFrame) :
  plain df -> (nrows df <= 5)%nat ->
  fold_res (stability_for_phase interval_col stability_col) phases df
  = OK df.
Proof.
  intros P H. induction phases as [|ph phases IH]; simpl; [reflexivity|].
  rewrite stability_for_phase_short by assumption. exact IH.
Qed.

Lemma stability_for_short (sid : string) (df : DataFrame) :
  plain df -> (nrows df <= 5)%nat -> stability_for sid df = OK df.
Proof.
  intros P H. unfold stability_for.
  destruct (has_col ("reporting_interval_" ++ sid) df); [|reflexivity].
  destruct (plain_phases_of df P) as (us & ->). cbn [bind].
  apply fold_stability_phases_short; assumption.
Qed.

Lemma fold_stability_short (ids : list string) (df : DataFrame) :
  plain df -> (nrows df <= 5)%nat -> fold_res stability_for ids df = OK df.
Proof.
  intros P H. induction ids as [|sid ids IH]; simpl; [reflexivity|].
  rewrite stability_for_short by assumption. exact IH.
Qed.

Lemma statistics_name_elsewhere (n : string) :
  statistics_name n = true ->
  n <> "bucket" /\ exempt n = false /\ W_dev n = false /\ W_int n = false
  /\ startswith "network_sent_rate_" n = false
  /\ startswith "network_received_rate_" n = false
  /\ W_lat n = false /\ W_cum n = false.
Proof.
  unfold statistics_name. rewrite orb_true_iff, andb_true_iff.
  intros [[H _]|H]; apply startswith_app in H; destruct H as [rest ->];
    (split; [discriminate|]); repeat split; reflexivity.
Qed.

(** A regular table with fewer than five rows comes back without rolling
    statistics and without interval stability: under those names the
    result holds what the table held, a column or none. *)
Theorem short_tables_get_no_statistics (df : DataFrame) :
  regular df -> (nrows df < 5)%nat ->
  exists df',
    calculate_derived_metrics df = OK df'
    /\ forall n, statistics_name n = true -> get_col n df' = get_col n df.
Proof.
  intros R H. destruct (df_empty df) eqn:Em.
  { exists df. unfold calculate_derived_metrics. rewrite Em. auto. }
  destruct (calculate_derived_metrics_stages df R Em)
    as (d0 & d1 & d2 & d3 & d4 & d5 & d6 & d7 & d8
        & E0 & P0 & I0 & _ & _ & S & E).
  exists d8. split; [exact E|].
  destruct (stages_index _ _ _ _ _ _ _ _ _ S) as (_ & I5 & _).
  assert (N5 : nrows d5 = nrows df) by (unfold nrows; congruence).
  assert (E6 : d6 = d5).
  { rewrite (st_roll _ _ _ _ _ _ _ _ _ S).
    apply fold_rolling_short. lia. }
  pose proof (st_result _ _ _ _ _ _ _ _ _ S) as F.
  unfold derive_columns in F. fold (temperature_columns d0) in F.
  rewrite (st_dev _ _ _ _ _ _ _ _ _ S) in F. cbn [bind] in F.
  rewrite (st_int _ _ _ _ _ _ _ _ _ S) in F. cbn [bind] in F.
  rewrite (st_sent _ _ _ _ _ _ _ _ _ S) in F. cbn [bind] in F.
  rewrite (st_recv _ _ _ _ _ _ _ _ _ S) in F. cbn [bind] in F.
  rewrite (st_lat _ _ _ _ _ _ _ _ _ S) in F. cbn [bind] in F.
  rewrite <- (st_roll _ _ _ _ _ _ _ _ _ S) in F.
  destruct (sensor_ids_onto_ok (temperature_columns d0) []
              (temperature_columns_prefix d0)) as [ids Eids].
  rewrite Eids in F. cbn [bind] in F.
  pose proof (st_lat_plain _ _ _ _ _ _ _ _ _ S) as P5.
  rewrite E6 in F.
  rewrite (fold_stability_short ids d5 P5) in F by lia. cbn [bind] in F.
  destruct (fold_res_extends W_cum cumulative_for
              (fun col d => has_col col d = true)
              (filter (startswith "failed_") (names d5)))
    with (df := d5) as (d8' & E8 & _ & (_ & G8 & _)).
  { intros a d d' Ha X. eapply has_col_extends; eassumption. }
  { intros a d Ha Pd Hd. apply filter_In in Ha.
    apply cumulative_for_plain; auto. apply Ha. }
  { exact P5. }
  { intros a Ha. apply filter_In in Ha. apply has_col_in. apply Ha. }
  rewrite E8 in F. injection F as <-.
  intros n Hn.
  destruct (statistics_name_elsewhere n Hn)
    as (Nb & Ne & D1 & D2 & D3 & D4 & D5 & D8).
  rewrite (G8 n D8).
  destruct (st_lat_ext _ _ _ _ _ _ _ _ _ S) as (_ & G5 & _).
  rewrite (G5 n D5).
  rewrite (stages_before_latency _ _ _ _ _ _ _ _ _ n S D1 D2 D3 D4).
  apply (estimate_and_drop_keeps df d0 n R E0 Nb).
  unfold W_lat in D5. apply orb_false_iff in D5. apply D5.
Qed.
End ShortTables.

Lemma short_tables_get_no_statistics_witness :
  regular unordered_rows /\ (nrows unordered_rows < 5)%nat
  /\ exists df',
       calculate_derived_metrics unordered_rows = OK df'
       /\ forall n, statistics_name n = true ->
                    get_col n df' = get_col n unordered_rows.
Proof.
  split; [exact unordered_rows_regular|].
  assert (H : (nrows unordered_rows < 5)%nat)
    by (unfold nrows, unordered_rows; cbn [df_index List.length]; lia).
  split; [exact H|].
  apply (short_tables_get_no_statistics unordered_rows
           unordered_rows_regular H).
Defined.

(** * The columns the calculator adds *)

Section Written.
Context {B : Builtins}.
Local Open Scope string_scope.

(** A loop of assignments in which the turns that [hit] write [value]
    under [target] and the others leave that column alone. *)
Lemma fold_res_writes {A : Type} (f : A -> DataFrame -> result DataFrame)
    (hit : A -> bool) (Inv : DataFrame -> Prop) (target : string)
    (value : column) (l : list A) :
  (forall a d, In a l -> Inv d ->
     exists d', f a d = OK d' /\ Inv d'
                /\ (hit a = true -> get_col target d' = Some value)
                /\ (hit a = false -> get_col target d' = get_col target d)) ->
  forall d, Inv d ->
    existsb hit l = true \/ get_col target d = Some value ->
    exists d', fold_res f l d = OK d' /\ Inv d'
               /\ get_col target d' = Some value.
Proof.
  induction l as [|a l IH]; intros Hstep d Hi Hz.
  - destruct Hz as [Hz|Hz]; [discriminate Hz|]. exists d. auto.
  - destruct (Hstep a d (or_introl eq_refl) Hi) as (d1 & E1 & I1 & T & F).
    cbn [fold_res]. rewrite E1. cbn [bind].
    apply IH; [|exact I1|].
    + intros b d0 Hb. apply Hstep. right. exact Hb.
    + destruct (hit a) eqn:Ha.
      * right. apply T. reflexivity.
      * destruct Hz as [Hz|Hz].
        -- left. simpl in Hz. rewrite Ha in Hz. exact Hz.
        -- right. rewrite F by reflexivity. exact Hz.
Qed.

Lemma get_floats (n : string) (xs : list fl) (df : DataFrame) :
  get_col n df = Some (of_floats xs) -> floats n df = OK xs.
Proof. intros G. unfold floats. rewrite G. apply as_floats_of_floats. Qed.

Lemma stages_after_deviations d0 d1 d2 d3 d4 d5 d6 d7 d8 (n : string) :
  stages d0 d1 d2 d3 d4 d5 d6 d7 d8 ->
  W_int n = false -> startswith "network_sent_rate_" n = false ->
  startswith "network_received_rate_" n = false -> W_lat n = false ->
  W_roll n = false -> W_stab n = false -> W_cum n = false ->
  get_col n d8 = get_col n d1.
Proof.
  intros S H2 H3 H4 H5 H6 H7 H8.
  rewrite (stages_after_latency _ _ _ _ _ _ _ _ _ n S H6 H7 H8).
  destruct (st_int_ext _ _ _ _ _ _ _ _ _ S) as (_ & G2 & _).
  destruct (st_sent_ext _ _ _ _ _ _ _ _ _ S) as (_ & G3 & _).
  destruct (st_recv_ext _ _ _ _ _ _ _ _ _ S) as (_ & G4 & _).
  destruct (st_lat_ext _ _ _ _ _ _ _ _ _ S) as (_ & G5 & _).
  rewrite G5, G4, G3, G2; auto.
Qed.

(** ** Temperature deviations *)

Definition deviation (x y : list fl) : column :=
  of_floats (map fabs (zip_with fsub x y)).

Lemma abs_difference_eq (a b : string) (x y : list fl) (df : DataFrame) :
  get_col a df = Some (of_floats x) -> get_col b df = Some (of_floats y) ->
  abs_difference a b df = OK (deviation x y).
Proof.
  intros Ga Gb. unfold abs_difference.
  rewrite (get_floats a x df Ga), (get_floats b y df Gb). reflexivity.
Qed.

Lemma deviation_length (x y : list fl) (n : nat) :
  List.length x = n -> List.length y = n ->
  exists xs, deviation x y = of_floats xs /\ List.length xs = n.
Proof.
  intros Lx Ly. eexists. split; [reflexivity|].
  rewrite length_map, zip_with_length; congruence.
Qed.

(** One turn of the deviation loop: what it writes and what it keeps. *)
Lemma deviations_for_writes (s : string) (d : DataFrame) :
  plain d -> has_col ("temperature_" ++ s) d = true ->
  exists d',
    deviations_for ("temperature_" ++ s) d = OK d' /\ plain d'
    /\ extends W_dev d d'
    /\ (forall n, n <> "sensor_gateway_dev_" ++ s ->
                  n <> "sensor_true_dev_" ++ s ->
                  n <> "gateway_true_dev_" ++ s ->
                  get_col n d' = get_col n d)
    /\ (forall x y,
          get_col ("temperature_" ++ s) d = Some (of_floats x) ->
          get_col ("gateway_temp_" ++ s) d = Some (of_floats y) ->
          get_col ("sensor_gateway_dev_" ++ s) d' = Some (deviation x y))
    /\ (forall x z,
          get_col ("temperature_" ++ s) d = Some (of_floats x) ->
          get_col ("true_temp_" ++ s) d = Some (of_floats z) ->
          get_col ("sensor_true_dev_" ++ s) d' = Some (deviation x z))
    /\ (forall y z,
          get_col ("gateway_temp_" ++ s) d = Some (of_floats y) ->
          get_col ("true_temp_" ++ s) d = Some (of_floats z) ->
          get_col ("gateway_true_dev_" ++ s) d' = Some (deviation y z)).
Proof.
  intros P Hc.
  destruct (deviations_for_plain ("temperature_" ++ s) d) as (d' & E & P' & X);
    [unfold startswith; apply prefix_of_app|exact P|exact Hc|].
  exists d'. split; [exact E|]. split; [exact P'|]. split; [exact X|].
  destruct (plain_floats d _ P Hc eq_refl) as (xa & _ & Ga & La).
  unfold deviations_for in E. rewrite temperature_parts in E.
  cbn [bind] in E.
  set (tc := "temperature_" ++ s) in *.
  set (gw := "gateway_temp_" ++ s) in *.
  set (tr := "true_temp_" ++ s) in *.
  set (sgd := "sensor_gateway_dev_" ++ s) in *.
  set (std := "sensor_true_dev_" ++ s) in *.
  set (gtd := "gateway_true_dev_" ++ s) in *.
  assert (N1 : tc <> sgd) by (unfold tc, sgd; name_neq).
  assert (N2 : tc <> std) by (unfold tc, std; name_neq).
  assert (N3 : gw <> sgd) by (unfold gw, sgd; name_neq).
  assert (N4 : gw <> std) by (unfold gw, std; name_neq).
  assert (N5 : tr <> sgd) by (unfold tr, sgd; name_neq).
  assert (N6 : tr <> std) by (unfold tr, std; name_neq).
  assert (N7 : sgd <> std) by (unfold sgd, std; name_neq).
  assert (N8 : sgd <> gtd) by (unfold sgd, gtd; name_neq).
  assert (N9 : std <> gtd) by (unfold std, gtd; name_neq).
  destruct (has_col gw d) eqn:Hg.
  - destruct (plain_floats d gw P Hg eq_refl) as (xb & _ & Gb & Lb).
    rewrite (abs_difference_eq tc gw xa xb d Ga Gb) in E. cbn [bind] in E.
    set (d1 := set_col sgd (deviation xa xb) d) in *.
    assert (Ga1 : get_col tc d1 = Some (of_floats xa))
      by (unfold d1; rewrite get_set_other by exact N1; exact Ga).
    assert (Gb1 : get_col gw d1 = Some (of_floats xb))
      by (unfold d1; rewrite get_set_other by exact N3; exact Gb).
    assert (Ht1 : has_col tr d1 = has_col tr d).
    { unfold d1. rewrite has_set_col.
      destruct (String.eqb_spec tr sgd); [contradiction|reflexivity]. }
    rewrite Ht1 in E. destruct (has_col tr d) eqn:Ht.
    + destruct (plain_floats d tr P Ht eq_refl) as (xc & _ & Gc & Lc).
      assert (Gc1 : get_col tr d1 = Some (of_floats xc))
        by (unfold d1; rewrite get_set_other by exact N5; exact Gc).
      rewrite (abs_difference_eq tc tr xa xc d1 Ga1 Gc1) in E.
      cbn [bind] in E.
      set (d2 := set_col std (deviation xa xc) d1) in *.
      assert (Hg2 : has_col gw d2 = true).
      { unfold d2, d1. rewrite !has_set_col, Hg. rewrite !orb_true_r.
        reflexivity. }
      rewrite Hg2 in E.
      assert (Gb2 : get_col gw d2 = Some (of_floats xb))
        by (unfold d2; rewrite get_set_other by exact N4; exact Gb1).
      assert (Gc2 : get_col tr d2 = Some (of_floats xc))
        by (unfold d2; rewrite get_set_other by exact N6; exact Gc1).
      rewrite (abs_difference_eq gw tr xb xc d2 Gb2 Gc2) in E.
      cbn [bind] in E. injection E as <-.
      split; [|split; [|split]].
      * intros n M1 M2 M3. unfold d2, d1.
        rewrite !get_set_other by assumption. reflexivity.
      * intros x y Hx Hy. rewrite Ga in Hx. rewrite Gb in Hy.
        apply some_of_floats_inj in Hx, Hy. subst x y.
        rewrite get_set_other by exact N8. unfold d2.
        rewrite get_set_other by exact N7. apply get_set_same.
      * intros x z Hx Hz. rewrite Ga in Hx. rewrite Gc in Hz.
        apply some_of_floats_inj in Hx, Hz. subst x z.
        rewrite get_set_other by exact N9. apply get_set_same.
      * intros y z Hy Hz. rewrite Gb in Hy. rewrite Gc in Hz.
        apply some_of_floats_inj in Hy, Hz. subst y z.
        apply get_set_same.
    + injection E as <-. split; [|split; [|split]].
      * intros n M1 M2 M3. unfold d1.
        rewrite get_set_other by assumption. reflexivity.
      * intros x y Hx Hy. rewrite Ga in Hx. rewrite Gb in Hy.
        apply some_of_floats_inj in Hx, Hy. subst x y.
        apply get_set_same.
      * intros x z _ Hz. exfalso. unfold has_col in Ht. rewrite Hz in Ht.
        discriminate Ht.
      * intros y z _ Hz. exfalso. unfold has_col in Ht. rewrite Hz in Ht.
        discriminate Ht.
  - cbn [bind] in E. destruct (has_col tr d) eqn:Ht.
    + destruct (plain_floats d tr P Ht eq_refl) as (xc & _ & Gc & Lc).
      rewrite (abs_difference_eq tc tr xa xc d Ga Gc) in E.
      cbn [bind] in E.
      set (d2 := set_col std (deviation xa xc) d) in *.
      assert (Hg2 : has_col gw d2 = false).
      { unfold d2. rewrite has_set_col, Hg.
        destruct (String.eqb_spec gw std); [contradiction|reflexivity]. }
      rewrite Hg2 in E. injection E as <-.
      split; [|split; [|split]].
      * intros n M1 M2 M3. unfold d2.
        rewrite get_set_other by assumption. reflexivity.
      * intros x y _ Hy. exfalso. unfold has_col in Hg. rewrite Hy in Hg.
        discriminate Hg.
      * intros x z Hx Hz. rewrite Ga in Hx. rewrite Gc in Hz.
        apply some_of_floats_inj in Hx, Hz. subst x z.
        apply get_set_same.
      * intros y z Hy _. exfalso. unfold has_col in Hg. rewrite Hy in Hg.
        discriminate Hg.
    + injection E as <-. split; [|split; [|split]].
      * reflexivity.
      * intros x y _ Hy. exfalso. unfold has_col in Hg. rewrite Hy in Hg.
        discriminate Hg.
      * intros x z _ Hz. exfalso. unfold has_col in Ht. rewrite Hz in Ht.
        discriminate Ht.
      * intros y z Hy _. exfalso. unfold has_col in Hg. rewrite Hy in Hg.
        discriminate Hg.
Qed.

Definition deviation_prefix (p : string) : Prop :=
  p = "sensor_gateway_dev_" \/ p = "sensor_true_dev_"
  \/ p = "gateway_true_dev_".

Lemma fold_deviations (d0 : DataFrame) (sid p : string) (value : column) :
  deviation_prefix p -> plain d0 ->
  has_col ("temperature_" ++ sid) d0 = true ->
  (forall d d', plain d -> extends W_dev d0 d ->
                deviations_for ("temperature_" ++ sid) d = OK d' ->
                get_col (p ++ sid) d' = Some value) ->
  exists d1,
    fold_res deviations_for (temperature_columns d0) d0 = OK d1
    /\ get_col (p ++ sid) d1 = Some value.
Proof.
  intros Hp P0 Hc Hv.
  destruct (fold_res_writes deviations_for
              (String.eqb ("temperature_" ++ sid))
              (fun d => plain d /\ extends W_dev d0 d)
              (p ++ sid) value (temperature_columns d0))
    with (d := d0) as (d1 & E & _ & G).
  - intros a d Ha [Pd Xd].
    pose proof (temperature_columns_present d0 a Ha) as Ha0.
    apply filter_In in Ha. destruct Ha as [_ Ha].
    apply startswith_app in Ha. destruct Ha as [s ->].
    assert (Hd : has_col ("temperature_" ++ s) d = true)
      by (eapply has_col_extends; eassumption).
    destruct (deviations_for_writes s d Pd Hd)
      as (d' & E & P' & X & F & _).
    exists d'. split; [exact E|]. split; [|split].
    + split; [exact P'|]. eapply extends_trans; eassumption.
    + intros H. apply String.eqb_eq in H.
      apply string_app_inv_l in H. subst s. apply (Hv d d' Pd Xd E).
    + intros H. apply String.eqb_neq in H.
      assert (Hs : s <> sid) by (intros ->; apply H; reflexivity).
      apply F; destruct Hp as [-> | [-> | ->]]; intros K;
        try (apply string_app_inv_l in K; congruence);
        simpl in K; discriminate K.
  - split; [exact P0|apply extends_refl].
  - left. apply existsb_exists. exists ("temperature_" ++ sid). split.
    + apply filter_In. split; [apply has_col_in; exact Hc|].
      unfold startswith. apply prefix_of_app.
    + apply String.eqb_refl.
  - exists d1. auto.
Qed.

Lemma deviation_name_elsewhere (p sid : string) :
  deviation_prefix p ->
  W_int (p ++ sid) = false
  /\ startswith "network_sent_rate_" (p ++ sid) = false
  /\ startswith "network_received_rate_" (p ++ sid) = false
  /\ W_lat (p ++ sid) = false /\ W_roll (p ++ sid) = false
  /\ W_stab (p ++ sid) = false /\ W_cum (p ++ sid) = false.
Proof. intros [-> | [-> | ->]]; repeat split; reflexivity. Qed.

(** On a regular table with rows, a sensor with a temperature column and
    a gateway column gets, row by row, the absolute difference of the two
    under [sensor_gateway_dev_]; and when the sensor also has a true
    temperature column, the absolute differences against it under
    [sensor_true_dev_] and [gateway_true_dev_]. *)
Theorem temperature_deviations (df : DataFrame) (sid : string)
    (x y : list fl) :
  regular df -> nrows df <> 0%nat ->
  get_col ("temperature_" ++ sid) df = Some (of_floats x) ->
  get_col ("gateway_temp_" ++ sid) df = Some (of_floats y) ->
  exists df',
    calculate_derived_metrics df = OK df'
    /\ get_col ("sensor_gateway_dev_" ++ sid) df' = Some (deviation x y)
    /\ forall z,
         get_col ("true_temp_" ++ sid) df = Some (of_floats z) ->
         get_col ("sensor_true_dev_" ++ sid) df' = Some (deviation x z)
         /\ get_col ("gateway_true_dev_" ++ sid) df'
            = Some (deviation y z).
Proof.
  intros R N Gx Gy.
  assert (Em : df_empty df = false).
  { rewrite (regular_nonempty_columns df R). apply Nat.eqb_neq. exact N. }
  destruct (calculate_derived_metrics_stages df R Em)
    as (d0 & d1 & d2 & d3 & d4 & d5 & d6 & d7 & d8
        & E0 & P0 & I0 & G0 & _ & S & E).
  exists d8. split; [exact E|].
  assert (Gx0 : get_col ("temperature_" ++ sid) d0 = Some (of_floats x))
    by (rewrite G0 by reflexivity; exact Gx).
  assert (Gy0 : get_col ("gateway_temp_" ++ sid) d0 = Some (of_floats y))
    by (rewrite G0 by reflexivity; exact Gy).
  assert (Hc : has_col ("temperature_" ++ sid) d0 = true)
    by (apply has_col_get; eauto).
  assert (Final : forall p value,
             deviation_prefix p ->
             (forall d d', plain d -> extends W_dev d0 d ->
                deviations_for ("temperature_" ++ sid) d = OK d' ->
                get_col (p ++ sid) d' = Some value) ->
             get_col (p ++ sid) d8 = Some value).
  { intros p value Hp Hv.
    destruct (fold_deviations d0 sid p value Hp P0 Hc Hv) as (d1' & E1 & G1).
    rewrite (st_dev _ _ _ _ _ _ _ _ _ S) in E1. injection E1 as <-.
    destruct (deviation_name_elsewhere p sid Hp)
      as (H2 & H3 & H4 & H5 & H6 & H7 & H8).
    rewrite (stages_after_deviations _ _ _ _ _ _ _ _ _ _ S
               H2 H3 H4 H5 H6 H7 H8).
    exact G1. }
  assert (Step : forall d d', plain d -> extends W_dev d0 d ->
             deviations_for ("temperature_" ++ sid) d = OK d' ->
             get_col ("temperature_" ++ sid) d = Some (of_floats x)
             /\ get_col ("gateway_temp_" ++ sid) d = Some (of_floats y)
             /\ (forall n z, W_dev n = false ->
                   get_col n d0 = Some (of_floats z) ->
                   get_col n d = Some (of_floats z))).
  { intros d d' Pd (_ & Gd & _) _.
    split; [rewrite Gd by reflexivity; exact Gx0|].
    split; [rewrite Gd by reflexivity; exact Gy0|].
    intros n z Hn Hz. rewrite Gd by exact Hn. exact Hz. }
  split.
  - apply (Final "sensor_gateway_dev_"); [left; reflexivity|].
    intros d d' Pd Xd Ed.
    destruct (Step d d' Pd Xd Ed) as (Gxd & Gyd & _).
    assert (Hd : has_col ("temperature_" ++ sid) d = true)
      by (apply has_col_get; eauto).
    destruct (deviations_for_writes sid d Pd Hd)
      as (d'' & E'' & _ & _ & _ & V & _).
    rewrite Ed in E''. injection E'' as <-. apply V; assumption.
  - intros z Gz.
    assert (Gz0 : get_col ("true_temp_" ++ sid) d0 = Some (of_floats z))
      by (rewrite G0 by reflexivity; exact Gz).
    split.
    + apply (Final "sensor_true_dev_"); [right; left; reflexivity|].
      intros d d' Pd Xd Ed.
      destruct (Step d d' Pd Xd Ed) as (Gxd & Gyd & Gd).
      assert (Hd : has_col ("temperature_" ++ sid) d = true)
        by (apply has_col_get; eauto).
      destruct (deviations_for_writes sid d Pd Hd)
        as (d'' & E'' & _ & _ & _ & _ & V & _).
      rewrite Ed in E''. injection E'' as <-.
      apply V; [assumption|]. apply Gd; [reflexivity|exact Gz0].
    + apply (Final "gateway_true_dev_"); [right; right; reflexivity|].
      intros d d' Pd Xd Ed.
      destruct (Step d d' Pd Xd Ed) as (Gxd & Gyd & Gd).
      assert (Hd : has_col ("temperature_" ++ sid) d = true)
        by (apply has_col_get; eauto).
      destruct (deviations_for_writes sid d Pd Hd)
        as (d'' & E'' & _ & _ & _ & _ & _ & V).
      rewrite Ed in E''. injection E'' as <-.
      apply V; [assumption|]. apply Gd; [reflexivity|exact Gz0].
Qed.
End Written.

(** ** Network rates *)

(** The change of a counter per second between consecutive rows. *)
Definition rate (bytes timestamps : list fl) : column :=
  of_floats (zip_with fdiv (diff bytes) (diff timestamps)).

Section Rates.
Context {B : Builtins}.
Local Open Scope string_scope.

Lemma rate_for_eq (rp col s : string) (x t : list fl) (d : DataFrame) :
  item 2 (split_max 2 col) = OK s ->
  get_col col d = Some (of_floats x) ->
  get_col "timestamp" d = Some (of_floats t) ->
  rate_for rp col d = OK (set_col (rp ++ s) (rate x t) d).
Proof.
  intros Hp Gx Gt. unfold rate_for. rewrite Hp. cbn [bind].
  rewrite (get_floats col x d Gx), (get_floats "timestamp" t d Gt).
  reflexivity.
Qed.

(** The loop over the counters with prefix [cp], writing under [rp]. *)
Lemma fold_rates (cp rp sid : string) (x t : list fl)
    (cols : list string) (d0 : DataFrame) :
  (forall s, item 2 (split_max 2 (cp ++ s)) = OK s) ->
  (forall s, exempt (cp ++ s) = false) ->
  (forall s, rp ++ s <> "phase" /\ rp ++ s <> "bucket"
             /\ rp ++ s <> "timestamp" /\ rp ++ s <> cp ++ sid) ->
  Forall (fun col => startswith cp col = true /\ has_col col d0 = true)
         cols ->
  In (cp ++ sid) cols ->
  plain d0 ->
  get_col (cp ++ sid) d0 = Some (of_floats x) ->
  get_col "timestamp" d0 = Some (of_floats t) ->
  exists d1,
    fold_res (rate_for rp) cols d0 = OK d1
    /\ get_col (rp ++ sid) d1 = Some (rate x t).
Proof.
  intros Hparts Hex Hnames Hcols Hin P0 Gx Gt.
  rewrite Forall_forall in Hcols.
  destruct (fold_res_writes (rate_for rp) (String.eqb (cp ++ sid))
              (fun d => plain d /\ extends (startswith rp) d0 d
                        /\ get_col (cp ++ sid) d = Some (of_floats x)
                        /\ get_col "timestamp" d = Some (of_floats t))
              (rp ++ sid) (rate x t) cols)
    with (d := d0) as (d1 & E & _ & G).
  - intros a d Ha (Pd & Xd & Gxd & Gtd).
    destruct (Hcols a Ha) as [Hp Hc0].
    apply startswith_app in Hp. destruct Hp as [s ->].
    assert (Hc : has_col (cp ++ s) d = true)
      by (eapply has_col_extends; eassumption).
    destruct (plain_floats d (cp ++ s) Pd Hc (Hex s)) as (y & _ & Gy & Ly).
    destruct (Hnames s) as (N1 & N2 & N3 & N4).
    rewrite (rate_for_eq rp (cp ++ s) s y t d (Hparts s) Gy Gtd).
    eexists. split; [reflexivity|]. split; [|split].
    + split; [|split; [|split]].
      * destruct (plain_timestamp d Pd) as (t' & _ & Gt' & Lt').
        rewrite Gtd in Gt'. apply some_of_floats_inj in Gt'. subst t'.
        apply plain_set_col; [exact Pd| |exact N1|exact N2].
        rewrite zip_with_length; rewrite !diff_length; congruence.
      * eapply extends_trans; [exact Xd|]. apply extends_set_col.
        unfold startswith. apply prefix_of_app.
      * rewrite get_set_other by congruence. exact Gxd.
      * rewrite get_set_other by congruence. exact Gtd.
    + intros H. apply String.eqb_eq in H. apply string_app_inv_l in H.
      subst s. rewrite Gxd in Gy. apply some_of_floats_inj in Gy. subst y.
      apply get_set_same.
    + intros H. apply String.eqb_neq in H. apply get_set_other.
      intros K. apply string_app_inv_l in K. subst s. apply H. reflexivity.
  - split; [exact P0|]. split; [apply extends_refl|]. auto.
  - left. apply existsb_exists. exists (cp ++ sid).
    split; [exact Hin|apply String.eqb_refl].
  - exists d1. auto.
Qed.

Lemma rate_name_clear (s sid : string) :
  startswith "rate_" sid = false -> "rate_" ++ s <> sid.
Proof.
  intros H K. subst sid. unfold startswith in H.
  rewrite prefix_of_app in H. discriminate H.
Qed.

(** On a regular table with rows, the byte counter of a sensor -- sent or
    received -- gets a rate column: in each row the change of the counter
    since the row before divided by the change of the timestamp, and NaN in
    the first row.  The sensor id must not itself start with [rate_]. *)
Theorem network_rate_columns (df : DataFrame) (dir sid : string)
    (bytes ts : list fl) :
  dir = "sent" \/ dir = "received" ->
  regular df -> nrows df <> 0%nat ->
  startswith "rate_" sid = false ->
  get_col ("network_" ++ dir ++ "_" ++ sid) df = Some (of_floats bytes) ->
  get_col "timestamp" df = Some (of_floats ts) ->
  exists df',
    calculate_derived_metrics df = OK df'
    /\ get_col ("network_" ++ dir ++ "_rate_" ++ sid) df'
       = Some (rate bytes ts)
    /\ nth_error (rate bytes ts) 0 = Some (ONum NaN).
Proof.
  intros Hdir R N Hsid Gb Gt.
  assert (Em : df_empty df = false).
  { rewrite (regular_nonempty_columns df R). apply Nat.eqb_neq. exact N. }
  destruct (calculate_derived_metrics_stages df R Em)
    as (d0 & d1 & d2 & d3 & d4 & d5 & d6 & d7 & d8
        & E0 & P0 & I0 & G0 & _ & S & E).
  exists d8. split; [exact E|].
  destruct (st_dev_ext _ _ _ _ _ _ _ _ _ S) as (_ & G1 & _).
  destruct (st_int_ext _ _ _ _ _ _ _ _ _ S) as (_ & G2 & _).
  destruct (st_sent_ext _ _ _ _ _ _ _ _ _ S) as (_ & G3 & H3).
  destruct (st_recv_ext _ _ _ _ _ _ _ _ _ S) as (_ & G4 & _).
  destruct (st_lat_ext _ _ _ _ _ _ _ _ _ S) as (_ & G5 & _).
  assert (Gt2 : get_col "timestamp" d2 = Some (of_floats ts)).
  { rewrite G2, G1, G0 by reflexivity. exact Gt. }
  split.
  2:{ unfold rate. destruct bytes as [|b bytes].
      - exfalso. destruct (regular_floats df _ R
                             (proj2 (has_col_get _ df) (ex_intro _ _ Gb)))
          as (xs & _ & Gxs & L).
        { destruct Hdir as [-> | ->]; reflexivity. }
        rewrite Gb in Gxs. apply some_of_floats_inj in Gxs. subst xs.
        simpl in L. congruence.
      - destruct ts as [|t0 ts].
        + exfalso. destruct (regular_timestamp df R) as (xs & _ & Gxs & L).
          rewrite Gt in Gxs. apply some_of_floats_inj in Gxs. subst xs.
          simpl in L. congruence.
        + reflexivity. }
  destruct Hdir as [-> | ->].
  - assert (Gb2 : get_col ("network_sent_" ++ sid) d2
                  = Some (of_floats bytes)).
    { rewrite G2, G1, G0 by reflexivity. exact Gb. }
    destruct (fold_rates "network_sent_" "network_sent_rate_" sid bytes ts
                (filter (startswith "network_sent_") (names d2)) d2)
      as (d3' & E3 & V).
    + apply network_sent_parts.
    + reflexivity.
    + intros s. repeat split; try name_neq.
      intros K. apply (string_app_inv_l "network_sent_") in K.
      exact (rate_name_clear s sid Hsid K).
    + apply Forall_forall. intros a Ha. apply filter_In in Ha.
      split; [apply Ha|apply has_col_in; apply Ha].
    + apply filter_In. split.
      * apply has_col_in. apply has_col_get. eauto.
      * unfold startswith. apply prefix_of_app.
    + apply (st_int_plain _ _ _ _ _ _ _ _ _ S).
    + exact Gb2.
    + exact Gt2.
    + rewrite (st_sent _ _ _ _ _ _ _ _ _ S) in E3. injection E3 as <-.
      rewrite (stages_after_latency _ _ _ _ _ _ _ _ _ _ S)
        by reflexivity.
      rewrite G5, G4 by reflexivity. exact V.
  - assert (Gb3 : get_col ("network_received_" ++ sid) d3
                  = Some (of_floats bytes)).
    { rewrite G3, G2, G1, G0 by reflexivity. exact Gb. }
    destruct (fold_rates "network_received_" "network_received_rate_" sid
                bytes ts
                (filter (startswith "network_received_") (names d2)) d3)
      as (d4' & E4 & V).
    + apply network_received_parts.
    + reflexivity.
    + intros s. repeat split; try name_neq.
      intros K. apply (string_app_inv_l "network_received_") in K.
      exact (rate_name_clear s sid Hsid K).
    + apply Forall_forall. intros a Ha. apply filter_In in Ha.
      split; [apply Ha|]. apply H3. apply has_col_in. apply Ha.
    + apply filter_In. split.
      * apply has_col_in. apply has_col_get.
        exists (of_floats bytes). rewrite G2, G1, G0 by reflexivity.
        exact Gb.
      * unfold startswith. apply prefix_of_app.
    + apply (st_sent_plain _ _ _ _ _ _ _ _ _ S).
    + exact Gb3.
    + rewrite G3 by reflexivity. exact Gt2.
    + rewrite (st_recv _ _ _ _ _ _ _ _ _ S) in E4. injection E4 as <-.
      rewrite (stages_after_latency _ _ _ _ _ _ _ _ _ _ S)
        by reflexivity.
      rewrite G5 by reflexivity. exact V.
Qed.
End Rates.

(** ** Cumulative failures *)

Local Open Scope string_scope.

Lemma split_failed (r : string) :
  split_max 2 ("failed_" ++ r) = "failed" :: split_max 1 r.
Proof. reflexivity. Qed.

Lemma split_one_cases (r : string) :
  split_max 1 r = [r]
  \/ exists e s, split_max 1 r = [e; s] /\ r = e ++ "_" ++ s.
Proof.
  induction r as [|c r IH].
  - left. reflexivity.
  - simpl. destruct (Ascii.eqb_spec c "_") as [->|Hc].
    + right. exists "", r. rewrite split_max_zero. auto.
    + destruct IH as [->|(e & s & -> & ->)].
      * left. reflexivity.
      * right. exists (String c e), s. auto.
Qed.

Lemma no_underscore_cons (c : ascii) (e : string) :
  contains "_" (String c e) = false ->
  Ascii.eqb c "_" = false /\ contains "_" e = false.
Proof.
  simpl. intros H. apply orb_false_iff in H. destruct H as [H1 H2].
  split; [|exact H2].
  destruct (Ascii.eqb_spec c "_") as [->|]; [|reflexivity].
  destruct e; vm_compute in H1; discriminate H1.
Qed.

Lemma split_endpoint (e s : string) :
  contains "_" e = false -> split_max 1 (e ++ "_" ++ s) = [e; s].
Proof.
  induction e as [|c e IH]; intros H.
  - simpl. rewrite split_max_zero. reflexivity.
  - apply no_underscore_cons in H. destruct H as [Hc He].
    change (split_max 1 (String c e ++ "_" ++ s))
      with (if Ascii.eqb c "_"
            then "" :: split_max 0 (e ++ "_" ++ s)
            else match split_max 1 (e ++ "_" ++ s) with
                 | head :: tail => String c head :: tail
                 | [] => [String c ""]
                 end).
    rewrite Hc, (IH He). reflexivity.
Qed.

Local Close Scope string_scope.

Section Cumulative.
Context {B : Builtins}.
Local Open Scope string_scope.

(** One turn of the loop over the failed-request counters. *)
Lemma cumulative_for_eq (r : string) (d : DataFrame) :
  plain d -> has_col ("failed_" ++ r) d = true ->
  match split_max 1 r with
  | [_; _] =>
      exists x,
        get_col ("failed_" ++ r) d = Some (of_floats x)
        /\ List.length x = nrows d
        /\ cumulative_for ("failed_" ++ r) d
           = OK (set_col ("cumulative_failures_" ++ r)
                         (of_floats (cumsum x)) d)
  | _ => cumulative_for ("failed_" ++ r) d = OK d
  end.
Proof.
  intros P Hc. unfold cumulative_for. rewrite split_failed.
  destruct (split_one_cases r) as [->|(e & s & Es & Er)].
  - reflexivity.
  - rewrite Es. cbn [List.length Nat.leb item nth_error bind].
    destruct (plain_floats d ("failed_" ++ r) P Hc eq_refl)
      as (x & F & G & L).
    exists x. split; [exact G|]. split; [exact L|].
    rewrite F. cbn [bind]. subst r. reflexivity.
Qed.

Lemma fold_cumulative (rest : string) (x : list fl) (cols : list string)
    (d0 : DataFrame) :
  Forall (fun col => startswith "failed_" col = true
                     /\ has_col col d0 = true) cols ->
  In ("failed_" ++ rest) cols ->
  (exists e s, split_max 1 rest = [e; s]) ->
  plain d0 ->
  get_col ("failed_" ++ rest) d0 = Some (of_floats x) ->
  exists d1,
    fold_res cumulative_for cols d0 = OK d1
    /\ plain d1 /\ extends W_cum d0 d1
    /\ get_col ("cumulative_failures_" ++ rest) d1
       = Some (of_floats (cumsum x)).
Proof.
  intros Hcols Hin (e0 & s0 & Hparts) P0 Gx. rewrite Forall_forall in Hcols.
  destruct (fold_res_writes cumulative_for (String.eqb ("failed_" ++ rest))
              (fun d => plain d /\ extends W_cum d0 d
                        /\ get_col ("failed_" ++ rest) d
                           = Some (of_floats x))
              ("cumulative_failures_" ++ rest) (of_floats (cumsum x)) cols)
    with (d := d0) as (d1 & E & (P1 & X1 & _) & G).
  - intros a d Ha (Pd & Xd & Gxd).
    destruct (Hcols a Ha) as [Hp Hc0].
    apply startswith_app in Hp. destruct Hp as [r ->].
    assert (Hc : has_col ("failed_" ++ r) d = true)
      by (eapply has_col_extends; eassumption).
    pose proof (cumulative_for_eq r d Pd Hc) as C.
    assert (Written :
              forall y, List.length y = nrows d ->
                get_col ("failed_" ++ r) d = Some (of_floats y) ->
                let d' := set_col ("cumulative_failures_" ++ r)
                                  (of_floats (cumsum y)) d in
                (plain d' /\ extends W_cum d0 d'
                 /\ get_col ("failed_" ++ rest) d' = Some (of_floats x))
                /\ (String.eqb ("failed_" ++ rest) ("failed_" ++ r) = true ->
                    get_col ("cumulative_failures_" ++ rest) d'
                    = Some (of_floats (cumsum x)))
                /\ (String.eqb ("failed_" ++ rest) ("failed_" ++ r) = false ->
                    get_col ("cumulative_failures_" ++ rest) d'
                    = get_col ("cumulative_failures_" ++ rest) d)).
    { intros y Ly Gy d'. split; [|split].
      - split; [|split].
        + apply plain_set_col; [exact Pd| |name_neq|name_neq].
          unfold cumsum. rewrite cumsum_from_length. exact Ly.
        + eapply extends_trans; [exact Xd|]. apply extends_set_col.
          unfold W_cum, startswith. apply prefix_of_app.
        + unfold d'. rewrite get_set_other; [exact Gxd|name_neq].
      - intros H. apply String.eqb_eq in H. apply string_app_inv_l in H.
        subst r. rewrite Gxd in Gy. apply some_of_floats_inj in Gy.
        subst y. apply get_set_same.
      - intros H. apply String.eqb_neq in H. apply get_set_other.
        intros K. apply string_app_inv_l in K. subst r.
        apply H. reflexivity. }
    assert (Skipped :
              split_max 1 r <> [e0; s0] ->
              cumulative_for ("failed_" ++ r) d = OK d ->
              exists d',
                cumulative_for ("failed_" ++ r) d = OK d'
                /\ (plain d' /\ extends W_cum d0 d'
                    /\ get_col ("failed_" ++ rest) d' = Some (of_floats x))
                /\ (String.eqb ("failed_" ++ rest) ("failed_" ++ r) = true ->
                    get_col ("cumulative_failures_" ++ rest) d'
                    = Some (of_floats (cumsum x)))
                /\ (String.eqb ("failed_" ++ rest) ("failed_" ++ r) = false ->
                    get_col ("cumulative_failures_" ++ rest) d'
                    = get_col ("cumulative_failures_" ++ rest) d)).
    { intros Hne E. exists d. split; [exact E|]. split; [auto|]. split.
      - intros H. apply String.eqb_eq in H. apply string_app_inv_l in H.
        subst r. contradiction.
      - reflexivity. }
    destruct (split_max 1 r) as [|p1 [|p2 [|p3 ps]]] eqn:Sr;
      try (apply Skipped; [discriminate|exact C]).
    destruct C as (y & Gy & Ly & E). rewrite E.
    eexists. split; [reflexivity|]. apply Written; assumption.
  - split; [exact P0|]. split; [apply extends_refl|exact Gx].
  - left. apply existsb_exists. exists ("failed_" ++ rest).
    split; [exact Hin|apply String.eqb_refl].
  - exists d1. auto.
Qed.

(** The last two loops of [derive_columns], from the table the rolling
    statistics leave. *)
Lemma stages_tail d0 d1 d2 d3 d4 d5 d6 d7 d8 :
  stages d0 d1 d2 d3 d4 d5 d6 d7 d8 ->
  exists d7',
    plain d7' /\ extends W_stab d6 d7'
    /\ fold_res cumulative_for
                (filter (startswith "failed_") (names d7')) d7' = OK d8.
Proof.
  intros S.
  pose proof (st_result _ _ _ _ _ _ _ _ _ S) as F.
  unfold derive_columns in F. fold (temperature_columns d0) in F.
  rewrite (st_dev _ _ _ _ _ _ _ _ _ S) in F. cbn [bind] in F.
  rewrite (st_int _ _ _ _ _ _ _ _ _ S) in F. cbn [bind] in F.
  rewrite (st_sent _ _ _ _ _ _ _ _ _ S) in F. cbn [bind] in F.
  rewrite (st_recv _ _ _ _ _ _ _ _ _ S) in F. cbn [bind] in F.
  rewrite (st_lat _ _ _ _ _ _ _ _ _ S) in F. cbn [bind] in F.
  rewrite <- (st_roll _ _ _ _ _ _ _ _ _ S) in F.
  destruct (sensor_ids_onto_ok (temperature_columns d0) []
              (temperature_columns_prefix d0)) as [ids Eids].
  rewrite Eids in F. cbn [bind] in F.
  destruct (fold_res_extends W_stab stability_for (fun _ _ => True) ids)
    with (df := d6) as (d7' & E7 & P7 & X7); auto.
  { intros a d _ Pd _. apply stability_for_plain. exact Pd. }
  { apply (st_roll_plain _ _ _ _ _ _ _ _ _ S). }
  rewrite E7 in F. cbn [bind] in F.
  exists d7'. auto.
Qed.

(** On a regular table with rows, the failed-request counter of an
    endpoint (a name without underscore) and a sensor gets a column of
    running totals: each row holds the sum of the counter over the rows up
    to it, missing values left out of the sum and kept missing. *)
Theorem cumulative_failure_columns (df : DataFrame)
    (endpoint sensor : string) (x : list fl) :
  regular df -> nrows df <> 0%nat ->
  contains "_" endpoint = false ->
  get_col ("failed_" ++ endpoint ++ "_" ++ sensor) df = Some (of_floats x) ->
  exists df',
    calculate_derived_metrics df = OK df'
    /\ get_col ("cumulative_failures_" ++ endpoint ++ "_" ++ sensor) df'
       = Some (of_floats (cumsum x)).
Proof.
  intros R N He Gx.
  assert (Em : df_empty df = false).
  { rewrite (regular_nonempty_columns df R). apply Nat.eqb_neq. exact N. }
  destruct (calculate_derived_metrics_stages df R Em)
    as (d0 & d1 & d2 & d3 & d4 & d5 & d6 & d7 & d8
        & E0 & P0 & I0 & G0 & _ & S & E).
  exists d8. split; [exact E|].
  destruct (stages_tail _ _ _ _ _ _ _ _ _ S) as (d7' & P7 & (_ & G7 & _) & F).
  destruct (st_roll_ext _ _ _ _ _ _ _ _ _ S) as (_ & G6 & _).
  destruct (st_lat_ext _ _ _ _ _ _ _ _ _ S) as (_ & G5 & _).
  set (rest := endpoint ++ "_" ++ sensor) in *.
  assert (Gx7 : get_col ("failed_" ++ rest) d7' = Some (of_floats x)).
  { rewrite G7, G6, G5 by reflexivity.
    rewrite (stages_before_latency _ _ _ _ _ _ _ _ _ _ S)
      by reflexivity.
    rewrite G0 by reflexivity. exact Gx. }
  destruct (fold_cumulative rest x
              (filter (startswith "failed_") (names d7')) d7')
    as (d8' & E8 & _ & _ & V).
  - apply Forall_forall. intros a Ha. apply filter_In in Ha.
    split; [apply Ha|apply has_col_in; apply Ha].
  - apply filter_In. split.
    + apply has_col_in. apply has_col_get. eauto.
    + unfold startswith. apply prefix_of_app.
  - exists endpoint, sensor. apply split_endpoint. exact He.
  - exact P7.
  - exact Gx7.
  - rewrite F in E8. injection E8 as <-. exact V.
Qed.
End Cumulative.

(** ** A sensor with gateway, ground truth and counters *)

Definition instrumented : DataFrame :=
  mkFrame [0; 1; 2]%Z
    [("timestamp", of_floats [Fin 0; Fin 5; Fin 10]);
     ("phase", map OStr ["baseline"; "baseline"; "event"]);
     ("temperature_S1", of_floats [Fin 21; Fin 22; Fin 20]);
     ("gateway_temp_S1", of_floats [Fin 20; Fin 22; Fin 23]);
     ("true_temp_S1", of_floats [Fin 21; Fin 21; Fin 21]);
     ("network_sent_S1", of_floats [Fin 100; Fin 600; Fin 1100]);
     ("network_received_S1", of_floats [Fin 50; Fin 50; Fin 80]);
     ("failed_api_S1", of_floats [Fin 1; NaN; Fin 2])]%string.

Lemma instrumented_regular : regular instrumented.
Proof. regular_table instrumented. Qed.

Lemma temperature_deviations_witness :
  regular instrumented
  /\ exists df',
       calculate_derived_metrics instrumented = OK df'
       /\ get_col "sensor_gateway_dev_S1" df'
          = Some (deviation [Fin 21; Fin 22; Fin 20]
                            [Fin 20; Fin 22; Fin 23])
       /\ forall z,
            get_col "true_temp_S1" instrumented = Some (of_floats z) ->
            get_col "sensor_true_dev_S1" df'
            = Some (deviation [Fin 21; Fin 22; Fin 20] z)
            /\ get_col "gateway_true_dev_S1" df'
               = Some (deviation [Fin 20; Fin 22; Fin 23] z).
Proof.
  split; [exact instrumented_regular|].
  apply (temperature_deviations instrumented "S1"
           [Fin 21; Fin 22; Fin 20] [Fin 20; Fin 22; Fin 23]).
  - exact instrumented_regular.
  - discriminate.
  - reflexivity.
  - reflexivity.
Defined.

Lemma network_rate_columns_witness :
  regular instrumented
  /\ exists df',
       calculate_derived_metrics instrumented = OK df'
       /\ get_col "network_sent_rate_S1" df'
          = Some (rate [Fin 100; Fin 600; Fin 1100] [Fin 0; Fin 5; Fin 10])
       /\ nth_error (rate [Fin 100; Fin 600; Fin 1100]
                          [Fin 0; Fin 5; Fin 10]) 0
          = Some (ONum NaN).
Proof.
  split; [exact instrumented_regular|].
  apply (network_rate_columns instrumented "sent" "S1"
           [Fin 100; Fin 600; Fin 1100] [Fin 0; Fin 5; Fin 10]).
  - left. reflexivity.
  - exact instrumented_regular.
  - discriminate.
  - reflexivity.
  - reflexivity.
  - reflexivity.
Defined.

Lemma cumulative_failure_columns_witness :
  regular instrumented
  /\ exists df',
       calculate_derived_metrics instrumented = OK df'
       /\ get_col "cumulative_failures_api_S1" df'
          = Some (of_floats (cumsum [Fin 1; NaN; Fin 2])).
Proof.
  split; [exact instrumented_regular|].
  apply (cumulative_failure_columns instrumented "api" "S1"
           [Fin 1; NaN; Fin 2]).
  - exact instrumented_regular.
  - discriminate.
  - reflexivity.
  - reflexivity.
Defined.

(** * More on the p95 estimator *)

(** The methods the estimator can report. *)
Definition estimation_methods : list string :=
  ["no_data"; "only_inf_bucket"; "single_bucket"; "insufficient_buckets";
   "zero_counts"; "interpolation"; "highest_bucket"]%string.

(** The methods that come without a value. *)
Definition methods_without_value : list string :=
  ["no_data"; "only_inf_bucket"; "insufficient_buckets";
   "zero_counts"]%string.

(** Whatever the buckets -- none, bounds that are not numbers, counts that
    go down -- the estimator returns, with one of its seven methods; the
    estimate is unflagged exactly when the method is [interpolation]; and
    the four methods for unusable histograms come with NaN. *)
Theorem estimate_always_labelled (bucket_bounds : list bucket) :
  exists e,
    estimate_latency bucket_bounds = OK e
    /\ (is_estimated e = false <-> method e = "interpolation"%string)
    /\ In (method e) estimation_methods
    /\ (In (method e) methods_without_value -> latency_ms e = NaN).
Proof.
  unfold estimate_latency.
  generalize (sorted_items bucket_bounds). intros sb.
  assert (Flagged : forall v m,
             m <> "interpolation"%string ->
             In m estimation_methods ->
             (In m methods_without_value -> v = NaN) ->
             exists e,
               OK (mkEstimate v true m) = OK e
               /\ (is_estimated e = false <-> method e = "interpolation"%string)
               /\ In (method e) estimation_methods
               /\ (In (method e) methods_without_value
                   -> latency_ms e = NaN)).
  { intros v m Hm Hin Hv. eexists. split; [reflexivity|]. simpl.
    split; [|split; assumption].
    split; [discriminate|]. intros H. contradiction. }
  destruct sb as [|[b1 c1] [|b2 sb]].
  - apply Flagged; [discriminate|simpl; tauto|reflexivity].
  - simpl. destruct (feqb b1 PInf).
    + apply Flagged; [discriminate|simpl; tauto|reflexivity].
    + apply Flagged; [discriminate|simpl; tauto|].
      simpl. intros [H|[H|[H|[H|[]]]]]; discriminate H.
  - unfold estimate_sorted.
    match goal with
    | |- context [(2 <=? ?n)%nat] => destruct (2 <=? n)%nat
    end; [|apply Flagged; [discriminate|simpl; tauto|reflexivity]].
    match goal with
    | |- context [fltb (Fin 0) ?c] => destruct (fltb (Fin 0) c)
    end; [|apply Flagged; [discriminate|simpl; tauto|reflexivity]].
    match goal with
    | |- context [scan_pairs ?t ?l] =>
        destruct (scan_pairs_total t l) as [[s|] ->]
    end; cbn [bind].
    + eexists. split; [reflexivity|]. simpl. split; [tauto|].
      split; [tauto|]. intros [H|[H|[H|[H|[]]]]]; discriminate H.
    + apply Flagged; [discriminate|simpl; tauto|].
      simpl. intros [H|[H|[H|[H|[]]]]]; discriminate H.
Qed.


(** ** No pair brackets the target *)



(** Most requests slower than the highest finite bound. *)
Definition slow_tail : list bucket :=
  [(Fin (1 # 10), Fin 10); (Fin (1 # 2), Fin 20); (PInf, Fin 100)].


(** ** The order of the buckets does not matter *)

(** A dict of buckets: no bound is NaN and no two items have equal
    bounds. *)
Definition bucket_dict_items (items : list bucket) : Prop :=
  NoDup items
  /\ Forall has_bound items
  /\ forall a b, In a items -> In b items ->
                 feqb (fst a) (fst b) = true -> a = b.

Definition bound_lt (a b : bucket) : Prop := fltb (fst a) (fst b) = true.

Lemma fltb_asym (x y : fl) : fltb x y = true -> fltb y x = false.
Proof.
  destruct x, y; simpl; try congruence.
  rewrite Qlt_bool_iff, Qlt_bool_false. apply Qlt_le_weak.
Qed.

Lemma fleb_distinct_fltb (x y : fl) :
  fleb x y = true -> feqb x y = false -> fltb x y = true.
Proof.
  destruct x, y; simpl; try congruence.
  rewrite Qle_bool_iff, Qlt_bool_iff. intros L E.
  destruct (Qlt_le_dec q q0) as [H|H]; [exact H|].
  exfalso. assert (Qeq_bool q q0 = true); [|congruence].
  apply Qeq_bool_iff. apply Qle_antisym; assumption.
Qed.

Lemma strictly_sorted (l : list bucket) :
  StronglySorted bound_le l -> bucket_dict_items l ->
  StronglySorted bound_lt l.
Proof.
  intros Hs (Hn & _ & Hd).
  induction Hs as [|x l Hs IH Hx]; [constructor|].
  inversion Hn as [|? ? Hx' Hn']; subst.
  constructor.
  - apply IH; [exact Hn'|].
    intros a b Ha Hb. apply Hd; right; assumption.
  - apply Forall_forall. intros y Hy.
    rewrite Forall_forall in Hx. specialize (Hx y Hy).
    apply fleb_distinct_fltb; [exact Hx|].
    destruct (feqb (fst x) (fst y)) eqn:E; [|reflexivity].
    exfalso. apply Hx'.
    rewrite (Hd x y (or_introl eq_refl) (or_intror Hy) E). exact Hy.
Qed.

Lemma strictly_sorted_unique (l1 l2 : list bucket) :
  StronglySorted bound_lt l1 -> StronglySorted bound_lt l2 ->
  Permutation l1 l2 -> l1 = l2.
Proof.
  intros H1. revert l2. induction H1 as [|x l1 Hs1 IH Hx]; intros l2 H2 Hp.
  - apply Permutation_nil in Hp. congruence.
  - destruct l2 as [|y l2].
    { apply Permutation_sym, Permutation_nil in Hp. discriminate. }
    inversion H2 as [|? ? Hs2 Hy]; subst.
    assert (x = y).
    { assert (Ix : In x (y :: l2))
        by (apply (Permutation_in _ Hp); left; reflexivity).
      assert (Iy : In y (x :: l1))
        by (apply (Permutation_in _ (Permutation_sym Hp)); left;
            reflexivity).
      destruct Ix as [->|Ix]; [reflexivity|].
      destruct Iy as [->|Iy]; [reflexivity|].
      rewrite Forall_forall in Hx, Hy.
      pose proof (Hx y Iy) as A. pose proof (Hy x Ix) as C.
      unfold bound_lt in A, C. apply fltb_asym in A. congruence. }
    subst y. f_equal. apply IH; [exact Hs2|].
    apply (Permutation_cons_inv Hp).
Qed.

Lemma bucket_dict_items_perm (l l' : list bucket) :
  Permutation l l' -> bucket_dict_items l -> bucket_dict_items l'.
Proof.
  intros Hp (Hn & Hb & Hd). split; [|split].
  - apply (Permutation_NoDup Hp Hn).
  - apply (Permutation_Forall Hp Hb).
  - intros a b Ha Hb'. apply Hd; apply (Permutation_in _ (Permutation_sym Hp));
      assumption.
Qed.

Lemma sorted_items_order (l l' : list bucket) :
  bucket_dict_items l -> Permutation l l' ->
  sorted_items l = sorted_items l'.
Proof.
  intros Hd Hp.
  pose proof (bucket_dict_items_perm l l' Hp Hd) as Hd'.
  pose proof (sorted_items_perm l) as P1.
  pose proof (sorted_items_perm l') as P2.
  apply strictly_sorted_unique.
  - apply strictly_sorted.
    + apply sorted_items_sorted. apply Hd.
    + apply (bucket_dict_items_perm l _ P1 Hd).
  - apply strictly_sorted.
    + apply sorted_items_sorted. apply Hd'.
    + apply (bucket_dict_items_perm l' _ P2 Hd').
  - apply perm_trans with l; [apply Permutation_sym; exact P1|].
    apply perm_trans with l'; [exact Hp|exact P2].
Qed.

(** The estimate depends on which buckets there are, not on the order in
    which the dict lists them. *)
Theorem estimate_ignores_bucket_order (items items' : list bucket) :
  bucket_dict_items items -> Permutation items items' ->
  estimate_latency items = estimate_latency items'.
Proof.
  intros Hd Hp. unfold estimate_latency.
  rewrite (sorted_items_order items items' Hd Hp). reflexivity.
Qed.

Lemma slow_tail_items : bucket_dict_items slow_tail.
Proof.
  split; [|split].
  - repeat (constructor; [simpl; intuition discriminate|]). constructor.
  - repeat constructor.
  - intros a b Ha Hb. simpl in Ha, Hb.
    destruct Ha as [<-|[<-|[<-|[]]]]; destruct Hb as [<-|[<-|[<-|[]]]];
      intros E; try reflexivity; vm_compute in E; discriminate E.
Qed.

Lemma estimate_ignores_bucket_order_witness :
  bucket_dict_items slow_tail
  /\ estimate_latency slow_tail
     = estimate_latency
         [(PInf, Fin 100); (Fin (1 # 2), Fin 20); (Fin (1 # 10), Fin 10)].
Proof.
  split; [exact slow_tail_items|].
  apply (estimate_ignores_bucket_order slow_tail _ slow_tail_items).
  unfold slow_tail.
  apply perm_trans
    with [(Fin (1 # 2), Fin 20); (Fin (1 # 10), Fin 10); (PInf, Fin 100)].
  - apply perm_swap.
  - apply perm_trans
      with [(Fin (1 # 2), Fin 20); (PInf, Fin 100); (Fin (1 # 10), Fin 10)].
    + apply perm_skip. apply perm_swap.
    + apply perm_swap.
Defined.

(** * The guarded ratio *)

Definition is_infinite (x : fl) : bool :=
  match x with PInf | NInf => true | _ => false end.

Lemma fin_not_nan (q : Q) : isnan (fin q) = false.
Proof. reflexivity. Qed.

(** [safe_divide] never raises.  It gives NaN for a NaN argument, for a
    zero denominator and for two infinities, and the quotient, which is
    a number or an infinity, in every other case. *)
Theorem safe_divide_guarded (numerator denominator : fl) :
  exists v,
    safe_divide numerator denominator = OK v
    /\ isnan v
       = (isnan numerator || isnan denominator
          || feqb denominator (Fin 0)
          || (is_infinite numerator && is_infinite denominator))%bool
    /\ (isnan v = false -> v = fdiv numerator denominator).
Proof.
  unfold safe_divide.
  destruct (isnan numerator || isnan denominator
            || feqb denominator (Fin 0))%bool eqn:G.
  - exists NaN. split; [reflexivity|]. split; [|discriminate].
    reflexivity.
  - apply orb_false_iff in G. destruct G as [G Hz].
    apply orb_false_iff in G. destruct G as [Hn Hd].
    rewrite (py_div_nonzero _ _ Hz).
    exists (fdiv numerator denominator). split; [reflexivity|].
    split; [|reflexivity].
    destruct numerator as [| | |a], denominator as [| | |b];
      try discriminate; try reflexivity; simpl in *.
    + destruct (Qlt_bool b 0); reflexivity.
    + destruct (Qlt_bool b 0); reflexivity.
    + rewrite Hz. reflexivity.
Qed.

(** * Which values the flattener cannot coerce *)

(** The item [float] is applied to: position 1 of a list of two or more,
    position 0 of a list of one, the value itself otherwise. *)
Definition selected_value (raw_value : json) : json :=
  match raw_value with
  | JList (_ :: second :: _) => second
  | JList [only] => only
  | _ => raw_value
  end.

Definition in_list (raw_value : json) : bool :=
  match raw_value with JList (_ :: _) => true | _ => false end.

Definition not_a_scalar (v : json) : bool :=
  match v with JNull | JList _ | JObj _ => true | _ => false end.

Definition beyond_double (v : json) : bool :=
  match v with
  | JInt z => (float_overflow_threshold <=? Z.abs z)%Z
  | _ => false
  end.

Section CoercionExact.
Context {B : Builtins}.

(** The coercion of an entry's value raises in two cases only: an
    integer too large for a double (OverflowError, in any position), and
    a null, list or object found inside a list (TypeError).  Everything
    else gives the number [float] reads, or 0.0 where [float] refuses. *)
Theorem coercion_raises_exactly (raw_value : json) :
  coerce_value raw_value
  = if beyond_double (selected_value raw_value) then Raise OverflowError
    else if (in_list raw_value
             && not_a_scalar (selected_value raw_value))%bool
         then Raise TypeError
         else OK (match py_float (selected_value raw_value) with
                  | OK x => x
                  | Raise _ => Fin 0
                  end).
Proof.
  assert (Listed : forall v,
             catch IndexError_or_ValueError (py_float v) (Fin 0)
             = if beyond_double v then Raise OverflowError
               else if not_a_scalar v then Raise TypeError
                    else OK (match py_float v with
                             | OK x => x
                             | Raise _ => Fin 0
                             end)).
  { intros v. destruct v as [| b | z | x | s | l | f]; simpl;
      try reflexivity.
    - destruct (float_overflow_threshold <=? Z.abs z)%Z; reflexivity.
    - destruct (float_of_str s); reflexivity. }
  destruct raw_value as [| b | z | x | s | [|a [|c l]] | f]; simpl;
    try reflexivity.
  - destruct (float_overflow_threshold <=? Z.abs z)%Z; reflexivity.
  - destruct (float_of_str s); reflexivity.
  - apply Listed.
  - apply Listed.
Qed.
End CoercionExact.

(** * The calculator as a call *)

Section CopyFacts.
Context {B : Builtins}.

(** [calculate_derived_metrics] called on a reference: the table at that
    reference is afterwards what it was, and the reference returned holds
    the table the function computes from it -- at a fresh address unless
    the table was empty. *)
Theorem derived_metrics_work_on_a_copy (r r' : ref) (h h' : heap)
    (df : DataFrame) :
  deref r h = OK df ->
  calculate_derived_metrics_call r h = OK (r', h') ->
  deref r h' = OK df
  /\ deref r' h' = calculate_derived_metrics df
  /\ (df_empty df = false -> (List.length h <= r')%nat).
Proof.
  intros D C.
  split; [exact (calculate_derived_metrics_keeps_input r r' h h' df D C)|].
  pose proof (deref_bound r h df D) as L.
  unfold calculate_derived_metrics_call in C. rewrite D in C.
  cbn [bind] in C. unfold calculate_derived_metrics, estimate_and_drop.
  destruct (df_empty df).
  { injection C as <- <-. split; [exact D|discriminate]. }
  unfold alloc in C.
  destruct (has_col "bucket" df).
  - destruct (process_latency_buckets df) as [est|]; [|discriminate C].
    cbn [bind] in C |- *.
    set (h1 := store (List.length h) est (h ++ [df])%list) in *.
    assert (L1 : List.length h1 = S (List.length h)).
    { unfold h1. rewrite store_length, length_app. simpl. lia. }
    unfold deref in C at 1. rewrite nth_error_app2 in C by lia.
    replace (List.length h1 - List.length h1)%nat with 0%nat in C by lia.
    cbn [nth_error bind] in C.
    destruct (derive_columns (drop_col "bucket" est)) as [out|];
      [|discriminate C].
    cbn [bind] in C. injection C as <- <-.
    split; [|intros _; lia].
    unfold deref. rewrite nth_error_store_same; [reflexivity|].
    rewrite length_app. simpl. lia.
  - cbn [bind] in C |- *.
    unfold deref in C at 1. rewrite nth_error_app2 in C by lia.
    replace (List.length h - List.length h)%nat with 0%nat in C by lia.
    cbn [nth_error bind] in C.
    destruct (derive_columns df) as [out|]; [|discriminate C].
    cbn [bind] in C. injection C as <- <-.
    split; [|intros _; lia].
    unfold deref. rewrite nth_error_store_same; [reflexivity|].
    rewrite length_app. simpl. lia.
Qed.
End CopyFacts.

Lemma derived_metrics_work_on_a_copy_witness :
  deref 0%nat [with_histograms] = OK with_histograms
  /\ exists r' h',
       calculate_derived_metrics_call 0%nat [with_histograms] = OK (r', h')
       /\ deref 0%nat h' = OK with_histograms
       /\ deref r' h' = calculate_derived_metrics with_histograms
       /\ (df_empty with_histograms = false -> (1 <= r')%nat).
Proof.
  split; [reflexivity|].
  destruct (calculate_derived_metrics_call 0%nat [with_histograms])
    as [[r' h']|e] eqn:E.
  2:{ exfalso. vm_compute in E. discriminate E. }
  exists r', h'. split; [reflexivity|].
  apply (derived_metrics_work_on_a_copy 0%nat r' [with_histograms] h'
           with_histograms eq_refl E).
Defined.

(** * Standard columns *)

(** [basic_columns] of [standardize_processor_output]. *)
Definition basic_columns : list string :=
  ["timestamp"; "human_time"; "phase"; "vulnerability_type";
   "response_time_ms"]%string.

(** [df[col] = np.nan]: the scalar in every row. *)
Definition missing_column (df : DataFrame) : column :=
  repeat (ONum NaN) (nrows df).

(** The loop [for col in basic_columns: if col not in df.columns: ...]. *)
Definition standardize_processor_output (df : DataFrame) : DataFrame :=
  fold_left (fun d col => if has_col col d then d
                          else set_col col (missing_column d) d)
            basic_columns df.

Lemma standardize_step_get (cols : list string) (df : DataFrame)
    (n : string) :
  get_col n (fold_left (fun d col => if has_col col d then d
                                     else set_col col (missing_column d) d)
                       cols df)
  = match get_col n df with
    | Some c => Some c
    | None => if existsb (String.eqb n) cols
              then Some (missing_column df) else None
    end.
Proof.
  revert df. induction cols as [|col cols IH]; intros df.
  - simpl. destruct (get_col n df); reflexivity.
  - cbn [fold_left existsb]. rewrite IH.
    destruct (has_col col df) eqn:H.
    + destruct (get_col n df) eqn:G; [reflexivity|].
      destruct (String.eqb_spec n col) as [->|_]; [|reflexivity].
      unfold has_col in H. rewrite G in H. discriminate H.
    + destruct (String.eqb_spec n col) as [->|Hne].
      * rewrite get_set_same. unfold has_col in H.
        destruct (get_col col df); [discriminate H|]. reflexivity.
      * rewrite get_set_other by exact Hne.
        destruct (get_col n df); [reflexivity|].
        unfold missing_column. rewrite nrows_set_col. reflexivity.
Qed.

(** [standardize_processor_output] keeps the rows and every column the
    table has, adds each of the five basic columns the table lacks as a
    column of NaN, adds nothing else, and changes nothing when applied a
    second time. *)
Theorem standardize_adds_missing_basics (df : DataFrame) :
  df_index (standardize_processor_output df) = df_index df
  /\ (forall n,
        get_col n (standardize_processor_output df)
        = match get_col n df with
          | Some c => Some c
          | None => if existsb (String.eqb n) basic_columns
                    then Some (repeat (ONum NaN) (nrows df)) else None
          end)
  /\ (forall n, In n basic_columns ->
                has_col n (standardize_processor_output df) = true)
  /\ standardize_processor_output (standardize_processor_output df)
     = standardize_processor_output df.
Proof.
  assert (G : forall d n,
             get_col n (standardize_processor_output d)
             = match get_col n d with
               | Some c => Some c
               | None => if existsb (String.eqb n) basic_columns
                         then Some (repeat (ONum NaN) (nrows d)) else None
               end)
    by (intros d n; apply standardize_step_get).
  assert (H : forall d n, In n basic_columns ->
                has_col n (standardize_processor_output d) = true).
  { intros d n I. unfold has_col. rewrite G.
    destruct (get_col n d); [reflexivity|].
    assert (E : existsb (String.eqb n) basic_columns = true).
    { apply existsb_exists. exists n. split; [exact I|].
      apply String.eqb_refl. }
    rewrite E. reflexivity. }
  split; [|split; [apply G|split; [apply H|]]].
  - unfold standardize_processor_output.
    generalize basic_columns. intros cols. revert df.
    induction cols as [|col cols IH]; intros df; [reflexivity|].
    cbn [fold_left]. rewrite IH. destruct (has_col col df); reflexivity.
  - assert (Fix : forall d, (forall n, In n basic_columns ->
                                       has_col n d = true) ->
                            standardize_processor_output d = d).
    { intros d Hd. unfold standardize_processor_output, basic_columns.
      cbn [fold_left].
      rewrite (Hd "timestamp"%string) by (simpl; tauto).
      rewrite (Hd "human_time"%string) by (simpl; tauto).
      rewrite (Hd "phase"%string) by (simpl; tauto).
      rewrite (Hd "vulnerability_type"%string) by (simpl; tauto).
      rewrite (Hd "response_time_ms"%string) by (simpl; tauto).
      reflexivity. }
    apply Fix. apply H.
Qed.

(** * The flattener: [extract_metrics]

    A line of a snapshot file, as [json.loads] returns it for the files the
    collector writes: a type tag, a timestamp, and under ["metrics"] a dict
    from metric kind to a list of entries, each with its Prometheus labels
    (strings) and a value of any JSON shape.  [extract_metrics] reads these
    fields with [.get]; on a line of another shape it fails with an
    [AttributeError] or [TypeError] of its own, outside this model. *)

Record MetricEntry : Type := mkEntry {
  entry_labels : list (string * string);
  entry_value : json
}.

Record Snapshot : Type := mkSnapshot {
  snap_data_type : option string;
  snap_timestamp : fl;
  snap_metrics : list (string * list MetricEntry)
}.

(** Python dicts keep their keys in insertion order; [d[k] = v] replaces
    the value of a key in place or appends the key. *)
Fixpoint dict_get {V : Type} (key : string) (d : list (string * V))
  : option V :=
  match d with
  | [] => None
  | (k, v) :: rest => if String.eqb k key then Some v else dict_get key rest
  end.

Fixpoint dict_set {V : Type} (key : string) (v : V) (d : list (string * V))
  : list (string * V) :=
  match d with
  | [] => [(key, v)]
  | (k, v0) :: rest =>
      if String.eqb k key then (k, v) :: rest
      else (k, v0) :: dict_set key v rest
  end.

(** [d.get(key, default)] *)
Definition get_or {V : Type} (key : string) (default : V)
    (d : list (string * V)) : V :=
  match dict_get key d with Some v => v | None => default end.

(** [metric_data]: one row of the table to be, from column name to cell. *)
Definition metric_row : Type := list (string * obj).

Local Open Scope string_scope.

(** The four statements that file a count under
    [metric_data["bucket"][sensor_id][endpoint][le_value]], creating the
    dicts on the way that are not there yet. *)
Definition put_bucket (sensor_id endpoint le_value : string) (value : fl)
    (metric_data : metric_row) : metric_row :=
  let by_sensor :=
    match dict_get "bucket" metric_data with
    | Some (ODict d) => d
    | _ => []
    end in
  let by_endpoint := get_or sensor_id [] by_sensor in
  let buckets := get_or endpoint [] by_endpoint in
  dict_set "bucket"
           (ODict (dict_set sensor_id
                            (dict_set endpoint
                                      (dict_set le_value value buckets)
                                      by_endpoint)
                            by_sensor))
           metric_data.

(** The [if]/[elif] chain that names the column of one entry. *)
Definition store_metric (metric_type : string)
    (labels : list (string * string)) (value : fl)
    (metric_data : metric_row) : metric_row :=
  let sensor_id := get_or "sensor_id" "unknown" labels in
  let put prefix := dict_set (prefix ++ sensor_id) (ONum value) metric_data in
  if String.eqb metric_type "sensor_temperature" then put "temperature_"
  else if String.eqb metric_type "gateway_temperature"
  then put "gateway_temp_"
  else if String.eqb metric_type "dataserver_temperature"
  then put "true_temp_"
  else if String.eqb metric_type "sensor_cpu_usage_percent" then put "cpu_"
  else if String.eqb metric_type "sensor_memory_usage_mb"
  then put "memory_"
  else if String.eqb metric_type "sensor_fault_mode" then put "fault_code_"
  else if String.eqb metric_type "sensor_request_latency_seconds_bucket"
  then
    let endpoint := get_or "endpoint" "unknown" labels in
    let metric_data :=
      dict_set ("latency_" ++ endpoint ++ "_" ++ sensor_id) (ONum value)
               metric_data in
    let le_value := get_or "le" "inf" labels in
    put_bucket sensor_id endpoint le_value value metric_data
  else if String.eqb metric_type "sensor_failed_requests"
  then
    let endpoint := get_or "endpoint" "unknown" labels in
    dict_set ("failed_" ++ endpoint ++ "_" ++ sensor_id) (ONum value)
             metric_data
  else if contains "network_sent_bytes" metric_type
  then put "network_sent_"
  else if contains "network_received_bytes" metric_type
  then put "network_received_"
  else if contains "cpu_seconds_total" metric_type then put "cpu_total_"
  else if contains "memory_bytes_total" metric_type
  then put "memory_total_"
  else metric_data.

Section Flattener.
Context {B : Builtins}.

(** [pd.to_datetime(timestamp, unit='s').strftime(...)], or the empty
    string where that fails: library code, a parameter here. *)
Variable human_time_of : fl -> string.

(** One turn of [for entry in metric_entries]. *)
Definition flatten_entry (metric_type : string) (entry : MetricEntry)
    (metric_data : metric_row) : result metric_row :=
  let* value := coerce_value (entry_value entry) in
  OK (store_metric metric_type (entry_labels entry) value metric_data).

(** One turn of [for metric_type, metric_entries in ...items()]. *)
Definition flatten_kind (kind : string * list MetricEntry)
    (metric_data : metric_row) : result metric_row :=
  match snd kind with
  | [] => OK metric_data
  | metric_entries =>
      fold_res (flatten_entry (fst kind)) metric_entries metric_data
  end.

Definition is_metrics (snapshot : Snapshot) : bool :=
  match snap_data_type snapshot with
  | Some t => String.eqb t "metrics"
  | None => false
  end.

(** One turn of [for snapshot in jsonl_data]: the row to append, if any. *)
Definition flatten_snapshot (phase vulnerability_type : string)
    (snapshot : Snapshot) : result (option metric_row) :=
  if negb (is_metrics snapshot) then OK None
  else
    let timestamp := snap_timestamp snapshot in
    let metric_data :=
      [("timestamp", ONum timestamp);
       ("human_time", OStr (human_time_of timestamp));
       ("phase", OStr phase);
       ("vulnerability_type", OStr vulnerability_type)] in
    let* metric_data :=
      fold_res flatten_kind (snap_metrics snapshot) metric_data in
    OK (if (4 <? List.length metric_data)%nat then Some metric_data
        else None).

Fixpoint extract_metrics (jsonl_data : list Snapshot)
    (phase vulnerability_type : string) : result (list metric_row) :=
  match jsonl_data with
  | [] => OK []
  | snapshot :: rest =>
      let* row := flatten_snapshot phase vulnerability_type snapshot in
      let* metrics := extract_metrics rest phase vulnerability_type in
      OK (match row with Some r => r :: metrics | None => metrics end)
  end.
End Flattener.

(** ** [pd.DataFrame(metrics)]

    The table of a list of rows: the row labels 0, 1, ...; the columns in
    the order in which the keys first appear; NaN where a row lacks a
    key. *)

Definition add_key (seen : list string) (key : string) : list string :=
  if existsb (String.eqb key) seen then seen else (seen ++ [key])%list.

Definition keys_of (rows : list metric_row) : list string :=
  fold_left (fun seen row => fold_left add_key (map fst row) seen) rows [].

Definition cell_of (key : string) (row : metric_row) : obj :=
  get_or key (ONum NaN) row.

Definition frame_of_records (rows : list metric_row) : DataFrame :=
  mkFrame (map Z.of_nat (seq 0 (List.length rows)))
          (map (fun key => (key, map (cell_of key) rows)) (keys_of rows)).

(** * The rows the flattener builds *)

(** ** Dicts *)

Lemma dict_get_set_same {V : Type} (k : string) (v : V) d :
  dict_get k (dict_set k v d) = Some v.
Proof.
  induction d as [|[k0 v0] d IH]; simpl.
  - rewrite String.eqb_refl. reflexivity.
  - destruct (String.eqb k0 k) eqn:E; simpl; rewrite E; [reflexivity|].
    exact IH.
Qed.

Lemma dict_get_set_other {V : Type} (k k' : string) (v : V) d :
  k' <> k -> dict_get k' (dict_set k v d) = dict_get k' d.
Proof.
  intros H. induction d as [|[k0 v0] d IH]; simpl.
  - destruct (String.eqb_spec k k'); [congruence|reflexivity].
  - destruct (String.eqb_spec k0 k) as [->|Hk]; simpl.
    + destruct (String.eqb_spec k k'); [congruence|reflexivity].
    + destruct (String.eqb k0 k'); [reflexivity|exact IH].
Qed.

Lemma dict_set_in {V : Type} (k : string) (v : V) d k' v' :
  In (k', v') (dict_set k v d) -> (k' = k /\ v' = v) \/ In (k', v') d.
Proof.
  induction d as [|[k0 v0] d IH]; simpl.
  - intros [E|[]]. injection E as <- <-. auto.
  - destruct (String.eqb_spec k0 k) as [->|Hk]; simpl.
    + intros [E|I]; [injection E as <- <-; auto|auto].
    + intros [E|I]; [auto|]. destruct (IH I); auto.
Qed.

Lemma dict_set_keys {V : Type} (k : string) (v : V) d :
  map fst (dict_set k v d)
  = if existsb (String.eqb k) (map fst d) then map fst d
    else (map fst d ++ [k])%list.
Proof.
  induction d as [|[k0 v0] d IH]; simpl; [reflexivity|].
  rewrite (String.eqb_sym k k0).
  destruct (String.eqb k0 k) eqn:E; simpl; [reflexivity|].
  rewrite IH. destruct (existsb (String.eqb k) (map fst d)); reflexivity.
Qed.

Lemma dict_set_nodup {V : Type} (k : string) (v : V) d :
  NoDup (map fst d) -> NoDup (map fst (dict_set k v d)).
Proof.
  intros H. rewrite dict_set_keys.
  destruct (existsb (String.eqb k) (map fst d)) eqn:E; [exact H|].
  apply NoDup_app; [exact H|repeat constructor; intros []|].
  intros x I [->|[]].
  assert (existsb (String.eqb x) (map fst d) = true); [|congruence].
  apply existsb_exists. exists x. split; [exact I|apply String.eqb_refl].
Qed.

Lemma dict_set_length {V : Type} (k : string) (v : V) d :
  (List.length d <= List.length (dict_set k v d))%nat.
Proof.
  induction d as [|[k0 v0] d IH]; simpl; [lia|].
  destruct (String.eqb k0 k); simpl; lia.
Qed.

Lemma dict_get_in {V : Type} (k : string) (v : V) d :
  dict_get k d = Some v -> In (k, v) d.
Proof.
  induction d as [|[k0 v0] d IH]; simpl; [discriminate|].
  destruct (String.eqb_spec k0 k) as [->|_].
  - intros E. injection E as ->. left. reflexivity.
  - intros E. right. apply IH. exact E.
Qed.

Lemma dict_get_none {V : Type} (k : string) (d : list (string * V)) :
  dict_get k d = None <-> ~ In k (map fst d).
Proof.
  induction d as [|[k0 v0] d IH]; simpl; [tauto|].
  destruct (String.eqb_spec k0 k) as [->|Hk].
  - split; [discriminate|]. intros H. exfalso. apply H. left. reflexivity.
  - rewrite IH. tauto.
Qed.

Lemma dict_get_nodup {V : Type} (k : string) (v : V) d :
  NoDup (map fst d) -> In (k, v) d -> dict_get k d = Some v.
Proof.
  induction d as [|[k0 v0] d IH]; simpl; [intros _ []|].
  intros N [E|I].
  - injection E as -> ->. rewrite String.eqb_refl. reflexivity.
  - inversion N as [|? ? Hk Hn]; subst.
    destruct (String.eqb_spec k0 k) as [->|_].
    + exfalso. apply Hk. apply (in_map fst) in I. exact I.
    + apply IH; assumption.
Qed.

(** ** One row *)

Local Open Scope string_scope.

(** The prefixes under which [extract_metrics] files a value. *)
Definition metric_prefixes : list string :=
  ["temperature_"; "gateway_temp_"; "true_temp_"; "cpu_"; "memory_";
   "fault_code_"; "latency_"; "failed_"; "network_sent_";
   "network_received_"; "cpu_total_"; "memory_total_"].

Definition metric_column (key : string) : bool :=
  existsb (fun p => startswith p key) metric_prefixes.

Definition fixed_keys : list string :=
  ["timestamp"; "human_time"; "phase"; "vulnerability_type"].

(** A cell the loop over the entries may have written. *)
Definition metric_cell (kv : string * obj) : Prop :=
  (fst kv = "bucket" /\ exists d, snd kv = ODict d)
  \/ (metric_column (fst kv) = true /\ exists x, snd kv = ONum x).

(** A row under construction: the four fixed cells first, then metric
    cells under distinct names. *)
Record flat_row (phase vulnerability_type : string) (row : metric_row)
  : Prop := {
  fr_timestamp : exists t, dict_get "timestamp" row = Some (ONum t);
  fr_human_time : exists h, dict_get "human_time" row = Some (OStr h);
  fr_phase : dict_get "phase" row = Some (OStr phase);
  fr_vulnerability_type :
    dict_get "vulnerability_type" row = Some (OStr vulnerability_type);
  fr_keys : NoDup (map fst row);
  fr_first : firstn 4 (map fst row) = fixed_keys;
  fr_cells : forall kv, In kv row -> In (fst kv) fixed_keys \/ metric_cell kv
}.

Lemma metric_column_prefix (p s : string) :
  In p metric_prefixes -> metric_column (p ++ s) = true.
Proof.
  intros H. unfold metric_column. apply existsb_exists.
  exists p. split; [exact H|]. unfold startswith. apply prefix_of_app.
Qed.

Lemma metric_column_not_fixed (k : string) :
  metric_column k = true -> ~ In k fixed_keys /\ k <> "bucket".
Proof.
  unfold metric_column. intros H. apply existsb_exists in H.
  destruct H as (p & Hp & Hs). apply startswith_app in Hs.
  destruct Hs as [s ->]. simpl in Hp.
  repeat (destruct Hp as [<-|Hp];
          [split; [simpl; intuition discriminate|discriminate]|]).
  destruct Hp.
Qed.

Lemma firstn_dict_set {V : Type} (k : string) (v : V) d (n : nat) :
  (n <= List.length d)%nat ->
  firstn n (map fst (dict_set k v d)) = firstn n (map fst d).
Proof.
  intros H. rewrite dict_set_keys.
  destruct (existsb (String.eqb k) (map fst d)); [reflexivity|].
  rewrite firstn_app. rewrite length_map.
  replace (n - List.length d)%nat with 0%nat by lia.
  simpl. apply app_nil_r.
Qed.

Lemma flat_row_length phase vt row :
  flat_row phase vt row -> (4 <= List.length row)%nat.
Proof.
  intros F. pose proof (fr_first phase vt row F) as H.
  apply (f_equal (@List.length string)) in H.
  rewrite length_firstn, length_map in H.
  change (List.length fixed_keys) with 4%nat in H. lia.
Qed.

(** Writing a cell under a key that is not one of the four fixed keys. *)
Lemma flat_row_set phase vt row (k : string) (v : obj) :
  flat_row phase vt row -> ~ In k fixed_keys -> metric_cell (k, v) ->
  flat_row phase vt (dict_set k v row).
Proof.
  intros F Hk Hc. pose proof (flat_row_length phase vt row F) as L.
  simpl in Hk. constructor.
  - destruct (fr_timestamp phase vt row F) as [t Ht]. exists t.
    rewrite dict_get_set_other; [exact Ht|tauto].
  - destruct (fr_human_time phase vt row F) as [h Hh]. exists h.
    rewrite dict_get_set_other; [exact Hh|tauto].
  - rewrite dict_get_set_other; [apply F|tauto].
  - rewrite dict_get_set_other; [apply F|tauto].
  - apply dict_set_nodup. apply F.
  - rewrite firstn_dict_set by exact L. apply F.
  - intros kv I. destruct kv as [k' v'].
    apply dict_set_in in I. destruct I as [[-> ->]|I].
    + right. exact Hc.
    + apply (fr_cells phase vt row F _ I).
Qed.

Lemma flat_row_put_bucket phase vt row (sid e le : string) (x : fl) :
  flat_row phase vt row -> flat_row phase vt (put_bucket sid e le x row).
Proof.
  intros F. unfold put_bucket. apply flat_row_set; [exact F| |].
  - simpl. intuition discriminate.
  - left. simpl. split; [reflexivity|]. eexists. reflexivity.
Qed.

Lemma flat_row_put phase vt row (p s : string) (x : fl) :
  flat_row phase vt row -> In p metric_prefixes ->
  flat_row phase vt (dict_set (p ++ s) (ONum x) row).
Proof.
  intros F Hp. pose proof (metric_column_prefix p s Hp) as M.
  apply flat_row_set; [exact F|apply metric_column_not_fixed; exact M|].
  right. simpl. split; [exact M|]. eexists. reflexivity.
Qed.

Lemma flat_row_store phase vt row (metric_type : string)
    (labels : list (string * string)) (x : fl) :
  flat_row phase vt row ->
  flat_row phase vt (store_metric metric_type labels x row).
Proof.
  intros F. unfold store_metric.
  repeat match goal with
         | |- flat_row _ _ (if ?c then _ else _) => destruct c
         end;
    try exact F;
    try (apply flat_row_put_bucket);
    try (apply flat_row_put; [exact F|simpl; tauto]).
Qed.

(** ** The rows of a file *)

(** Every value of every entry of every metrics line can be coerced. *)
Definition coercible {B : Builtins} (jsonl_data : list Snapshot) : Prop :=
  forall snapshot kind entry,
    In snapshot jsonl_data -> is_metrics snapshot = true ->
    In kind (snap_metrics snapshot) -> In entry (snd kind) ->
    exists x, coerce_value (entry_value entry) = OK x.

(** What a returned row looks like. *)
Definition flattened_row (phase vulnerability_type : string)
    (row : metric_row) : Prop :=
  flat_row phase vulnerability_type row
  /\ (4 < List.length row)%nat
  /\ forallb flattener_column (map fst row) = true.

Section FlattenerFacts.
Context {B : Builtins}.
Variable human_time_of : fl -> string.
Local Open Scope string_scope.

Lemma fold_entries_row phase vt (metric_type : string)
    (entries : list MetricEntry) (row row' : metric_row) :
  flat_row phase vt row ->
  fold_res (flatten_entry metric_type) entries row = OK row' ->
  flat_row phase vt row'.
Proof.
  revert row. induction entries as [|e entries IH]; intros row F; simpl.
  - intros E. injection E as <-. exact F.
  - unfold flatten_entry at 1.
    destruct (coerce_value (entry_value e)) as [x|]; [|discriminate].
    cbn [bind]. apply IH. apply flat_row_store. exact F.
Qed.

Lemma flatten_kind_row phase vt (kind : string * list MetricEntry)
    (row row' : metric_row) :
  flat_row phase vt row -> flatten_kind kind row = OK row' ->
  flat_row phase vt row'.
Proof.
  intros F. unfold flatten_kind. destruct (snd kind) as [|e entries] eqn:K.
  - intros E. injection E as <-. exact F.
  - apply fold_entries_row. exact F.
Qed.

Lemma fold_kinds_row phase vt (kinds : list (string * list MetricEntry))
    (row row' : metric_row) :
  flat_row phase vt row -> fold_res flatten_kind kinds row = OK row' ->
  flat_row phase vt row'.
Proof.
  revert row. induction kinds as [|k kinds IH]; intros row F; simpl.
  - intros E. injection E as <-. exact F.
  - destruct (flatten_kind k row) as [row1|] eqn:E1; [|discriminate].
    cbn [bind]. apply IH. apply (flatten_kind_row phase vt k row); assumption.
Qed.

Lemma first_row phase vt (t : fl) :
  flat_row phase vt
    [("timestamp", ONum t); ("human_time", OStr (human_time_of t));
     ("phase", OStr phase); ("vulnerability_type", OStr vt)].
Proof.
  constructor; try (eexists; reflexivity); try reflexivity.
  - repeat (constructor; [simpl; intuition discriminate|]). constructor.
  - intros kv I. left. simpl in I. simpl.
    destruct I as [<-|[<-|[<-|[<-|[]]]]]; simpl; tauto.
Qed.

Lemma flat_row_columns phase vt (row : metric_row) :
  flat_row phase vt row -> forallb flattener_column (map fst row) = true.
Proof.
  intros F. apply forallb_forall. intros k I.
  apply in_map_iff in I. destruct I as ([k' v] & <- & I).
  destruct (fr_cells phase vt row F _ I) as [H|[[H _]|[H _]]]; simpl in H |- *.
  - destruct H as [<-|[<-|[<-|[<-|[]]]]]; reflexivity.
  - rewrite H. reflexivity.
  - unfold flattener_column. unfold metric_column, metric_prefixes in H.
    rewrite H. apply orb_true_r.
Qed.

Lemma flatten_snapshot_row phase vt (snapshot : Snapshot)
    (row : metric_row) :
  flatten_snapshot human_time_of phase vt snapshot = OK (Some row) ->
  flattened_row phase vt row.
Proof.
  unfold flatten_snapshot. destruct (negb (is_metrics snapshot));
    [discriminate|].
  destruct (fold_res flatten_kind (snap_metrics snapshot) _)
    as [row1|] eqn:E; [|discriminate].
  cbn [bind]. destruct (Nat.ltb_spec 4 (List.length row1)); [|discriminate].
  intros Er. injection Er as <-.
  assert (F : flat_row phase vt row1)
    by (eapply fold_kinds_row; [apply first_row|exact E]).
  split; [exact F|]. split; [assumption|]. apply (flat_row_columns phase vt).
  exact F.
Qed.

(** The rows [extract_metrics] returns: each begins with [timestamp],
    [human_time], [phase] and [vulnerability_type], the last two as given;
    its keys are distinct and more than four; every further key is
    [bucket], holding the nested dict of histogram counts, or a name with
    one of the twelve metric prefixes, holding a float.  There is at most
    one row per metrics line. *)
Theorem flattener_rows (jsonl_data : list Snapshot)
    (phase vulnerability_type : string) (metrics : list metric_row) :
  extract_metrics human_time_of jsonl_data phase vulnerability_type
  = OK metrics ->
  Forall (flattened_row phase vulnerability_type) metrics
  /\ (List.length metrics
      <= List.length (filter is_metrics jsonl_data))%nat.
Proof.
  revert metrics. induction jsonl_data as [|s data IH]; intros metrics; simpl.
  - intros E. injection E as <-. split; [constructor|simpl; lia].
  - destruct (flatten_snapshot human_time_of phase vulnerability_type s)
      as [row|] eqn:E1; [|discriminate].
    cbn [bind].
    destruct (extract_metrics human_time_of data phase vulnerability_type)
      as [rest|]; [|discriminate].
    cbn [bind]. intros E. injection E as <-.
    destruct (IH rest eq_refl) as [Hr Hl].
    destruct row as [row|].
    + split.
      * constructor; [|exact Hr].
        apply (flatten_snapshot_row _ _ s). exact E1.
      * unfold flatten_snapshot in E1.
        destruct (is_metrics s); [simpl; lia|discriminate E1].
    + split; [exact Hr|]. destruct (is_metrics s); simpl; lia.
Qed.

(** ** When the flattener fails *)

Lemma fold_entries_ok (metric_type : string) (entries : list MetricEntry)
    (row : metric_row) :
  (exists row', fold_res (flatten_entry metric_type) entries row = OK row')
  <-> (forall entry, In entry entries ->
                     exists x, coerce_value (entry_value entry) = OK x).
Proof.
  revert row. induction entries as [|e entries IH]; intros row; simpl.
  - split; [intros _ entry []|]. intros _. eexists. reflexivity.
  - unfold flatten_entry at 1. split.
    + intros [row' E] entry [<-|I].
      * destruct (coerce_value (entry_value e)); [eauto|discriminate E].
      * destruct (coerce_value (entry_value e)) as [x|]; [|discriminate E].
        cbn [bind] in E. apply (IH (store_metric metric_type
                                      (entry_labels e) x row)); eauto.
    + intros H. destruct (H e (or_introl eq_refl)) as [x ->]. cbn [bind].
      apply IH. intros entry I. apply H. right. exact I.
Qed.

Lemma flatten_kind_ok (kind : string * list MetricEntry) (row : metric_row) :
  (exists row', flatten_kind kind row = OK row')
  <-> (forall entry, In entry (snd kind) ->
                     exists x, coerce_value (entry_value entry) = OK x).
Proof.
  unfold flatten_kind. destruct (snd kind) as [|e entries] eqn:K.
  - split; [intros _ entry []|]. intros _. eexists. reflexivity.
  - apply fold_entries_ok.
Qed.

Lemma fold_kinds_ok (kinds : list (string * list MetricEntry))
    (row : metric_row) :
  (exists row', fold_res flatten_kind kinds row = OK row')
  <-> (forall kind entry, In kind kinds -> In entry (snd kind) ->
                          exists x, coerce_value (entry_value entry) = OK x).
Proof.
  revert row. induction kinds as [|k kinds IH]; intros row; simpl.
  - split; [intros _ kind entry []|]. intros _. eexists. reflexivity.
  - split.
    + intros [row' E] kind entry [->|I] Ie.
      * apply (proj1 (flatten_kind_ok kind row)); [|exact Ie].
        destruct (flatten_kind kind row); [eauto|discriminate E].
      * destruct (flatten_kind k row) as [row1|]; [|discriminate E].
        cbn [bind] in E. apply (proj1 (IH row1)) with (kind := kind); eauto.
    + intros H.
      destruct (proj2 (flatten_kind_ok k row)) as [row1 ->].
      { intros entry Ie. apply (H k entry); auto. }
      cbn [bind]. apply IH. intros kind entry I Ie.
      apply (H kind entry); auto.
Qed.

Lemma flatten_snapshot_ok phase vt (snapshot : Snapshot) :
  (exists row, flatten_snapshot human_time_of phase vt snapshot = OK row)
  <-> (is_metrics snapshot = true ->
       forall kind entry,
         In kind (snap_metrics snapshot) -> In entry (snd kind) ->
         exists x, coerce_value (entry_value entry) = OK x).
Proof.
  unfold flatten_snapshot. destruct (is_metrics snapshot); simpl.
  - match goal with
    | |- context [fold_res flatten_kind ?k ?r] =>
        destruct (fold_kinds_ok k r) as [K1 K2]
    end.
    split.
    + intros [row E] _. apply K1.
      destruct (fold_res flatten_kind (snap_metrics snapshot) _);
        [eauto|discriminate E].
    + intros H. destruct (K2 (H eq_refl)) as [row ->].
      cbn [bind]. eexists. reflexivity.
  - split; [intros _ H; discriminate H|]. intros _. eexists. reflexivity.
Qed.

(** On lines of the collector's shape [extract_metrics] fails in one way
    only: it returns exactly when every value of every entry of every
    metrics line can be coerced. *)
Theorem flattener_fails_only_in_coercion (jsonl_data : list Snapshot)
    (phase vulnerability_type : string) :
  (exists metrics,
     extract_metrics human_time_of jsonl_data phase vulnerability_type
     = OK metrics)
  <-> coercible jsonl_data.
Proof.
  unfold coercible. induction jsonl_data as [|s data IH]; simpl.
  - split; [intros _ snapshot kind entry []|]. intros _. eexists.
    reflexivity.
  - split.
    + intros [metrics E] snapshot kind entry [->|I] Hm Ik Ie.
      * apply (proj1 (flatten_snapshot_ok phase vulnerability_type snapshot))
          with (kind := kind); try assumption.
        destruct (flatten_snapshot human_time_of phase vulnerability_type
                                   snapshot); [eauto|discriminate E].
      * destruct (flatten_snapshot human_time_of phase vulnerability_type s);
          [|discriminate E].
        cbn [bind] in E.
        destruct (extract_metrics human_time_of data phase
                                  vulnerability_type) as [rest|] eqn:Er;
          [|discriminate E].
        apply (proj1 IH (ex_intro _ rest eq_refl) snapshot kind entry);
          assumption.
    + intros H.
      destruct (proj2 (flatten_snapshot_ok phase vulnerability_type s))
        as [row ->].
      { intros Hm kind entry Ik Ie. apply (H s kind entry); auto. }
      cbn [bind].
      destruct (proj2 IH) as [rest ->].
      { intros snapshot kind entry I. apply H. right. exact I. }
      cbn [bind]. eexists. reflexivity.
Qed.
End FlattenerFacts.

(** * The table of the rows *)

Lemma add_key_in (seen : list string) (key k : string) :
  In k (add_key seen key) <-> In k seen \/ k = key.
Proof.
  unfold add_key. destruct (existsb (String.eqb key) seen) eqn:E.
  - split; [auto|]. intros [H | ->]; [exact H|].
    apply existsb_exists in E. destruct E as (x & I & E).
    apply String.eqb_eq in E. subst x. exact I.
  - rewrite in_app_iff. simpl. intuition.
Qed.

Lemma add_key_nodup (seen : list string) (key : string) :
  NoDup seen -> NoDup (add_key seen key).
Proof.
  intros N. unfold add_key.
  destruct (existsb (String.eqb key) seen) eqn:E; [exact N|].
  apply NoDup_app; [exact N|repeat constructor; intros []|].
  intros x I [-> | []].
  assert (existsb (String.eqb x) seen = true); [|congruence].
  apply existsb_exists. exists x. split; [exact I|apply String.eqb_refl].
Qed.

Lemma fold_add_key_in (keys seen : list string) (k : string) :
  In k (fold_left add_key keys seen) <-> In k seen \/ In k keys.
Proof.
  revert seen. induction keys as [|key keys IH]; intros seen; simpl.
  - tauto.
  - rewrite IH, add_key_in. intuition.
Qed.

Lemma fold_add_key_nodup (keys seen : list string) :
  NoDup seen -> NoDup (fold_left add_key keys seen).
Proof.
  revert seen. induction keys as [|key keys IH]; intros seen N; simpl.
  - exact N.
  - apply IH. apply add_key_nodup. exact N.
Qed.

Lemma fold_rows_keys_in (rows : list metric_row) (seen : list string)
    (k : string) :
  In k (fold_left (fun seen row => fold_left add_key (map fst row) seen)
                  rows seen)
  <-> In k seen \/ exists row, In row rows /\ In k (map fst row).
Proof.
  revert seen. induction rows as [|row rows IH]; intros seen; simpl.
  - split; [auto|]. intros [H|(row & [] & _)]. exact H.
  - rewrite IH, fold_add_key_in. split.
    + intros [[H|H]|(r & I & H)]; [auto| |].
      * right. exists row. auto.
      * right. exists r. auto.
    + intros [H|(r & [<-|I] & H)]; [auto|auto|].
      right. exists r. auto.
Qed.

Lemma keys_of_in (rows : list metric_row) (k : string) :
  In k (keys_of rows) <-> exists row, In row rows /\ In k (map fst row).
Proof.
  unfold keys_of. rewrite fold_rows_keys_in. simpl. tauto.
Qed.

Lemma lookup_tabulate (f : string -> column) (keys : list string)
    (k : string) :
  lookup k (map (fun key => (key, f key)) keys)
  = if existsb (String.eqb k) keys then Some (f k) else None.
Proof.
  induction keys as [|key keys IH]; simpl; [reflexivity|].
  rewrite (String.eqb_sym k key).
  destruct (String.eqb_spec key k) as [->|_]; [reflexivity|exact IH].
Qed.

Lemma get_col_frame (rows : list metric_row) (k : string) :
  get_col k (frame_of_records rows)
  = if existsb (String.eqb k) (keys_of rows)
    then Some (map (cell_of k) rows) else None.
Proof. unfold get_col, frame_of_records. simpl. apply lookup_tabulate. Qed.

Lemma nrows_frame (rows : list metric_row) :
  nrows (frame_of_records rows) = List.length rows.
Proof.
  unfold nrows, frame_of_records. simpl.
  rewrite length_map, length_seq. reflexivity.
Qed.

Lemma names_frame (rows : list metric_row) :
  names (frame_of_records rows) = keys_of rows.
Proof.
  unfold names, frame_of_records. simpl. rewrite map_map. simpl.
  apply map_id.
Qed.

Lemma existsb_eqb_in (k : string) (keys : list string) :
  existsb (String.eqb k) keys = true <-> In k keys.
Proof.
  rewrite existsb_exists. split.
  - intros (x & I & E). apply String.eqb_eq in E. subst. exact I.
  - intros I. exists k. split; [exact I|apply String.eqb_refl].
Qed.

Lemma labels_nodup (n : nat) : NoDup (map Z.of_nat (seq 0 n)).
Proof.
  generalize (seq_NoDup n 0). generalize (seq 0 n). intros l N.
  induction N as [|x l Hx N IH]; simpl; constructor; [|exact IH].
  intros I. apply in_map_iff in I. destruct I as (y & E & I).
  apply Nat2Z.inj in E. subst y. contradiction.
Qed.

(** ** Cells of flattened rows *)

Local Open Scope string_scope.

Definition float_of_cell (o : obj) : fl :=
  match o with ONum x => x | _ => NaN end.

Lemma cell_of_phase phase vt (row : metric_row) :
  flat_row phase vt row -> cell_of "phase" row = OStr phase.
Proof.
  intros F. unfold cell_of, get_or. rewrite (fr_phase phase vt row F).
  reflexivity.
Qed.

Lemma cell_of_float phase vt (row : metric_row) (k : string) :
  flat_row phase vt row -> exempt k = false ->
  cell_of k row = ONum (float_of_cell (cell_of k row)).
Proof.
  intros F E. unfold cell_of, get_or.
  destruct (dict_get k row) as [v|] eqn:G; [|reflexivity].
  pose proof (dict_get_in k v row G) as I.
  destruct (fr_cells phase vt row F _ I) as [H|[[H _]|[_ [x H]]]];
    simpl in H.
  - destruct H as [<-|[<-|[<-|[<-|[]]]]]; try discriminate E.
    destruct (fr_timestamp phase vt row F) as [t Ht].
    rewrite Ht in G. injection G as <-. reflexivity.
  - subst k. discriminate E.
  - subst v. reflexivity.
Qed.

(** ** The table is regular *)

Section FrameFacts.
Context {B : Builtins}.

(** The rows of one call of [extract_metrics], put in a table: when there
    is a row, the bucket labels are numbers or "inf" and no column name
    ends in [_method], the table is regular and flattened -- the
    conditions under which the calculator was studied -- and
    [calculate_derived_metrics] returns normally on it. *)
Lemma records_make_a_regular_table (rows : list metric_row)
    (phase vulnerability_type : string) :
  rows <> [] ->
  Forall (flattened_row phase vulnerability_type) rows ->
  Forall (fun row => bucket_cell_ok (cell_of "bucket" row) = true) rows ->
  (forall row k, In row rows -> In k (map fst row) ->
                 endswith "_method" k = false) ->
  regular (frame_of_records rows)
  /\ flattened (frame_of_records rows)
  /\ nrows (frame_of_records rows) = List.length rows
  /\ exists df', calculate_derived_metrics (frame_of_records rows) = OK df'.
Proof.
  intros Hne Hrows Hb Hm. rewrite Forall_forall in Hrows, Hb.
  assert (R : regular (frame_of_records rows)).
  { constructor.
    - unfold frame_of_records. simpl.
      apply labels_nodup.
    - apply has_col_in. rewrite names_frame. apply keys_of_in.
      destruct rows as [|row rows]; [contradiction|].
      exists row. split; [left; reflexivity|].
      destruct (Hrows row (or_introl eq_refl)) as (F & _).
      destruct (fr_timestamp _ _ row F) as [t Ht].
      apply dict_get_in in Ht. apply (in_map fst) in Ht. exact Ht.
    - exists (repeat phase (List.length rows)).
      rewrite nrows_frame, repeat_length. split; [|reflexivity].
      rewrite get_col_frame.
      assert (E : existsb (String.eqb "phase") (keys_of rows) = true).
      { apply existsb_eqb_in. apply keys_of_in.
        destruct rows as [|row rows]; [contradiction|].
        exists row. split; [left; reflexivity|].
        destruct (Hrows row (or_introl eq_refl)) as (F & _).
        pose proof (fr_phase _ _ row F) as Hp.
        apply dict_get_in in Hp. apply (in_map fst) in Hp. exact Hp. }
      rewrite E. f_equal.
      clear E Hne Hb Hm. induction rows as [|row rows IH]; [reflexivity|].
      simpl. rewrite (cell_of_phase phase vulnerability_type row).
      + f_equal. apply IH. intros r I. apply Hrows. right. exact I.
      + apply (Hrows row). left. reflexivity.
    - intros n c G E. rewrite get_col_frame in G.
      destruct (existsb (String.eqb n) (keys_of rows)); [|discriminate G].
      injection G as <-.
      exists (map (fun row => float_of_cell (cell_of n row)) rows).
      rewrite length_map, nrows_frame. split; [|reflexivity].
      unfold of_floats. rewrite map_map. apply map_ext_in.
      intros row I. destruct (Hrows row I) as (F & _).
      apply (cell_of_float phase vulnerability_type row n F E).
    - intros c G. rewrite get_col_frame in G.
      destruct (existsb (String.eqb "bucket") (keys_of rows));
        [|discriminate G].
      injection G as <-. split.
      + apply forallb_forall. intros o I. apply in_map_iff in I.
        destruct I as (row & <- & I). apply Hb. exact I.
      + intros n H E. exfalso. apply has_col_in in H.
        rewrite names_frame in H. apply keys_of_in in H.
        destruct H as (row & I & Ik). rewrite (Hm row n I Ik) in E.
        discriminate E. }
  split; [exact R|]. split; [|split; [apply nrows_frame|]].
  - unfold flattened. rewrite names_frame. apply forallb_forall.
    intros k I. apply keys_of_in in I. destruct I as (row & I & Ik).
    destruct (Hrows row I) as (_ & _ & C).
    rewrite forallb_forall in C. apply C. exact Ik.
  - destruct (df_empty (frame_of_records rows)) eqn:Em.
    + exists (frame_of_records rows). unfold calculate_derived_metrics.
      rewrite Em. reflexivity.
    + destruct (calculate_derived_metrics_stages _ R Em)
        as (d0 & d1 & d2 & d3 & d4 & d5 & d6 & d7 & d8 & _ & _ & _ & _ & _
            & _ & E).
      exists d8. exact E.
Qed.
End FrameFacts.

(** * From a snapshot file to the derived table *)

Lemma forallb_dict_set {V : Type} (p : string * V -> bool) (k : string)
    (v : V) (d : list (string * V)) :
  forallb p d = true -> p (k, v) = true ->
  forallb p (dict_set k v d) = true.
Proof.
  intros Hd Hv. apply forallb_forall. intros [k' v'] I.
  apply dict_set_in in I. destruct I as [[-> ->]|I]; [exact Hv|].
  rewrite forallb_forall in Hd. apply Hd. exact I.
Qed.

Lemma forallb_get_or {V : Type} (p : string * V -> bool) (q : V -> bool)
    (k : string) (default : V) (d : list (string * V)) :
  (forall kv, p kv = true -> q (snd kv) = true) ->
  forallb p d = true -> q default = true ->
  q (get_or k default d) = true.
Proof.
  intros Hpq Hd Hq. unfold get_or.
  destruct (dict_get k d) as [v|] eqn:G; [|exact Hq].
  apply dict_get_in in G. rewrite forallb_forall in Hd.
  apply (Hpq (k, v)). apply Hd. exact G.
Qed.

Lemma cell_of_set_other (k key : string) (v : obj) (row : metric_row) :
  key <> k -> cell_of key (dict_set k v row) = cell_of key row.
Proof.
  intros H. unfold cell_of, get_or. rewrite dict_get_set_other by exact H.
  reflexivity.
Qed.

Lemma cell_of_set_same (k : string) (v : obj) (row : metric_row) :
  cell_of k (dict_set k v row) = v.
Proof.
  unfold cell_of, get_or. rewrite dict_get_set_same. reflexivity.
Qed.

Section Pipeline.
Context {B : Builtins}.
Variable human_time_of : fl -> string.
Local Open Scope string_scope.

(** The histogram entries carry bounds that [float] reads. *)
Definition le_labels_parse (jsonl_data : list Snapshot) : Prop :=
  forall snapshot kind entry,
    In snapshot jsonl_data -> In kind (snap_metrics snapshot) ->
    fst kind = "sensor_request_latency_seconds_bucket" ->
    In entry (snd kind) ->
    parses (get_or "le" "inf" (entry_labels entry)) = true.

(** No key of a row, a column name of the table to be, ends in
    [_method]. *)
Definition no_method_columns (metrics : list metric_row) : Prop :=
  forall row k, In row metrics -> In k (map fst row) ->
                endswith "_method" k = false.

Definition bucket_ok (row : metric_row) : Prop :=
  bucket_cell_ok (cell_of "bucket" row) = true.

Lemma bucket_ok_put (row : metric_row) (p s : string) (x : fl) :
  In p metric_prefixes -> bucket_ok row ->
  bucket_ok (dict_set (p ++ s) (ONum x) row).
Proof.
  intros Hp Hb. unfold bucket_ok. rewrite cell_of_set_other; [exact Hb|].
  intros E. symmetry in E.
  destruct (metric_column_not_fixed _ (metric_column_prefix p s Hp))
    as [_ N].
  apply N. exact E.
Qed.

Lemma bucket_ok_put_bucket (row : metric_row) (sid e le : string)
    (x : fl) :
  parses le = true -> bucket_ok row ->
  bucket_ok (put_bucket sid e le x row).
Proof.
  intros Hle Hb. unfold bucket_ok, put_bucket.
  rewrite cell_of_set_same. cbn [bucket_cell_ok].
  set (inner := fun kv : string * fl => parses (fst kv)).
  set (mid := fun per_endpoint : string * list (string * fl) =>
                forallb inner (snd per_endpoint)).
  set (outer := fun per_sensor :
                      string * list (string * list (string * fl)) =>
                  forallb mid (snd per_sensor)).
  assert (Hs : forallb outer
                 match dict_get "bucket" row with
                 | Some (ODict d) => d
                 | _ => []
                 end = true).
  { unfold bucket_ok, cell_of, get_or in Hb.
    destruct (dict_get "bucket" row) as [[| | |d]|]; try reflexivity.
    exact Hb. }
  apply forallb_dict_set; [exact Hs|].
  assert (He : forallb mid
                 (get_or sid []
                    match dict_get "bucket" row with
                    | Some (ODict d) => d
                    | _ => []
                    end) = true).
  { apply (forallb_get_or outer (forallb mid)); [|exact Hs|reflexivity].
    intros kv H. exact H. }
  unfold outer at 1. cbn [snd]. apply forallb_dict_set; [exact He|].
  unfold mid at 1. cbn [snd]. apply forallb_dict_set; [|exact Hle].
  apply (forallb_get_or mid (forallb inner)); [|exact He|reflexivity].
  intros kv H. exact H.
Qed.

Lemma bucket_ok_store (metric_type : string)
    (labels : list (string * string)) (x : fl) (row : metric_row) :
  (metric_type = "sensor_request_latency_seconds_bucket" ->
   parses (get_or "le" "inf" labels) = true) ->
  bucket_ok row -> bucket_ok (store_metric metric_type labels x row).
Proof.
  intros Hle Hb. unfold store_metric.
  repeat match goal with
         | |- bucket_ok (if String.eqb ?a ?b then _ else _) =>
             destruct (String.eqb_spec a b)
         | |- bucket_ok (if ?c then _ else _) => destruct c
         end;
    try exact Hb;
    try (apply bucket_ok_put; [simpl; tauto|exact Hb]).
  apply bucket_ok_put_bucket; [apply Hle; assumption|].
  apply (bucket_ok_put row "latency_"); [simpl; tauto|exact Hb].
Qed.

Lemma bucket_ok_entries (metric_type : string)
    (entries : list MetricEntry) (row row' : metric_row) :
  (metric_type = "sensor_request_latency_seconds_bucket" ->
   forall entry, In entry entries ->
                 parses (get_or "le" "inf" (entry_labels entry)) = true) ->
  bucket_ok row ->
  fold_res (flatten_entry metric_type) entries row = OK row' ->
  bucket_ok row'.
Proof.
  revert row. induction entries as [|entry entries IH]; intros row Hle Hb.
  - simpl. intros E. injection E as <-. exact Hb.
  - simpl. unfold flatten_entry at 1.
    destruct (coerce_value (entry_value entry)) as [x|]; [|discriminate].
    cbn [bind]. apply IH.
    + intros Hm e I. apply Hle; [exact Hm|right; exact I].
    + apply bucket_ok_store; [|exact Hb].
      intros Hm. apply Hle; [exact Hm|left; reflexivity].
Qed.

Lemma bucket_ok_kind (kind : string * list MetricEntry)
    (row row' : metric_row) :
  (fst kind = "sensor_request_latency_seconds_bucket" ->
   forall entry, In entry (snd kind) ->
                 parses (get_or "le" "inf" (entry_labels entry)) = true) ->
  bucket_ok row -> flatten_kind kind row = OK row' -> bucket_ok row'.
Proof.
  intros Hle Hb. unfold flatten_kind.
  destruct (snd kind) as [|entry entries] eqn:Es.
  - intros E. injection E as <-. exact Hb.
  - apply bucket_ok_entries; [exact Hle|exact Hb].
Qed.

Lemma bucket_ok_kinds (kinds : list (string * list MetricEntry))
    (row row' : metric_row) :
  (forall kind entry,
     In kind kinds ->
     fst kind = "sensor_request_latency_seconds_bucket" ->
     In entry (snd kind) ->
     parses (get_or "le" "inf" (entry_labels entry)) = true) ->
  bucket_ok row -> fold_res flatten_kind kinds row = OK row' ->
  bucket_ok row'.
Proof.
  revert row. induction kinds as [|kind kinds IH]; intros row Hle Hb.
  - simpl. intros E. injection E as <-. exact Hb.
  - simpl. destruct (flatten_kind kind row) as [row1|] eqn:E1;
      [|discriminate].
    cbn [bind]. apply IH.
    + intros k e I. apply Hle. right. exact I.
    + apply (bucket_ok_kind kind row); [|exact Hb|exact E1].
      intros Hm e I. apply (Hle kind e); [left; reflexivity|exact Hm|exact I].
Qed.

Lemma extract_metrics_in (jsonl_data : list Snapshot)
    (phase vt : string) (metrics : list metric_row) (row : metric_row) :
  extract_metrics human_time_of jsonl_data phase vt = OK metrics ->
  In row metrics ->
  exists snapshot,
    In snapshot jsonl_data
    /\ flatten_snapshot human_time_of phase vt snapshot = OK (Some row).
Proof.
  revert metrics. induction jsonl_data as [|s data IH]; intros metrics; simpl.
  - intros E. injection E as <-. intros [].
  - destruct (flatten_snapshot human_time_of phase vt s) as [r|] eqn:E1;
      [|discriminate].
    cbn [bind].
    destruct (extract_metrics human_time_of data phase vt) as [rest|];
      [|discriminate].
    cbn [bind]. intros E. injection E as <-. intros I.
    assert (Rest : In row rest ->
                   exists snapshot,
                     (s = snapshot \/ In snapshot data)
                     /\ flatten_snapshot human_time_of phase vt snapshot
                        = OK (Some row)).
    { intros Ir. destruct (IH rest eq_refl Ir) as (s' & Is & Es).
      exists s'. auto. }
    destruct r as [r|]; [|exact (Rest I)].
    destruct I as [->|I]; [|exact (Rest I)].
    exists s. auto.
Qed.

Lemma flatten_snapshot_bucket phase vt (snapshot : Snapshot)
    (row : metric_row) :
  (forall kind entry,
     In kind (snap_metrics snapshot) ->
     fst kind = "sensor_request_latency_seconds_bucket" ->
     In entry (snd kind) ->
     parses (get_or "le" "inf" (entry_labels entry)) = true) ->
  flatten_snapshot human_time_of phase vt snapshot = OK (Some row) ->
  bucket_ok row.
Proof.
  intros Hle. unfold flatten_snapshot.
  destruct (negb (is_metrics snapshot)); [discriminate|].
  match goal with
  | |- context [fold_res flatten_kind ?k ?r] =>
      destruct (fold_res flatten_kind k r) as [row1|] eqn:E;
        [|discriminate]
  end.
  cbn [bind]. intros H.
  assert (row1 = row) as <-.
  { destruct (4 <? List.length row1)%nat; [congruence|discriminate]. }
  eapply bucket_ok_kinds; [exact Hle| |exact E].
  reflexivity.
Qed.

(** The rows [extract_metrics] returns for one file, put in a table by
    [pd.DataFrame] as [process_dataset] does: when there is a row, the
    histogram bounds are numbers or [inf] and no column name ends in
    [_method], the table is regular and flattened -- the conditions under
    which the calculator was studied --, has one row per returned row,
    and [calculate_derived_metrics] returns normally on it. *)
Theorem flattened_file_feeds_the_calculator (jsonl_data : list Snapshot)
    (phase vulnerability_type : string) (metrics : list metric_row) :
  extract_metrics human_time_of jsonl_data phase vulnerability_type
  = OK metrics ->
  metrics <> [] ->
  le_labels_parse jsonl_data ->
  no_method_columns metrics ->
  regular (frame_of_records metrics)
  /\ flattened (frame_of_records metrics)
  /\ nrows (frame_of_records metrics) = List.length metrics
  /\ exists df', calculate_derived_metrics (frame_of_records metrics)
                 = OK df'.
Proof.
  intros E Hne Hle Hm.
  apply (records_make_a_regular_table metrics phase vulnerability_type);
    [exact Hne| | |exact Hm].
  - apply Forall_forall. intros row I.
    destruct (extract_metrics_in _ _ _ _ _ E I) as (s & Is & Es).
    apply (flatten_snapshot_row human_time_of _ _ s). exact Es.
  - apply Forall_forall. intros row I.
    destruct (extract_metrics_in _ _ _ _ _ E I) as (s & Is & Es).
    apply (flatten_snapshot_bucket phase vulnerability_type s); [|exact Es].
    intros kind entry Ik Hk Ie. apply (Hle s kind entry Is Ik Hk Ie).
Qed.
End Pipeline.

(** ** A snapshot file

    Four lines: an event marker; a metrics line with a temperature, two
    histogram counts (the second without an [le] label) and a metric of a
    kind the flattener does not know; a metrics line with an empty list;
    a metrics line with a CPU reading. *)

Local Open Scope string_scope.

Definition snapshot_file : list Snapshot :=
  [ mkSnapshot (Some "event_start") (Fin 1000) [];
    mkSnapshot (Some "metrics") (Fin 1000)
      [("sensor_temperature",
        [mkEntry [("sensor_id", "s1")] (JList [JInt 1000; JStr "21.5"])]);
       ("sensor_request_latency_seconds_bucket",
        [mkEntry [("sensor_id", "s1"); ("endpoint", "read"); ("le", "0.1")]
                 (JList [JInt 1000; JStr "3"]);
         mkEntry [("sensor_id", "s1"); ("endpoint", "read")]
                 (JList [JInt 1000; JStr "5"])]);
       ("up", [mkEntry [] (JInt 1)])];
    mkSnapshot (Some "metrics") (Fin 1010) [("sensor_temperature", [])];
    mkSnapshot (Some "metrics") (Fin 1020)
      [("sensor_cpu_usage_percent",
        [mkEntry [("sensor_id", "s1")] (JFloat (Fin 40))])] ].

Definition snapshot_rows : list metric_row :=
  [ [("timestamp", ONum (Fin 1000)); ("human_time", OStr "");
     ("phase", OStr "baseline"); ("vulnerability_type", OStr "bola");
     ("temperature_s1", ONum (Fin (43 # 2)));
     ("latency_read_s1", ONum (Fin 5));
     ("bucket",
      ODict [("s1", [("read", [("0.1", Fin 3); ("inf", Fin 5)])])])];
    [("timestamp", ONum (Fin 1020)); ("human_time", OStr "");
     ("phase", OStr "baseline"); ("vulnerability_type", OStr "bola");
     ("cpu_s1", ONum (Fin 40))] ].

Lemma snapshot_file_rows :
  extract_metrics (fun _ => "") snapshot_file "baseline" "bola"
  = OK snapshot_rows.
Proof. reflexivity. Qed.

Lemma snapshot_file_labels : le_labels_parse snapshot_file.
Proof.
  intros s kind entry Is Ik Hk Ie. unfold snapshot_file in Is.
  repeat (destruct Is as [<-|Is];
          [cbn [snap_metrics] in Ik;
           repeat (destruct Ik as [<-|Ik];
                   [try discriminate Hk;
                    cbn [snd] in Ie;
                    repeat (destruct Ie as [<-|Ie]; [reflexivity|]);
                    destruct Ie|]);
           destruct Ik|]).
  destruct Is.
Qed.

Lemma snapshot_rows_names : no_method_columns snapshot_rows.
Proof.
  intros row k Ir Ik. unfold snapshot_rows in Ir.
  repeat (destruct Ir as [<-|Ir];
          [cbn [map fst] in Ik;
           repeat (destruct Ik as [<-|Ik]; [reflexivity|]);
           destruct Ik|]).
  destruct Ir.
Qed.

Lemma flattener_rows_witness :
  extract_metrics (fun _ => "") snapshot_file "baseline" "bola"
  = OK snapshot_rows
  /\ Forall (flattened_row "baseline" "bola") snapshot_rows
  /\ (List.length snapshot_rows
      <= List.length (filter is_metrics snapshot_file))%nat.
Proof.
  split; [exact snapshot_file_rows|].
  apply (flattener_rows (fun _ => "") snapshot_file).
  exact snapshot_file_rows.
Defined.

Lemma flattened_file_feeds_the_calculator_witness :
  extract_metrics (fun _ => "") snapshot_file "baseline" "bola"
  = OK snapshot_rows
  /\ snapshot_rows <> []
  /\ le_labels_parse snapshot_file
  /\ no_method_columns snapshot_rows
  /\ regular (frame_of_records snapshot_rows)
  /\ flattened (frame_of_records snapshot_rows)
  /\ nrows (frame_of_records snapshot_rows) = List.length snapshot_rows
  /\ exists df', calculate_derived_metrics (frame_of_records snapshot_rows)
                 = OK df'.
Proof.
  split; [exact snapshot_file_rows|].
  split; [discriminate|].
  split; [exact snapshot_file_labels|].
  split; [exact snapshot_rows_names|].
  apply (flattened_file_feeds_the_calculator (fun _ => "") snapshot_file
           "baseline" "bola" snapshot_rows).
  - exact snapshot_file_rows.
  - discriminate.
  - exact snapshot_file_labels.
  - exact snapshot_rows_names.
Defined.
